(* ===== verification/_CoqProject ===== *)
-Q . S2P
Prelude.v
State.v
Rationals.v
PyLib.v
RadUtil.v
RadStats.v
Topsort.v
Shellcmd.v
Timeline.v
View.v
TestJobs.v
TestPlan.v
TestReport.v
Format.v
Files.v
CreateModule.v
ModuleScan.v
Bindings.v
CheckStyle.v
WafRun.v
TestRun.v
WafMisc.v
Cflags.v
VizThread.v
VizCanvas.v
VizGraph.v
VizArrows.v
CompileDb.v
StatusServer.v
FlowStats.v
VizAxes.v
VizWifi.v
VizTables.v
SmallTools.v
VizWindow.v
VizStart.v
WafBuild.v
WafConfigure.v
WafHeaders.v
WafStatus.v
VizNdn.v
TestScripts.v
