(* ===== verification/Prelude.v ===== *)
(** * The Python tools of ns-3: a verification development

    The repository is the ns-3 network simulator with ndnSIM.  Its Python code is
    the machinery around the simulator: the test driver, waf's extensions, the
    tools of the bindings generator and some utilities.  (By far the most lines of
    Python under src/ are generated registrations of C++ classes.)  Each file
    here models one of these programs and proves what it is to do.

    ** Parts, and the code they model

    - [Prelude] (this file): results of computations ([res]: a value, an exception,
      or the end of the fuel), the [for] loop, dictionaries and the interface
      [DictOrder] to the order of their keys, slices, counting, automation.
    - [PyLib]: the functions of the Python library that several files use: string
      methods, [os.path], decimal numbers, pieces of regular expressions.
    - [TestJobs], [TestPlan], [TestReport]: [src/test.py].  [TestPlan] says what is
      run: [parse_examples_to_run_file], the waf command, the choice of suites, the
      jobs that [run_tests] dispatches, [make_paths], the command of
      [run_job_synchronously].  [TestJobs] says how: the queues and the threads of
      [worker_thread] with [sigint_hook] as a step relation on the state [pool], then
      the loop that collects the results, the summary and the exit code.
      [TestReport]: [read_test], [translate_to_text], [translate_to_html].  They meet
      in [Job]: [TestPlan.dispatched] makes the jobs that [TestJobs.initial] queues,
      and [TestJobs.results_file] is what [TestReport] reads after parsing.  [TestRun] composes them into
      [read_waf_config] and [run_tests], with the list of effects as its state.
    - [Topsort]: [src/bindings/python/topsort.py], with the state [num_parents],
      [children] of the three sorts and the stack of paths of [find_cycles], which
      calls [is_rotated] of [RadUtil].
    - [RadUtil], [RadStats]: [src/bindings/python/rad_util.py], one function each, on integers and sequences in the
      first and on rationals in the second.
    - [Shellcmd]: [src/waf-tools/shellcmd.py] and [src/waf-tools/command.py]:
      [shlex.split], the state machine [Pipeline.parse], [Pipeline.run] as a trace of
      events (opening, starting, waiting, closing, printing), variable substitution.
    - [WafRun]: [src/utils.py] and [src/wutils.py]: the readers of [.ns3rc], the search
      for a program and the process that runs it; it uses [Shellcmd.shlex_split].
    - [CheckStyle]: [src/utils/check-style.py]: patches, their reader and printer, the
      filter of white space changes, the driver in a state monad over the files.
    - [Timeline], [View]: [src/utils/grid.py].  [Timeline]: ranges, events, timelines,
      their binary searches, [read_data].  [View]: what the window shows of them, as the state
      [graphic] of [GraphicRenderer] (visible range, layout of legends, timelines and
      scales) inside the state [gtk] of [GtkGraphicRenderer] (the drags and their
      positions), with one handler for each event of the mouse; numbers are Python's
      integers or rationals.  [View] takes its timelines from [Timeline].
    - [CreateModule]: [src/src/create-module.py]: its templates and [main], on the file
      systems of [Files] and the formatting of [Format].
    - [ModuleScan]: [src/bindings/python/ns3modulescan.py] and [ns3modulescan-modular.py]: the
      paths of headers, the table of annotations, both versions of the hook that
      annotates a definition, the sections of the modules in the order of
      [Topsort.topsort].
    - [Bindings]: [src/bindings/python/ns3modulegen_core_customizations.py] and the programs
      that use it: types of smart pointers, classes and handlers of callbacks, features.
    - [WafMisc]: [src/waf-tools/misc.py]: the substitution of variables in a file, and tasks
      that keep the output of a command; [Cflags]: [src/waf-tools/cflags.py].
    - The visualizer, [src/src/visualizer/visualizer/core.py] and [base.py].  [VizThread]: the
      simulation thread and the handlers of the main thread as a step relation on the state
      [viz], with the lock, the event and the timers.  [VizCanvas]: nodes, channels and links and
      what is drawn of them, with the invariant [canvas_ok].  [VizGraph]: the state [visualizer] around a canvas,
      filled by [scan_topology], with what the user does to it as the relation [operation].
      [VizArrows]: the samples of the simulator and the pool of arrows that show them, on the same canvas.
      [VizWindow]: the state [window] around a visualizer, with the scrolled canvas behind the interface [Toolkit]: panning,
      zoom, centering, [autoscale_view].  [VizStart]: the plugins and [start], and the snapshots of a window.
    - Around it: [VizAxes], [hud.py], with the state [axes] (the lines and the pool of labels); [VizWifi],
      [plugins/wifi_intrastructure_link.py], with the state [wifi] (the links, which of them each node knows, the
      monitor) over the positions of [VizCanvas]; [VizTables], the collector, the tables and the filter of
      [plugins/interface_statistics.py], [show_last_packets.py], [ipv4_routing_table.py] and [olsr.py], which
      trims its samples with [VizArrows.keep_last].
    - [FlowStats]: [src/src/flow-monitor/examples/flowmon-parse-results.py], from the events of the XML parser to the
      lines of the report, and the writer of a flow of [src/src/flow-monitor/model/flow-monitor.cc].  [CompileDb]: [src/waf-tools/clang_compilation_database.py] with [shlex.quote], read back
      by [Shellcmd.shlex_split].  [StatusServer]: [src/src/ndnSIM/NFD/tools/nfd-status-http-server.py] as the list
      of its effects.  [SmallTools]: [src/utils/tests/TestBase.py], [src/waf-tools/relocation.py],
      [src/src/visualizer/visualizer/svgitem.py] and [src/src/ndnSIM/docs/redmine_issue.py].
    - waf's build, [src/wscript] and [src/src/wscript].  [WafConfigure]: the modules of the tree, which of them are
      enabled (lists that may be the same object), the optional features, the profile in the lock file.  [WafBuild]: [build]
      on the state [bld] (waf's groups of task generators and the lists in its environment): the closure of the enabled
      modules, what is taken out of the groups, the programs and scripts that can be run.  [WafHeaders]: the functions that create the task generators of
      modules, their headers as tasks on a file system, the files for pkg-config.  [WafStatus]: the file that [shutdown]
      leaves.  They make one chain: [WafConfigure.configure_modules] gives the lists of known modules that
      [WafBuild.build_consistent] asks for, [WafHeaders.create_ns3_module] makes objects as [WafBuild.well_formed] has them,
      and [TestRun.runnable] reads what [WafStatus.build_status] writes of [WafBuild.build].
    - [VizNdn]: the windows of [plugins/ndnsim_*.py] and the visualizer's list of them.  [TestScripts]:
      [src/utils/tests/test-waf.py] and [test-test.py], which hand their commands to [SmallTools.runtests].
    - [State]: the state monad with errors that [CheckStyle], [View], [CreateModule] and
      [ModuleScan] share, with [VizAxes] and [VizWifi].  [Rationals]: what [RadStats] and [VizAxes] share.  [Format]: Python's formatting of templates.  [Files]: files
      and directories of an operating system that may refuse any call.

    ** What is shown

    - The test driver: whatever the schedule of the threads and the interrupts, the
      pool stops, and the main thread has then collected exactly one answer to every
      job ([pool_terminates], [pool_collects]); the exit code is 0 exactly when all
      jobs passed or were skipped ([run_exit_code]), and does not depend on the
      order of the answers ([summary_order]); every job is in the end collected, on
      every schedule ([job_collected]), and the pool refines a service that answers the
      jobs one at a time in any order ([pool_refines]); which jobs there are
      ([example_jobs_spec], [suite_jobs_spec], [drop_performance_spec]); what the
      reports contain ([node_to_text_spec], [translate_to_html_spec]); the environment
      ([make_paths_spec]).
    - A whole run of the driver: the status 0 means that a list was asked for or that every job dispatched for the
      configuration and the lists that were read passed or was skipped ([success_means_passed]); the files of a run are the complete results and their translations
      ([run_tests_files]); what is refused before it starts ([run_tests_refused]).
    - Sorting: [topsort] gives an order of the dependencies or the exception with
      the rest of the graph, exactly when it has a cycle; levels are exact;
      [find_cycles] ends, and finds cycles that are real, distinct up to rotation and
      touch every part of the graph that has one.
    - Pipelines: parsing yields well-formed pipelines, inverts printing, and running
      one reads it the way the theorems [run_spec], [run_verbose] and [run_shell]
      say: with one kind of operator the same commands, directories and exit code as a shell's
      left-associative reading ([shell_reading]); with a mixture [run_mixed] and [run_mixed_cd] show it differs.
    - Programs: [run_program] starts the right process once, if it can be started, and its result is its
      status, unless valgrind's output does not decode ([run_program_spec]); lists of a configuration file are found ([get_list_from_file_spec]).
    - check-style: reading inverts writing; the filter touches nothing but blanks at
      ends of lines; a check changes no file, its verdict is exact, and each of its failures has one of the causes
      listed ([indent_files_spec]).
    - Timelines: the searches are exact under the order that sorting establishes,
      bounds are exact, [read_data] keeps every range and event.
    - The view: the visible range stays within the data through any events
      ([visible_range]), the scale marks the multiples of a fitting power of ten
      ([scale_ticks]), and a drag puts the range where the pointer is ([drag_left]).
    - Module creation: a run creates exactly the files of the module, each with the text of
      its template ([main_creates]), never changes what was there, whichever call
      fails ([main_adds_only]), and the texts name each other rightly ([generated_fit]).
    - Bindings: the hooks keep the annotations typed ([hook_types]) and move those of
      parameters ([parameters_of_function]); sections respect the dependencies
      ([section_order]); the listed spellings of a pointer to a class give one handler
      ([smart_pointer_handler]); the callbacks that are written are those that can be
      used, unless pybindgen cannot write one of them, which ends the generator ([generate_callback_classes_spec], [callback_argument]).
    - waf: substitution replaces exactly the names between at signs ([subst_func_spec]); a
      command gets the files its task declares ([command_output_spec]); each profile
      gives its supported flags, once ([configure_spec]).
    - The build: the search for the modules that are needed ends, with exactly these or with the exception for one that
      cannot be used ([enable_needed_spec]); what is left to build then fits together, and the lists have the programs
      that are left ([build_consistent]) and the scripts ([runnable_scripts_enabled]); the enabled modules are those that the names given stand for and that
      can be built ([configure_modules_spec]); headers are installed as copies that nobody may write
      ([install_headers_spec]), and the header of a module includes exactly those ([module_header_spec]); every file for pkg-config that is
      left finds its module ([pcfile_found]); the test driver reads the lists that the build has left
      ([runnable_read_back]).
    - The visualizer: the simulator runs under the lock only ([lock_protects]), a handler that waits for the
      lock gets it ([lock_obtained]), closing the window ends both threads, if the simulator's runs end
      ([quit_ends]) and no message of the simulator is lost or shown twice ([messages_shown]);
      what is drawn fits what is known after any operations ([visualizer_ok]); the scan
      finds exactly the links of the network and draws them ([scan_topology_spec]); a node follows the pointer
      ([drag_spec]); the arrows are those of the last samples and none is lost ([transmissions_view_spec]).
    - Its window: the canvas is drawn at the zoom that is shown, and no handler of the panning is left behind when
      presses and releases alternate ([window_events]); the canvas follows the pointer ([pan_spec]); all nodes are in
      the window after [autoscale_view] at full scale ([autoscale_fits]), a node that is followed or centered is in
      its middle ([follow_spec], [center_on_node_spec]); the plugins that can be loaded are loaded
      ([load_plugins_spec]), and a snapshot is what the window shows ([take_screenshot_spec]).
    - Around it: an axis has four to nine marks, at all multiples of a round number that are seen and the one before
      them ([axis_ticks_spec]), and a label for each mark ([update_view_spec]); the link of a station leads to its
      access point after each period, or an error says which is not known
      ([simulation_periodic_update_spec], [scan_nodes_spec], [update_view_draws]); rates are between the last sample
      and the one nine before ([get_interface_statistics_spec]); the filter has the types of headers
      and trailers, and the loop over the parents ends ([packet_filter_list_spec]).
      The windows of NDN tables show the present tables after an update, and only closing one that is not open fails
      ([ndn_update_view_spec], [ndn_handle_ok]).
    - Reports and tools: a flow that the monitor writes, with its histograms or without, is read back ([read_flow_written]), and a simulation is read
      exactly or with the first unknown id ([read_simulation_spec]); a quoted command is split into the same
      arguments ([command_read_back]), and the database has the last entry of each file
      ([write_compilation_database_spec]); each request gets the response that nfdc's answer asks for
      ([do_GET_spec]); a relocation moves the tree and nothing else ([relocate_moves]); all tests run
      and the status counts them ([runtests_spec], [waf_main_spec]), each by a
      command that runs waf first ([cmd_execute_runs]).
    - rad_util: each function against its mathematical counterpart ([gcf_spec], [quantile_spec], [trim_spec],
      [nice_units_spec], ...).

    The code does not always do what it means to; the lemmas named for it
    ([Shellcmd.run_mixed], [CheckStyle.context_changed], [WafRun.leak_never_seen], ...)
    exhibit the difference on small inputs, and the theorems state what it does.

    ** Conventions

    Definitions keep the names of the source.  Python integers are [Z], or [nat] and [N]
    where the code cannot make them negative; none of these programs computes with
    machine words.  Strings are byte strings.  A mutable object that the code shares is
    named by a position in the list that owns it (the lines of a patch, timelines)
    or by its identity (jobs).  Recursion that does not follow the data has fuel, and
    the theorems say that the fuel given is enough: [gcf] has the magnitude of the smaller
    number, [binary_range] one for each number, [topsort] and its levels one for each node,
    the binary searches one for each element, [find_cycles] the number of paths that
    the fan-out of the graph allows ([path_weight]), and the older
    [get_ns3_relative_path] the number of parts of the path, where it ends at all; [round_log10] has the bits of its
    number, [progression] the steps that fit, [type_is_good] one for each registered type,
    [enable_needed] one round for each known module and a last one, [list_body] one for each character.

    Arguments of the definitions stand for code that is not here: the operating
    system ([Shellcmd.world], the processes of [WafRun], which may not start, the files that decode in
    [CheckStyle], the schedule in [TestJobs]),
    [eval], the test runner and waf's objects, [uncrustify], [patch] and
    [difflib.unified_diff], the order of the keys of a dictionary ([DictOrder]) and the
    names of temporary files ([CheckStyle.TempNames]).  The theorems hold for all of
    them, or under a named hypothesis that a witness satisfies.  For waf these are
    [WafBuild.waf_laws] (reading a wscript only adds objects, with identities of their own, and
    what is found for a name has that name, and is a module's object if the name is that of a known module), and the order in which a set is walked.  So it is with pybindgen and
    pygccxml (the types they know, the exception of an operator that cannot be written, how they split a template, the names they give to
    variables), waf's nodes ([WafMisc.Nodes]), [check_cxx], the permissions of
    the file system ([Files.Permissions]), Gtk and GooCanvas ([VizWindow.Toolkit]), how far the simulator runs and graphviz's layout.

    ** Not modelled

    The C++ simulator; the registrations of its classes under bindings/, which are generated; waf itself, [boost.py] and
    [ipython_view.py], which are vendored.  Of the wscripts: the options and the checks of the compiler and of libraries, which
    are calls of waf, the bindings for Python, programs with the suid bit, documentation and coverage, the
    signatures of tasks, and the wscripts of single modules, which are lists of sources.  Some errors of the operating system
    have no place in the models: a file that opens can be written and closed ([CreateModule.create]), and [chmod] does not
    meet a file of another user ([WafHeaders.chmod]).  In [WafMisc.subst_dict] a dictionary that tasks share is not filled for the next one.
    The drawing on cairo and the main loop of [grid.py]; of the visualizer its menus, dialogs and the texts of tooltips, which
    only build widgets.  The set-up of pybindgen's parser and the fixed registrations of its modules, with the C++
    texts of [ns3_ptr.py] and [modulegen_customizations.py]: they have no behaviour but the calls themselves.  In [test.py] the lines of
    [--verbose] and the parser of the options; in [misc.py] the order of dependent tasks; [python-unit-tests.py], which needs
    the compiled modules. *)

From stdpp Require Export base tactics list gmap strings.
From Stdlib Require Export ZArith Lia.

(** ** Results of Python computations

    A Python computation returns a value, raises, or (only in the model) has
    used up the fuel of a loop.  [E] is the type of the exceptions a component
    can raise. *)

Inductive res (E A : Type) : Type :=
  | Ok (a : A)
  | Raise (e : E)
  | OutOfFuel.
Arguments Ok {E A} a.
Arguments Raise {E A} e.
Arguments OutOfFuel {E A}.

Definition res_bind {E A B} (m : res E A) (k : A -> res E B) : res E B :=
  match m with
  | Ok a => k a
  | Raise e => Raise e
  | OutOfFuel => OutOfFuel
  end.

Declare Scope py_scope.
Delimit Scope py_scope with py.
Open Scope py_scope.
Notation "'let*' x := m 'in' k" := (res_bind m (fun x => k))
  (at level 10, x pattern at level 200, m at level 100, k at level 200) : py_scope.

(** A [for] loop over a list, with the loop's variables as the state. *)
Fixpoint for_each {E S A} (f : S -> A -> res E S) (l : list A) (s : S) : res E S :=
  match l with
  | [] => Ok s
  | x :: l => let* s := f s x in for_each f l s
  end.

(** A list comprehension whose element expression can raise. *)
Fixpoint map_res {E A B} (f : A -> res E B) (l : list A) : res E (list B) :=
  match l with
  | [] => Ok []
  | x :: l => let* y := f x in let* ys := map_res f l in Ok (y :: ys)
  end.

(** ** Python dictionaries

    A [dict] is a [gmap]; the order in which a loop meets its keys is not
    determined by the program, so it is an interface: any function that lists
    each key exactly once. *)

Class DictOrder (K : Type) `{Countable K} := {
  dict_keys : forall {V : Type}, gmap K V -> list K;
  dict_keys_perm : forall {V : Type} (m : gmap K V),
    dict_keys m ≡ₚ (map_to_list m).*1 }.

#[export] Instance default_dict_order `{Countable K} : DictOrder K :=
  {| dict_keys := fun V m => (map_to_list m).*1;
     dict_keys_perm := fun V m => reflexivity _ |}.

(** [d[k]] and [del d[k]], which raise [KeyError] on an absent key. *)
Definition dict_get {E} `{Countable K} {V} (key_error : E) (d : gmap K V) (k : K) : res E V :=
  match d !! k with Some v => Ok v | None => Raise key_error end.
Definition dict_del {E} `{Countable K} {V} (key_error : E) (d : gmap K V) (k : K)
    : res E (gmap K V) :=
  match d !! k with Some _ => Ok (delete k d) | None => Raise key_error end.

(** [d.has_key(k)], [k in d]. *)
Definition has_key `{Countable K} {V} (d : gmap K V) (k : K) : bool :=
  bool_decide (is_Some (d !! k)).

(** ** Slices [l[:k]] and [l[k:]]; a negative [k] counts from the end. *)
Definition slice_index (len : nat) (k : Z) : nat :=
  if decide (k < 0)%Z then Z.to_nat (k + Z.of_nat len) else Nat.min (Z.to_nat k) len.
Definition slice_to {A} (l : list A) (k : Z) : list A := take (slice_index (length l) k) l.
Definition slice_from {A} (l : list A) (k : Z) : list A := drop (slice_index (length l) k) l.

(** [sep.join(l)] *)
Fixpoint str_join (sep : string) (l : list string) : string :=
  match l with
  | [] => ""
  | [x] => x
  | x :: l => x +:+ sep +:+ str_join sep l
  end.

(** Number of elements that satisfy a decidable predicate. *)
Definition count {A} (P : A -> Prop) `{forall x, Decision (P x)} (l : list A) : nat :=
  length (filter P l).
#[global] Arguments count : simpl never.

(** ** Lemmas on results and loops *)

(** The invariant rule of [for_each]: an invariant over the elements done and
    the elements left. *)
Lemma for_each_ok {E S A} (f : S -> A -> res E S) (I : list A -> list A -> S -> Prop)
    (l : list A) (s : S) :
  I [] l s ->
  (forall dn x rest s, I dn (x :: rest) s ->
     exists s', f s x = Ok s' /\ I (dn ++ [x]) rest s') ->
  exists s', for_each f l s = Ok s' /\ I l [] s'.
Proof.
  intros H0 Hstep.
  cut (forall dn s, I dn l s -> exists s', for_each f l s = Ok s' /\ I (dn ++ l) [] s').
  { intros Hc. exact (Hc [] s H0). }
  clear H0 s. induction l as [|x l IH]; intros dn s HI; simpl.
  - rewrite app_nil_r. eauto.
  - destruct (Hstep _ _ _ _ HI) as (s' & -> & HI'); simpl.
    destruct (IH _ _ HI') as (s'' & -> & HI''). exists s''.
    by rewrite <- app_assoc in HI''.
Qed.

Lemma for_each_app {E S A} (f : S -> A -> res E S) (l1 l2 : list A) s :
  for_each f (l1 ++ l2) s = res_bind (for_each f l1 s) (fun s => for_each f l2 s).
Proof.
  revert s. induction l1 as [|x l1 IH]; intros s; [done|]. cbn.
  by destruct (f s x); cbn.
Qed.

Lemma for_each_fuel {E S A} (f : S -> A -> res E S) (l : list A) s :
  (forall s x, f s x <> OutOfFuel) -> for_each f l s <> OutOfFuel.
Proof.
  intros Hf. revert s. induction l as [|x l IH]; intros s; cbn; [done|].
  specialize (Hf s x). destruct (f s x); cbn; [apply IH|done..].
Qed.

Lemma map_res_ok {E A B} (f : A -> res E B) (g : A -> B) l :
  (forall x, x ∈ l -> f x = Ok (g x)) -> map_res f l = Ok (map g l).
Proof.
  induction l as [|x l IH]; intros Hf; [done|]. cbn.
  rewrite (Hf x) by left. cbn. rewrite IH; [done|]. intros y Hy. apply Hf. by right.
Qed.

Lemma res_bind_ok {E A B} (m : res E A) (k : A -> res E B) b :
  res_bind m k = Ok b <-> exists a, m = Ok a /\ k a = Ok b.
Proof. destruct m; simpl; split; naive_solver. Qed.

(** ** Lemmas on dictionaries *)

Lemma has_key_true `{Countable K} {V} (d : gmap K V) k : has_key d k = true <-> k ∈ dom d.
Proof. unfold has_key. by rewrite bool_decide_eq_true, elem_of_dom. Qed.

Lemma has_key_false `{Countable K} {V} (d : gmap K V) k : has_key d k = false <-> d !! k = None.
Proof. unfold has_key. by rewrite bool_decide_eq_false, eq_None_not_Some. Qed.

Lemma elem_of_dict_keys `{DictOrder K} {V} (m : gmap K V) k :
  k ∈ dict_keys m <-> k ∈ dom m.
Proof.
  rewrite (dict_keys_perm m), list_elem_of_fmap, elem_of_dom. split.
  - intros ([k' v] & -> & Hin%elem_of_map_to_list). by exists v.
  - intros [v Hv%elem_of_map_to_list]. by exists (k, v).
Qed.

Lemma NoDup_dict_keys `{DictOrder K} {V} (m : gmap K V) : NoDup (dict_keys m).
Proof. rewrite (dict_keys_perm m). apply NoDup_fst_map_to_list. Qed.

(** ** Lemmas on lists *)

Lemma slice_to_neg {A} (l : list A) (k : nat) :
  0 < k -> slice_to l (- Z.of_nat k) = take (length l - k) l.
Proof.
  intros Hk. unfold slice_to, slice_index. rewrite decide_True by lia. f_equal. lia.
Qed.

Lemma slice_from_neg {A} (l : list A) (k : nat) :
  0 < k -> slice_from l (- Z.of_nat k) = drop (length l - k) l.
Proof.
  intros Hk. unfold slice_from, slice_index. rewrite decide_True by lia. f_equal. lia.
Qed.

Lemma last_map {A B} (f : A -> B) l : last (map f l) = f <$> last l.
Proof. exact (fmap_last f l). Qed.

Lemma count_cons {A} (P : A -> Prop) `{forall x, Decision (P x)} x l :
  count P (x :: l) = (if decide (P x) then 1 else 0) + count P l.
Proof. unfold count. rewrite filter_cons. by case_decide. Qed.

Lemma count_app {A} (P : A -> Prop) `{forall x, Decision (P x)} l1 l2 :
  count P (l1 ++ l2) = count P l1 + count P l2.
Proof. unfold count. by rewrite filter_app, length_app. Qed.

Lemma count_snoc {A} (P : A -> Prop) `{forall x, Decision (P x)} l x :
  count P (l ++ [x]) = count P l + (if decide (P x) then 1 else 0).
Proof. rewrite count_app, count_cons. change (count P []) with 0. lia. Qed.

Lemma count_zero {A} (P : A -> Prop) `{forall x, Decision (P x)} l :
  count P l = 0 <-> forall x, x ∈ l -> ~ P x.
Proof.
  induction l as [|y l IH].
  - split; [|done]. intros _ x Hx. by apply elem_of_nil in Hx.
  - rewrite count_cons. setoid_rewrite elem_of_cons. case_decide as Hy.
    + split; [lia|]. intros Hall. by destruct (Hall y (or_introl eq_refl)).
    + simpl. rewrite IH. naive_solver.
Qed.

(** ** Rotations *)

Lemma rotate_split {A} (l1 l2 : list A) :
  (exists k, l2 = rotate k l1) <-> exists a b, l1 = a ++ b /\ l2 = b ++ a.
Proof.
  split.
  - intros [k ->]. exists (take (k mod length l1) l1), (drop (k mod length l1) l1).
    by rewrite take_drop.
  - intros (a & b & -> & ->). destruct b as [|x b].
    + exists 0. unfold rotate. rewrite Nat.Div0.mod_0_l, drop_0. by rewrite !app_nil_r.
    + exists (length a). unfold rotate. rewrite Nat.mod_small by (rewrite length_app; simpl; lia).
      by rewrite drop_app_length, take_app_length.
Qed.

Lemma rotate_trans {A} (l1 l2 l3 : list A) :
  (exists k, l2 = rotate k l1) -> (exists k, l3 = rotate k l2) -> exists k, l3 = rotate k l1.
Proof.
  rewrite !rotate_split. intros (a & b & -> & ->) (c & d & Heq & ->).
  apply app_eq_app in Heq as [k [[-> ->]|[-> ->]]].
  - exists (a ++ c), k. by rewrite <- !app_assoc.
  - exists k, (d ++ b). by rewrite <- !app_assoc.
Qed.

Lemma rotate_sym {A} (l1 l2 : list A) :
  (exists k, l2 = rotate k l1) -> exists k, l1 = rotate k l2.
Proof. rewrite !rotate_split. naive_solver. Qed.

(** ** Automation *)

Create HintDb pylib.
Create Rewrite HintDb pylib_rw.
#[export] Hint Resolve NoDup_dict_keys : pylib.
#[export] Hint Rewrite @has_key_true @has_key_false : pylib_rw.

(** A decidable goal without variables, by evaluation. *)
Ltac decided := refine (bool_decide_unpack _ _); vm_compute; exact I.

(** Split every [if], [match] and conjunction in sight. *)
Ltac split_cases :=
  repeat first [ case_decide | case_match | destruct_and! ]; simplify_eq/=.
