(* ===== verification/State.v ===== *)
(** * Computations with a state

    A method that changes objects and can raise: it maps the state before to a
    result and the state after, which is kept when it raises. *)

From S2P Require Import Prelude.

Definition st (W E A : Type) : Type := W -> res E A * W.

Section State.
Context {W E : Type}.
Definition ret {A} (a : A) : st W E A := fun w => (Ok a, w).
Definition raise {A} (e : E) : st W E A := fun w => (Raise e, w).
(** A computation that does not touch the state. *)
Definition lift {A} (m : res E A) : st W E A := fun w => (m, w).
Definition bind {A B} (m : st W E A) (k : A -> st W E B) : st W E B := fun w =>
  match m w with
  | (Ok a, w) => k a w
  | (Raise e, w) => (Raise e, w)
  | (OutOfFuel, w) => (OutOfFuel, w)
  end.
(** Read from the state, and change it. *)
Definition reads {A} (f : W -> A) : st W E A := fun w => (Ok (f w), w).
Definition modify (f : W -> W) : st W E unit := fun w => (Ok tt, f w).
Fixpoint map_m {A B} (f : A -> st W E B) (l : list A) : st W E (list B) :=
  match l with
  | [] => ret []
  | x :: l => bind (f x) (fun y => bind (map_m f l) (fun ys => ret (y :: ys)))
  end.
Fixpoint iter_m {A} (f : A -> st W E unit) (l : list A) : st W E unit :=
  match l with
  | [] => ret tt
  | x :: l => bind (f x) (fun _ => iter_m f l)
  end.

Lemma bind_ok {A B} (m : st W E A) (k : A -> st W E B) w a w1 :
  m w = (Ok a, w1) -> bind m k w = k a w1.
Proof. unfold bind. by intros ->. Qed.

(** What holds of the state after each step of a computation holds at its end. *)
Lemma bind_inv {A B} (I : W -> Prop) (m : st W E A) (k : A -> st W E B) w :
  I (m w).2 -> (forall a w, I w -> I (k a w).2) -> I (bind m k w).2.
Proof. unfold bind. destruct (m w) as [[a|e|] w1]; cbn; intros Hm Hk; [by apply Hk|done..]. Qed.
End State.

Notation "'let!' x := m 'in' k" := (bind m (fun x => k))
  (at level 10, x pattern at level 200, m at level 100, k at level 200) : py_scope.
