(* ===== verification/Rationals.v ===== *)
(** * Rationals

    What the files share that compute with rationals in place of floating point numbers: the comparison as a
    boolean, sorting, and the loop [while x < stop: ...; x += step]. *)

From S2P Require Import Prelude.
From Stdlib Require Import QArith Qround Lqa.
From stdpp Require Import sorting.
Local Open Scope Q_scope.
Local Open Scope list_scope.

#[export] Instance Qle_dec : RelDecision Qle.
Proof. intros a b. destruct (Qle_bool a b) eqn:E; [left; by apply Qle_bool_iff|right; intros H%Qle_bool_iff; congruence]. Defined.
#[export] Instance Qle_total : Total Qle.
Proof. intros a b. destruct (Qlt_le_dec a b); [left; lra|by right]. Qed.
#[export] Instance Qle_trans' : Transitive Qle.
Proof. intros a b c. apply Qle_trans. Qed.

Definition lt_bool (a b : Q) : bool := negb (Qle_bool b a).
Lemma lt_bool_true a b : lt_bool a b = true <-> a < b.
Proof.
  unfold lt_bool. rewrite negb_true_iff. destruct (Qle_bool b a) eqn:E.
  - apply Qle_bool_iff in E. split; [done|lra].
  - split; [intros _|done]. apply Qnot_le_lt. intros H%Qle_bool_iff. congruence.
Qed.
Lemma lt_bool_false a b : lt_bool a b = false <-> b <= a.
Proof. unfold lt_bool. rewrite negb_false_iff. apply Qle_bool_iff. Qed.

(** [l.sort()] *)
Definition sort_q (l : list Q) : list Q := merge_sort Qle l.
Lemma sort_q_sorted l : StronglySorted Qle (sort_q l).
Proof. apply StronglySorted_merge_sort; apply _. Qed.
Lemma sort_q_perm l : sort_q l ≡ₚ l.
Proof. apply merge_sort_Permutation. Qed.
Lemma sorted_lookup l i j a b : StronglySorted Qle l -> l !! i = Some a -> l !! j = Some b -> (i <= j)%nat -> a <= b.
Proof.
  intros Hs. revert i j. induction Hs as [|x l Hs IH Hx]; intros i j; [done|]. destruct i as [|i], j as [|j]; cbn; intros Ha Hb Hij.
  - injection Ha as <-. injection Hb as <-. lra.
  - injection Ha as <-. rewrite Forall_forall in Hx. apply Hx. by eapply list_elem_of_lookup_2.
  - lia.
  - eapply IH; [done..|lia].
Qed.

(** ** Steps of a loop *)

Section Progression.
Context {Exn : Type}.
Fixpoint progression (fuel : nat) (x stop step : Q) : res Exn (list Q) :=
  if lt_bool x stop then
    match fuel with
    | O => OutOfFuel
    | S fuel => let* l := progression fuel (x + step) stop step in Ok (x :: l)
    end
  else Ok [].
Definition progression_fuel (x stop step : Q) : nat := Z.to_nat (Qceiling ((stop - x) / step)).

Lemma progression_count x2 div n : forall x,
  (forall k, (k < n)%nat -> x + inject_Z (Z.of_nat k) * div < x2) -> x2 <= x + inject_Z (Z.of_nat n) * div ->
  exists l, progression n x x2 div = Ok l /\ length l = n /\
    forall k t, l !! k = Some t -> t == x + inject_Z (Z.of_nat k) * div.
Proof.
  induction n as [|n IH]; intros x Hlt Hle.
  - exists []. cbn [progression]. rewrite (proj2 (lt_bool_false x x2)) by (change (inject_Z (Z.of_nat 0)) with 0 in Hle; lra). done.
  - assert (S1 : forall k, inject_Z (Z.of_nat (S k)) == inject_Z (Z.of_nat k) + 1)
      by (intros k; rewrite Nat2Z.inj_succ; unfold Z.succ; by rewrite inject_Z_plus).
    destruct (IH (x + div)) as (l & E & Hl & Hk).
    { intros k Hk. specialize (Hlt (S k) ltac:(lia)). rewrite S1 in Hlt. lra. }
    { rewrite S1 in Hle. lra. }
    exists (x :: l). cbn [progression]. rewrite (proj2 (lt_bool_true x x2)), E
      by (specialize (Hlt 0%nat ltac:(lia)); change (inject_Z (Z.of_nat 0)) with 0 in Hlt; lra).
    split; [done|]. split; [cbn; by rewrite Hl|]. intros [|k] t; cbn [lookup list_lookup].
    + intros [= <-]. change (inject_Z (Z.of_nat 0)) with 0. ring.
    + intros Ht. rewrite (Hk k t Ht), S1. ring.
Qed.
Lemma progression_spec x x2 div : 0 < div -> x < x2 ->
  exists l, progression (progression_fuel x x2 div) x x2 div = Ok l /\
    (x2 <= x + inject_Z (Z.of_nat (length l)) * div) /\
    (x + inject_Z (Z.of_nat (length l)) * div < x2 + div) /\
    forall k t, l !! k = Some t -> t == x + inject_Z (Z.of_nat k) * div /\ t < x2.
Proof.
  intros Hd Hx. unfold progression_fuel. set (q := (x2 - x) / div). set (c := Qceiling q).
  assert (Eq : q * div == x2 - x) by (unfold q; field; lra).
  assert (Hq : 0 < q) by (apply Qnot_le_lt; intros ?; nra).
  pose proof (Qle_ceiling q) as Hc1. pose proof (Qceiling_lt q) as Hc2. fold c in Hc1, Hc2.
  assert (Hc0 : (0 < c)%Z) by (rewrite Zlt_Qlt; change (inject_Z 0) with 0; lra).
  replace (c - 1)%Z with (c + -1)%Z in Hc2 by lia. rewrite inject_Z_plus in Hc2. change (inject_Z (-1)) with (-1) in Hc2.
  assert (Hk : forall k, (k < Z.to_nat c)%nat -> x + inject_Z (Z.of_nat k) * div < x2).
  { intros k Hk. assert (H : (Z.of_nat k <= c + -1)%Z) by lia. rewrite Zle_Qle, inject_Z_plus in H.
    change (inject_Z (-1)) with (-1) in H. nra. }
  destruct (progression_count x2 div (Z.to_nat c) x Hk) as (l & E & Hl & Hv).
  { rewrite Z2Nat.id by lia. nra. }
  exists l. rewrite Hl, Z2Nat.id by lia. split; [done|]. split; [nra|]. split; [nra|].
  intros k t Ht. pose proof (lookup_lt_Some _ _ _ Ht) as Hkl. split; [by apply Hv|].
  rewrite (Hv _ _ Ht). apply Hk. lia.
Qed.
(** A step that does not go forward never ends the loop. *)
Lemma progression_stuck fuel x stop step : x < stop -> step <= 0 -> progression fuel x stop step = OutOfFuel.
Proof.
  revert x. induction fuel as [|fuel IH]; intros x Hx Hs; cbn; rewrite (proj2 (lt_bool_true _ _) Hx); [done|].
  by rewrite IH by lra.
Qed.
End Progression.
