(* ===== verification/PyLib.v ===== *)
(** * Functions of the Python library that several components use

    Characters are those up to 255, strings are byte strings.  [os.path] is its
    POSIX version. *)

From S2P Require Import Prelude.
From Stdlib Require Import Ascii String.
From stdpp Require Import strings.
Open Scope string_scope.
Open Scope nat_scope.
Open Scope list_scope.

(** ** Characters *)

Definition code (c : ascii) : nat := nat_of_ascii c.
Definition in_range (a b : nat) (c : ascii) : bool := (a <=? code c) && (code c <=? b).
(** [\s], [str.isspace] *)
Definition is_space (c : ascii) : bool :=
  in_range 9 13 c || in_range 28 32 c || (code c =? 133) || (code c =? 160).
(** [a-zA-Z0-9_] *)
Definition is_word (c : ascii) : bool :=
  in_range 97 122 c || in_range 65 90 c || in_range 48 57 c || (code c =? 95).
Definition newline : ascii := ascii_of_nat 10.
Definition quote : ascii := ascii_of_nat 34.
Definition upper_char (c : ascii) : ascii :=
  if in_range 97 122 c then ascii_of_nat (code c - 32) else c.

(** ** Strings *)

Fixpoint str_map (f : ascii -> ascii) (s : string) : string :=
  match s with
  | EmptyString => EmptyString
  | String c s => String (f c) (str_map f s)
  end.
(** [s.upper()] on ASCII text. *)
Definition upper (s : string) : string := str_map upper_char s.

(** [s.split(c)] for a single character: never an empty list. *)
Fixpoint split_on (c : ascii) (s : string) : list string :=
  match s with
  | EmptyString => [""]
  | String d s =>
      if decide (d = c) then "" :: split_on c s
      else match split_on c s with
           | x :: l => String d x :: l
           | [] => [String d ""]
           end
  end.
(** [s.split(c, 1)] as the part before the first [c] and the part after it. *)
Fixpoint split_once (c : ascii) (s : string) : string * option string :=
  match s with
  | EmptyString => ("", None)
  | String d s =>
      if decide (d = c) then ("", Some s)
      else let '(x, r) := split_once c s in (String d x, r)
  end.

Fixpoint lstrip (s : string) : string :=
  match s with
  | String c t => if is_space c then lstrip t else s
  | EmptyString => ""
  end.
Fixpoint rstrip (s : string) : string :=
  match s with
  | EmptyString => ""
  | String c t =>
      match rstrip t with
      | EmptyString => if is_space c then "" else String c ""
      | t => String c t
      end
  end.
Definition strip (s : string) : string := rstrip (lstrip s).

(** [s.startswith(p)] and [s[n:]]. *)
Fixpoint starts_with (p s : string) : bool :=
  match p, s with
  | EmptyString, _ => true
  | String c p, String d s => bool_decide (c = d) && starts_with p s
  | _, _ => false
  end.
Fixpoint str_drop (n : nat) (s : string) : string :=
  match n, s with
  | S n, String _ s => str_drop n s
  | _, _ => s
  end.

(** ** Paths *)

Definition ends_with_slash (s : string) : bool :=
  bool_decide (last (list_ascii_of_string s) = Some "/"%char).
(** [os.path.join] *)
Definition path_join (a b : string) : string :=
  match b with
  | String "/"%char _ => b
  | _ => if decide (a = "") then b
         else if ends_with_slash a then a +:+ b else a +:+ "/" +:+ b
  end.
(** [os.path.basename] *)
Definition basename (p : string) : string := default "" (last (split_on "/"%char p)).

(** The components of an absolute path, as [os.path.normpath] leaves them. *)
Fixpoint normalize (done : list string) (parts : list string) : list string :=
  match parts with
  | [] => rev done
  | p :: parts =>
      if decide (p = "" \/ p = ".") then normalize done parts
      else if decide (p = "..") then normalize (tail done) parts
      else normalize (p :: done) parts
  end.
Definition abs_parts (cwd p : string) : list string :=
  normalize [] (split_on "/"%char (path_join cwd p)).
(** [os.path.abspath] *)
Definition abspath (cwd p : string) : string := "/" +:+ str_join "/" (abs_parts cwd p).
Fixpoint drop_common (a b : list string) : list string * list string :=
  match a, b with
  | x :: a', y :: b' => if decide (x = y) then drop_common a' b' else (a, b)
  | _, _ => (a, b)
  end.
(** [os.path.relpath] *)
Definition relpath (cwd path start : string) : string :=
  let '(up, down) := drop_common (abs_parts cwd start) (abs_parts cwd path) in
  let parts := map (fun _ => "..") up ++ down in
  if decide (parts = []) then "." else str_join "/" parts.

(** ** Lists *)

(** [l.remove(x)] when [x] is in the list. *)
Fixpoint list_remove {A} `{EqDecision A} (x : A) (l : list A) : list A :=
  match l with
  | [] => []
  | y :: l => if decide (y = x) then l else y :: list_remove x l
  end.

(** ** Pieces of regular expressions

    A literal, and [([0-9]+)] with its value; each returns what is left. *)

Fixpoint match_literal (p s : list ascii) : option (list ascii) :=
  match p, s with
  | [], _ => Some s
  | c :: p, d :: s => if decide (c = d) then match_literal p s else None
  | _, _ => None
  end.
Definition literal (s : string) : list ascii -> option (list ascii) :=
  match_literal (list_ascii_of_string s).
Definition digit (c : ascii) : option Z :=
  let n := Z.of_nat (nat_of_ascii c) in
  if decide (48 <= n <= 57)%Z then Some (n - 48)%Z else None.
Fixpoint take_digits (acc : Z) (s : list ascii) : Z * list ascii :=
  match s with
  | c :: t => match digit c with Some d => take_digits (10 * acc + d)%Z t | None => (acc, s) end
  | [] => (acc, [])
  end.
Definition match_number (s : list ascii) : option (Z * list ascii) :=
  match s with
  | c :: t => d ← digit c; Some (take_digits d t)
  | [] => None
  end.

(** [%d] *)
Definition digit_char (n : N) : ascii := ascii_of_N (48 + n).
Fixpoint show_digits (fuel : nat) (n : N) (acc : list ascii) : list ascii :=
  let acc := digit_char (n mod 10) :: acc in
  match fuel with
  | O => acc
  | S fuel => if decide (n < 10)%N then acc else show_digits fuel (n / 10) acc
  end.
Definition show_number (n : N) : string := string_of_list_ascii (show_digits (N.to_nat (N.log2 n)) n []).
Definition show_nat (n : nat) : string := show_number (N.of_nat n).
Definition show_int (n : Z) : string := (if bool_decide (n < 0)%Z then "-" else "") +:+ show_number (Z.abs_N n).

(** [int(s)]: blanks around it, a sign, and digits, between which Python 3 takes underscores. *)
Fixpoint int_digits (underscores : bool) (acc : Z) (s : list ascii) : option Z :=
  match s with
  | [] => Some acc
  | c :: t =>
      match digit c with
      | Some d => int_digits underscores (10 * acc + d)%Z t
      | None =>
          if (underscores && bool_decide (c = "_"%char))%bool
          then match t with e :: _ => _ ← digit e; int_digits underscores acc t | [] => None end
          else None
      end
  end.
Definition int_unsigned (underscores : bool) (s : list ascii) : option Z :=
  match s with c :: _ => _ ← digit c; int_digits underscores 0 s | [] => None end.
Definition py_int (underscores : bool) (s : string) : option Z :=
  match list_ascii_of_string (strip s) with
  | "-"%char :: t => Z.opp <$> int_unsigned underscores t
  | "+"%char :: t => int_unsigned underscores t
  | s => int_unsigned underscores s
  end.

(** ** Lemmas *)

Lemma split_on_nonempty c s : split_on c s <> [].
Proof. destruct s as [|d s]; cbn; [done|]. case_decide; [done|]. by destruct (split_on c s). Qed.

Lemma str_append_nil_r s : s +:+ "" = s.
Proof. induction s as [|c s IH]; [done|]. exact (f_equal (String c) IH). Qed.

Lemma str_append_assoc a b c : (a +:+ b) +:+ c = a +:+ (b +:+ c).
Proof. induction a as [|x a IH]; [done|]. exact (f_equal (String x) IH). Qed.

Lemma starts_with_append p s : starts_with p (p +:+ s) = true.
Proof.
  induction p as [|c p IH]; [done|]. change (String c p +:+ s) with (String c (p +:+ s)).
  cbn. rewrite IH. by rewrite bool_decide_eq_true_2.
Qed.

Lemma str_drop_append p s : str_drop (String.length p) (p +:+ s) = s.
Proof. induction p as [|c p IH]; [by destruct s|]. exact IH. Qed.

Lemma elem_of_list_remove {A} `{EqDecision A} (x y : A) l :
  x <> y -> y ∈ list_remove x l <-> y ∈ l.
Proof.
  intros Hne. induction l as [|z l IH]; [done|]. cbn. case_decide; subst.
  - rewrite elem_of_cons. naive_solver.
  - rewrite !elem_of_cons, IH. done.
Qed.

Lemma list_remove_NoDup {A} `{EqDecision A} (x : A) l : NoDup l -> NoDup (list_remove x l).
Proof.
  induction 1 as [|z l Hz Hl IH]; cbn; [constructor|]. case_decide; [done|].
  constructor; [|done]. intros Hin. apply Hz. destruct (decide (x = z)) as [->|Hne]; [done|].
  by rewrite elem_of_list_remove in Hin by done.
Qed.

Lemma list_remove_self {A} `{EqDecision A} (x : A) l : NoDup l -> x ∉ list_remove x l.
Proof.
  induction 1 as [|z l Hz Hl IH]; cbn; [by intros []%elem_of_nil|].
  case_decide; subst; [done|]. rewrite elem_of_cons. naive_solver.
Qed.

Lemma string_of_list_ascii_app l1 l2 :
  string_of_list_ascii (l1 ++ l2) = string_of_list_ascii l1 +:+ string_of_list_ascii l2.
Proof. induction l1 as [|c l1 IH]; [done|]. exact (f_equal (String c) IH). Qed.

Lemma list_ascii_app (a b : string) :
  list_ascii_of_string (a +:+ b) = list_ascii_of_string a ++ list_ascii_of_string b.
Proof. induction a as [|c a IH]; [done|]. exact (f_equal (cons c) IH). Qed.
Lemma string_app_assoc (a b c : string) : (a +:+ b) +:+ c = a +:+ (b +:+ c).
Proof. induction a as [|d a IH]; [done|]. exact (f_equal (String d) IH). Qed.

Lemma str_length_append a b : String.length (a +:+ b) = String.length a + String.length b.
Proof. induction a as [|c a IH]; [done|]. exact (f_equal S IH). Qed.
Lemma list_ascii_length s : length (list_ascii_of_string s) = String.length s.
Proof. induction s as [|c s IH]; cbn; congruence. Qed.
Lemma list_ascii_append s1 s2 :
  list_ascii_of_string (s1 +:+ s2) = list_ascii_of_string s1 ++ list_ascii_of_string s2.
Proof. induction s1 as [|c s1 IH]; [done|]. exact (f_equal (cons c) IH). Qed.

Lemma match_literal_app p s : match_literal p (p ++ s) = Some s.
Proof. induction p as [|c p IH]; [done|]. cbn. by rewrite decide_True. Qed.

Lemma digit_digit_char n : (n < 10)%N -> digit (digit_char n) = Some (Z.of_N n).
Proof.
  intros Hn. unfold digit, digit_char.
  assert (Hc : nat_of_ascii (ascii_of_N (48 + n)) = N.to_nat (48 + n)).
  { unfold nat_of_ascii. rewrite N_ascii_embedding by lia. done. }
  rewrite Hc. rewrite decide_True by lia. f_equal. lia.
Qed.

Lemma show_digits_app fuel : forall n acc rest,
  show_digits fuel n (acc ++ rest) = show_digits fuel n acc ++ rest.
Proof.
  induction fuel as [|fuel IH]; intros n acc rest; [done|]. cbn. case_decide; [done|].
  apply (IH (n / 10)%N (digit_char (n mod 10) :: acc)).
Qed.

Lemma show_digits_head fuel : forall n acc,
  exists d t, (d < 10)%N /\ show_digits fuel n acc = digit_char d :: t.
Proof.
  induction fuel as [|fuel IH]; intros n acc.
  - exists (n mod 10)%N, acc. split; [apply N.mod_lt; lia|done].
  - cbn. case_decide; [exists (n mod 10)%N, acc; split; [apply N.mod_lt; lia|done]|]. apply IH.
Qed.

(** The digits that are printed are read back. *)
Lemma take_show_digits fuel : forall n acc m, (n < 2 ^ N.of_nat (S fuel))%N ->
  exists j : nat, take_digits m (show_digits fuel n acc)
    = take_digits (m * 10 ^ Z.of_nat j + Z.of_N n) acc.
Proof.
  assert (Hone : forall n acc m, (n < 10)%N ->
    take_digits m (digit_char (n mod 10) :: acc)
    = take_digits (m * 10 ^ Z.of_nat 1 + Z.of_N n) acc).
  { intros n acc m Hn. cbn. rewrite digit_digit_char by (apply N.mod_lt; lia).
    rewrite N.mod_small by lia. f_equal. lia. }
  induction fuel as [|fuel IH]; intros n acc m Hn.
  - exists 1. apply Hone. change (2 ^ N.of_nat 1)%N with 2%N in Hn. lia.
  - cbn. case_decide as H10; [exists 1; by apply Hone|].
    destruct (IH (n / 10)%N (digit_char (n mod 10) :: acc) m) as [j ->].
    { rewrite Nat2N.inj_succ, N.pow_succ_r' in Hn. apply N.Div0.div_lt_upper_bound. lia. }
    exists (S j). cbn. rewrite digit_digit_char by (apply N.mod_lt; lia). f_equal.
    rewrite Nat2Z.inj_succ, Z.pow_succ_r by lia.
    pose proof (N.div_mod n 10 ltac:(lia)). lia.
Qed.

Lemma match_show_number n rest :
  (forall c t, rest = c :: t -> digit c = None) ->
  match_number (list_ascii_of_string (show_number n) ++ rest) = Some (Z.of_N n, rest).
Proof.
  intros Hrest. unfold show_number. rewrite list_ascii_of_string_of_list_ascii.
  rewrite <- show_digits_app.
  destruct (take_show_digits (N.to_nat (N.log2 n)) n rest 0) as [j Hj].
  { rewrite Nat2N.inj_succ, N2Nat.id.
    destruct (decide (n = 0)%N) as [->|Hn]; [done|]. apply N.log2_spec. lia. }
  destruct (show_digits_head (N.to_nat (N.log2 n)) n rest) as (d & t & Hd & Heq).
  change ([] ++ rest) with rest. rewrite Heq in Hj |- *. cbn in Hj |- *.
  rewrite digit_digit_char in Hj |- * by done. cbn in Hj |- *.
  change (10 * 0 + Z.of_N d)%Z with (Z.of_N d) in Hj.
  rewrite Hj. f_equal.
  destruct rest as [|c rest]; cbn; [done|].
  by rewrite (Hrest c rest eq_refl).
Qed.

(** A number that is printed is read by [int]. *)
Lemma take_int_digits u l : forall acc v, take_digits acc l = (v, []) -> int_digits u acc l = Some v.
Proof.
  induction l as [|c l IH]; cbn; intros acc v H; [congruence|].
  destruct (digit c); [by apply IH|]. congruence.
Qed.
Lemma show_digits_digits fuel : forall n acc, Forall (fun c => is_Some (digit c)) acc ->
  Forall (fun c => is_Some (digit c)) (show_digits fuel n acc).
Proof.
  induction fuel as [|fuel IH]; intros n acc Ha; cbn.
  - constructor; [|done]. rewrite digit_digit_char by (apply N.mod_lt; lia). by eexists.
  - assert (H : Forall (fun c => is_Some (digit c)) (digit_char (n mod 10) :: acc))
      by (constructor; [rewrite digit_digit_char by (apply N.mod_lt; lia); by eexists|done]).
    case_decide; [done|by apply IH].
Qed.
Lemma digit_not_space c : is_Some (digit c) -> is_space c = false /\ c <> "-"%char /\ c <> "+"%char.
Proof. destruct c as [[] [] [] [] [] [] [] []]; vm_compute; intros [? [=]]; by split_and!. Qed.
Lemma strip_no_space s : Forall (fun c => is_space c = false) (list_ascii_of_string s) -> strip s = s.
Proof.
  intros Hs. unfold strip. assert (Hl : lstrip s = s).
  { destruct s as [|c s]; [done|]. cbn in *. apply Forall_cons in Hs as [-> _]. done. }
  rewrite Hl. clear Hl. induction s as [|c s IH]; [done|]. cbn in Hs |- *. apply Forall_cons in Hs as [Hc Hs].
  rewrite IH by done. by rewrite Hc; destruct s.
Qed.
Lemma show_number_digits n : Forall (fun c => is_Some (digit c)) (list_ascii_of_string (show_number n)).
Proof. unfold show_number. rewrite list_ascii_of_string_of_list_ascii. by apply show_digits_digits. Qed.
Lemma int_show_number u n : int_unsigned u (list_ascii_of_string (show_number n)) = Some (Z.of_N n).
Proof.
  assert (H := match_show_number n [] ltac:(done)). rewrite app_nil_r in H.
  unfold match_number, int_unsigned in *. destruct (list_ascii_of_string (show_number n)) as [|c t]; [done|].
  destruct (digit c) as [d|] eqn:E; [|done]. cbn in H |- *. injection H as H. rewrite E. by apply take_int_digits.
Qed.
Lemma py_int_show_number u n : py_int u (show_number n) = Some (Z.of_N n).
Proof.
  assert (Hd := show_number_digits n). unfold py_int. rewrite strip_no_space
    by (eapply Forall_impl; [exact Hd|]; intros c Hc; by apply digit_not_space).
  assert (Hu := int_show_number u n). destruct (list_ascii_of_string (show_number n)) as [|c t] eqn:E; [done|].
  apply Forall_cons in Hd as [Hc _]. apply digit_not_space in Hc as (_ & H1 & H2).
  destruct c as [[] [] [] [] [] [] [] []]; try exact Hu; by destruct H1 || by destruct H2.
Qed.

(** ** Strings without a character *)

Definition no_char (c : ascii) (s : string) : Prop := ~ (c ∈ list_ascii_of_string s).
#[export] Instance no_char_dec c s : Decision (no_char c s).
Proof. unfold no_char. apply _. Defined.
#[export] Typeclasses Opaque no_char.
Lemma no_char_app c a b : no_char c (a +:+ b) <-> no_char c a /\ no_char c b.
Proof. unfold no_char. by rewrite list_ascii_app, not_elem_of_app. Qed.
Lemma no_char_empty c : no_char c "".
Proof. apply not_elem_of_nil. Qed.
