(* ===== verification/RadUtil.v ===== *)
(** * Utility functions of the bindings generator: [src/bindings/python/rad_util.py]

    The module is Python 2 code: [/] on integers is floor division, [zip] and
    [map] return lists.  A string is a [list ascii].  The functions on floating
    point numbers are in [RadStats]; those here are modelled on integers. *)

From S2P Require Import Prelude.
From Stdlib Require Import Ascii.

(** The exceptions these functions raise. *)
Inductive rad_exn :=
  | KeyError
  | IndexError
  | TypeError
  | ValueError
  | ZeroDivisionError
  | UnboundLocalError.
#[export] Instance rad_exn_eq_dec : EqDecision rad_exn.
Proof. solve_decision. Defined.

(** ** Numbers and strings of digits *)

(** The value of a digit character, in any base up to 16. *)
Definition digit_value (c : ascii) : option Z :=
  let n := Z.of_nat (nat_of_ascii c) in
  if decide (48 <= n <= 57)%Z then Some (n - 48)%Z
  else if decide (97 <= n <= 102)%Z then Some (n - 87)%Z
  else if decide (65 <= n <= 70)%Z then Some (n - 55)%Z
  else None.

Definition digit_char (d : Z) : ascii :=
  ascii_of_nat (Z.to_nat (if decide (d < 10)%Z then d + 48 else d + 87)%Z).

(** The digits of [hex(i)] for [0 <= i], most significant first. *)
Fixpoint hex_digits (fuel : nat) (i : Z) : list ascii :=
  match fuel with
  | O => [digit_char (i mod 16)]
  | S fuel =>
      if decide (i < 16)%Z then [digit_char (i mod 16)]
      else hex_digits fuel (i / 16) ++ [digit_char (i mod 16)]
  end.

(** [hex(i)], in lower case and without the [L] of a long. *)
Definition py_hex (i : Z) : list ascii :=
  (if decide (i < 0)%Z then ["-"; "0"; "x"]%char else ["0"; "x"]%char)
  ++ hex_digits (Z.to_nat (Z.log2 (Z.abs i))) (Z.abs i).

(** The table [hex2bin]: a hexadecimal digit to four binary digits. *)
Definition bit_char (b : bool) : ascii := if b then "1"%char else "0"%char.
Definition nibble (d : Z) : list ascii :=
  map bit_char [Z.testbit d 3; Z.testbit d 2; Z.testbit d 1; Z.testbit d 0].
Definition hex2bin (c : ascii) : res rad_exn (list ascii) :=
  match digit_value c with
  | Some d => if decide (c = digit_char d) then Ok (nibble d) else Raise KeyError
  | None => Raise KeyError
  end.

Definition int2bin (i n : Z) : res rad_exn (list ascii) :=
  let* nibbles := map_res hex2bin (slice_from (py_hex i) 2) in
  let result := concat nibbles in
  if decide ("1"%char ∈ slice_to result (- n)) then Raise ValueError
  else
    let result := slice_from result (- n) in
    Ok (replicate (Z.to_nat (n - Z.of_nat (length result))) "0"%char ++ result).

(** [int(s, 2)]: white space around, an optional sign, an optional [0b], then
    at least one binary digit. *)
Definition is_space (c : ascii) : bool :=
  let n := nat_of_ascii c in (n =? 32) || ((9 <=? n) && (n <=? 13)).
Fixpoint lstrip (s : list ascii) : list ascii :=
  match s with
  | [] => []
  | c :: t => if is_space c then lstrip t else s
  end.
Definition strip (s : list ascii) : list ascii := rev (lstrip (rev (lstrip s))).
Definition strip_0b (s : list ascii) : list ascii :=
  match s with
  | "0"%char :: c :: t => if decide (c = "b"%char \/ c = "B"%char) then t else s
  | _ => s
  end.
Fixpoint digits_value2 (acc : Z) (s : list ascii) : res rad_exn Z :=
  match s with
  | [] => Ok acc
  | "0"%char :: t => digits_value2 (2 * acc) t
  | "1"%char :: t => digits_value2 (2 * acc + 1) t
  | _ => Raise ValueError
  end.
Definition magnitude2 (s : list ascii) : res rad_exn Z :=
  match strip_0b s with
  | [] => Raise ValueError
  | t => digits_value2 0 t
  end.
Definition bin2int (bin_string : list ascii) : res rad_exn Z :=
  match strip bin_string with
  | "-"%char :: t => let* v := magnitude2 t in Ok (- v)%Z
  | "+"%char :: t => magnitude2 t
  | t => magnitude2 t
  end.

Definition lsb (x n : Z) : res rad_exn Z :=
  if decide (n < 0)%Z then Raise TypeError (* [2 ** n] is a float *)
  else Ok (Z.land x (2 ^ n - 1)).

Definition gray_encode (i : Z) : Z := Z.lxor i (Z.shiftr i 1).

(** The ripple of [binary_range]: the inner [while] loop from bit [i] on, with
    the carry in [toggle[i]]; [v] has the least significant digit first. *)
Fixpoint toggle_bits (carry : bool) (v : list ascii) : list ascii * bool :=
  match v with
  | [] => ([], carry)
  | c :: v' =>
      if carry then
        if decide (c = "0"%char) then ("1"%char :: v', false)
        else let '(w, out) := toggle_bits true v' in ("0"%char :: w, out)
      else (v, false)
  end.
Fixpoint binary_range_loop (fuel : nat) (v : list ascii) (overflow : bool)
    : res rad_exn (list (list ascii)) :=
  if overflow then Ok []
  else match fuel with
    | O => OutOfFuel
    | S fuel =>
        let '(v', out) := toggle_bits true v in
        let* l := binary_range_loop fuel v' out in
        Ok (rev v :: l)
    end.
(** [toggle] starts as [[1] + [0] * bits], so [toggle[bits]] is 1 at once for
    [bits = 0]. *)
Definition binary_range (bits : nat) : res rad_exn (list (list ascii)) :=
  binary_range_loop (S (2 ^ bits)) (replicate bits "0"%char) (bits =? 0).

(** [random_vec]; [draw k] is the [k]-th value of [int((2**10)*random.random())]. *)
Fixpoint draw_vector (draw : nat -> Z) (k : nat) (from : nat) : res rad_exn (list ascii) :=
  match k with
  | O => Ok []
  | S k =>
      let* w := int2bin (draw from) 10 in
      let* rest := draw_vector draw k (S from) in
      Ok (w ++ rest)
  end.
Definition random_vec (draw : nat -> Z) (bits : nat) (max_value : option Z)
    : res rad_exn (list ascii) :=
  let* vector := draw_vector draw (bits / 10 + 1) 0 in
  let full := (2 ^ Z.of_nat bits - 1)%Z in
  let* vector :=
    match max_value with
    | Some m =>
        if decide (m <> 0 /\ m < full)%Z then
          let* v := bin2int vector in
          if decide (full = 0)%Z then Raise ZeroDivisionError
          else int2bin ((v / full) * m)%Z (Z.of_nat bits)
        else Ok vector
    | None => Ok vector
    end in
  Ok (slice_to vector (Z.of_nat bits)).

(** ** Number theory *)

(** [while remainder and abs(remainder) > epsilon]: an integer is above the
    default [epsilon] exactly when it is not zero. *)
Fixpoint gcf_loop (fuel : nat) (result remainder : Z) : res rad_exn Z :=
  if decide (remainder = 0)%Z then Ok (Z.abs result)
  else match fuel with
    | O => OutOfFuel
    | S fuel => gcf_loop fuel remainder (result mod remainder)
    end.
Definition gcf (a b : Z) : res rad_exn Z :=
  gcf_loop (Z.to_nat (Z.abs (Z.min a b))) (Z.max a b) (Z.min a b).

Definition lcm (a b : Z) : res rad_exn Z :=
  let* denom := gcf a b in
  if decide (denom = 0)%Z then Ok 0%Z else Ok (a * (b / denom))%Z.

Definition reduce_fraction (fraction : Z * Z) : res rad_exn (Z * Z) :=
  let '(numerator, denominator) := fraction in
  let* g := gcf numerator denominator in
  let common_factor := Z.abs g in
  if decide (common_factor = 0)%Z then Raise ZeroDivisionError
  else Ok (numerator / common_factor, denominator / common_factor)%Z.

(** [mode] 0 is nearest, 1 is up, -1 is down.  On integers [off_grid >= grid /
    2.0] is [2 * off_grid >= grid] (the float is exact below [2 ** 53]). *)
Definition round_grid (value grid mode : Z) : res rad_exn Z :=
  if decide (grid = 0)%Z then Raise ZeroDivisionError
  else
    let off_grid := (value mod grid)%Z in
    let* add_one :=
      if decide (mode = 0)%Z then
        Ok (if decide (2 * off_grid >= grid)%Z then 1%Z else 0%Z)
      else if decide (mode = 1 /\ off_grid <> 0)%Z then Ok 1%Z
      else if decide (mode = -1 /\ off_grid <> 0)%Z then Ok 0%Z
      else Raise UnboundLocalError in
    Ok ((value / grid + add_one) * grid)%Z.

(** [polygon_area] on integer points, up to the final conversion to float: the
    caller's list as the function leaves it, and the scaled integer area. *)
Fixpoint shoelace (points : list (Z * Z)) : Z :=
  match points with
  | (x0, y0) :: (((x1, y1) :: _) as rest) => (x1 * y0 - y1 * x0 + shoelace rest)%Z
  | _ => 0%Z
  end.
Definition polygon_area (points_list : list (Z * Z)) (precision : Z)
    : res rad_exn (list (Z * Z) * Z) :=
  let scaled := map (fun p => (p.1 * precision, p.2 * precision))%Z points_list in
  match head scaled, last scaled with
  | Some first, Some lst =>
      let closed := if decide (lst <> first) then scaled ++ [first] else scaled in
      Ok (closed, Z.abs (shoelace closed / 2))
  | _, _ => Raise IndexError
  end.

(** ** Sequences *)

(** [reverse] on the list of characters of a string. *)
Definition reverse {A} (input_string : list A) : list A := rev input_string.

(** [zip] of any number of lists stops at the shortest one. *)
Fixpoint zip_star {A} (rows : list (list A)) : list (list A) :=
  match rows with
  | [] => []
  | [r] => map (fun x => [x]) r
  | r :: rows => zip_with cons r (zip_star rows)
  end.
Definition transpose {A} (matrix : list (list A)) : list (list A) := zip_star matrix.

(** [new_list.insert(i, item)], for [i <= len(new_list)]. *)
Definition insert_at {A} (i : nat) (item : A) (l : list A) : list A :=
  take i l ++ item :: drop i l.
Fixpoint permutations {A} (input_list : list A) : list (list A) :=
  match input_list with
  | item :: ((_ :: _) as tl) =>
      flat_map (fun sub_list =>
        map (fun i => insert_at i item sub_list) (seq 0 (S (length tl))))
        (permutations tl)
  | l => [l]
  end.

(** The loop [[x for x in seq if (x not in d) and not d.__setitem__(x, 0)]], with
    the list built so far. *)
Definition uniquify_ordered `{Countable A} (seq : list A) : list A :=
  (foldl (fun '(d, out) x =>
     if has_key d x then (d, out) else (<[x := 0%Z]> d, out ++ [x]))
     (∅ : gmap A Z, []) seq).2.
(** The slow path for unhashable items. *)
Definition uniquify_slow {A} `{EqDecision A} (seq : list A) : list A :=
  foldl (fun result x => if decide (x ∈ result) then result else result ++ [x]) [] seq.
(** [hashable x] is false when [d[x]] raises [TypeError]. *)
Definition uniquify `{DictOrder A} (hashable : A -> bool) (seq : list A)
    (preserve_order : bool) : list A :=
  if forallb hashable seq then
    if preserve_order then uniquify_ordered seq
    else dict_keys (foldl (fun d x => <[x := 0%Z]> d) (∅ : gmap A Z) seq)
  else uniquify_slow seq.

(** [for key, value in d.items(): result[value] = key]. *)
Definition reverse_dict `{DictOrder K} `{Countable V} (d : gmap K V) : gmap V K :=
  foldl (fun result key =>
    match d !! key with
    | Some value => <[value := key]> result
    | None => result
    end) ∅ (dict_keys d).

(** The two loops of [find_common_fixes]; the second reads from the end. *)
Fixpoint common_prefix {A} `{EqDecision A} (s1 s2 : list A) : list A :=
  match s1, s2 with
  | c1 :: t1, c2 :: t2 => if decide (c1 = c2) then c1 :: common_prefix t1 t2 else []
  | _, _ => []
  end.
Definition find_common_fixes {A} `{EqDecision A} (s1 s2 : list A) : list A * list A :=
  (common_prefix s1 s2, rev (common_prefix (rev s1) (rev s2))).

(** [double_seq1[index1:index1+len(seq1)] == seq2] for the start index. *)
Definition rotation_at {A} `{EqDecision A} (seq1 seq2 : list A) (index1 : nat) : bool :=
  bool_decide (take (length seq1) (drop index1 (seq1 ++ seq1)) = seq2).
Definition is_rotated {A} `{EqDecision A} (seq1 seq2 : list A) : res rad_exn bool :=
  if decide (length seq1 <> length seq2) then Ok false
  else
    match seq2 with
    | [] => Raise IndexError
    | head_item :: _ =>
        let start_indexes :=
          filter (fun index1 => seq1 !! index1 = Some head_item) (seq 0 (length seq1)) in
        Ok (existsb (rotation_at seq1 seq2) start_indexes)
    end.

(** ** Command line arguments *)

Inductive arg_value :=
  | ArgNone
  | ArgStr (s : list ascii)
  | ArgList (l : list (list ascii)).

(** [re.sub(r'^-+', '', arg)] *)
Fixpoint strip_dashes (s : list ascii) : list ascii :=
  match s with
  | "-"%char :: t => strip_dashes t
  | _ => s
  end.
(** [s.split('=')]: never empty. *)
Fixpoint split_on (c : ascii) (s : list ascii) : list (list ascii) :=
  match s with
  | [] => [[]]
  | x :: t =>
      if decide (x = c) then [] :: split_on c t
      else match split_on c t with
           | p :: ps => (x :: p) :: ps
           | [] => [[x]]
           end
  end.
Definition get_args_step (st : gmap (list ascii) arg_value * list (list ascii))
    (arg : list ascii) : gmap (list ascii) arg_value * list (list ascii) :=
  let '(d, args) := st in
  if decide (head arg = Some "-"%char) then
    match split_on "=" (strip_dashes arg) with
    | [name; value] => (<[name := ArgStr value]> d, args)
    | name :: _ => (<[name := ArgNone]> d, args)
    | [] => (d, args)
    end
  else (d, args ++ [arg]).
Definition args_key : list ascii := ["a"; "r"; "g"; "s"]%char.
Definition get_args (argv : list (list ascii)) : gmap (list ascii) arg_value :=
  let '(d, args) := foldl get_args_step (∅, []) argv in
  <[args_key := ArgList args]> d.

(** ** Binary strings *)

(** The [n] low bits of [i] as digits, most significant first: what [int2bin]
    promises. *)
Fixpoint bits_msb (n : nat) (i : Z) : list ascii :=
  match n with
  | O => []
  | S n => bit_char (Z.testbit i (Z.of_nat n)) :: bits_msb n i
  end.

Lemma length_bits_msb n i : length (bits_msb n i) = n.
Proof. induction n; simpl; auto. Qed.

Lemma bits_msb_add a b i :
  bits_msb (a + b) i = bits_msb a (Z.shiftr i (Z.of_nat b)) ++ bits_msb b i.
Proof.
  induction a as [|a IH]; simpl; [done|].
  rewrite IH, Z.shiftr_spec by lia. by rewrite Nat2Z.inj_add.
Qed.

Lemma bits_msb_mod n i : bits_msb n (i mod 2 ^ Z.of_nat n) = bits_msb n i.
Proof.
  assert (Hk : forall k, k <= n -> bits_msb k (i mod 2 ^ Z.of_nat n) = bits_msb k i).
  { induction k as [|k IH]; intros Hk; simpl; [done|].
    rewrite Z.mod_pow2_bits_low by lia. by rewrite IH by lia. }
  by apply Hk.
Qed.

Lemma bits_msb_nibble d : bits_msb 4 d = nibble (d mod 16).
Proof. change 16%Z with (2 ^ Z.of_nat 4)%Z. by rewrite <- (bits_msb_mod 4). Qed.

Lemma one_in_bits_msb n i : "1"%char ∈ bits_msb n i <-> (i mod 2 ^ Z.of_nat n <> 0)%Z.
Proof.
  induction n as [|n IH]; cbn [bits_msb].
  - rewrite Z.mod_1_r. split; [intros Hx; by apply elem_of_nil in Hx|lia].
  - rewrite elem_of_cons, IH. unfold bit_char.
    pose proof (Z.testbit_spec' i (Z.of_nat n) ltac:(lia)) as Hbit.
    pose proof (Z.mod_pos_bound i (2 ^ Z.of_nat n) ltac:(lia)) as Hlow.
    rewrite Nat2Z.inj_succ, Z.pow_succ_r, Z.mul_comm, Z.rem_mul_r by lia.
    rewrite <- Hbit.
    destruct (Z.testbit i (Z.of_nat n)); simpl.
    + split; [nia|by left].
    + split; [intros [?|?]; [done|lia]|intros Hx; right; lia].
Qed.

Lemma bits_msb_zero n i :
  (0 <= i < 2 ^ Z.of_nat n)%Z -> forall k,
  bits_msb (k + n) i = replicate k "0"%char ++ bits_msb n i.
Proof.
  intros Hi k. rewrite bits_msb_add. f_equal.
  rewrite Z.shiftr_div_pow2, Z.div_small by lia.
  induction k; simpl; [done|]. rewrite IHk. by rewrite Z.testbit_0_l.
Qed.

Lemma hex2bin_digit d : (0 <= d < 16)%Z -> hex2bin (digit_char d) = Ok (nibble d).
Proof.
  intros Hd.
  assert (Hin : d ∈ [0;1;2;3;4;5;6;7;8;9;10;11;12;13;14;15]%Z).
  { assert (Hx : exists k, k < 16 /\ d = Z.of_nat k) by (exists (Z.to_nat d); lia).
    destruct Hx as (k & Hk & ->). do 16 (destruct k as [|k]; [set_solver|]). lia. }
  clear Hd. revert d Hin. apply Forall_forall.
  repeat (constructor; [vm_compute; reflexivity|]). constructor.
Qed.

Lemma hex_digits_spec fuel i :
  (0 <= i < 16 ^ Z.of_nat (S fuel))%Z ->
  exists ls, map_res hex2bin (hex_digits fuel i) = Ok ls /\
    concat ls = bits_msb (4 * length (hex_digits fuel i)) i /\
    (i < 2 ^ Z.of_nat (4 * length (hex_digits fuel i)))%Z.
Proof.
  assert (Hone : forall d, (0 <= d < 16)%Z -> exists ls,
    map_res hex2bin [digit_char (d mod 16)] = Ok ls /\
    concat ls = bits_msb (4 * 1) d /\ (d < 2 ^ Z.of_nat (4 * 1))%Z).
  { intros d Hd. exists [nibble (d mod 16)]. cbn [map_res].
    rewrite hex2bin_digit by (apply Z.mod_pos_bound; lia). cbn [res_bind concat].
    rewrite app_nil_r. split; [done|]. split; [symmetry; apply bits_msb_nibble|].
    change (2 ^ Z.of_nat (4 * 1))%Z with 16%Z. lia. }
  revert i. induction fuel as [|fuel IH]; intros i Hi.
  - destruct (Hone i) as (ls & ? & ? & ?); [simpl in Hi; lia|]. by exists ls.
  - cbn [hex_digits]. case_decide as Hs; [apply Hone; lia|].
    destruct (IH (i / 16)%Z) as (ls & Hls & Hcat & Hlt).
    { rewrite Nat2Z.inj_succ, Z.pow_succ_r in Hi by lia.
      split; [apply Z.div_pos; lia|apply Z.div_lt_upper_bound; lia]. }
    exists (ls ++ [nibble (i mod 16)]).
    assert (Happ : forall (l : list ascii) c ls', map_res hex2bin l = Ok ls' ->
      hex2bin c = Ok (nibble (i mod 16)) ->
      map_res hex2bin (l ++ [c]) = Ok (ls' ++ [nibble (i mod 16)])).
    { clear. induction l as [|x l IHl]; intros c ls' Hl Hc; cbn in *.
      - injection Hl as <-. by rewrite Hc.
      - destruct (hex2bin x) as [y| |]; cbn in *; try done.
        destruct (map_res hex2bin l) as [ys| |] eqn:E; cbn in *; try done.
        injection Hl as <-. by rewrite (IHl _ ys). }
    split; [apply Happ; [done|apply hex2bin_digit, Z.mod_pos_bound; lia]|].
    rewrite length_app. cbn [length].
    replace (4 * (length (hex_digits fuel (i / 16)) + 1))
      with (4 * length (hex_digits fuel (i / 16)) + 4) by lia.
    rewrite concat_app, Hcat, bits_msb_add. cbn [concat]. rewrite app_nil_r.
    split.
    + rewrite Z.shiftr_div_pow2 by lia. change (2 ^ Z.of_nat 4)%Z with 16%Z.
      f_equal. symmetry. apply bits_msb_nibble.
    + rewrite Nat2Z.inj_add, Z.pow_add_r by lia.
      change (2 ^ Z.of_nat 4)%Z with 16%Z.
      pose proof (Z.div_mod i 16 ltac:(lia)). pose proof (Z.mod_pos_bound i 16 ltac:(lia)).
      lia.
Qed.

(** The digits that [int2bin] works on are the bits of [i]. *)
Lemma hex_bits i : (0 <= i)%Z ->
  exists ls m, map_res hex2bin (slice_from (py_hex i) 2) = Ok ls /\
    concat ls = bits_msb m i /\ (i < 2 ^ Z.of_nat m)%Z.
Proof.
  intros Hi. unfold py_hex. rewrite decide_False by lia.
  rewrite Z.abs_eq by done.
  destruct (hex_digits_spec (Z.to_nat (Z.log2 i)) i) as (ls & Hls & Hcat & Hlt).
  - split; [done|]. rewrite Nat2Z.inj_succ, Z2Nat.id by apply Z.log2_nonneg.
    destruct (Z.eq_dec i 0) as [->|Hne]; [done|].
    pose proof (Z.log2_spec i ltac:(lia)) as [_ Hup].
    pose proof (Z.log2_nonneg i).
    eapply Z.lt_le_trans; [exact Hup|]. apply Z.pow_le_mono_l. lia.
  - exists ls, (4 * length (hex_digits (Z.to_nat (Z.log2 i)) i)).
    split; [|done]. by rewrite <- Hls.
Qed.

Lemma int2bin_bits (i : Z) (n : nat) (Hn : 0 < n) (Hi : (0 <= i)%Z) :
  int2bin i (Z.of_nat n) =
  if decide (i < 2 ^ Z.of_nat n)%Z then Ok (bits_msb n i) else Raise ValueError.
Proof.
  unfold int2bin. destruct (hex_bits i Hi) as (ls & m & -> & Hcat & Hlt). cbn [res_bind].
  rewrite Hcat, slice_to_neg, slice_from_neg, !length_drop, !length_bits_msb by done.
  assert (Htake : take (m - n) (bits_msb m i)
                  = bits_msb (m - n) (Z.shiftr i (Z.of_nat (m - (m - n))))).
  { replace (bits_msb m i) with (bits_msb ((m - n) + (m - (m - n))) i) by (f_equal; lia).
    rewrite bits_msb_add. apply take_app_length'. by rewrite length_bits_msb. }
  assert (Hdrop : drop (m - n) (bits_msb m i) = bits_msb (m - (m - n)) i).
  { replace (bits_msb m i) with (bits_msb ((m - n) + (m - (m - n))) i) by (f_equal; lia).
    rewrite bits_msb_add. apply drop_app_length'. by rewrite length_bits_msb. }
  rewrite Htake, Hdrop. destruct (decide (m <= n)) as [Hm|Hm].
  - replace (m - n) with 0 by lia. rewrite Nat.sub_0_r, Z.sub_0_r || rewrite Nat.sub_0_r.
    rewrite decide_False by (simpl; apply not_elem_of_nil).
    assert (2 ^ Z.of_nat m <= 2 ^ Z.of_nat n)%Z by (apply Z.pow_le_mono_r; lia).
    rewrite decide_True by lia. f_equal.
    replace (bits_msb n i) with (bits_msb ((n - m) + m) i) by (f_equal; lia).
    rewrite bits_msb_zero by lia. do 2 f_equal. lia.
  - replace (m - (m - n)) with n by lia.
    assert (Hhi : "1"%char ∈ bits_msb (m - n) (Z.shiftr i (Z.of_nat n))
                  <-> ~ (i < 2 ^ Z.of_nat n)%Z).
    { rewrite one_in_bits_msb, Z.shiftr_div_pow2 by lia.
      assert (0 < 2 ^ Z.of_nat n)%Z by lia.
      assert (Hq : (0 <= i / 2 ^ Z.of_nat n < 2 ^ Z.of_nat (m - n))%Z).
      { split; [apply Z.div_pos; lia|]. apply Z.div_lt_upper_bound; [lia|].
        rewrite <- Z.pow_add_r by lia. by replace (Z.of_nat n + Z.of_nat (m - n))%Z
          with (Z.of_nat m) by lia. }
      rewrite Z.mod_small by done. rewrite Z.div_small_iff by lia. lia. }
    case_decide as H1; [rewrite decide_False by tauto; done|].
    rewrite decide_True by (apply dec_stable; tauto). rewrite Z.sub_diag. done.
Qed.

(** For a positive width [int2bin] gives exactly the [n] low bits of a
    non-negative integer, most significant first, and raises [ValueError]
    exactly when the integer needs more than [n] bits. *)
Theorem int2bin_spec (i : Z) (n : nat) (Hn : 0 < n) (Hi : (0 <= i)%Z) :
  int2bin i (Z.of_nat n) =
  if decide (i < 2 ^ Z.of_nat n)%Z then Ok (bits_msb n i) else Raise ValueError.
Proof. by apply int2bin_bits. Qed.

Lemma int2bin_spec_witness :
  int2bin 123 (Z.of_nat 8)
  = Ok ["0"; "1"; "1"; "1"; "1"; "0"; "1"; "1"]%char /\
  int2bin 15 (Z.of_nat 2) = Raise ValueError.
Proof.
  split.
  - rewrite (int2bin_spec 123 8) by lia. reflexivity.
  - rewrite (int2bin_spec 15 2) by lia. reflexivity.
Defined.

(** With the width 0 nothing is cut off and nothing is refused: the slices
    [result[:-0]] and [result[-0:]] are the empty and the whole string. *)
Lemma int2bin_width0 (i : Z) (Hi : (0 <= i)%Z) :
  exists m, int2bin i 0 = Ok (bits_msb m i) /\ (i < 2 ^ Z.of_nat m)%Z.
Proof.
  unfold int2bin. destruct (hex_bits i Hi) as (ls & m & -> & Hcat & Hlt). cbn [res_bind].
  exists m. split; [|done]. rewrite Hcat.
  unfold slice_to, slice_from, slice_index. change (- 0)%Z with 0%Z.
  rewrite !(decide_False (P := (0 < 0)%Z)) by lia. simpl.
  rewrite drop_0, length_bits_msb.
  by replace (Z.to_nat (0 - Z.of_nat m)) with 0 by lia.
Qed.

(** ** Reading binary strings back *)

Lemma lstrip_bits n i : lstrip (bits_msb n i) = bits_msb n i.
Proof. destruct n; simpl; [done|]. by destruct (Z.testbit _ _). Qed.

Lemma last_bits_msb n i : last (bits_msb (S n) i) = Some (bit_char (Z.testbit i 0)).
Proof.
  induction n as [|n IH]; [done|]. cbn [bits_msb] in *.
  rewrite <- IH. by destruct n.
Qed.

Lemma strip_bits n i : strip (bits_msb n i) = bits_msb n i.
Proof.
  unfold strip. rewrite lstrip_bits. destruct n as [|n]; [done|].
  destruct (bits_msb (S n) i) as [|c l _] eqn:E using rev_ind; [done|].
  pose proof (last_bits_msb n i) as Hl. rewrite E, last_snoc in Hl. simplify_eq.
  rewrite rev_unit. cbn [lstrip].
  assert (Hsp : is_space (bit_char (Z.testbit i 0)) = false) by (by destruct (Z.testbit i 0)).
  rewrite Hsp. cbn [rev]. by rewrite rev_involutive.
Qed.

Lemma digits_value2_bits n i acc :
  digits_value2 acc (bits_msb n i) = Ok (acc * 2 ^ Z.of_nat n + i mod 2 ^ Z.of_nat n)%Z.
Proof.
  revert acc. induction n as [|n IH]; intros acc.
  - cbn. rewrite Z.mod_1_r. f_equal. lia.
  - cbn [bits_msb]. rewrite Nat2Z.inj_succ, Z.pow_succ_r by lia.
    rewrite (Z.mul_comm 2), Z.rem_mul_r by lia.
    rewrite <- (Z.testbit_spec' i (Z.of_nat n)) by lia.
    destruct (Z.testbit i (Z.of_nat n)); cbn [bit_char digits_value2]; rewrite IH;
      simpl; f_equal; lia.
Qed.

(** Reading the digits of [int2bin] back with [bin2int] gives the integer. *)
Theorem bin2int_int2bin (i : Z) (n : nat) (Hn : 0 < n)
    (Hi : (0 <= i < 2 ^ Z.of_nat n)%Z) :
  (let* s := int2bin i (Z.of_nat n) in bin2int s) = Ok i.
Proof.
  rewrite int2bin_bits, decide_True by lia. cbn [res_bind]. unfold bin2int.
  rewrite strip_bits. destruct n as [|n]; [lia|].
  assert (Hm : magnitude2 (bits_msb (S n) i) = Ok i).
  { pose proof (digits_value2_bits (S n) i 0) as Hv.
    rewrite Z.mod_small, Z.mul_0_l, Z.add_0_l in Hv by done. rewrite <- Hv.
    unfold magnitude2. cbn [bits_msb].
    destruct (Z.testbit i (Z.of_nat n)); cbn [bit_char strip_0b]; [done|].
    destruct n as [|n]; [done|]. cbn [bits_msb].
    rewrite decide_False by (destruct (Z.testbit i (Z.of_nat n)); naive_solver). done. }
  rewrite <- Hm. cbn [bits_msb]. by destruct (Z.testbit i (Z.of_nat n)).
Qed.

Lemma bin2int_int2bin_witness :
  (0 <= 123 < 2 ^ Z.of_nat 8)%Z /\
  (let* s := int2bin 123 (Z.of_nat 8) in bin2int s) = Ok 123%Z.
Proof. split; [done|]. apply (bin2int_int2bin 123 8); [lia|done]. Defined.

(** ** Ranges and Gray codes *)

(** Least significant digit first, as [binary_range] holds its number. *)
Fixpoint bits_lsb (n : nat) (i : Z) : list ascii :=
  match n with
  | O => []
  | S n => bit_char (Z.odd i) :: bits_lsb n (i / 2)
  end.

Lemma bits_lsb_msb n i : rev (bits_lsb n i) = bits_msb n i.
Proof.
  revert i. induction n as [|n IH]; intros i; [done|]. cbn [bits_lsb rev].
  rewrite IH. change (S n) with (1 + n). rewrite Nat.add_comm, bits_msb_add.
  change (Z.of_nat 1) with 1%Z. rewrite Z.shiftr_div_pow2 by lia. cbn [bits_msb].
  by rewrite Z.bit0_odd.
Qed.

Lemma toggle_bits_lsb n i : (0 <= i < 2 ^ Z.of_nat n)%Z ->
  toggle_bits true (bits_lsb n i)
  = (bits_lsb n (i + 1), bool_decide (i + 1 = 2 ^ Z.of_nat n)%Z).
Proof.
  revert i. induction n as [|n IH]; intros i Hi.
  - simpl in *. rewrite bool_decide_eq_true_2 by lia. done.
  - rewrite Nat2Z.inj_succ, Z.pow_succ_r in * by lia. cbn [bits_lsb toggle_bits].
    pose proof (Z.div_mod i 2 ltac:(lia)) as Hdm. rewrite Zmod_odd in Hdm.
    pose proof (Z.odd_add i 1) as Hodd. simpl in Hodd.
    destruct (Z.odd i) eqn:Ho; cbn [bit_char xorb] in *.
    + rewrite Hodd. rewrite decide_False by done.
      rewrite IH by lia. cbn [xorb negb bit_char].
      assert (Hh : ((i + 1) / 2 = i / 2 + 1)%Z)
        by (replace (i + 1)%Z with ((i / 2 + 1) * 2)%Z by lia; by rewrite Z.div_mul).
      rewrite Hh. f_equal. apply bool_decide_ext. lia.
    + rewrite decide_True by done. rewrite Hodd. cbn [xorb bit_char].
      assert (Hh : ((i + 1) / 2 = i / 2)%Z)
        by (symmetry; apply (Z.div_unique _ _ _ 1); lia).
      rewrite Hh. by rewrite bool_decide_eq_false_2 by lia.
Qed.

Lemma bits_lsb_0 n : bits_lsb n 0 = replicate n "0"%char.
Proof. induction n; simpl; [done|]. by f_equal. Qed.

Lemma binary_range_loop_spec n fuel k :
  0 < n -> k + fuel = 2 ^ n -> 0 < fuel ->
  binary_range_loop (S fuel) (bits_lsb n (Z.of_nat k)) false
  = Ok (map (fun j => bits_msb n (Z.of_nat j)) (seq k fuel)).
Proof.
  intros Hn. revert k. induction fuel as [|fuel IH]; intros k Hk Hf; [lia|].
  assert (Hpow : Z.of_nat (2 ^ n) = (2 ^ Z.of_nat n)%Z) by (rewrite Nat2Z.inj_pow; done).
  assert (Hstep : forall f v, binary_range_loop (S f) v false
    = let '(v', out) := toggle_bits true v in
      let* l := binary_range_loop f v' out in Ok (rev v :: l)) by done.
  rewrite Hstep, toggle_bits_lsb, bits_lsb_msb by lia. cbn [seq map].
  replace (Z.of_nat k + 1)%Z with (Z.of_nat (S k)) by lia.
  destruct fuel as [|fuel].
  - by rewrite bool_decide_eq_true_2 by lia.
  - rewrite bool_decide_eq_false_2 by lia. by rewrite (IH (S k)) by lia.
Qed.

(** [binary_range] stops and lists every binary number of the given
    positive width once, in increasing order. *)
Theorem binary_range_spec (bits : nat) (Hb : 0 < bits) :
  binary_range bits = Ok (map (fun j => bits_msb bits (Z.of_nat j)) (seq 0 (2 ^ bits))).
Proof.
  unfold binary_range. rewrite <- bits_lsb_0.
  replace (bits =? 0) with false by (symmetry; apply Nat.eqb_neq; lia).
  apply (binary_range_loop_spec bits (2 ^ bits) 0); [done|done|].
  pose proof (Nat.pow_nonzero 2 bits). lia.
Qed.

Lemma binary_range_spec_witness :
  binary_range 2 = Ok [["0";"0"]; ["0";"1"]; ["1";"0"]; ["1";"1"]]%char.
Proof. rewrite (binary_range_spec 2) by lia. reflexivity. Defined.

Lemma lxor_double a b c d :
  Z.lxor (2 * a + Z.b2z c) (2 * b + Z.b2z d) = (2 * Z.lxor a b + Z.b2z (xorb c d))%Z.
Proof.
  apply Z.bits_inj'. intros n Hn. rewrite Z.lxor_spec.
  destruct (decide (n = 0%Z)) as [->|Hne].
  - by rewrite !Z.testbit_0_r.
  - replace n with (Z.succ (n - 1)) by lia.
    rewrite !Z.testbit_succ_r, Z.lxor_spec by lia. done.
Qed.

Lemma lxor_succ i : (0 <= i)%Z ->
  exists k, (0 <= k)%Z /\ Z.lxor i (i + 1) = (2 * 2 ^ k - 1)%Z.
Proof.
  intros Hi. pattern i. revert i Hi. apply Zlt_0_ind. intros i IH Hi.
  pose proof (Z.div_mod i 2 ltac:(lia)) as Hdm. rewrite Zmod_odd in Hdm.
  destruct (Z.odd i).
  - destruct (IH (i / 2)%Z) as (k & Hk & Hxor); [lia|].
    exists (k + 1)%Z. split; [lia|].
    replace (Z.lxor i (i + 1)) with
      (Z.lxor (2 * (i / 2) + Z.b2z true) (2 * (i / 2 + 1) + Z.b2z false))
      by (f_equal; simpl; lia).
    rewrite lxor_double, Hxor, Z.pow_add_r by lia. simpl. lia.
  - exists 0%Z. split; [lia|].
    replace (Z.lxor i (i + 1)) with
      (Z.lxor (2 * (i / 2) + Z.b2z false) (2 * (i / 2) + Z.b2z true))
      by (f_equal; simpl; lia).
    by rewrite lxor_double, Z.lxor_nilpotent.
Qed.

Lemma gray_lxor i j :
  Z.lxor (gray_encode i) (gray_encode j) = gray_encode (Z.lxor i j).
Proof.
  unfold gray_encode. rewrite Z.shiftr_lxor.
  apply Z.bits_inj'. intros n _. rewrite !Z.lxor_spec.
  by destruct (Z.testbit i n), (Z.testbit j n), (Z.testbit _ n), (Z.testbit _ n).
Qed.

(** The Gray codes of two consecutive integers differ in exactly one bit. *)
Theorem gray_encode_adjacent (i : Z) (Hi : (0 <= i)%Z) :
  exists k, (0 <= k)%Z /\ Z.lxor (gray_encode i) (gray_encode (i + 1)) = (2 ^ k)%Z.
Proof.
  destruct (lxor_succ i Hi) as (k & Hk & Hxor). exists k. split; [done|].
  rewrite gray_lxor, Hxor. unfold gray_encode.
  assert (Hones : (2 * 2 ^ k - 1 = Z.ones (k + 1))%Z)
    by (rewrite Z.ones_equiv, Z.pow_add_r by lia; lia).
  rewrite Hones. apply Z.bits_inj'. intros n Hn.
  rewrite Z.lxor_spec, Z.shiftr_spec, !Z.testbit_ones by lia.
  rewrite Z.pow2_bits_eqb by lia.
  destruct (Z.leb_spec 0 n), (Z.leb_spec 0 (n + 1)), (Z.ltb_spec n (k + 1)),
    (Z.ltb_spec (n + 1) (k + 1)), (Z.eqb_spec k n); simpl; try done; lia.
Qed.

Lemma gray_encode_adjacent_witness :
  (0 <= 7)%Z /\ exists k, (0 <= k)%Z /\
  Z.lxor (gray_encode 7) (gray_encode (7 + 1)) = (2 ^ k)%Z.
Proof. split; [done|]. apply (gray_encode_adjacent 7). done. Defined.

(** Distinct non-negative integers have distinct Gray codes. *)
Lemma gray_encode_inj i j :
  (0 <= i)%Z -> (0 <= j)%Z -> gray_encode i = gray_encode j -> i = j.
Proof.
  intros Hi Hj Heq. apply Z.lxor_eq.
  pose proof (gray_lxor i j) as Hx. rewrite Heq, Z.lxor_nilpotent in Hx.
  assert (Hd : (0 <= Z.lxor i j)%Z) by (apply Z.lxor_nonneg; tauto).
  unfold gray_encode in Hx. symmetry in Hx. apply Z.lxor_eq in Hx.
  rewrite Z.shiftr_div_pow2 in Hx by lia. change (2 ^ 1)%Z with 2%Z in Hx.
  pose proof (Z.div_mod (Z.lxor i j) 2 ltac:(lia)).
  pose proof (Z.mod_pos_bound (Z.lxor i j) 2 ltac:(lia)). lia.
Qed.

(** ** Greatest common factor *)

Lemma gcf_loop_spec fuel a b :
  Z.to_nat (Z.abs b) <= fuel -> gcf_loop fuel a b = Ok (Z.gcd a b).
Proof.
  revert a b. induction fuel as [|fuel IH]; intros a b Hf; cbn [gcf_loop];
    case_decide as Hb; try lia.
  - by rewrite Hb, Z.gcd_0_r.
  - by rewrite Hb, Z.gcd_0_r.
  - rewrite IH.
    + by rewrite Z.gcd_comm, Z.gcd_mod, Z.gcd_comm.
    + destruct (decide (0 < b)%Z).
      * pose proof (Z.mod_pos_bound a b). lia.
      * pose proof (Z.mod_neg_bound a b). lia.
Qed.

Lemma gcf_gcd (a b : Z) : gcf a b = Ok (Z.gcd a b).
Proof.
  unfold gcf. rewrite gcf_loop_spec by lia. f_equal.
  destruct (Z.le_ge_cases a b).
  - rewrite Z.max_r, Z.min_l by done. apply Z.gcd_comm.
  - by rewrite Z.max_l, Z.min_r by done.
Qed.

(** The loop of [gcf] ends for every pair of integers, of any sign, and
    the result is their greatest common divisor. *)
Theorem gcf_spec (a b : Z) : gcf a b = Ok (Z.gcd a b).
Proof. apply gcf_gcd. Qed.

Lemma lcm_spec (a b : Z) : exists m, lcm a b = Ok m /\ Z.abs m = Z.lcm a b.
Proof.
  unfold lcm. rewrite gcf_gcd. cbn [res_bind]. case_decide as Hg.
  - exists 0%Z. split; [done|]. apply Z.gcd_eq_0 in Hg as [-> ->]. done.
  - exists (a * (b / Z.gcd a b))%Z. done.
Qed.

(** [reduce_fraction] divides out everything: the result is the same
    fraction with coprime parts, and only [0/0] raises. *)
Theorem reduce_fraction_spec (num den : Z) :
  match reduce_fraction (num, den) with
  | Ok (n, d) => Z.gcd n d = 1%Z /\ (n * den = num * d)%Z /\ (0 <= n * num)%Z /\ (0 <= d * den)%Z
  | Raise e => e = ZeroDivisionError /\ num = 0%Z /\ den = 0%Z
  | OutOfFuel => False
  end.
Proof.
  unfold reduce_fraction. rewrite gcf_gcd. cbn [res_bind].
  pose proof (Z.gcd_nonneg num den) as Hpos. rewrite Z.abs_eq by done.
  case_decide as Hg; [apply Z.gcd_eq_0 in Hg; tauto|].
  destruct (Z.gcd_divide_l num den) as [n Hn].
  destruct (Z.gcd_divide_r num den) as [d Hd].
  set (g := Z.gcd num den) in *. cbv beta iota.
  assert (Hnq : (num / g = n)%Z) by (rewrite Hn; by apply Z.div_mul).
  assert (Hdq : (den / g = d)%Z) by (rewrite Hd; by apply Z.div_mul).
  split; [by apply Z.gcd_div_gcd|]. rewrite Hnq, Hdq. nia.
Qed.

(** ** Rounding to a grid *)

(** On a positive grid, [round_grid] gives the nearest multiple (mode 0),
    the next one up or down (modes 1 and -1) for a value off the grid; for a
    value already on the grid, modes 1 and -1 raise [UnboundLocalError]
    instead of returning the value. *)
Theorem round_grid_spec (value grid mode : Z) (Hg : (0 < grid)%Z)
    (Hm : (mode = 0 \/ mode = 1 \/ mode = -1)%Z) :
  match round_grid value grid mode with
  | Ok r =>
      (grid | r)%Z /\
      (mode = 0 -> 2 * Z.abs (r - value) <= grid)%Z /\
      (mode = 1 -> value < r < value + grid)%Z /\
      (mode = -1 -> value - grid < r < value)%Z
  | Raise e => e = UnboundLocalError /\ (grid | value)%Z /\ mode <> 0%Z
  | OutOfFuel => False
  end.
Proof.
  unfold round_grid. rewrite decide_False by lia.
  pose proof (Z.div_mod value grid ltac:(lia)) as Hdm.
  pose proof (Z.mod_pos_bound value grid Hg) as Hb.
  assert (Hdiv : (value mod grid = 0)%Z -> (grid | value)%Z) by (apply Z.mod_divide; lia).
  repeat case_decide; cbn [res_bind]; try lia;
    try (split; [by apply Z.divide_factor_r|]; split; [|split]; intros; nia).
  split; [done|]. split; [apply Hdiv; lia|done].
Qed.

Lemma round_grid_spec_witness :
  (0 < 5)%Z /\ round_grid 7 5 1 = Ok 10%Z /\ round_grid 10 5 1 = Raise UnboundLocalError /\
  match round_grid 10 5 1 with
  | Ok r => False | Raise e => e = UnboundLocalError /\ (5 | 10)%Z /\ 1%Z <> 0%Z | OutOfFuel => False
  end.
Proof.
  split; [done|]. split; [reflexivity|]. split; [reflexivity|].
  apply (round_grid_spec 10 5 1); [done|tauto].
Defined.

(** ** Permutations and rotations *)

Lemma insert_at_perm {A} i (x : A) l : insert_at i x l ≡ₚ x :: l.
Proof. unfold insert_at. by rewrite <- Permutation_middle, take_drop. Qed.

Lemma permutations_cons {A} (x : A) l p :
  l <> [] ->
  p ∈ permutations (x :: l) <->
  exists q i, q ∈ permutations l /\ i < S (length l) /\ p = insert_at i x q.
Proof.
  intros Hl. destruct l as [|y l]; [done|].
  cbn [permutations]. rewrite list_elem_of_In, in_flat_map. split.
  - intros (q & Hq & (i & <- & Hi)%in_map_iff).
    apply in_seq in Hi. exists q, i. rewrite list_elem_of_In. split_and!; [done|lia|done].
  - intros (q & i & Hq & Hi & ->). exists q. rewrite <- list_elem_of_In. split; [done|].
    apply in_map_iff. exists i. split; [done|]. apply in_seq. lia.
Qed.

(** [permutations] lists exactly the permutations of its argument. *)
Theorem permutations_spec {A} (l p : list A) : p ∈ permutations l <-> p ≡ₚ l.
Proof.
  revert p. induction l as [|x l IH]; intros p.
  - cbn. rewrite list_elem_of_singleton. split; [by intros ->|]. apply Permutation_nil_r.
  - destruct (decide (l = [])) as [->|Hl].
    + cbn. rewrite list_elem_of_singleton. split; [by intros ->|].
      apply Permutation_singleton_r.
    + rewrite permutations_cons by done. split.
      * intros (q & i & Hq & _ & ->). by rewrite insert_at_perm, <- (proj1 (IH q) Hq).
      * intros Hp. assert (Hx : x ∈ p) by (rewrite Hp; left).
        apply list_elem_of_split in Hx as (p1 & p2 & ->).
        assert (Hq : p1 ++ p2 ≡ₚ l)
          by (apply (Permutation_cons_inv (a := x)); by rewrite Permutation_middle).
        exists (p1 ++ p2), (length p1). split; [by apply IH|]. split.
        { rewrite <- Hq, length_app. lia. }
        unfold insert_at. by rewrite take_app_length, drop_app_length.
Qed.

Lemma length_flat_map_const {A B} (f : A -> list B) n l :
  (forall x, length (f x) = n) -> length (flat_map f l) = n * length l.
Proof.
  intros Hf. induction l as [|x l IH]; simpl; [lia|]. rewrite length_app, Hf, IH. lia.
Qed.

Lemma length_permutations {A} (l : list A) : length (permutations l) = fact (length l).
Proof.
  induction l as [|x l IH]; [done|]. destruct l as [|y l]; [done|].
  change (length (flat_map (fun sub_list =>
    map (fun i => insert_at i x sub_list) (seq 0 (S (length (y :: l)))))
    (permutations (y :: l))) = S (length (y :: l)) * fact (length (y :: l))).
  rewrite <- IH. apply length_flat_map_const. intros q. by rewrite length_map, length_seq.
Qed.

Lemma take_drop_double {A} (l : list A) k : k <= length l ->
  take (length l) (drop k (l ++ l)) = drop k l ++ take k l.
Proof.
  intros Hk. rewrite drop_app_le by done. rewrite take_app, take_ge; [|rewrite length_drop; lia].
  f_equal. rewrite length_drop. f_equal. lia.
Qed.

Lemma is_rotated_rotate {A} `{EqDecision A} (seq1 seq2 : list A) :
  match is_rotated seq1 seq2 with
  | Ok b => b = true <-> seq1 <> [] /\ exists k, seq2 = rotate k seq1
  | Raise e => e = IndexError /\ seq1 = [] /\ seq2 = []
  | OutOfFuel => False
  end.
Proof.
  unfold is_rotated. case_decide as Hlen.
  { split; [done|]. intros [_ [k ->]]. by rewrite length_rotate in Hlen. }
  destruct seq2 as [|h t]; [by destruct seq1|].
  assert (Hne : seq1 <> []) by (by destruct seq1).
  rewrite existsb_exists. split.
  - intros (k & Hk & Hrot). split; [done|].
    rewrite <- list_elem_of_In, list_elem_of_filter in Hk. destruct Hk as [Hh Hk].
    apply elem_of_seq in Hk. unfold rotation_at in Hrot.
    apply bool_decide_eq_true in Hrot. exists k.
    rewrite <- Hrot, take_drop_double by lia. unfold rotate.
    by rewrite Nat.mod_small by lia.
  - intros [_ [k Hrot]]. exists (k mod length seq1).
    assert (Hlt : k mod length seq1 < length seq1)
      by (apply Nat.mod_upper_bound; destruct seq1; [done|simpl; lia]).
    split.
    + rewrite <- list_elem_of_In, list_elem_of_filter. split; [|apply elem_of_seq; lia].
      assert (Hhd : rotate k seq1 !! 0 = Some h) by (by rewrite <- Hrot).
      unfold rotate in Hhd. rewrite lookup_app_l in Hhd by (rewrite length_drop; lia).
      by rewrite lookup_drop, Nat.add_0_r in Hhd.
    + unfold rotation_at. apply bool_decide_eq_true.
      rewrite Hrot, take_drop_double by lia. done.
Qed.

(** [is_rotated] decides whether one sequence is a rotation of the other:
    looking only at the occurrences of the head item misses no rotation.  It
    raises [IndexError] exactly on two empty sequences. *)
Theorem is_rotated_spec {A} `{EqDecision A} (seq1 seq2 : list A) :
  match is_rotated seq1 seq2 with
  | Ok b => b = true <-> seq1 <> [] /\ exists k, seq2 = rotate k seq1
  | Raise e => e = IndexError /\ seq1 = [] /\ seq2 = []
  | OutOfFuel => False
  end.
Proof. apply is_rotated_rotate. Qed.

(** ** Common prefixes, duplicates, transposition *)

Lemma common_prefix_spec {A} `{EqDecision A} (s1 s2 p : list A) :
  p `prefix_of` s1 /\ p `prefix_of` s2 <-> p `prefix_of` common_prefix s1 s2.
Proof.
  revert s2 p. induction s1 as [|c s1 IH]; intros s2 p; cbn [common_prefix].
  - split; [by intros [? _]|]. intros Hp. split; [done|].
    etrans; [exact Hp|apply prefix_nil].
  - destruct s2 as [|c' s2].
    + split; [by intros [_ ?]|]. intros Hp. split; [|done].
      etrans; [exact Hp|apply prefix_nil].
    + case_decide as Heq.
      * subst c'. destruct p as [|x p]; [split; intros; [apply prefix_nil|split; apply prefix_nil]|].
        split.
        -- intros [H1 H2]. pose proof (prefix_cons_inv_1 _ _ _ _ H1) as ->.
           apply prefix_cons. apply (proj1 (IH s2 p)).
           split; [exact (prefix_cons_inv_2 _ _ _ _ H1)|exact (prefix_cons_inv_2 _ _ _ _ H2)].
        -- intros Hp. pose proof (prefix_cons_inv_1 _ _ _ _ Hp) as ->.
           apply prefix_cons_inv_2 in Hp. apply (proj2 (IH s2 p)) in Hp as [H1 H2].
           split; by apply prefix_cons.
      * split.
        -- intros [H1 H2]. destruct p as [|x p]; [done|].
           pose proof (prefix_cons_inv_1 _ _ _ _ H1).
           pose proof (prefix_cons_inv_1 _ _ _ _ H2). congruence.
        -- intros Hp%prefix_nil_inv. subst p. split; apply prefix_nil.
Qed.

Lemma suffix_rev {A} (p s : list A) : p `suffix_of` s <-> rev p `prefix_of` rev s.
Proof.
  split.
  - intros [k ->]. exists (rev k). apply rev_app_distr.
  - intros [k Hk]. exists (rev k). rewrite <- (rev_involutive s), Hk, rev_app_distr.
    by rewrite rev_involutive.
Qed.

(** [find_common_fixes] returns the longest common prefix and the longest
    common suffix: the common prefixes (suffixes) of the two strings are
    exactly the prefixes (suffixes) of the one returned. *)
Theorem find_common_fixes_spec {A} `{EqDecision A} (s1 s2 p : list A) :
  (p `prefix_of` s1 /\ p `prefix_of` s2 <-> p `prefix_of` (find_common_fixes s1 s2).1) /\
  (p `suffix_of` s1 /\ p `suffix_of` s2 <-> p `suffix_of` (find_common_fixes s1 s2).2).
Proof.
  split; [apply common_prefix_spec|]. cbn [find_common_fixes snd].
  rewrite !suffix_rev, rev_involutive. apply common_prefix_spec.
Qed.

Lemma uniquify_ordered_inv `{Countable A} (l : list A) (d : gmap A Z) out :
  (forall x, x ∈ dom d <-> x ∈ out) ->
  (foldl (fun '(d, out) x =>
     if has_key d x then (d, out) else (<[x := 0%Z]> d, out ++ [x])) (d, out) l).2
  = foldl (fun out x => if decide (x ∈ out) then out else out ++ [x]) out l.
Proof.
  revert d out. induction l as [|x l IH]; intros d out Hd; [done|]. cbn [foldl].
  destruct (has_key d x) eqn:Hx.
  - apply has_key_true in Hx. rewrite decide_True by by apply Hd. by apply IH.
  - assert (Hn : x ∉ dom d) by (intros Hx'%has_key_true; congruence).
    rewrite decide_False by (intros Hx'; by apply Hn, Hd).
    apply IH. intros y. rewrite dom_insert_L, elem_of_union, elem_of_singleton, Hd.
    set_solver.
Qed.

Lemma uniquify_slow_inv `{EqDecision A} (l out : list A) :
  NoDup out ->
  let r := foldl (fun out x => if decide (x ∈ out) then out else out ++ [x]) out l in
  NoDup r /\ (forall x, x ∈ r <-> x ∈ out \/ x ∈ l) /\ out `prefix_of` r.
Proof.
  revert out. induction l as [|x l IH]; intros out Hnd; cbn.
  - split; [done|]. split; [|done]. set_solver.
  - case_decide as Hx.
    + destruct (IH out Hnd) as (H1 & H2 & H3). split_and!; [done| |done].
      intros y. rewrite H2. set_solver.
    + destruct (IH (out ++ [x])) as (H1 & H2 & H3).
      { apply NoDup_app. split_and!; [done|set_solver|apply NoDup_singleton]. }
      split_and!; [done| |].
      * intros y. rewrite H2. set_solver.
      * etrans; [|exact H3]. by apply prefix_app_r.
Qed.

(** [uniquify] keeps one copy of every item, whatever path it takes; with
    [preserve_order] (or unhashable items) the fast and the slow path agree. *)
Lemma uniquify_spec `{DictOrder A} (hashable : A -> bool) (seq : list A) preserve_order :
  NoDup (uniquify hashable seq preserve_order) /\
  (forall x, x ∈ uniquify hashable seq preserve_order <-> x ∈ seq) /\
  (preserve_order = true -> uniquify hashable seq preserve_order = uniquify_slow seq).
Proof.
  assert (Hslow : NoDup (uniquify_slow seq) /\ forall x, x ∈ uniquify_slow seq <-> x ∈ seq).
  { destruct (uniquify_slow_inv seq []) as (H1 & H2 & _); [constructor|].
    split; [exact H1|]. intros x. unfold uniquify_slow. rewrite H2. set_solver. }
  assert (Hord : uniquify_ordered seq = uniquify_slow seq).
  { apply uniquify_ordered_inv. intros x. rewrite dom_empty_L. set_solver. }
  unfold uniquify. destruct (forallb hashable seq); [destruct preserve_order|];
    try (rewrite ?Hord; tauto).
  split; [apply NoDup_dict_keys|]. split; [|done].
  intros x. rewrite elem_of_dict_keys.
  assert (Hdom : forall (l : list A) (d : gmap A Z),
    x ∈ dom (foldl (fun d x => <[x := 0%Z]> d) d l) <-> x ∈ dom d \/ x ∈ l).
  { induction l as [|y l IH]; intros d; cbn; [set_solver|].
    rewrite IH, dom_insert_L. set_solver. }
  rewrite Hdom, dom_empty_L. set_solver.
Qed.

Lemma lookup_foldl_reverse `{Countable K} `{Countable V} (d : gmap K V) ks (acc : gmap V K) v k :
  (forall k1 k2 w, d !! k1 = Some w -> d !! k2 = Some w -> k1 = k2) ->
  foldl (fun result key => match d !! key with
    | Some value => <[value := key]> result | None => result end) acc ks !! v = Some k <->
  (k ∈ ks /\ d !! k = Some v) \/
  (acc !! v = Some k /\ forall k', k' ∈ ks -> d !! k' <> Some v).
Proof.
  intros Hinj. revert acc. induction ks as [|k0 ks IH]; intros acc; cbn.
  { split; [|set_solver]. intros Ha. right. split; [done|]. set_solver. }
  rewrite IH. setoid_rewrite elem_of_cons. destruct (d !! k0) as [w|] eqn:E.
  - rewrite lookup_insert_Some. split.
    + intros [[? ?]|[[[-> ->]|[Hne Ha]] Hnot]]; [naive_solver|naive_solver|].
      right. split; [done|]. intros k' [->|Hk']; [congruence|by apply Hnot].
    + intros [[[->|Hk] Hd]|[Ha Hnot]]; [|naive_solver|].
      * assert (w = v) as -> by congruence.
        destruct (decide (k0 ∈ ks)); [naive_solver|].
        right. split; [naive_solver|]. intros k' Hk' Hd'.
        by assert (k' = k0) as -> by eauto.
      * right. split; [|naive_solver]. right. split; [|done].
        intros ->. by eapply Hnot; [left|].
  - split; [|naive_solver].
    intros [[? ?]|[Ha Hnot]]; [naive_solver|]. right. split; [done|].
    intros k' [->|?]; [congruence|naive_solver].
Qed.

(** For a dictionary with distinct values, [reverse_dict] maps [v] to [k]
    exactly when [d] maps [k] to [v], whatever order the items come in. *)
Theorem reverse_dict_spec `{DictOrder K} `{Countable V} (d : gmap K V)
    (Hinj : forall k1 k2 v, d !! k1 = Some v -> d !! k2 = Some v -> k1 = k2) v k :
  reverse_dict d !! v = Some k <-> d !! k = Some v.
Proof.
  unfold reverse_dict. rewrite lookup_foldl_reverse by done.
  rewrite elem_of_dict_keys, elem_of_dom, lookup_empty. naive_solver.
Qed.

Lemma reverse_dict_spec_witness :
  let d : gmap nat nat := {[1 := 10; 2 := 20]} in
  (forall k1 k2 v, d !! k1 = Some v -> d !! k2 = Some v -> k1 = k2) /\
  (reverse_dict d !! 20 = Some 2 <-> d !! 2 = Some 20).
Proof.
  intros d.
  assert (Hinj : forall k1 k2 v, d !! k1 = Some v -> d !! k2 = Some v -> k1 = k2).
  { intros k1 k2 v. unfold d. rewrite !lookup_insert_Some, !lookup_singleton_Some. lia. }
  split; [exact Hinj|]. apply reverse_dict_spec. exact Hinj.
Defined.

Lemma transpose_lookup {A} (m : list (list A)) n i j :
  m <> [] -> Forall (fun r => length r = n) m -> j < n ->
  transpose m !! j ≫= (fun c => c !! i) = m !! i ≫= (fun r => r !! j).
Proof.
  unfold transpose. intros Hm Hrect Hj. revert i. induction Hrect as [|r m Hr Hrect IH]; [done|].
  intros i. destruct m as [|r' m].
  - cbn [zip_star].
    assert (Hlk : map (fun x : A => [x]) r !! j = (fun x => [x]) <$> r !! j)
      by apply list_lookup_fmap.
    rewrite Hlk. destruct (lookup_lt_is_Some_2 r j) as [x Hx]; [lia|].
    rewrite Hx. destruct i as [|i]; cbn; [by rewrite Hx|]. by destruct i.
  - change (zip_star (r :: r' :: m)) with (zip_with cons r (zip_star (r' :: m))).
    rewrite lookup_zip_with. destruct (lookup_lt_is_Some_2 r j) as [x Hx]; [lia|].
    rewrite Hx. cbn [mbind option_bind].
    specialize (IH ltac:(done)). destruct (zip_star (r' :: m) !! j) as [c|] eqn:Hc.
    + cbn [mbind option_bind]. destruct i as [|i]; cbn; [by rewrite Hx|].
      exact (IH i).
    + exfalso. specialize (IH 0). cbn in IH.
      rewrite Forall_cons in Hrect. destruct Hrect as [Hr' _].
      destruct (lookup_lt_is_Some_2 r' j) as [x' Hx']; [lia|]. congruence.
Qed.

(** ** The remaining functions *)

Lemma lsb_spec x n : (0 <= n)%Z -> lsb x n = Ok (x mod 2 ^ n)%Z.
Proof.
  intros Hn. unfold lsb. rewrite decide_False by lia. f_equal.
  replace (2 ^ n - 1)%Z with (Z.ones n) by (rewrite Z.ones_equiv; lia).
  by apply Z.land_ones.
Qed.

Lemma draw_vector_ok draw k from :
  (forall j, 0 <= draw j < 1024)%Z ->
  exists v, draw_vector draw k from = Ok v /\ length v = 10 * k.
Proof.
  intros Hd. revert from. induction k as [|k IH]; intros from; cbn [draw_vector].
  - by exists [].
  - change 10%Z with (Z.of_nat 10). rewrite int2bin_bits by (lia || apply Hd).
    rewrite decide_True by (apply Hd). cbn [res_bind].
    destruct (IH (S from)) as (v & -> & Hv). cbn [res_bind].
    eexists. split; [done|]. rewrite length_app, length_bits_msb. lia.
Qed.

(** Without a maximum, [random_vec] returns a vector of the length asked for. *)
Lemma random_vec_length draw bits : (forall j, 0 <= draw j < 1024)%Z ->
  exists v, random_vec draw bits None = Ok v /\ length v = bits.
Proof.
  intros Hd. unfold random_vec.
  destruct (draw_vector_ok draw (bits / 10 + 1) 0 Hd) as (v & -> & Hv). cbn [res_bind].
  eexists. split; [done|]. unfold slice_to, slice_index.
  rewrite decide_False, length_take by lia.
  pose proof (Nat.div_mod_eq bits 10). pose proof (Nat.mod_upper_bound bits 10). lia.
Qed.

(** With a maximum it can raise: the vector drawn is longer than [bits], so the
    value scaled down does not fit in [bits] digits. *)
Example random_vec_raises :
  random_vec (fun _ => 1023%Z) 3 (Some 5%Z) = Raise ValueError.
Proof. vm_compute. reflexivity. Qed.

Lemma shoelace_scale p l :
  shoelace (map (fun q => (q.1 * p, q.2 * p))%Z l) = (p * p * shoelace l)%Z.
Proof.
  induction l as [|[x0 y0] l IH]; [simpl; lia|]. destruct l as [|[x1 y1] l]; [simpl; lia|].
  cbn [map] in *. cbn [shoelace fst snd] in *. rewrite IH. lia.
Qed.

(** [polygon_area] closes the polygon if it is open and, for an even precision,
    loses nothing in [area / 2]; its argument is left scaled (and closed). *)
Lemma polygon_area_spec first pts p : (0 < p)%Z -> Z.even p = true ->
  let lst := default first (last (first :: pts)) in
  let closed := if decide (lst <> first) then (first :: pts) ++ [first] else first :: pts in
  polygon_area (first :: pts) p
  = Ok (map (fun q => (q.1 * p, q.2 * p))%Z closed, (p * p / 2 * Z.abs (shoelace closed))%Z).
Proof.
  intros Hp Hev lst closed. unfold polygon_area.
  set (sc := fun q : Z * Z => (q.1 * p, q.2 * p)%Z).
  assert (Hinj : forall a b, sc a = sc b -> a = b).
  { intros [a1 a2] [b1 b2] [= H1 H2]. f_equal; nia. }
  assert (Hlast : last (map sc (first :: pts)) = Some (sc lst)).
  { unfold lst. change (map sc) with (fmap (M := list) sc). rewrite fmap_last.
    by destruct (last (first :: pts)) eqn:E; [|rewrite last_None in E]. }
  rewrite Hlast. cbn [map head].
  assert (Hclosed : (if decide (sc lst <> sc first) then (sc first :: map sc pts) ++ [sc first]
                     else sc first :: map sc pts) = map sc closed).
  { unfold closed. clear Hlast. clearbody lst.
    destruct (decide (lst <> first)) as [Hne|Heq].
    - rewrite decide_True by (intros ?%Hinj; done). by rewrite map_app.
    - apply dec_stable in Heq. subst lst. by rewrite decide_False by tauto. }
  rewrite Hclosed. do 2 f_equal. unfold sc. rewrite shoelace_scale.
  apply Z.even_spec in Hev as [k ->].
  replace (2 * k * (2 * k))%Z with (2 * k * k * 2)%Z by lia.
  rewrite Z.div_mul by lia.
  replace (2 * k * k * 2 * shoelace closed)%Z with (2 * k * k * shoelace closed * 2)%Z by lia.
  rewrite Z.div_mul by lia. rewrite Z.abs_mul. f_equal. nia.
Qed.

(** The items without a dash are what [d['args']] holds, in order. *)
Lemma get_args_positional argv :
  get_args argv !! args_key = Some (ArgList (filter (fun a => head a <> Some "-"%char) argv)).
Proof.
  unfold get_args.
  assert (Hgen : forall d args, (foldl get_args_step (d, args) argv).2
    = args ++ filter (fun a => head a <> Some "-"%char) argv).
  { induction argv as [|a argv IH]; intros d args; cbn [foldl]; [by rewrite app_nil_r|].
    rewrite filter_cons.
    assert (Hstep : (get_args_step (d, args) a).2
      = args ++ (if decide (head a <> Some "-"%char) then [a] else [])).
    { unfold get_args_step. repeat case_decide; try done.
      by destruct (split_on _ _) as [|n [|v [|? ?]]]; cbn; rewrite app_nil_r. }
    destruct (get_args_step (d, args) a) as [d' args'] eqn:E. rewrite IH. simpl in Hstep.
    rewrite Hstep. case_decide; by rewrite <- ?app_assoc, ?app_nil_r. }
  specialize (Hgen ∅ []). destruct (foldl _ _ _) as [d args]. cbn in Hgen. subst args.
  apply lookup_insert_eq.
Qed.
