(* ===== verification/RadStats.v ===== *)
(** * Statistics and units: [src/bindings/python/rad_util.py]

    The functions of the module on floating point numbers, which are rationals here: [quantile], [trim],
    [nice_units], [float_range].  The module is for Python 2.  The formats that [nice_units] makes up
    and evaluates are a parameter. *)

From S2P Require Import Prelude Rationals.
From Stdlib Require Import QArith Qround Qabs Qpower Lqa.
From stdpp Require Import strings sorting.
Local Open Scope nat_scope.
Local Open Scope string_scope.
Local Open Scope list_scope.
Local Open Scope py_scope.

Inductive stat_exn := IndexError | KeyError.

(** [int(r)], and [l[i]], from the end if [i] is negative. *)
Definition py_trunc (r : Q) : Z := if Qle_bool 0 r then Qfloor r else Qceiling r.
Definition list_get {A} (l : list A) (i : Z) : res stat_exn A :=
  let j := (if decide (i < 0)%Z then Z.of_nat (length l) + i else i)%Z in
  if decide (0 <= j)%Z then match l !! Z.to_nat j with Some x => Ok x | None => Raise IndexError end else Raise IndexError.

(** ** [quantile] and [trim] *)

Definition quantile (l : list Q) (p : Q) : res stat_exn Q :=
  let l_sort := sort_q l in
  let n := Z.of_nat (length l) in
  let r := (1 + inject_Z (n - 1) * p)%Q in
  let i := py_trunc r in
  let f := (r - inject_Z i)%Q in
  let* a := list_get l_sort (i - 1) in
  if decide (i < n)%Z then let* b := list_get l_sort i in Ok ((1 - f) * a + f * b)%Q else Ok a.
(** The median is computed and not used; of an empty list it is an error. *)
Definition median (l_sort : list Q) : res stat_exn Q :=
  let n := Z.of_nat (length l_sort) in
  if decide (n mod 2 = 0)%Z then
    let* a := list_get l_sort (n / 2) in
    let* b := list_get l_sort (n / 2 - 1) in Ok ((a + b) / 2)%Q
  else list_get l_sort (n / 2).
Definition in_interval (q1 q3 x : Q) : bool :=
  let i := ((q3 - q1) * (3 # 2))%Q in Qle_bool (q1 - i) x && Qle_bool x (q3 + i).
Definition trim (l : list Q) : res stat_exn (list Q) :=
  let l_sort := sort_q l in
  let* _ := median l_sort in
  let* q1 := quantile l_sort (1 # 4) in
  let* q3 := quantile l_sort (3 # 4) in
  Ok (filter (fun x => in_interval q1 q3 x = true) l_sort).

(** ** [float_range] *)

Definition float_range (fuel : nat) (start : Q) (stop step : option Q) : res stat_exn (list Q) :=
  let '(start, stop) := match stop with Some stop => (start, stop) | None => (0%Q, start) end in
  progression fuel start stop (default 1%Q step).

(** ** [nice_units] *)

(** A table of prefixes: the multiplier, the symbol and the full name. *)
Abbreviation prefix_table := (list (Q * (string * string))).
Definition ten (n : Z) : Q := Qpower 10 n.
Definition si_prefixes : prefix_table :=
  [(ten 24, ("Y", "yotta")); (ten 21, ("Z", "zetta")); (ten 18, ("E", "exa")); (ten 15, ("P", "peta"));
   (ten 12, ("T", "tera")); (ten 9, ("G", "giga")); (ten 6, ("M", "mega")); (ten 3, ("k", "kilo"));
   (ten (-3), ("m", "milli")); (ten (-6), ("u", "micro")); (ten (-9), ("n", "nano")); (ten (-12), ("p", "pico"));
   (ten (-15), ("f", "femto")); (ten (-18), ("a", "atto")); (ten (-21), ("z", "zepto")); (ten (-24), ("y", "yocto"))].
Definition extra_prefixes : prefix_table :=
  [(ten 2, ("h", "hecto")); (ten 1, ("da", "deka")); (ten (-1), ("d", "deci")); (ten (-2), ("c", "centi"))].
Definition two (n : Z) : Q := Qpower 2 n.
Definition bin_prefixes : prefix_table :=
  [(two 10, ("K", "kilo")); (two 20, ("M", "mega")); (two 30, ("G", "mega")); (two 40, ("T", "tera"));
   (two 50, ("P", "peta")); (two 60, ("E", "exa"))].
Inductive units_mode := Si | Bin.
Definition prefixes (m : units_mode) (use_extra_prefixes : bool) : prefix_table :=
  (1%Q, ("", "")) ::
  match m with Bin => bin_prefixes | Si => si_prefixes ++ if use_extra_prefixes then extra_prefixes else [] end.
(** The loop over the multipliers: the place of the last that the value reaches, unless it is below the first or
    past the last. *)
Fixpoint find_multiplier (i : nat) (value : Q) (multipliers : list Q) : option nat :=
  match multipliers with
  | lower :: rest =>
      match rest with
      | upper :: _ => if Qle_bool lower value && lt_bool value upper then Some i else find_multiplier (S i) value rest
      | [] => None
      end
  | [] => None
  end.
Definition multiplier_index (value : Q) (multipliers : list Q) : nat :=
  let mult_i := default 0 (find_multiplier 0 value multipliers) in
  let mult_i := if lt_bool value (default 0%Q (head multipliers)) then 0 else mult_i in
  if Qle_bool (default 0%Q (last multipliers)) value then length multipliers - 1 else mult_i.
(** [round(x, dp)] of Python 2, which rounds halves away from zero. *)
Definition py_round (x : Q) (dp : Z) : Q :=
  let n := inject_Z (Qfloor (Qabs x * ten dp + (1 # 2))) in
  let n := if Qle_bool 0 x then n else (- n)%Q in (n / ten dp)%Q.
Fixpoint prefix_of (mult : Q) (t : prefix_table) : option (string * string) :=
  match t with [] => None | (k, names) :: t => if Qeq_bool k mult then Some names else prefix_of mult t end.
Section Units.
(** [%.<dp>f] or [%.<sigfigs>g]. *)
Context (format_f format_g : Z -> Q -> string).
(** The multiplier, after the special case due to rounding. *)
Definition multiplier (value : Q) (dp : Z) (sigfigs : option Z) (multipliers : list Q) : Q :=
  let i := multiplier_index value multipliers in
  let mult := default 0%Q (multipliers !! i) in
  match sigfigs, multipliers !! S i with
  | None, Some next => if Qeq_bool (py_round (value / mult) dp) (py_round (next / mult) dp) then next else mult
  | _, _ => mult
  end.
Definition nice_units (value : Q) (dp : Z) (sigfigs : option Z) (suffix space : string)
    (use_extra_prefixes use_full_name : bool) (m : units_mode) : res stat_exn string :=
  let t := prefixes m use_extra_prefixes in
  let mult := multiplier value dp sigfigs (sort_q (map fst t)) in
  let new_value := (value / mult)%Q in
  let str_value := match sigfigs with None => format_f dp new_value | Some k => format_g k new_value end in
  match prefix_of mult t with
  | Some names => Ok (str_value +:+ space +:+ (if use_full_name then names.2 else names.1) +:+ suffix)
  | None => Raise KeyError
  end.
End Units.

(** ** Order statistics *)

Local Open Scope Q_scope.
Lemma list_get_nat (l : list Q) (i : Z) x : (0 <= i)%Z -> l !! Z.to_nat i = Some x -> list_get l i = Ok x.
Proof. intros Hi Hx. unfold list_get. rewrite (decide_False (P := (i < 0)%Z)), decide_True, Hx by lia. done. Qed.
Lemma floor_spec q : inject_Z (Qfloor q) <= q /\ q < inject_Z (Qfloor q) + 1.
Proof.
  split; [apply Qfloor_le|]. pose proof (Qlt_floor q) as H. by rewrite inject_Z_plus in H.
Qed.
Lemma inject_le a b : (a <= b)%Z <-> inject_Z a <= inject_Z b.
Proof. by rewrite Zle_Qle. Qed.
Lemma sort_q_length l : length (sort_q l) = length l.
Proof. apply Permutation_length, sort_q_perm. Qed.

(** The element of a sorted list at a place, and the one after it, if there is one. *)
Definition at_place (l : list Q) (h : Q) (lo hi : Q) : Prop :=
  (0 <= Qfloor h)%Z /\ l !! Z.to_nat (Qfloor h) = Some lo /\
  (l !! S (Z.to_nat (Qfloor h)) = Some hi \/ (S (Z.to_nat (Qfloor h)) = length l /\ h == inject_Z (Qfloor h) /\ hi = lo)).
Lemma place_exists (l : list Q) (h : Q) : 0 <= h -> h <= inject_Z (Z.of_nat (length l) - 1) ->
  exists lo hi, at_place l h lo hi.
Proof.
  intros H0 H1. destruct (floor_spec h) as [F1 F2]. set (k := Qfloor h) in *.
  assert (Hk0 : (0 <= k)%Z).
  { apply Z.lt_succ_r. rewrite Zlt_Qlt. unfold Z.succ. rewrite inject_Z_plus. change (inject_Z 0) with 0. change (inject_Z 1) with 1. lra. }
  assert (Hk1 : (k <= Z.of_nat (length l) - 1)%Z) by (apply inject_le; lra).
  destruct (lookup_lt_is_Some_2 l (Z.to_nat k)) as [lo Hlo]; [lia|]. exists lo.
  destruct (decide (S (Z.to_nat k) < length l)%nat) as [Hlt|Hge].
  - destruct (lookup_lt_is_Some_2 l (S (Z.to_nat k)) Hlt) as [hi Hhi]. exists hi. split; [done|]. split; [done|]. by left.
  - exists lo. split; [done|]. split; [done|]. right. split; [lia|]. split; [|done].
    assert (E : (Z.of_nat (length l) - 1 = k)%Z) by lia. rewrite E in H1. fold k. lra.
Qed.
Lemma quantile_at l p lo hi : l <> [] -> 0 <= p -> p <= 1 ->
  let h := inject_Z (Z.of_nat (length l) - 1) * p in
  at_place (sort_q l) h lo hi ->
  exists q, quantile l p = Ok q /\ q == lo + (h - inject_Z (Qfloor h)) * (hi - lo).
Proof.
  intros Hl Hp0 Hp1 h (Hk0 & Hlo & Hhi). destruct (floor_spec h) as [F1 F2]. set (k := Qfloor h) in *.
  unfold quantile. fold h.
  assert (Ei : py_trunc (1 + h) = (k + 1)%Z).
  { unfold py_trunc. assert (0 <= 1 + h) by (apply inject_le in Hk0; change (inject_Z 0) with 0 in Hk0; lra).
    rewrite (proj2 (Qle_bool_iff _ _)) by done.
    assert (k + 1 <= Qfloor (1 + h))%Z by (rewrite <- (Qfloor_Z (k + 1)); apply Qfloor_resp_le; rewrite inject_Z_plus; change (inject_Z 1) with 1; lra).
    assert (Qfloor (1 + h) < k + 2)%Z.
    { rewrite Zlt_Qlt, inject_Z_plus. change (inject_Z 2) with 2. pose proof (Qfloor_le (1 + h)). lra. }
    lia. }
  rewrite Ei. replace (k + 1 - 1)%Z with k by lia. rewrite (list_get_nat _ _ lo Hk0 Hlo). cbn [res_bind].
  assert (Ef : 1 + h - inject_Z (k + 1) == h - inject_Z k) by (rewrite inject_Z_plus; change (inject_Z 1) with 1; ring).
  destruct Hhi as [Hhi|(Hend & Hh & ->)].
  - pose proof (lookup_lt_Some _ _ _ Hhi) as Hlt. rewrite sort_q_length in Hlt. rewrite decide_True by lia.
    rewrite (list_get_nat _ (k + 1) hi); [|lia|by replace (Z.to_nat (k + 1)) with (S (Z.to_nat k)) by lia].
    eexists. split; [done|]. rewrite Ef. ring.
  - rewrite sort_q_length in Hend. rewrite decide_False by lia. exists lo. split; [done|]. rewrite Hh. ring.
Qed.
Lemma at_place_le l h lo hi : at_place (sort_q l) h lo hi -> lo <= hi.
Proof.
  intros (_ & Hlo & [Hhi|(_ & _ & ->)]); [|lra].
  eapply (sorted_lookup (sort_q l)); [apply sort_q_sorted|exact Hlo|exact Hhi|lia].
Qed.
Lemma floor_le h h' : h <= h' -> (Qfloor h <= Qfloor h')%Z.
Proof. apply Qfloor_resp_le. Qed.
Lemma interpolate h lo hi : lo <= hi -> inject_Z (Qfloor h) <= h -> h < inject_Z (Qfloor h) + 1 ->
  lo <= lo + (h - inject_Z (Qfloor h)) * (hi - lo) /\ lo + (h - inject_Z (Qfloor h)) * (hi - lo) <= hi.
Proof.
  intros H1 H2 H3. assert (0 <= (h - inject_Z (Qfloor h)) * (hi - lo)) by (apply Qmult_le_0_compat; lra).
  assert (0 <= (1 - (h - inject_Z (Qfloor h))) * (hi - lo)) by (apply Qmult_le_0_compat; lra). lra.
Qed.
Lemma interpolate_le l h h' lo hi lo' hi' : h <= h' ->
  at_place (sort_q l) h lo hi -> at_place (sort_q l) h' lo' hi' ->
  lo + (h - inject_Z (Qfloor h)) * (hi - lo) <= lo' + (h' - inject_Z (Qfloor h')) * (hi' - lo').
Proof.
  intros Hh Ha Ha'. pose proof (at_place_le _ _ _ _ Ha) as Hle. pose proof (at_place_le _ _ _ _ Ha') as Hle'.
  destruct (floor_spec h) as [F1 F2], (floor_spec h') as [F1' F2']. pose proof (floor_le _ _ Hh) as Hk.
  pose proof (interpolate h lo hi Hle F1 F2) as [_ I]. pose proof (interpolate h' lo' hi' Hle' F1' F2') as [I' _].
  destruct Ha as (Hk0 & Hlo & Hhi), Ha' as (Hk0' & Hlo' & Hhi').
  destruct (decide (Qfloor h = Qfloor h')) as [E|Hne].
  - rewrite <- E in *. assert (lo' = lo) as -> by congruence.
    assert (hi' = hi) as ->.
    { destruct Hhi as [Hhi|(Hend & _ & ->)], Hhi' as [Hhi'|(Hend' & _ & ->)]; try congruence.
      - apply lookup_lt_Some in Hhi. lia.
      - apply lookup_lt_Some in Hhi'. lia. }
    assert (0 <= (h' - h) * (hi - lo)) by (apply Qmult_le_0_compat; lra). lra.
  - assert (hi <= lo').
    { destruct Hhi as [Hhi|(_ & _ & ->)].
      - eapply (sorted_lookup (sort_q l)); [apply sort_q_sorted|exact Hhi|exact Hlo'|lia].
      - eapply (sorted_lookup (sort_q l)); [apply sort_q_sorted|exact Hlo|exact Hlo'|lia]. }
    lra.
Qed.
Lemma quantile_place (l : list Q) (p : Q) : l <> [] -> 0 <= p -> p <= 1 ->
  let h := inject_Z (Z.of_nat (length l) - 1) * p in
  0 <= h /\ exists lo hi, at_place (sort_q l) h lo hi.
Proof.
  intros Hl Hp0 Hp1 h. assert (Hn : (0 <= Z.of_nat (length l) - 1)%Z) by (destruct l; [done|cbn; lia]).
  apply inject_le in Hn. change (inject_Z 0) with 0 in Hn.
  assert (0 <= h) by (by apply Qmult_le_0_compat).
  split; [done|]. apply place_exists; [done|]. rewrite sort_q_length. unfold h.
  assert (0 <= inject_Z (Z.of_nat (length l) - 1) * (1 - p)) by (apply Qmult_le_0_compat; lra). lra.
Qed.

(** a quantile is the value between the two neighbours of its place in the sorted list, in proportion. *)
Theorem quantile_spec (l : list Q) (p : Q) (Hl : l <> []) (Hp0 : 0 <= p) (Hp1 : p <= 1) :
  let h := inject_Z (Z.of_nat (length l) - 1) * p in
  exists q lo hi, quantile l p = Ok q /\ at_place (sort_q l) h lo hi /\
    q == lo + (h - inject_Z (Qfloor h)) * (hi - lo) /\ lo <= q <= hi.
Proof.
  intros h. destruct (quantile_place l p Hl Hp0 Hp1) as (_ & lo & hi & Ha).
  destruct (quantile_at l p lo hi Hl Hp0 Hp1 Ha) as (q & Eq & E). exists q, lo, hi.
  destruct (floor_spec h) as [F1 F2]. pose proof (interpolate h lo hi (at_place_le _ _ _ _ Ha) F1 F2) as [I1 I2].
  split; [done|]. split; [done|]. split; [exact E|]. fold h in E. lra.
Qed.
Lemma quantile_spec_witness : exists q, quantile [4; 1; 2] (3 # 4) = Ok q /\ q == 3.
Proof.
  destruct (quantile_spec [4; 1; 2] (3 # 4)) as (q & lo & hi & E & _); [done|lra|lra|].
  exists q. split; [exact E|]. assert (E' : quantile [4; 1; 2] (3 # 4) = Ok q) by exact E.
  vm_compute in E'. injection E' as <-. reflexivity.
Defined.
Lemma median_ok (l : list Q) : l <> [] -> exists q, median l = Ok q.
Proof.
  intros Hl. assert (Hn : (0 < Z.of_nat (length l))%Z) by (destruct l; [done|cbn; lia]).
  assert (Hget : forall i, (0 <= i < Z.of_nat (length l))%Z -> exists x, list_get l i = Ok x).
  { intros i Hi. destruct (lookup_lt_is_Some_2 l (Z.to_nat i)) as [x Hx]; [lia|]. exists x. by apply list_get_nat; [lia|]. }
  unfold median. set (n := Z.of_nat (length l)) in *. pose proof (Z.div_mod n 2) as Hd. pose proof (Z.mod_pos_bound n 2) as Hm.
  case_decide as E.
  - destruct (Hget (n / 2)%Z) as [a Ha]; [lia|]. destruct (Hget (n / 2 - 1)%Z) as [b Hb]; [lia|]. rewrite Ha. cbn. rewrite Hb. by eexists.
  - apply Hget. lia.
Qed.
(** Trimming keeps, in order, the values that are no further than one and a half interquartile ranges from the
    quartiles, and so all that lie between the quartiles. *)
Theorem trim_spec (l : list Q) (Hl : l <> []) :
  exists q1 q3 t, quantile (sort_q l) (1 # 4) = Ok q1 /\ quantile (sort_q l) (3 # 4) = Ok q3 /\ q1 <= q3 /\
    trim l = Ok t /\ t `sublist_of` sort_q l /\
    (forall x, x ∈ t <-> x ∈ l /\ q1 - (3 # 2) * (q3 - q1) <= x <= q3 + (3 # 2) * (q3 - q1)) /\
    (forall x, x ∈ l -> q1 <= x <= q3 -> x ∈ t).
Proof.
  assert (Hs : sort_q l <> []) by (intros E; apply Hl, Permutation_nil_r; rewrite <- E; symmetry; apply sort_q_perm).
  destruct (quantile_place (sort_q l) (1 # 4) Hs ltac:(lra) ltac:(lra)) as (_ & lo1 & hi1 & A1).
  destruct (quantile_place (sort_q l) (3 # 4) Hs ltac:(lra) ltac:(lra)) as (_ & lo3 & hi3 & A3).
  destruct (quantile_at _ (1 # 4) lo1 hi1 Hs ltac:(lra) ltac:(lra) A1) as (q1 & E1 & V1).
  destruct (quantile_at _ (3 # 4) lo3 hi3 Hs ltac:(lra) ltac:(lra) A3) as (q3 & E3 & V3).
  assert (Hq : q1 <= q3).
  { rewrite V1, V3. eapply interpolate_le; [|exact A1|exact A3].
    assert (0 <= inject_Z (Z.of_nat (length (sort_q l)) - 1)).
    { change 0 with (inject_Z 0). rewrite <- inject_le. assert (length (sort_q l) <> 0)%nat by (by destruct (sort_q l)). lia. }
    lra. }
  destruct (median_ok _ Hs) as [md Em].
  exists q1, q3, (filter (fun x => in_interval q1 q3 x = true) (sort_q l)).
  assert (Hin : forall x, x ∈ filter (fun x => in_interval q1 q3 x = true) (sort_q l) <->
    x ∈ l /\ q1 - (3 # 2) * (q3 - q1) <= x <= q3 + (3 # 2) * (q3 - q1)).
  { intros x. rewrite list_elem_of_filter, (sort_q_perm l). unfold in_interval. rewrite andb_true_iff, !Qle_bool_iff.
    split; intros [[H1 H2] H3] || intros [H1 [H2 H3]]; (split; [done||lra|done||lra]). }
  split; [done|]. split; [done|]. split; [done|]. split; [unfold trim; by rewrite Em, E1, E3|].
  split; [apply sublist_filter|]. split; [exact Hin|]. intros x Hx [H1 H3]. apply Hin. split; [done|lra].
Qed.
Lemma trim_spec_witness : exists t, trim [1; 2; 3; 4; 100] = Ok t.
Proof. destruct (trim_spec [1; 2; 3; 4; 100] ltac:(done)) as (q1 & q3 & t & _ & _ & _ & E & _). by exists t. Defined.
Lemma trim_empty : trim [] = Raise IndexError /\ quantile [] (1 # 2) = Raise IndexError.
Proof. by split. Qed.

(** ** Ranges *)

(** The range has the values from the start by steps, below the stop; a step that does not go forward
    makes the loop endless. *)
Lemma float_range_spec start stop step : 0 < step -> start < stop ->
  exists l, float_range (progression_fuel start stop step) start (Some stop) (Some step) = Ok l /\
    stop <= start + inject_Z (Z.of_nat (length l)) * step /\
    forall k t, l !! k = Some t -> t == start + inject_Z (Z.of_nat k) * step /\ t < stop.
Proof.
  intros Hs Hx. destruct (progression_spec (Exn:=stat_exn) start stop step Hs Hx) as (l & E & H1 & _ & H2). by exists l.
Qed.
Lemma float_range_endless fuel start stop step : step <= 0 -> start < stop ->
  float_range fuel start (Some stop) (Some step) = OutOfFuel.
Proof. intros Hs Hx. by apply progression_stuck. Qed.

(** ** Units *)

Lemma find_multiplier_some value ms : forall i j, find_multiplier i value ms = Some j ->
  exists k lower upper, j = (i + k)%nat /\ ms !! k = Some lower /\ ms !! S k = Some upper /\ lower <= value < upper.
Proof.
  induction ms as [|lower ms IH]; intros i j; [done|]. cbn [find_multiplier]. destruct ms as [|upper ms]; [done|].
  destruct (Qle_bool lower value && lt_bool value upper) eqn:E.
  - apply andb_true_iff in E as [E1%Qle_bool_iff E2%lt_bool_true]. intros [= <-]. exists 0%nat, lower, upper.
    split; [lia|done].
  - intros (k & lo & up & -> & H1 & H2 & H3)%IH. exists (S k), lo, up. split; [lia|done].
Qed.
Lemma find_multiplier_none value ms : forall i, find_multiplier i value ms = None ->
  match head ms with Some m => m <= value | None => True end ->
  match last ms with Some m => m <= value | None => True end.
Proof.
  induction ms as [|lower ms IH]; intros i; [done|]. cbn [find_multiplier]. destruct ms as [|upper ms]; [done|].
  destruct (Qle_bool lower value && lt_bool value upper) eqn:E; [done|]. intros Hn Hlo. cbn [head] in Hlo.
  change (last (lower :: upper :: ms)) with (last (upper :: ms)). apply (IH (S i) Hn). cbn [head].
  rewrite (proj2 (Qle_bool_iff _ _) Hlo) in E. by apply lt_bool_false in E.
Qed.
Lemma multiplier_index_spec value ms m0 : StronglySorted Qle ms -> head ms = Some m0 -> m0 <= value ->
  exists m, ms !! multiplier_index value ms = Some m /\ m <= value /\ forall m', m' ∈ ms -> m' <= value -> m' <= m.
Proof.
  intros Hs Hh Hv. unfold multiplier_index. rewrite Hh. change (default 0 (Some m0)) with m0.
  rewrite (proj2 (lt_bool_false value m0) Hv).
  assert (Hl : exists ml, last ms = Some ml /\ ms !! (length ms - 1)%nat = Some ml).
  { destruct ms as [|x ms _] using rev_ind; [done|]. exists x. rewrite last_snoc, length_app. cbn.
    split; [done|]. rewrite lookup_app_r by lia. by replace (length ms + 1 - 1 - length ms)%nat with 0%nat by lia. }
  destruct Hl as (ml & El & Hml). rewrite El. change (default 0 (Some ml)) with ml.
  destruct (Qle_bool ml value) eqn:E.
  - apply Qle_bool_iff in E. exists ml. split; [done|]. split; [done|]. intros m' [j Hj]%list_elem_of_lookup_1 _.
    pose proof (lookup_lt_Some _ _ _ Hj). eapply sorted_lookup; [exact Hs|exact Hj|exact Hml|lia].
  - assert (E' : ~ ml <= value) by (intros H%Qle_bool_iff; congruence).
    destruct (find_multiplier 0 value ms) as [j|] eqn:Ef.
    + apply find_multiplier_some in Ef as (k & lo & up & -> & Hlo & Hup & H1 & H2). exists lo. split; [done|].
      split; [done|]. intros m' [j Hj]%list_elem_of_lookup_1 Hm'. destruct (decide (j <= k)%nat) as [Hjk|Hjk].
      * by eapply sorted_lookup.
      * assert (up <= m') by (eapply sorted_lookup; [exact Hs|exact Hup|exact Hj|lia]). lra.
    + apply find_multiplier_none in Ef; [rewrite El in Ef; done|by rewrite Hh].
Qed.
Lemma prefix_of_some mult t : mult ∈ map fst t -> exists k names, prefix_of mult t = Some names /\ (k, names) ∈ t /\ k == mult.
Proof.
  induction t as [|[k names] t IH]; cbn; [by intros ?%not_elem_of_nil|]. intros Hin. destruct (Qeq_bool k mult) eqn:E.
  - apply Qeq_bool_iff in E. exists k, names. split; [done|]. split; [by left|done].
  - destruct IH as (k' & names' & H1 & H2 & H3).
    { apply elem_of_cons in Hin as [?|Hin]; [|done]. subst mult. by rewrite (proj2 (Qeq_bool_iff k k)) in E. }
    exists k', names'. split; [done|]. split; [by right|done].
Qed.

Section UnitFacts.
Context (format_f format_g : Z -> Q -> string).
(** A value that reaches the smallest unit is shown in the largest unit that it reaches, or in the next one if
    it rounds up to it, with the name of that unit. *)
Theorem nice_units_spec (value : Q) (dp : Z) (sigfigs : option Z) (suffix space : string)
    (extra full : bool) (m : units_mode) (m0 : Q) :
  let ms := sort_q (map fst (prefixes m extra)) in
  head ms = Some m0 -> m0 <= value ->
  exists mult k names, mult ∈ ms /\ (k, names) ∈ prefixes m extra /\ k == mult /\
    nice_units format_f format_g value dp sigfigs suffix space extra full m =
      Ok (match sigfigs with None => format_f dp (value / mult) | Some s => format_g s (value / mult) end +:+
          space +:+ (if full then names.2 else names.1) +:+ suffix) /\
    (forall m', m' ∈ ms -> m' <= value -> m' <= mult) /\
    (mult <= value \/ sigfigs = None /\ exists prev, prev ∈ ms /\ prev <= value /\
                        py_round (value / prev) dp == py_round (mult / prev) dp).
Proof.
  intros ms Hh Hv. assert (Hs : StronglySorted Qle ms) by apply sort_q_sorted.
  destruct (multiplier_index_spec value ms m0 Hs Hh Hv) as (mu & Hmu & Hle & Hmax).
  assert (Hin : mu ∈ ms) by (by eapply list_elem_of_lookup_2).
  assert (Hmult : exists mult, multiplier value dp sigfigs ms = mult /\ mult ∈ ms /\
    (forall m', m' ∈ ms -> m' <= value -> m' <= mult) /\
    (mult <= value \/ sigfigs = None /\ exists prev, prev ∈ ms /\ prev <= value /\
                        py_round (value / prev) dp == py_round (mult / prev) dp)).
  { unfold multiplier. rewrite Hmu. change (default 0 (Some mu)) with mu. destruct sigfigs as [s|]; [exists mu; auto|].
    destruct (ms !! S (multiplier_index value ms)) as [next|] eqn:En; [|exists mu; auto].
    destruct (Qeq_bool _ _) eqn:Er; [|exists mu; auto]. apply Qeq_bool_iff in Er. exists next.
    split; [done|]. split; [by eapply list_elem_of_lookup_2|]. split; [|right; split; [done|by exists mu]].
    intros m' Hm' Hv'. specialize (Hmax m' Hm' Hv').
    assert (mu <= next) by (eapply sorted_lookup; [exact Hs|exact Hmu|exact En|lia]). lra. }
  destruct Hmult as (mult & Em & Hmin & H1 & H2). exists mult.
  destruct (prefix_of_some mult (prefixes m extra)) as (k & names & Ep & Hk & Hkm).
  { by rewrite <- (sort_q_perm (map fst (prefixes m extra))). }
  exists k, names. split; [done|]. split; [done|]. split; [done|]. split; [|done].
  unfold nice_units. fold ms. rewrite Em, Ep. reflexivity.
Qed.
End UnitFacts.
Definition demo_format (_ : Z) (q : Q) : string := if Qeq_bool q 20 then "20" else "?".
Lemma nice_units_spec_witness :
  nice_units demo_format demo_format (2 # 100000000000) 0 None "" " " false false Si = Ok "20 p" /\
  exists s, nice_units demo_format demo_format (2 # 100000000000) 0 None "" " " false false Si = Ok s.
Proof.
  split; [vm_compute; reflexivity|].
  destruct (nice_units_spec demo_format demo_format (2 # 100000000000) 0 None "" " " false false Si
    (1 # 1000000000000000000000000)) as (mult & k & names & _ & _ & _ & E & _).
  - vm_compute. reflexivity.
  - lra.
  - eexists. exact E.
Defined.
(** Zero and negative values are below every unit: they are shown in the smallest. *)
Lemma zero_in_yocto f g : nice_units f g 0 0 None "" " " false false Si = Ok (f 0%Z (0 / ten (-24)) +:+ " y").
Proof. vm_compute. reflexivity. Qed.
Lemma negative_in_yocto f g : exists q, nice_units f g (-5) 0 None "" " " false false Si = Ok (f 0%Z q +:+ " y").
Proof. eexists. vm_compute. reflexivity. Qed.
Lemma giga_is_mega f g : exists s, nice_units f g (two 30) 0 None "" " " false true Bin = Ok (s +:+ " mega").
Proof. eexists. vm_compute. reflexivity. Qed.
