(* ===== verification/Topsort.v ===== *)
(** * Dependency sorting: [src/bindings/python/topsort.py]

    [topsort], [topsort_levels] and [find_cycles].  Nodes are the keys of
    dictionaries, so any countable type; the order in which the code meets the
    keys of a dictionary is the one of the [DictOrder] in scope, and the theorems
    hold for every one of them. *)

From S2P Require Import Prelude RadUtil.
From stdpp Require Import relations gmap.

(** The exceptions: [CycleError] carries the arguments the code gives it. *)
Inductive topsort_exn (K : Type) `{Countable K} :=
  | TopKeyError
  | CycleError (answer : option (list K)) (num_parents : gmap K Z) (children : gmap K (list K)).
Arguments TopKeyError {K _ _}.
Arguments CycleError {K _ _} answer num_parents children.

(** ** The dictionaries [num_parents] and [children] *)

Definition graph (K : Type) `{Countable K} : Type := gmap K Z * gmap K (list K).

(** One pass of the loop that reads [pairlist]. *)
Definition add_pair `{Countable K} (g : graph K) (pc : K * K) : res (topsort_exn K) (graph K) :=
  let '(num_parents, children) := g in
  let '(parent, child) := pc in
  let num_parents :=
    if has_key num_parents parent then num_parents else <[parent := 0%Z]> num_parents in
  let num_parents :=
    if has_key num_parents child then num_parents else <[child := 0%Z]> num_parents in
  let* n := dict_get TopKeyError num_parents child in
  let num_parents := <[child := (n + 1)%Z]> num_parents in
  let children :=
    <[parent := default [] (children !! parent) ++ [child]]> children in
  Ok (num_parents, children).
Definition build `{Countable K} (pairlist : list (K * K)) : res (topsort_exn K) (graph K) :=
  for_each add_pair pairlist (∅, ∅).

(** ** topsort *)

Section Topsort.
Context `{DictOrder K}.

(** [for child in children[parent]]: the state is [num_parents], [answer]. *)
Definition release_child (st : gmap K Z * list K) (child : K)
    : res (topsort_exn K) (gmap K Z * list K) :=
  let '(num_parents, answer) := st in
  let* n := dict_get TopKeyError num_parents child in
  let num_parents := <[child := (n - 1)%Z]> num_parents in
  if decide (n - 1 = 0)%Z then Ok (num_parents, answer ++ [child])
  else Ok (num_parents, answer).

(** The body of [for parent in answer]. *)
Definition visit_parent (st : graph K * list K) (parent : K)
    : res (topsort_exn K) (graph K * list K) :=
  let '((num_parents, children), answer) := st in
  let* num_parents := dict_del TopKeyError num_parents parent in
  match children !! parent with
  | Some cs =>
      let* (num_parents, answer) := for_each release_child cs (num_parents, answer) in
      Ok ((num_parents, delete parent children), answer)
  | None => Ok ((num_parents, children), answer)
  end.

(** [for parent in answer], where [answer] grows in the loop: the loop reads
    the element at its own index until there is none. *)
Fixpoint visit_answer (fuel i : nat) (st : graph K * list K)
    : res (topsort_exn K) (graph K * list K) :=
  match st.2 !! i with
  | None => Ok st
  | Some parent =>
      match fuel with
      | O => OutOfFuel
      | S fuel => let* st := visit_parent st parent in visit_answer fuel (S i) st
      end
  end.

(** [[x for x in num_parents.keys() if num_parents[x] == 0]] *)
Definition orphans (num_parents : gmap K Z) : list K :=
  filter (fun x => num_parents !! x = Some 0%Z) (dict_keys num_parents).

Definition topsort (pairlist : list (K * K)) : res (topsort_exn K) (list K) :=
  let* g := build pairlist in
  let* ((num_parents, children), answer) :=
    visit_answer (size g.1) 0 (g, orphans g.1) in
  if decide (num_parents = ∅) then Ok answer
  else Raise (CycleError (Some answer) num_parents children).

(** ** topsort_levels

    A generator: the levels it yields, then how it ends. *)

Definition outcome : Type := res (topsort_exn K) unit.

(** One item of the level: drop it and count it off its children. *)
Definition release_level (st : graph K) (level_parent : K) : res (topsort_exn K) (graph K) :=
  let '(num_parents, children) := st in
  let* num_parents := dict_del TopKeyError num_parents level_parent in
  match children !! level_parent with
  | Some cs =>
      let* num_parents :=
        for_each (fun np child =>
          let* n := dict_get TopKeyError np child in Ok (<[child := (n - 1)%Z]> np))
          cs num_parents in
      Ok (num_parents, delete level_parent children)
  | None => Ok (num_parents, children)
  end.

Fixpoint topsort_levels_core (fuel : nat) (st : graph K) : list (list K) * outcome :=
  match orphans st.1 with
  | [] =>
      ([], if decide (st.1 = ∅) then Ok () else Raise (CycleError None st.1 st.2))
  | level_parents =>
      match fuel with
      | O => ([], OutOfFuel)
      | S fuel =>
          let '(levels, o) :=
            match for_each release_level level_parents st with
            | Ok st => topsort_levels_core fuel st
            | Raise e => ([], Raise e)
            | OutOfFuel => ([], OutOfFuel)
            end in
          (level_parents :: levels, o)
      end
  end.
Definition topsort_levels (pairlist : list (K * K)) : list (list K) * outcome :=
  match build pairlist with
  | Ok g => topsort_levels_core (size g.1) g
  | Raise e => ([], Raise e)
  | OutOfFuel => ([], OutOfFuel)
  end.
End Topsort.

(** ** What the two sorts promise *)

(** The nodes of a list of (parent, child) pairs, and its edges. *)
Definition nodes {K} (pairlist : list (K * K)) : list K := pairlist.*1 ++ pairlist.*2.
Definition parent_of {K} (pairlist : list (K * K)) (p c : K) : Prop := (p, c) ∈ pairlist.
Definition acyclic {K} (pairlist : list (K * K)) : Prop :=
  forall x, ~ tc (parent_of pairlist) x x.

(** [answer] lists every node once, each after all of its parents. *)
Record dependency_order {K} (pairlist : list (K * K)) (answer : list K) : Prop := {
  dep_nodup : NoDup answer;
  dep_nodes : forall x, x ∈ answer <-> x ∈ nodes pairlist;
  dep_order : forall p c j, (p, c) ∈ pairlist -> answer !! j = Some c ->
    exists i, i < j /\ answer !! i = Some p }.

(** The children of a node, and how many of the parents of a node are not among
    those already [done]. *)
Definition kids `{EqDecision K} (pairlist : list (K * K)) (p : K) : list K :=
  (filter (fun pc => pc.1 = p) pairlist).*2.
Definition pending `{EqDecision K} (pairlist : list (K * K)) (dn : list K) (x : K) : nat :=
  count (fun pc => pc.2 = x /\ pc.1 ∉ dn) pairlist.
Definition occ `{EqDecision K} (x : K) (l : list K) : nat := count (fun y => y = x) l.
#[global] Arguments occ : simpl never.

(** The dictionaries when the nodes in [dn] have been taken out. *)
Record sorted_out `{Countable K} (pairlist : list (K * K)) (dn : list K) (g : graph K) : Prop := {
  so_parents : forall x, g.1 !! x =
    if decide (x ∈ nodes pairlist /\ x ∉ dn) then Some (Z.of_nat (pending pairlist dn x)) else None;
  so_children : forall p, g.2 !! p =
    if decide (p ∈ pairlist.*1 /\ p ∉ dn) then Some (kids pairlist p) else None }.

(** ** Counting lemmas *)

Lemma elem_of_nodes {K} (l : list (K * K)) x :
  x ∈ nodes l <-> exists p c, (p, c) ∈ l /\ (x = p \/ x = c).
Proof.
  unfold nodes. rewrite elem_of_app, !list_elem_of_fmap. split.
  - intros [([p c] & -> & ?)|([p c] & -> & ?)]; eauto 6.
  - intros (p & c & Hin & [->| ->]); [left|right]; by exists (p, c).
Qed.

Lemma nodes_snoc {K} (l : list (K * K)) p c x :
  x ∈ nodes (l ++ [(p, c)]) <-> x ∈ nodes l \/ x = p \/ x = c.
Proof. unfold nodes. rewrite !fmap_app. set_solver. Qed.

Lemma elem_of_kids `{EqDecision K} (l : list (K * K)) p c : c ∈ kids l p <-> (p, c) ∈ l.
Proof.
  unfold kids. rewrite list_elem_of_fmap. split.
  - intros ([p' c'] & -> & [Hp Hin]%list_elem_of_filter). simpl in *. by subst.
  - intros Hin. exists (p, c). split; [done|]. by apply list_elem_of_filter.
Qed.

Lemma kids_snoc `{EqDecision K} (l : list (K * K)) p c q :
  kids (l ++ [(p, c)]) q = kids l q ++ (if decide (p = q) then [c] else []).
Proof.
  unfold kids. rewrite filter_app, fmap_app. f_equal.
  rewrite filter_cons, filter_nil. cbn. by case_decide.
Qed.

Lemma kids_nil `{EqDecision K} (l : list (K * K)) p : p ∉ l.*1 -> kids l p = [].
Proof.
  intros Hp. destruct (kids l p) as [|c t] eqn:E; [done|].
  assert (Hc : c ∈ kids l p) by (rewrite E; left). apply elem_of_kids in Hc.
  destruct Hp. apply list_elem_of_fmap. by exists (p, c).
Qed.

Lemma occ_zero `{EqDecision K} (x : K) l : occ x l = 0 <-> x ∉ l.
Proof. unfold occ. rewrite count_zero. naive_solver. Qed.

Lemma occ_cons `{EqDecision K} (x y : K) l :
  occ x (y :: l) = (if decide (y = x) then 1 else 0) + occ x l.
Proof. unfold occ. by rewrite count_cons. Qed.

Lemma pending_zero `{EqDecision K} (l : list (K * K)) dn x :
  pending l dn x = 0 <-> forall p, (p, x) ∈ l -> p ∈ dn.
Proof.
  unfold pending. rewrite count_zero. split.
  - intros Hz p Hin. apply dec_stable. intros Hp. by apply (Hz (p, x)).
  - intros Hall [p c] Hin [Hc Hp]; simpl in *; subst. by apply Hp, Hall.
Qed.

Lemma pending_nil `{EqDecision K} (l : list (K * K)) x :
  pending l [] x = count (fun pc => pc.2 = x) l.
Proof.
  unfold pending. induction l as [|[p c] l IH]; [done|].
  rewrite !count_cons, IH. f_equal. apply decide_ext. cbn. set_solver.
Qed.

(** Taking a node out counts it off its children. *)
Lemma pending_step `{EqDecision K} (l : list (K * K)) dn p x :
  p ∉ dn -> pending l dn x = pending l (dn ++ [p]) x + occ x (kids l p).
Proof.
  intros Hp. unfold pending, kids. induction l as [|[q c] l IH]; [done|].
  rewrite !count_cons, filter_cons, IH.
  assert (Happ : forall q, q ∈ dn ++ [p] <-> q ∈ dn \/ q = p)
    by (intros q'; by rewrite elem_of_app, list_elem_of_singleton).
  repeat case_decide; cbn in *; destruct_and?; subst;
    rewrite ?fmap_cons, ?occ_cons; repeat case_decide; try lia; exfalso; naive_solver.
Qed.

Lemma lookup_setdefault `{Countable K} (np : gmap K Z) k x :
  (if has_key np k then np else <[k := 0%Z]> np) !! x =
  if decide (x = k) then Some (default 0%Z (np !! k)) else np !! x.
Proof.
  destruct (has_key np k) eqn:Hk; case_decide as Hx; subst; try done.
  - apply has_key_true, elem_of_dom in Hk as [v Hv]. by rewrite Hv.
  - apply has_key_false in Hk. by rewrite Hk, lookup_insert_eq.
  - by rewrite lookup_insert_ne.
Qed.

Lemma sorted_out_nil `{Countable K} (l : list (K * K)) (g : graph K) :
  sorted_out l [] g <->
  (forall x, g.1 !! x = if decide (x ∈ nodes l)
     then Some (Z.of_nat (count (fun pc => pc.2 = x) l)) else None) /\
  (forall p, g.2 !! p = if decide (p ∈ l.*1) then Some (kids l p) else None).
Proof.
  split.
  - intros [H1 H2]. split; intros x; [rewrite H1, pending_nil|rewrite H2];
      apply decide_ext; set_solver.
  - intros [H1 H2]. split; intros x; [rewrite H1, pending_nil|rewrite H2];
      apply decide_ext; set_solver.
Qed.

Lemma build_spec `{Countable K} (l : list (K * K)) :
  exists g, build l = Ok g /\ sorted_out l [] g.
Proof.
  unfold build. apply (for_each_ok add_pair (fun dn _ g => sorted_out dn [] g)).
  { apply sorted_out_nil. split; intros x; cbn; rewrite lookup_empty;
      by case_decide as Hd; [apply elem_of_nil in Hd|]. }
  setoid_rewrite sorted_out_nil.
  intros dn [p c] rest [np ch] [H1 H2]. cbn [fst snd] in *. cbn [add_pair].
  assert (Hget : forall x, (if has_key (if has_key np p then np else <[p := 0%Z]> np) c
      then (if has_key np p then np else <[p := 0%Z]> np)
      else <[c := 0%Z]> (if has_key np p then np else <[p := 0%Z]> np)) !! x
    = if decide (x ∈ nodes (dn ++ [(p, c)])) then
        Some (Z.of_nat (count (fun pc => pc.2 = x) dn)) else None).
  { assert (Hcount : forall y, default 0%Z (np !! y)
      = Z.of_nat (count (fun pc : K * K => pc.2 = y) dn)).
    { intros y. rewrite H1. case_decide as Hy; [done|]. symmetry. cbn.
      change 0%Z with (Z.of_nat 0). f_equal. apply count_zero. intros [q d] Hin Hd.
      simpl in Hd. subst d. apply Hy, elem_of_nodes. eauto. }
    intros x. rewrite !lookup_setdefault.
    pose proof (nodes_snoc dn p c x) as Hn.
    destruct (decide (x = c)) as [->|Hc].
    - rewrite (decide_True (P := c ∈ nodes (dn ++ [(p, c)]))) by tauto. f_equal.
      rewrite <- Hcount. case_decide; subst; done.
    - destruct (decide (x = p)) as [->|Hp].
      + rewrite decide_True by tauto. f_equal. apply Hcount.
      + rewrite H1. apply decide_ext. tauto. }
  set (np2 := if has_key (if _ : bool then _ else _) c then _ else _) in *.
  assert (Hc : np2 !! c = Some (Z.of_nat (count (fun pc => pc.2 = c) dn))).
  { rewrite Hget. by rewrite decide_True by (apply nodes_snoc; tauto). }
  unfold dict_get. rewrite Hc. cbn [res_bind]. eexists. split; [done|]. cbn [fst snd]. split.
  - intros x. rewrite lookup_insert, Hget, count_snoc. cbn [snd].
    destruct (decide (c = x)) as [->|Hne].
    + rewrite decide_True by (apply nodes_snoc; tauto). f_equal. lia.
    + case_decide; [|done]. do 2 f_equal. lia.
  - intros q. rewrite lookup_insert, fmap_app, kids_snoc.
    destruct (decide (p = q)) as [->|Hne].
    + rewrite (decide_True (P := q ∈ _ ++ _)) by set_solver. do 2 f_equal.
      rewrite H2. case_decide; [done|]. symmetry. by apply kids_nil.
    + rewrite H2, app_nil_r. apply decide_ext. set_solver.
Qed.

(** ** Taking a node out *)

Section Sorting.
Context `{Countable K}.
Implicit Types (l : list (K * K)) (dn : list K) (np : gmap K Z).

(** [num_parents] once [p] is out and the children in [rest] are still to be
    counted off. *)
Definition counting l dn (p : K) (rest : list K) np : Prop :=
  forall x, np !! x = if decide (x ∈ nodes l /\ x ∉ dn ++ [p])
    then Some (Z.of_nat (pending l (dn ++ [p]) x + occ x rest)) else None.

Lemma counting_start l dn p g :
  sorted_out l dn g -> p ∈ nodes l -> p ∉ dn ->
  dict_del (E := topsort_exn K) TopKeyError g.1 p = Ok (delete p g.1) /\
  counting l dn p (kids l p) (delete p g.1).
Proof.
  intros [Hnp _] Hp Hdn. split.
  - unfold dict_del. by rewrite Hnp, decide_True.
  - intros x. rewrite lookup_delete. case_decide as Hx; subst.
    + rewrite decide_False; [done|]. set_solver.
    + rewrite Hnp, (pending_step l dn p x) by done. apply decide_ext. set_solver.
Qed.

Lemma counting_step l dn p c rest np :
  counting l dn p (c :: rest) np -> c ∈ nodes l -> c ∉ dn ++ [p] ->
  exists n, np !! c = Some n /\ (n - 1 = Z.of_nat (pending l (dn ++ [p]) c + occ c rest))%Z /\
    counting l dn p rest (<[c := (n - 1)%Z]> np).
Proof.
  intros Hc Hn Hdn. eexists. rewrite (Hc c), decide_True by done. split; [done|].
  rewrite occ_cons, decide_True by done. split; [lia|].
  intros x. rewrite lookup_insert, (Hc x), occ_cons. case_decide; subst.
  - rewrite decide_True by done. f_equal. lia.
  - done.
Qed.

Lemma counting_end l dn p np ch :
  counting l dn p [] np ->
  (forall q, ch !! q =
    if decide (q ∈ l.*1 /\ q ∉ dn) then Some (kids l q) else None) ->
  sorted_out l (dn ++ [p]) (np, delete p ch) /\
  (ch !! p = None -> sorted_out l (dn ++ [p]) (np, ch)).
Proof.
  intros Hc Hch.
  assert (Hnp : forall x, np !! x = if decide (x ∈ nodes l /\ x ∉ dn ++ [p])
    then Some (Z.of_nat (pending l (dn ++ [p]) x)) else None).
  { intros x. rewrite (Hc x). unfold occ, count. rewrite filter_nil, Nat.add_0_r. done. }
  split; [|intros Hnone]; split; try done; intros q; cbn [snd].
  - rewrite lookup_delete. case_decide as Hq; subst.
    + rewrite decide_False; [done|]. set_solver.
    + rewrite Hch. apply decide_ext. set_solver.
  - rewrite Hch in *. destruct (decide (q = p)) as [->|Hq]; [|apply decide_ext; set_solver].
    rewrite (decide_False (P := p ∈ l.*1 /\ p ∉ dn ++ [p])) by set_solver. exact Hnone.
Qed.

Lemma dom_sorted_out l dn g x :
  sorted_out l dn g -> (x ∈ dom g.1 <-> x ∈ nodes l /\ x ∉ dn).
Proof.
  intros [Hnp _]. rewrite elem_of_dom, Hnp.
  case_decide; split; try done; by eexists || by intros [].
Qed.

Lemma sorted_out_size l dn dn' (g g' : graph K) x :
  sorted_out l dn g -> sorted_out l dn' g' -> dn ⊆ dn' ->
  x ∈ nodes l -> x ∈ dn' -> x ∉ dn -> size g'.1 < size g.1.
Proof.
  intros Hso Hso' Hsub Hn Hx' Hx.
  rewrite <- (size_dom (D := gset K) g'.1), <- (size_dom (D := gset K) g.1).
  apply subset_size. split.
  - intros y. rewrite (dom_sorted_out l dn' g' y Hso'), (dom_sorted_out l dn g y Hso).
    set_solver.
  - intros Hs. specialize (Hs x).
    rewrite (dom_sorted_out l dn' g' x Hso'), (dom_sorted_out l dn g x Hso) in Hs. tauto.
Qed.

(** ** Cycles *)

(** In a finite set where everything has a predecessor, everything is
    downstream of a cycle. *)
Lemma walk_back (R : relation K) (V : gset K) :
  (forall x, x ∈ V -> exists y, y ∈ V /\ R y x) ->
  forall x, x ∈ V -> exists y, tc R y y /\ rtc R y x.
Proof.
  intros Hpred.
  cut (forall n (S : gset K) x, size (V ∖ S) <= n -> x ∈ V ->
    (forall s, s ∈ S -> tc R x s) -> exists y, tc R y y /\ rtc R y x).
  { intros Hc x Hx. apply (Hc (size V) ∅); [|done|set_solver].
    apply subseteq_size. set_solver. }
  induction n as [|n IH]; intros S x Hsz Hx HS.
  - assert (x ∈ S).
    { apply dec_stable. intros Hn. assert (He : V ∖ S ≡ ∅) by (apply size_empty_inv; lia).
      set_solver. }
    exists x. split; [by apply HS | done].
  - destruct (decide (x ∈ S)) as [Hin|Hin]; [exists x; split; [by apply HS|done]|].
    destruct (Hpred x Hx) as (y & Hy & Hyx).
    destruct (IH (S ∪ {[x]}) y) as (z & Hz & Hzy); [|done| |].
    + enough (size (V ∖ (S ∪ {[x]})) < size (V ∖ S)) by lia.
      apply subset_size. split; [set_solver|]. intros Hsub.
      assert (Hx' : x ∈ V ∖ (S ∪ {[x]})) by (apply Hsub; set_solver). set_solver.
    + intros s [Hs| ->%elem_of_singleton]%elem_of_union; [|by apply tc_once].
      by apply tc_l with x; [|apply HS].
    + exists z. split; [done|]. etrans; [exact Hzy|]. by apply rtc_once.
Qed.

(** Where everything comes after its parents, nothing in the list is
    downstream of a cycle. *)
Lemma ordered_downstream l (answer : list K) :
  (forall p c j, (p, c) ∈ l -> answer !! j = Some c ->
     exists i, i < j /\ answer !! i = Some p) ->
  NoDup answer ->
  forall x y, x ∈ answer -> tc (parent_of l) y y -> ~ rtc (parent_of l) y x.
Proof.
  intros Hord Hnd x y [j Hj]%list_elem_of_lookup Hyy Hyx.
  assert (Htc : forall a b, tc (parent_of l) a b -> forall j, answer !! j = Some b ->
    exists i, i < j /\ answer !! i = Some a).
  { induction 1 as [a b Hab|a b c Hab _ IH]; intros k Hk; [by apply (Hord a b)|].
    destruct (IH k Hk) as (i & Hi & Ha). destruct (Hord _ _ _ Hab Ha) as (i' & ? & ?).
    exists i'. split; [lia|done]. }
  destruct (Htc y x) with j as (i & Hi & Hyi); [|done|].
  { by apply tc_rtc_r with y. }
  destruct (Htc y y Hyy i Hyi) as (i' & Hi' & Hyi').
  pose proof (NoDup_lookup _ _ _ _ Hnd Hyi Hyi'). lia.
Qed.

Definition downstream_of_cycle l (x : K) : Prop :=
  exists y, tc (parent_of l) y y /\ rtc (parent_of l) y x.

Lemma downstream_node l x : downstream_of_cycle l x -> x ∈ nodes l.
Proof.
  intros (y & Hyy & Hyx).
  assert (Htc : tc (parent_of l) y x) by (by apply tc_rtc_r with y).
  clear Hyy Hyx. induction Htc as [a b Hab|a b c _ _ IH]; [|done].
  apply elem_of_nodes. unfold parent_of in Hab. eauto.
Qed.

(** When no node is left without parents, the nodes left over are exactly those
    downstream of a cycle. *)
Lemma left_over l (answer : list K) g :
  sorted_out l answer g -> NoDup answer ->
  (forall x, x ∈ answer <-> x ∈ nodes l /\ pending l answer x = 0) ->
  (forall p c j, (p, c) ∈ l -> answer !! j = Some c ->
     exists i, i < j /\ answer !! i = Some p) ->
  (forall x, x ∈ dom g.1 <-> downstream_of_cycle l x) /\
  (g.1 = ∅ <-> acyclic l) /\ (g.1 = ∅ -> dependency_order l answer).
Proof.
  intros Hso Hnd Hans Hord.
  assert (Hdom : forall x, x ∈ dom g.1 <-> x ∈ nodes l /\ x ∉ answer)
    by (intros x; by apply dom_sorted_out).
  assert (Hcyc : forall x, x ∈ dom g.1 <-> downstream_of_cycle l x).
  { intros x. split.
    - apply (walk_back (parent_of l) (dom g.1)). intros c [Hc Hca]%Hdom.
      destruct (decide (pending l answer c = 0)) as [H0|H0]; [by destruct Hca; apply Hans|].
      destruct (decide (Exists (fun pc => pc.2 = c /\ pc.1 ∉ answer) l)) as [He|He].
      + apply Exists_exists in He as ([p c'] & Hin & Hc' & Hp); simpl in *; subst c'.
        exists p. split; [|done]. apply Hdom. split; [|done]. apply elem_of_nodes. eauto.
      + destruct H0. apply pending_zero. intros p Hin. apply dec_stable. intros Hp.
        apply He, Exists_exists. by exists (p, c).
    - intros Hx. apply Hdom. split; [by apply downstream_node|]. intros Hin.
      destruct Hx as (y & Hy & Hyx).
      by apply (ordered_downstream l answer Hord Hnd x y Hin). }
  split; [done|]. split.
  - split.
    + intros Hempty x Hx. assert (Hxd : x ∈ dom g.1) by (apply Hcyc; by exists x).
      rewrite Hempty, dom_empty in Hxd. set_solver.
    + intros Hac. apply dom_empty_inv_L. apply elem_of_equiv_empty_L.
      intros x (y & Hy & _)%Hcyc. by apply (Hac y).
  - intros Hempty. split; [done| |done]. intros x. split; [by intros [? _]%Hans|].
    intros Hx. apply dec_stable. intros Hn.
    assert (Hxd : x ∈ dom g.1) by (by apply Hdom).
    rewrite Hempty, dom_empty in Hxd. set_solver.
Qed.
End Sorting.

(** ** Correctness of [topsort] *)

Section Topsort_correct.
Context `{DictOrder K}.
Implicit Types (l : list (K * K)) (dn answer : list K) (np : gmap K Z).

Lemma elem_of_orphans l dn g x :
  sorted_out l dn g -> x ∈ orphans g.1 <-> x ∈ nodes l /\ (x ∉ dn) /\ pending l dn x = 0.
Proof.
  intros [Hnp _]. unfold orphans.
  rewrite list_elem_of_filter, elem_of_dict_keys, elem_of_dom, Hnp.
  case_decide as Hx; split.
  - intros [[= Hz] _]. split_and!; try tauto. lia.
  - intros (? & ? & ->). done.
  - by intros [? _].
  - by intros (? & ? & _); destruct Hx.
Qed.

Lemma NoDup_orphans np : NoDup (orphans np).
Proof. apply NoDup_filter, NoDup_dict_keys. Qed.

(** What holds of [answer] while the nodes in [dn], a prefix of it, are out
    and the children [rest] of the last one are still to be counted off. *)
Record answering l dn (rest answer : list K) : Prop := {
  an_nodup : NoDup answer;
  an_prefix : exists k, answer = dn ++ k;
  an_elem : forall x, x ∈ answer <-> x ∈ nodes l /\ pending l dn x + occ x rest = 0;
  an_order : forall p c j, (p, c) ∈ l -> answer !! j = Some c ->
    exists i, i < j /\ answer !! i = Some p }.

Lemma answering_step l dn c rest answer n :
  answering l dn (c :: rest) answer -> c ∈ nodes l ->
  (n = Z.of_nat (pending l dn c + occ c rest))%Z ->
  answering l dn rest (if decide (n = 0)%Z then answer ++ [c] else answer).
Proof.
  intros [Hnd Hpre Hin Hord] Hc Hn.
  assert (Hca : c ∉ answer).
  { rewrite Hin, occ_cons, decide_True by done. lia. }
  case_decide as Hz.
  - assert (Hp0 : pending l dn c = 0) by lia. assert (Hr0 : occ c rest = 0) by lia.
    destruct Hpre as [k ->]. split.
    + apply NoDup_app. split_and!; [done| |apply NoDup_singleton]. set_solver.
    + exists (k ++ [c]). by rewrite app_assoc.
    + intros x. rewrite elem_of_app, list_elem_of_singleton, Hin, occ_cons.
      destruct (decide (c = x)) as [->|Hne]; [|simpl; naive_solver].
      split; [|naive_solver]. intros [[? ?]|_]; [lia|]. by rewrite Hp0.
    + intros p x j Hpx [Hj|[Hlen Hj]]%lookup_app_Some.
      * destruct (Hord p x j Hpx Hj) as (i & Hi & Ha). exists i. split; [done|].
        by apply lookup_app_l_Some.
      * apply list_lookup_singleton_Some in Hj as [_ <-].
        destruct (proj1 (list_elem_of_lookup dn p)) as [i Hi].
        { by apply (pending_zero l dn c). }
        exists i. split; [apply lookup_lt_Some in Hi; rewrite length_app in Hlen; lia|].
        by do 2 apply lookup_app_l_Some.
  - split; try done. intros x. rewrite Hin, occ_cons.
    destruct (decide (c = x)) as [->|Hne]; [|done]. lia.
Qed.

Lemma answering_start l dn p answer :
  answering l dn [] answer -> answer !! length dn = Some p ->
  answering l (dn ++ [p]) (kids l p) answer /\ p ∈ nodes l /\ (p ∉ dn) /\
  (forall c, c ∈ kids l p -> c ∈ nodes l /\ c ∉ dn ++ [p]).
Proof.
  intros [Hnd [k ->] Hin Hord] Hp.
  rewrite lookup_app_r, Nat.sub_diag in Hp by done.
  destruct k as [|p' k]; simplify_eq/=.
  pose proof (proj1 (NoDup_app _ _) Hnd) as (_ & Hdis & _).
  assert (Hpdn : p ∉ dn) by (intros Hpd; apply (Hdis p Hpd); left).
  assert (Hpn : p ∈ nodes l) by (apply (proj1 (Hin p)); set_solver).
  split_and!; [|done|done|].
  - split; [done|exists k; by rewrite <- app_assoc| |done].
    intros x. rewrite Hin, (pending_step l dn p x) by done. unfold occ at 1.
    change (count _ []) with 0. by rewrite Nat.add_0_r.
  - intros c Hc%elem_of_kids. split; [apply elem_of_nodes; eauto|]. intros Hcd.
    apply list_elem_of_lookup in Hcd as [j Hj].
    assert (Hj' : (dn ++ p :: k) !! j = Some c).
    { rewrite (cons_middle p dn k), app_assoc. by apply lookup_app_l_Some. }
    destruct (Hord p c j Hc Hj') as (i & Hi & Hpi).
    assert (i = length dn).
    { apply (NoDup_lookup _ _ _ _ Hnd Hpi). by rewrite lookup_app_r, Nat.sub_diag. }
    apply lookup_lt_Some in Hj. rewrite length_app in Hj. simpl in Hj. lia.
Qed.

Lemma release_children l dn p np answer :
  counting l dn p (kids l p) np -> answering l (dn ++ [p]) (kids l p) answer ->
  (forall c, c ∈ kids l p -> c ∈ nodes l /\ c ∉ dn ++ [p]) ->
  exists np' answer',
    for_each release_child (kids l p) (np, answer) = Ok (np', answer') /\
    counting l dn p [] np' /\ answering l (dn ++ [p]) [] answer'.
Proof.
  intros Hcnt Hans Hkids.
  destruct (for_each_ok release_child
    (fun _ rest st => (forall c, c ∈ rest -> c ∈ nodes l /\ c ∉ dn ++ [p]) /\
       counting l dn p rest st.1 /\ answering l (dn ++ [p]) rest st.2)
    (kids l p) (np, answer)) as ([np' answer'] & E & _ & ? & ?); [done| |eauto].
  intros _ c rest [np1 an1] (Hk & Hc & Ha). cbn [fst snd release_child] in *.
  destruct (Hk c) as [Hcn Hcd]; [left|].
  destruct (counting_step l dn p c rest np1) as (n & Hget & Hn & Hc'); [done..|].
  unfold dict_get. rewrite Hget. cbn [res_bind].
  pose proof (answering_step l (dn ++ [p]) c rest an1 (n - 1) Ha Hcn Hn) as Ha'.
  case_decide; (eexists; split; [done|]); split_and!; try done;
    intros c' Hc'r; apply Hk; by right.
Qed.

Lemma visit_parent_spec l dn p (g : graph K) answer :
  sorted_out l dn g -> answering l dn [] answer -> answer !! length dn = Some p ->
  exists g' answer', visit_parent (g, answer) p = Ok (g', answer') /\
    sorted_out l (dn ++ [p]) g' /\ answering l (dn ++ [p]) [] answer' /\
    size g'.1 < size g.1.
Proof.
  intros Hso Han Hp. destruct g as [np ch].
  destruct (answering_start l dn p answer Han Hp) as (Ha & Hpn & Hpd & Hk).
  destruct (counting_start l dn p _ Hso Hpn Hpd) as [Hdel Hcnt]. cbn [fst] in *.
  unfold visit_parent. rewrite Hdel. cbn [res_bind].
  pose proof (so_children _ _ _ Hso) as Hch. cbn [snd] in Hch.
  assert (Hsize : forall g', sorted_out l (dn ++ [p]) g' -> size g'.1 < size np).
  { intros g' Hso'. apply (sorted_out_size l dn (dn ++ [p]) (np, ch) g' p); set_solver. }
  destruct (ch !! p) as [cs|] eqn:Hcs.
  - pose proof Hcs as Hcs'. rewrite Hch in Hcs'. case_decide as Hpl; [|done]. simplify_eq.
    destruct (release_children l dn p _ _ Hcnt Ha Hk) as (np' & an' & -> & Hc' & Ha').
    destruct (counting_end l dn p np' ch Hc' Hch) as [Hso' _].
    cbn [res_bind]. eexists _, _. split; [done|]. split_and!; [done..|by apply Hsize].
  - assert (Hkn : kids l p = []).
    { apply kids_nil. intros Hpl. rewrite Hch, decide_True in Hcs by done. done. }
    rewrite Hkn in *. destruct (counting_end l dn p _ ch Hcnt Hch) as [_ Hso'].
    eexists _, _. split; [done|]. split_and!; [by apply Hso'|done|by apply Hsize, Hso'].
Qed.

Lemma visit_answer_spec l fuel dn (g : graph K) answer :
  size g.1 <= fuel -> sorted_out l dn g -> answering l dn [] answer ->
  exists g' answer', visit_answer fuel (length dn) (g, answer) = Ok (g', answer') /\
    sorted_out l answer' g' /\ answering l answer' [] answer'.
Proof.
  revert dn g answer. induction fuel as [|fuel IH]; intros dn g answer Hf Hso Han;
    (destruct (answer !! length dn) as [p|] eqn:Hp;
     [destruct (visit_parent_spec l dn p g answer Hso Han Hp)
        as (g' & an' & Hv & Hso' & Han' & Hlt); [try lia]
     |pose proof (an_prefix _ _ _ _ Han) as [k Hk];
      assert (k = []) as -> by
        (apply lookup_ge_None in Hp; rewrite Hk, length_app in Hp;
         apply length_zero_iff_nil; lia);
      rewrite app_nil_r in Hk; subst; cbn; rewrite Hp; by eauto]).
  cbn [visit_answer snd]. rewrite Hp, Hv. cbn [res_bind].
  destruct (IH (dn ++ [p]) g' an') as (g2 & an2 & E & ? & ?); [lia|done..|].
  rewrite length_app, Nat.add_1_r in E. eauto.
Qed.

(** The whole run, up to the final test. *)
Lemma topsort_run l :
  exists np ch answer,
    topsort l = (if decide (np = ∅) then Ok answer
                 else Raise (CycleError (Some answer) np ch)) /\
    sorted_out l answer (np, ch) /\ answering l answer [] answer.
Proof.
  destruct (build_spec l) as (g & Hb & Hso).
  destruct (visit_answer_spec l (size g.1) [] g (orphans g.1))
    as ([np ch] & an & Hv & Hso' & Han); [done|done| |].
  { split; [apply NoDup_orphans|by eexists| |].
    - intros x. rewrite (elem_of_orphans l [] g x Hso). unfold occ.
      change (count _ []) with 0. rewrite Nat.add_0_r. set_solver.
    - intros p c j Hpc Hj. exfalso. apply list_elem_of_lookup_2 in Hj.
      apply (elem_of_orphans l [] g c Hso) in Hj as (_ & _ & Hz).
      pose proof (proj1 (pending_zero l [] c) Hz p Hpc). set_solver. }
  exists np, ch, an. unfold topsort. rewrite Hb. cbn [res_bind length] in *.
  rewrite Hv. done.
Qed.

(** What the sort ends with: the order, or the rest of the graph. *)
Lemma topsort_result l : exists np ch answer,
  topsort l = (if decide (np = ∅) then Ok answer else Raise (CycleError (Some answer) np ch)) /\
  (forall x, x ∈ dom np <-> downstream_of_cycle l x) /\
  (np = ∅ <-> acyclic l) /\ (np = ∅ -> dependency_order l answer).
Proof.
  destruct (topsort_run l) as (np & ch & an & -> & Hso & [Hnd _ Hin Hord]).
  destruct (left_over l an _ Hso Hnd) as (Hdom & Hac & Hdep); [|done|].
  { intros x. rewrite Hin. unfold occ. change (count _ []) with 0. by rewrite Nat.add_0_r. }
  by exists np, ch, an.
Qed.
Lemma topsort_acyclic l : acyclic l -> exists answer, topsort l = Ok answer /\ dependency_order l answer.
Proof.
  intros Hl. destruct (topsort_result l) as (np & ch & an & -> & _ & Hac & Hdep).
  apply Hac in Hl. rewrite decide_True by done. by eauto.
Qed.
Lemma topsort_ok_acyclic l answer : topsort l = Ok answer -> acyclic l.
Proof.
  intros Ht. destruct (topsort_result l) as (np & ch & an & E & _ & Hac & _). rewrite E in Ht.
  case_decide; [by apply Hac|done].
Qed.

(** C4: [topsort] always ends, and never with a KeyError.  It returns a list
    exactly when the pairs have no cycle, and the list then holds every node
    once, each after all of its parents; otherwise it raises [CycleError] with
    exactly the nodes that are downstream of a cycle in [num_parents]. *)
Theorem topsort_spec l :
  (acyclic l /\ exists answer, topsort l = Ok answer /\ dependency_order l answer) \/
  (~ acyclic l /\ exists answer np ch, topsort l = Raise (CycleError (Some answer) np ch) /\
     forall x, x ∈ dom np <-> downstream_of_cycle l x).
Proof.
  destruct (topsort_result l) as (np & ch & an & -> & Hdom & Hac & Hdep).
  case_decide as Hnp; [left|right]; rewrite <- Hac; eauto 8.
Qed.
End Topsort_correct.

(** ** Correctness of [topsort_levels] *)

Section Levels_correct.
Context `{DictOrder K}.
Implicit Types (l : list (K * K)) (dn answer level : list K) (np : gmap K Z).

(** [level] holds exactly the nodes not in [dn] whose parents all are. *)
Definition is_level l dn level : Prop :=
  NoDup level /\ level <> [] /\
  forall x, x ∈ level <-> x ∈ nodes l /\ (x ∉ dn) /\ forall p, (p, x) ∈ l -> p ∈ dn.

(** The levels one after the other. *)
Fixpoint are_levels l dn (levels : list (list K)) : Prop :=
  match levels with
  | [] => True
  | level :: levels => is_level l dn level /\ are_levels l (dn ++ level) levels
  end.

(** Everything that is out has its parents out before it. *)
Definition ordered l dn : Prop :=
  NoDup dn /\ (forall x, x ∈ dn -> x ∈ nodes l) /\
  forall p c j, (p, c) ∈ l -> dn !! j = Some c -> exists i, i < j /\ dn !! i = Some p.

Lemma ordered_closed l dn p c : ordered l dn -> (p, c) ∈ l -> c ∈ dn -> p ∈ dn.
Proof.
  intros (_ & _ & Ho) Hpc [j Hj]%list_elem_of_lookup.
  destruct (Ho p c j Hpc Hj) as (i & _ & Hi). by apply list_elem_of_lookup_2 in Hi.
Qed.

Lemma ordered_level l dn level :
  ordered l dn -> is_level l dn level -> ordered l (dn ++ level).
Proof.
  intros (Hnd & Hn & Ho) (Hndl & _ & Hl). split_and!.
  - apply NoDup_app. split_and!; [done| |done]. intros x Hx Hxl.
    by apply Hl in Hxl as (_ & Hx' & _).
  - intros x [Hx|Hx]%elem_of_app; [by apply Hn | by apply Hl].
  - intros p c j Hpc [Hj|[Hlen Hj]]%lookup_app_Some.
    + destruct (Ho p c j Hpc Hj) as (i & ? & ?). exists i. split; [done|].
      by apply lookup_app_l_Some.
    + apply list_elem_of_lookup_2, Hl in Hj as (_ & _ & Hp).
      destruct (proj1 (list_elem_of_lookup _ _) (Hp p Hpc)) as [i Hi].
      exists i. split; [apply lookup_lt_Some in Hi; lia|]. by apply lookup_app_l_Some.
Qed.

Lemma release_level_spec l dn p (g : graph K) :
  sorted_out l dn g -> p ∈ nodes l -> p ∉ dn ->
  (forall c, c ∈ kids l p -> c ∉ dn ++ [p]) ->
  exists g', release_level g p = Ok g' /\ sorted_out l (dn ++ [p]) g'.
Proof.
  intros Hso Hpn Hpd Hk. destruct g as [np ch].
  destruct (counting_start l dn p _ Hso Hpn Hpd) as [Hdel Hcnt]. cbn [fst] in *.
  pose proof (so_children _ _ _ Hso) as Hch. cbn [snd] in Hch.
  unfold release_level. rewrite Hdel. cbn [res_bind].
  destruct (ch !! p) as [cs|] eqn:Hcs.
  - pose proof Hcs as Hcs'. rewrite Hch in Hcs'. case_decide as Hpl; [|done]. simplify_eq.
    destruct (for_each_ok (fun np child =>
        let* n := dict_get (E := topsort_exn K) TopKeyError np child in
        Ok (<[child := (n - 1)%Z]> np))
      (fun d rest np => kids l p = d ++ rest /\ counting l dn p rest np)
      (kids l p) (delete p np)) as (np' & -> & _ & Hc'); [done| |].
    + intros d c rest np1 [Hkd Hc]. destruct (counting_step l dn p c rest np1 Hc)
        as (n & Hget & _ & Hc'').
      { apply elem_of_nodes. exists p, c. split; [|by right]. apply elem_of_kids.
        rewrite Hkd. set_solver. }
      { apply Hk. rewrite Hkd. set_solver. }
      unfold dict_get. rewrite Hget. cbn [res_bind]. eexists. split; [done|].
      split; [by rewrite <- app_assoc|done].
    + cbn [res_bind]. eexists. split; [done|]. by apply (counting_end l dn p np' ch Hc').
  - assert (Hkn : kids l p = []).
    { apply kids_nil. intros Hpl. rewrite Hch, decide_True in Hcs by done. done. }
    rewrite Hkn in *. eexists. split; [done|]. by apply (counting_end l dn p _ ch Hcnt).
Qed.

Lemma release_whole_level l dn level (g : graph K) :
  ordered l dn -> is_level l dn level -> sorted_out l dn g ->
  exists g', for_each release_level level g = Ok g' /\ sorted_out l (dn ++ level) g'.
Proof.
  intros Hord Hlv Hso. destruct Hlv as (Hnd & _ & Hl).
  destruct (for_each_ok release_level
    (fun d rest g => level = d ++ rest /\ sorted_out l (dn ++ d) g) level g)
    as (g' & E & _ & ?); [by rewrite app_nil_r| |eauto].
  intros d p rest g1 [Hd Hso1].
  assert (Hp : p ∈ level) by (rewrite Hd; set_solver).
  assert (Hpd : p ∉ d).
  { rewrite Hd in Hnd. apply NoDup_app in Hnd as (_ & Hdis & _). intros Hin.
    by apply (Hdis p Hin); left. }
  pose proof (proj1 (Hl p) Hp) as (Hpn & Hpdn & _).
  destruct (release_level_spec l (dn ++ d) p g1) as (g2 & E & Hso2);
    [done|done|set_solver| |].
  - intros c Hc%elem_of_kids Hcin.
    destruct (decide (c ∈ dn)) as [Hcd|Hcd]; [by destruct Hpdn; apply (ordered_closed l dn p c)|].
    assert (Hcl : c ∈ level) by (rewrite Hd; set_solver).
    apply Hl in Hcl as (_ & _ & Hpar). by destruct Hpdn; apply Hpar.
  - exists g2. split; [done|]. by rewrite <- !app_assoc in *.
Qed.

Lemma orphans_level l dn g :
  sorted_out l dn g -> orphans g.1 <> [] -> is_level l dn (orphans g.1).
Proof.
  intros Hso Hne. split_and!; [apply NoDup_orphans|done|]. intros x.
  by rewrite (elem_of_orphans l dn g x Hso), pending_zero.
Qed.

Lemma levels_core_spec l fuel : forall dn (g : graph K),
  size g.1 <= fuel -> ordered l dn -> sorted_out l dn g ->
  exists levels g', topsort_levels_core fuel g =
      (levels, if decide (g'.1 = ∅) then Ok () else Raise (CycleError None g'.1 g'.2)) /\
    are_levels l dn levels /\ ordered l (dn ++ concat levels) /\
    sorted_out l (dn ++ concat levels) g' /\ orphans g'.1 = [].
Proof.
  induction fuel as [|fuel IH]; intros dn g Hf Hord Hso; cbn [topsort_levels_core];
    (destruct (orphans g.1) as [|x level] eqn:Ho;
     [exists [], g; cbn; rewrite app_nil_r; done|]);
    pose proof (orphans_level l dn g Hso) as Hlv; rewrite Ho in Hlv;
    specialize (Hlv ltac:(done));
    pose proof (proj1 (proj2 (proj2 Hlv) x) ltac:(left)) as (Hxn & Hxd & _);
    destruct (release_whole_level l dn _ g Hord Hlv Hso) as (g' & Hg' & Hso');
    pose proof (sorted_out_size l dn _ g g' x Hso Hso' ltac:(set_solver) Hxn
      ltac:(set_solver) Hxd); [lia|].
  rewrite Hg'. destruct (IH (dn ++ x :: level) g') as (levels & g2 & -> & Hls & ? & ? & ?);
    [lia|by apply ordered_level|done|].
  exists ((x :: level) :: levels), g2. cbn [concat]. rewrite app_assoc. done.
Qed.

(** C6: [topsort_levels] yields level after level exactly the nodes not yielded
    before whose parents all were, no level empty and no node twice.  Then it
    stops: normally, with every node yielded, exactly when the pairs have no
    cycle, and otherwise with a [CycleError] that holds exactly the nodes
    downstream of a cycle. *)
Theorem topsort_levels_spec l :
  exists levels o, topsort_levels l = (levels, o) /\ are_levels l [] levels /\ NoDup (concat levels) /\
    ((acyclic l /\ o = Ok () /\ dependency_order l (concat levels)) \/
     (~ acyclic l /\ exists np ch, o = Raise (CycleError None np ch) /\
        forall x, x ∈ dom np <-> downstream_of_cycle l x)).
Proof.
  destruct (build_spec l) as (g & Hb & Hso). unfold topsort_levels. rewrite Hb.
  destruct (levels_core_spec l (size g.1) [] g) as (levels & g' & E & Hls & Hord & Hso' & Ho);
    [done|split_and!; [apply NoDup_nil_2|intros ? []%elem_of_nil|intros ? ? j _; by rewrite lookup_nil]
    |done|].
  cbn [app] in *. eexists _, _. split; [done|]. split; [done|].
  destruct Hord as (Hnd & Hn & Hord). split; [done|].
  destruct (left_over l (concat levels) g' Hso' Hnd) as (Hdom & Hac & Hdep); [|done|].
  { intros x. split.
    - intros Hx. split; [by apply Hn|]. apply pending_zero. intros p Hpx.
      by apply (ordered_closed l _ p x).
    - intros [Hx Hp]. apply dec_stable. intros Hxc.
      assert (x ∈ orphans g'.1) by (by apply (elem_of_orphans l _ g' x Hso')).
      rewrite Ho in *. set_solver. }
  case_decide as Hnp; [left|right]; rewrite <- Hac; eauto 8.
Qed.
End Levels_correct.

(** ** find_cycles

    [paths] has its top at the head.  The generator's yields are the list
    [cycles], which the code keeps as well. *)

Section Find_cycles.
Context `{DictOrder K}.

(** [path.index(child)] *)
Definition index_of (x : K) (path : list K) : nat :=
  default 0 (fst <$> list_find (fun y => y = x) path).

(** [path[path.index(child):]] *)
Definition cycle_at (path : list K) (child : K) : list K := drop (index_of child path) path.

Fixpoint is_dup (cycle : list K) (cycles : list (list K)) : res rad_exn bool :=
  match cycles with
  | [] => Ok false
  | other_cycle :: cycles =>
      let* b := is_rotated other_cycle cycle in
      if b : bool then Ok true else is_dup cycle cycles
  end.

Definition search : Type := list (list K) * list (list K) * gset K.

(** The body of [for child in children]. *)
Definition follow_child (path : list K) (st : search) (child : K) : res rad_exn search :=
  let '(paths, cycles, visited_nodes) := st in
  if decide (child ∈ path) then
    let cycle := cycle_at path child in
    let* dup := is_dup cycle cycles in
    if dup : bool then Ok (paths, cycles, visited_nodes)
    else Ok (paths, cycles ++ [cycle], visited_nodes)
  else Ok ((path ++ [child]) :: paths, cycles, {[child]} ∪ visited_nodes).

(** [while paths] *)
Fixpoint walk_paths (fuel : nat) (parent_children : gmap K (list K)) (st : search)
    : res rad_exn search :=
  match st with
  | ([], _, _) => Ok st
  | (path :: paths, cycles, visited_nodes) =>
      match fuel with
      | O => OutOfFuel
      | S fuel =>
          match last path with
          | None => Raise IndexError
          | Some parent =>
              match parent_children !! parent with
              | None => walk_paths fuel parent_children (paths, cycles, visited_nodes)
              | Some children =>
                  let* st := for_each (follow_child path) children
                               (paths, cycles, visited_nodes) in
                  walk_paths fuel parent_children st
              end
          end
      end
  end.

(** Enough fuel for one start: a path holds each node at most once and has at
    most [fanout] continuations. *)
Definition all_nodes (parent_children : gmap K (list K)) : gset K :=
  dom parent_children ∪ list_to_set (concat (map_to_list parent_children).*2).
Definition fanout (parent_children : gmap K (list K)) : nat :=
  max_list (length <$> (map_to_list parent_children).*2).
Fixpoint path_weight (b k : nat) : nat :=
  match k with O => 1 | S k => 1 + b * path_weight b k end.

(** [for parent in parent_children] *)
Definition find_from (parent_children : gmap K (list K)) (st : list (list K) * gset K)
    (parent : K) : res rad_exn (list (list K) * gset K) :=
  let '(cycles, visited_nodes) := st in
  if decide (parent ∈ visited_nodes) then Ok st
  else
    let* (_, cycles, visited_nodes) :=
      walk_paths (path_weight (fanout parent_children) (size (all_nodes parent_children)))
        parent_children ([[parent]], cycles, visited_nodes) in
    Ok (cycles, visited_nodes).

Definition find_cycles (parent_children : gmap K (list K)) : res rad_exn (list (list K)) :=
  let* (cycles, _) :=
    for_each (find_from parent_children) (dict_keys parent_children) ([], ∅) in
  Ok cycles.
End Find_cycles.

Example find_cycles_diamond :
  length <$> (match find_cycles (list_to_map [(0, [1; 2]); (1, [3]); (2, [3]); (3, [0; 1])]) with
              | Ok cycles => Some cycles | _ => None end) = Some 3.
Proof. vm_compute. reflexivity. Qed.

(** ** Correctness of [find_cycles] *)

Section Find_cycles_correct.
Context `{DictOrder K}.
Context (parent_children : gmap K (list K)).
Implicit Types (path c : list K) (cycles paths : list (list K)) (visited : gset K).

Definition child_of (p x : K) : Prop :=
  exists cs, parent_children !! p = Some cs /\ x ∈ cs.

(** Each item is a parent of the next. *)
Definition steps path : Prop :=
  forall i x y, path !! i = Some x -> path !! S i = Some y -> child_of x y.

(** A list of distinct items, each the parent of the next and the last the
    parent of the first. *)
Record simple_cycle c : Prop := {
  sc_nodup : NoDup c;
  sc_steps : steps c;
  sc_close : exists x y, head c = Some x /\ last c = Some y /\ child_of y x }.

Definition rotated_in c cycles : Prop := exists o k, o ∈ cycles /\ c = rotate k o.

(** The cycles yielded so far. *)
Fixpoint all_new cycles : Prop :=
  match cycles with
  | [] => True
  | c :: rest => (forall d k, d ∈ rest -> d <> rotate k c) /\ all_new rest
  end.
Definition sound cycles : Prop := (forall c, c ∈ cycles -> simple_cycle c) /\ all_new cycles.

(** A path of the search: it begins at the start of the search. *)
Definition spath (start : K) path : Prop := head path = Some start /\ NoDup path /\ steps path.

Lemma steps_app_l p q : steps (p ++ q) -> steps p.
Proof.
  intros Hs i x y Hx Hy. by apply (Hs i); apply lookup_app_l_Some.
Qed.

Lemma steps_drop n p : steps p -> steps (drop n p).
Proof.
  intros Hs i x y. rewrite !lookup_drop, Nat.add_succ_r. apply Hs.
Qed.

Lemma steps_join p q x y :
  steps p -> steps q -> last p = Some x -> head q = Some y -> child_of x y -> steps (p ++ q).
Proof.
  intros Hp Hq Hx Hy Hxy i a b Ha Hb.
  apply lookup_app_Some in Hb as [Hb|[Hlen Hb]].
  - apply (Hp i); [|done]. apply lookup_lt_Some in Hb.
    rewrite lookup_app_l in Ha by lia. done.
  - destruct (decide (length p <= i)) as [Hi|Hi].
    + rewrite lookup_app_r in Ha by done. apply (Hq (i - length p)); [done|].
      rewrite <- Hb. f_equal. lia.
    + rewrite lookup_app_l in Ha by lia. rewrite last_lookup in Hx.
      replace (pred (length p)) with i in Hx by lia. simplify_eq.
      replace (S i - length p) with 0 in Hb by lia.
      rewrite head_lookup in Hy. by simplify_eq.
Qed.

Lemma spath_snoc start p x y :
  spath start p -> last p = Some x -> child_of x y -> y ∉ p -> spath start (p ++ [y]).
Proof.
  intros (Hh & Hnd & Hs) Hx Hxy Hy. split_and!.
  - by destruct p.
  - apply NoDup_app. split_and!; [done|set_solver|apply NoDup_singleton].
  - by apply (steps_join p [y] x y).
Qed.

Lemma index_of_spec x path :
  x ∈ path -> path !! index_of x path = Some x.
Proof.
  intros Hx. unfold index_of. destruct (list_find _ _) as [[i y]|] eqn:Hf.
  - apply list_find_Some in Hf as (Hi & -> & _). done.
  - apply list_find_None in Hf. by destruct (proj1 (Forall_forall _ _) Hf x Hx).
Qed.

Lemma head_cycle_at path child : child ∈ path -> head (cycle_at path child) = Some child.
Proof.
  intros Hc. unfold cycle_at. rewrite head_lookup, lookup_drop, Nat.add_0_r.
  by apply index_of_spec.
Qed.

Lemma last_cycle_at path child : child ∈ path -> last (cycle_at path child) = last path.
Proof.
  intros Hc. unfold cycle_at. apply index_of_spec, lookup_lt_Some in Hc.
  rewrite !last_lookup, lookup_drop, length_drop. f_equal. lia.
Qed.

Lemma cycle_at_simple start path x child :
  spath start path -> last path = Some x -> child_of x child -> child ∈ path ->
  simple_cycle (cycle_at path child).
Proof.
  intros (_ & Hnd & Hs) Hx Hxc Hc. split.
  - rewrite <- (take_drop (index_of child path) path) in Hnd.
    by apply NoDup_app in Hnd as (_ & _ & ?).
  - by apply steps_drop.
  - exists child, x. by rewrite head_cycle_at, last_cycle_at.
Qed.

Lemma is_dup_spec c cycles :
  c <> [] -> (forall o, o ∈ cycles -> o <> []) ->
  exists b, is_dup c cycles = Ok b /\ (b = true <-> rotated_in c cycles).
Proof.
  intros Hc. induction cycles as [|o cycles IH]; intros Hne.
  - exists false. split; [done|]. split; [done|]. by intros (o & k & []%elem_of_nil & _).
  - cbn [is_dup]. pose proof (is_rotated_rotate o c) as Hr.
    destruct (is_rotated o c) as [b|e|]; [|by destruct Hr as (_ & _ & ->)|done].
    destruct IH as (b' & E & Hb'); [intros o' Ho'; apply Hne; by right|].
    destruct b; cbn [res_bind].
    + exists true. split; [done|]. split; [|done]. intros _.
      destruct (proj1 Hr eq_refl) as [_ [k ->]]. exists o, k. split; [left|done].
    + exists b'. split; [done|]. rewrite Hb'. split.
      * intros (o' & k & Ho' & ->). exists o', k. split; [by right|done].
      * intros (o' & k & [->|Ho']%elem_of_cons & ->); [|by exists o', k].
        assert (false = true) by (apply Hr; split; [apply Hne; left|by exists k]). done.
Qed.

Lemma sound_snoc cycles c :
  sound cycles -> simple_cycle c -> ~ rotated_in c cycles -> sound (cycles ++ [c]).
Proof.
  intros [Hs Hn] Hc Hnew. split.
  - intros d [Hd| ->%list_elem_of_singleton]%elem_of_app; [by apply Hs|done].
  - clear Hs. induction cycles as [|o cycles IH]; cbn [app all_new].
    + split; [by intros d k []%elem_of_nil|done].
    + destruct Hn as [Ho Hn]. split.
      * intros d k [Hd| ->%list_elem_of_singleton]%elem_of_app; [by apply Ho|].
        intros ->. apply Hnew. exists o, k. split; [left|done].
      * apply IH; [done|]. intros (o' & k & Ho' & ->). apply Hnew. exists o', k.
        split; [by right|done].
Qed.

(** Every cycle that [path] closes is among the yields, up to rotation. *)
Definition closed path cycles : Prop :=
  forall x child, last path = Some x -> child_of x child -> child ∈ path ->
    rotated_in (cycle_at path child) cycles.

(** Every path from the start is closed or has a prefix left to explore. *)
Definition covers (start : K) paths cycles : Prop :=
  forall q, spath start q -> closed q cycles \/ exists s, s ∈ paths /\ s `prefix_of` q.

(** [visited] adds to [visited0] only what [start] reaches. *)
Definition reached (start : K) (visited0 visited : gset K) : Prop :=
  forall v, v ∈ visited -> v ∈ visited0 \/ rtc child_of start v.

Lemma rotated_in_mono c cycles cycles' :
  rotated_in c cycles -> cycles ⊆ cycles' -> rotated_in c cycles'.
Proof. intros (o & k & Ho & ->) Hsub. exists o, k. split; [by apply Hsub|done]. Qed.

Lemma simple_cycle_ne c : simple_cycle c -> c <> [].
Proof. intros [_ _ (x & y & Hx & _)] ->. done. Qed.

Lemma spath_reaches start path x : spath start path -> x ∈ path -> rtc child_of start x.
Proof.
  intros (Hh & _ & Hs) [i Hi]%list_elem_of_lookup. revert x Hi.
  induction i as [|i IH]; intros x Hi.
  - rewrite head_lookup in Hh. by simplify_eq.
  - destruct (lookup_lt_is_Some_2 path i) as [y Hy]; [apply lookup_lt_Some in Hi; lia|].
    eapply rtc_r; [by apply IH|]. by apply (Hs i).
Qed.

(** What following the children [dn] of the last item of [path] has done. *)
Record followed (start : K) path (dn : list K) (st0 st : search) : Prop := {
  fo_paths : forall s, s ∈ st.1.1 -> s ∈ st0.1.1 \/ spath start s;
  fo_keep : st0.1.1 ⊆ st.1.1;
  fo_push : forall c : K, c ∈ dn -> c ∉ path -> (path ++ [c]) ∈ st.1.1;
  fo_cycles : st0.1.2 ⊆ st.1.2;
  fo_found : forall c : K, c ∈ dn -> c ∈ path -> rotated_in (cycle_at path c) st.1.2;
  fo_sound : sound st.1.2;
  fo_visited : reached start st0.2 st.2;
  fo_grow : st0.2 ⊆ st.2 }.

Definition weight (b n : nat) paths : nat :=
  sum_list ((fun p => path_weight b (n - length p)) <$> paths).

Lemma follow_child_spec start path x dn (c : K) (st0 st : search) :
  spath start path -> last path = Some x -> child_of x c ->
  followed start path dn st0 st ->
  exists st', follow_child path st c = Ok st' /\
    followed start path (dn ++ [c]) st0 st' /\
    forall b n, weight b n st'.1.1 <= weight b n st.1.1 + path_weight b (n - S (length path)).
Proof.
  intros Hsp Hx Hxc [Hps Hkeep Hpush Hcy Hfound Hsound Hvis Hgrow].
  destruct st as [[paths cycles] visited]. cbn [follow_child fst snd] in *. case_decide as Hc.
  - pose proof (cycle_at_simple start path x c Hsp Hx Hxc Hc) as Hsc.
    destruct (is_dup_spec (cycle_at path c) cycles) as (b & -> & Hb);
      [by apply simple_cycle_ne|intros o Ho; by apply simple_cycle_ne, Hsound|].
    destruct b; cbn [res_bind]; (eexists; split; [done|]); cbn [fst snd];
      (split; [|intros; lia]); split; cbn [fst snd]; try done.
    + intros c' [?| ->%list_elem_of_singleton]%elem_of_app ?; [by apply Hpush|done].
    + intros c' [?| ->%list_elem_of_singleton]%elem_of_app ?; [by apply Hfound|by apply Hb].
    + intros c' [?| ->%list_elem_of_singleton]%elem_of_app ?; [by apply Hpush|done].
    + set_solver.
    + intros c' [?| ->%list_elem_of_singleton]%elem_of_app ?.
      * apply (rotated_in_mono _ cycles); [by apply Hfound|set_solver].
      * exists (cycle_at path c), 0. split; [set_solver|]. unfold rotate.
        rewrite Nat.Div0.mod_0_l. by rewrite drop_0, app_nil_r.
    + apply sound_snoc; [done..|]. intros Hin. by apply Hb in Hin.
  - pose proof (spath_snoc start path x c Hsp Hx Hxc Hc) as Hsp'.
    eexists. split; [done|]. cbn [fst snd]. split.
    + split; cbn [fst snd]; try done.
      * intros s [->|Hs]%elem_of_cons; [by right|by apply Hps].
      * set_solver.
      * intros c' [?| ->%list_elem_of_singleton]%elem_of_app ?; [|left]. right. by apply Hpush.
      * intros c' [?| ->%list_elem_of_singleton]%elem_of_app ?; [by apply Hfound|done].
      * intros v' [->%elem_of_singleton|Hv]%elem_of_union; [|by apply Hvis].
        right. apply (spath_reaches start (path ++ [c])); [done|set_solver].
      * set_solver.
    + intros b n. unfold weight. cbn. rewrite length_app. simpl. rewrite Nat.add_1_r. lia.
Qed.

Lemma follow_children start path x cs (st0 : search) :
  spath start path -> last path = Some x -> parent_children !! x = Some cs ->
  (forall s, s ∈ st0.1.1 -> spath start s) -> sound st0.1.2 ->
  exists st, for_each (follow_child path) cs st0 = Ok st /\
    followed start path cs st0 st /\
    forall b n, weight b n st.1.1
      <= weight b n st0.1.1 + length cs * path_weight b (n - S (length path)).
Proof.
  intros Hsp Hx Hcs Hps Hsound.
  destruct (for_each_ok (follow_child path)
    (fun dn rest st => cs = dn ++ rest /\ followed start path dn st0 st /\
      forall b n, weight b n st.1.1
        <= weight b n st0.1.1 + length dn * path_weight b (n - S (length path)))
    cs st0) as (st & E & _ & ? & ?); [| |by eauto].
  - split; [done|]. split; [|intros; simpl; lia].
    split; try done; try set_solver.
  - intros dn c rest st (Hd & Hf & Hw).
    destruct (follow_child_spec start path x dn c st0 st Hsp Hx) as (st' & E & Hf' & Hw');
      [exists cs; split; [done|set_solver]|done|].
    exists st'. split; [done|]. split; [by rewrite <- app_assoc|]. split; [done|].
    intros b n. specialize (Hw b n). specialize (Hw' b n). rewrite length_app. simpl. lia.
Qed.

Lemma child_in_nodes p x : child_of p x -> x ∈ all_nodes parent_children.
Proof.
  intros (cs & Hcs & Hx). apply elem_of_union_r, elem_of_list_to_set.
  apply list_elem_of_In, in_concat. exists cs. split; apply list_elem_of_In; [|done].
  apply list_elem_of_fmap. exists (p, cs). split; [done|]. by apply elem_of_map_to_list.
Qed.

Lemma spath_length start path :
  start ∈ all_nodes parent_children -> spath start path ->
  length path <= size (all_nodes parent_children).
Proof.
  intros Hst Hsp. rewrite <- (size_list_to_set (C := gset K) path) by apply Hsp.
  apply subseteq_size. intros x Hx%elem_of_list_to_set.
  pose proof (spath_reaches start path x Hsp Hx) as [->|(y & _ & Hy)]%rtc_inv_r; [done|].
  by apply (child_in_nodes y).
Qed.

Lemma length_children x cs :
  parent_children !! x = Some cs -> length cs <= fanout parent_children.
Proof.
  intros Hcs. apply max_list_elem_of_le, list_elem_of_fmap. exists cs. split; [done|].
  apply list_elem_of_fmap. exists (x, cs). split; [done|]. by apply elem_of_map_to_list.
Qed.

(** The invariant of [while paths]. *)
Record searching (start : K) cycles0 visited0 (st : search) : Prop := {
  se_paths : forall s, s ∈ st.1.1 -> spath start s;
  se_covers : covers start st.1.1 st.1.2;
  se_sound : sound st.1.2;
  se_cycles : cycles0 ⊆ st.1.2;
  se_visited : reached start visited0 st.2 }.

(** Taking the top of the stack off and following its children. *)
Lemma searching_step start cycles0 visited0 path x cs paths cycles visited :
  searching start cycles0 visited0 (path :: paths, cycles, visited) ->
  last path = Some x -> parent_children !! x = Some cs ->
  exists st, for_each (follow_child path) cs (paths, cycles, visited) = Ok st /\
    searching start cycles0 visited0 st /\
    forall b n, weight b n st.1.1
      <= weight b n paths + length cs * path_weight b (n - S (length path)).
Proof.
  intros [Hps Hcov Hsound Hcy Hvis] Hx Hcs. cbn [fst snd] in *.
  assert (Hsp : spath start path) by (apply Hps; left).
  destruct (follow_children start path x cs (paths, cycles, visited)) as (st & E & Hf & Hw);
    [done|done|done|intros s Hs; apply Hps; by right|done|].
  exists st. split; [done|]. split; [|done].
  destruct Hf as [Hfp Hfk Hpush Hfc Hfound Hfs Hfv _]. cbn [fst snd] in *. split.
  - intros s Hs. destruct (Hfp s Hs) as [?|?]; [|done]. apply Hps. by right.
  - intros q Hq. destruct (Hcov q Hq) as [Hcl|(s & [->|Hs]%elem_of_cons & Hpre)].
    + left. intros y c Hy Hyc Hc. by apply (rotated_in_mono _ cycles); [apply (Hcl y)|].
    + destruct Hpre as [[|c t] ->].
      * left. rewrite app_nil_r. intros y c Hy (cs' & Hcs' & Hc') Hc. simplify_eq.
        by apply Hfound.
      * right. exists (path ++ [c]). split; [|exists t; by rewrite <- app_assoc].
        destruct Hq as (_ & Hnd & Hst).
        assert (Hxc : child_of x c).
        { rewrite last_lookup in Hx. apply (Hst (pred (length path))).
          - by apply lookup_app_l_Some.
          - pose proof (lookup_lt_Some _ _ _ Hx).
            rewrite lookup_app_r by lia. by replace (_ - _) with 0 by lia. }
        destruct Hxc as (cs' & Hcs' & Hc'). simplify_eq. apply Hpush; [done|].
        apply NoDup_app in Hnd as (_ & Hdis & _). intros Hcp. apply (Hdis c Hcp). left.
    + right. exists s. split; [by apply Hfk|done].
  - done.
  - set_solver.
  - intros v Hv. destruct (Hfv v Hv) as [?|?]; [by apply Hvis|by right].
Qed.

(** A path whose last item is no key has no children. *)
Lemma searching_leaf start cycles0 visited0 path x paths cycles visited :
  searching start cycles0 visited0 (path :: paths, cycles, visited) ->
  last path = Some x -> parent_children !! x = None ->
  searching start cycles0 visited0 (paths, cycles, visited).
Proof.
  intros [Hps Hcov Hsound Hcy Hvis] Hx Hcs. cbn [fst snd] in *. split; cbn [fst snd]; try done.
  - intros s Hs. apply Hps. by right.
  - intros q Hq. destruct (Hcov q Hq) as [Hcl|(s & [->|Hs]%elem_of_cons & Hpre)];
      [by left| |right; by exists s].
    destruct Hpre as [[|c t] ->].
    + left. rewrite app_nil_r. intros y c Hy (cs' & Hcs' & Hc') Hc. simplify_eq.
    + destruct Hq as (_ & _ & Hst). destruct (Hst (pred (length path)) x c) as (cs & Hc & _).
      * rewrite last_lookup in Hx. by apply lookup_app_l_Some.
      * rewrite last_lookup in Hx. pose proof (lookup_lt_Some _ _ _ Hx).
        rewrite lookup_app_r by lia. by replace (_ - _) with 0 by lia.
      * by simplify_eq.
Qed.

Lemma walk_paths_spec start cycles0 visited0 fuel : forall (st : search),
  start ∈ all_nodes parent_children ->
  searching start cycles0 visited0 st ->
  weight (fanout parent_children) (S (size (all_nodes parent_children))) st.1.1 <= fuel ->
  exists cycles visited, walk_paths fuel parent_children st = Ok ([], cycles, visited) /\
    searching start cycles0 visited0 ([], cycles, visited).
Proof.
  induction fuel as [|fuel IH]; intros [[[|path paths] cycles] visited] Hst Hse Hw;
    try by eauto.
  - unfold weight in Hw. cbn in Hw.
    destruct (_ - length path); simpl in Hw; lia.
  - assert (Hsp : spath start path) by (apply Hse; left).
    pose proof (spath_length start path Hst Hsp) as Hlen. cbn [fst] in Hw.
    unfold weight in Hw. rewrite fmap_cons in Hw. cbn [sum_list sum_list_with foldr] in Hw.
    replace (S (size (all_nodes parent_children)) - length path)
      with (S (size (all_nodes parent_children) - length path)) in Hw by lia.
    cbn [path_weight] in Hw. cbn [walk_paths].
    destruct (last path) as [x|] eqn:Hx;
      [|apply last_None in Hx; destruct Hsp as [Hh _]; by subst].
    destruct (parent_children !! x) as [cs|] eqn:Hcs.
    + destruct (searching_step start cycles0 visited0 path x cs paths cycles visited)
        as (st' & -> & Hse' & Hw'); [done..|]. cbn [res_bind].
      apply IH; [done..|]. etrans; [apply Hw'|].
      pose proof (length_children x cs Hcs) as Hb. cbn [Nat.sub].
      apply (Nat.mul_le_mono_r _ _ (path_weight (fanout parent_children)
        (size (all_nodes parent_children) - length path))) in Hb.
      unfold weight. simpl in Hw. lia.
    + apply IH; [done| |].
      * by apply (searching_leaf start cycles0 visited0 path x).
      * unfold weight. simpl in *. lia.
Qed.
Lemma simple_cycle_turn (a b : list K) : simple_cycle (a ++ b) -> simple_cycle (b ++ a).
Proof.
  intros [Hnd Hs Hcl]. destruct a as [|x a]; [by rewrite app_nil_r in *|].
  destruct b as [|y b]; [by rewrite app_nil_r in *|].
  destruct Hcl as (x' & z & [= <-] & Hz & Hzx). split.
  - by rewrite (Permutation_app_comm (y :: b)).
  - apply (steps_join _ _ z x); [| | |done|done].
    + replace (y :: b) with (drop (length (x :: a)) ((x :: a) ++ y :: b))
        by (by rewrite drop_app_length). by apply steps_drop.
    + by eapply steps_app_l.
    + by rewrite last_app in Hz; destruct (last (y :: b)) eqn:E; [|apply last_None in E].
  - destruct (last (x :: a)) as [w|] eqn:Hw; [|by apply last_None in Hw].
    exists y, w. split; [done|]. split; [by rewrite last_app, Hw|].
    rewrite last_lookup in Hw. apply (Hs (pred (length (x :: a)))).
    + by apply lookup_app_l_Some.
    + by rewrite lookup_app_r, Nat.sub_diag by (simpl; lia).
Qed.

Lemma all_new_lookup cycles :
  all_new cycles ->
  forall i j c k, i < j -> cycles !! i = Some c -> cycles !! j <> Some (rotate k c).
Proof.
  induction cycles as [|o cycles IH]; [done|]. intros [Ho Hn] [|i] [|j] c k Hij Hi Hj;
    simplify_eq/=; try lia.
  - by apply (Ho (rotate k c) k); [apply list_elem_of_lookup_2 in Hj|].
  - by apply (IH Hn i j c k); [lia|..].
Qed.

Lemma spath_suffix start (a : list K) x b : spath start (a ++ x :: b) -> spath x (x :: b).
Proof.
  intros (_ & Hnd & Hs). apply NoDup_app in Hnd as (_ & _ & ?). split_and!; [done|done|].
  replace (x :: b) with (drop (length a) (a ++ x :: b)) by apply drop_app_length.
  by apply steps_drop.
Qed.

Lemma spath_cons x y t : spath y t -> child_of x y -> x ∉ t -> spath x (x :: t).
Proof.
  intros (Hh & Hnd & Hs) Hxy Hx. split_and!; [done|by apply NoDup_cons|].
  by apply (steps_join [x] t x y).
Qed.

Lemma index_of_app q (y : K) t : y ∉ q -> cycle_at (q ++ y :: t) y = y :: t.
Proof.
  intros Hq. unfold cycle_at. enough (index_of y (q ++ y :: t) = length q) as ->
    by apply drop_app_length.
  unfold index_of. rewrite (proj2 (list_find_Some _ _ (length q) y)); [done|].
  split_and!; [by rewrite lookup_app_r, Nat.sub_diag|done|].
  intros j z Hz Hlt ->. apply Hq. rewrite lookup_app_l in Hz by done.
  by apply list_elem_of_lookup_2 in Hz.
Qed.

(** The way from [r] into [c], up to the first item of [c]. *)
Lemma way_in r x c :
  rtc child_of r x -> x ∈ c ->
  exists q y, spath r (q ++ [y]) /\ y ∈ c /\ forall z, z ∈ q -> z ∉ c.
Proof.
  assert (Hone : forall y, y ∈ c ->
    exists q z, spath y (q ++ [z]) /\ z ∈ c /\ forall z, z ∈ q -> z ∉ c).
  { intros y Hy. exists [], y. split; [|split; [done|by intros z []%elem_of_nil]].
    split_and!; [done|apply NoDup_singleton|by intros [|[]] ???]. }
  induction 1 as [x|r r' x Hr _ IH]; intros Hx; [by apply Hone|].
  destruct (decide (r ∈ c)) as [Hrc|Hrc]; [by apply Hone|].
  destruct (IH Hx) as (q & y & Hsp & Hy & Hq).
  destruct (decide (r ∈ q)) as [Hrq|Hrq].
  - apply list_elem_of_split in Hrq as (q1 & q2 & ->).
    exists (r :: q2), y. split; [|set_solver].
    apply (spath_suffix r' q1). by rewrite <- app_assoc in Hsp.
  - exists (r :: q), y. split; [|set_solver].
    apply (spath_cons r r'); [done|done|]. set_solver.
Qed.

(** Once everything from [start] is explored, every cycle it reaches has been
    yielded, up to rotation. *)
Lemma explored_cycle start x c cycles :
  (forall q, spath start q -> closed q cycles) ->
  simple_cycle c -> x ∈ c -> rtc child_of start x -> rotated_in c cycles.
Proof.
  intros Hex Hc Hx Hr. destruct (way_in start x c Hr Hx) as (q & y & Hsp & Hy & Hq).
  apply list_elem_of_split in Hy as (a & t & ->).
  pose proof (simple_cycle_turn a (y :: t) Hc) as [Hnd Hst Hcl].
  set (t' := t ++ a) in *. change ((y :: t) ++ a) with (y :: t') in *.
  assert (Hyq : y ∉ q) by (intros Hyq; apply (Hq y Hyq); set_solver).
  destruct Hcl as (y' & z & [= <-] & Hz & Hzy).
  assert (Hsp' : spath start (q ++ y :: t')).
  { destruct Hsp as (Hh & Hndq & Hsq). split_and!.
    - by destruct q.
    - apply NoDup_app. split_and!; [by apply NoDup_app in Hndq as (? & _)| |done].
      intros w Hw Hwt. apply (Hq w Hw). subst t'. set_solver.
    - destruct (last q) as [w|] eqn:Hw; [|by apply last_None in Hw; subst].
      apply (steps_join q (y :: t') w y); [by eapply steps_app_l|done..|].
      rewrite last_lookup in Hw. apply (Hsq (pred (length q))).
      + by apply lookup_app_l_Some.
      + pose proof (lookup_lt_Some _ _ _ Hw). rewrite lookup_app_r by lia.
        by replace (_ - _) with 0 by lia. }
  destruct (Hex _ Hsp' z y) as (o & k & Ho & Hrot).
  - by rewrite last_app, Hz.
  - done.
  - set_solver.
  - rewrite index_of_app in Hrot by done. exists o.
    destruct (rotate_trans o (y :: t') (a ++ y :: t)) as [k' Hk']; [by exists k| |by exists k'].
    apply rotate_split. exists (y :: t), a. split; [done|done].
Qed.

(** The invariant of [for parent in parent_children]: everything in
    [visited_nodes], or done, is reached from a fully explored start. *)
Record finding (dn : list K) (st : list (list K) * gset K) : Prop := {
  fi_sound : sound st.1;
  fi_seen : forall v, v ∈ st.2 \/ v ∈ dn -> exists r, rtc child_of r v /\
    forall q, spath r q -> closed q st.1 }.

Lemma closed_mono q cycles cycles' : closed q cycles -> cycles ⊆ cycles' -> closed q cycles'.
Proof. intros Hc Hs x y Hx Hxy Hy. apply (rotated_in_mono _ cycles); [by apply (Hc x)|done]. Qed.

Lemma find_from_spec dn parent st :
  parent ∈ all_nodes parent_children -> finding dn st ->
  exists st', find_from parent_children st parent = Ok st' /\ finding (dn ++ [parent]) st'.
Proof.
  destruct st as [cycles visited]. intros Hp [Hs Hseen]. cbn [fst snd] in *.
  unfold find_from. case_decide as Hv.
  - eexists. split; [done|]. split; [done|]. set_solver.
  - destruct (walk_paths_spec parent cycles visited
      (path_weight (fanout parent_children) (size (all_nodes parent_children)))
      ([[parent]], cycles, visited)) as (cycles' & visited' & -> & [_ Hcov Hs' Hcy Hvis]);
      [done| |unfold weight; cbn; rewrite Nat.sub_0_r; lia|].
    { split; cbn [fst snd]; try done.
      - intros s ->%list_elem_of_singleton.
        split_and!; [done|apply NoDup_singleton|by intros [|[]] ???].
      - intros q (Hh & Hq). right. exists [parent]. split; [left|].
        destruct q as [|x q]; simplify_eq/=. by exists q.
      - intros v. by left. }
    cbn [res_bind fst snd] in *. eexists. split; [done|]. split; [done|]. cbn [fst snd].
    assert (Hex : forall q, spath parent q -> closed q cycles').
    { intros q Hq. destruct (Hcov q Hq) as [?|(s & []%elem_of_nil & _)]. done. }
    assert (Hold : forall v, v ∈ visited \/ v ∈ dn -> exists r, rtc child_of r v /\
      forall q, spath r q -> closed q cycles').
    { intros v Hv'. destruct (Hseen v Hv') as (r & Hr & Hq). exists r. split; [done|].
      intros q Hsp. by apply (closed_mono q cycles); [apply Hq|]. }
    intros v [Hv'|[Hv'| ->%list_elem_of_singleton]%elem_of_app].
    + destruct (Hvis v Hv') as [?|?]; [by apply Hold; left|by exists parent].
    + by apply Hold; right.
    + by exists parent.
Qed.

(** C5: [find_cycles] always ends, without an error.  What it yields are simple
    cycles of the graph (distinct items, each the parent of the next and the
    last the parent of the first); no two of them are rotations of each other;
    and every simple cycle of the graph is a rotation of one of them. *)
Theorem find_cycles_spec :
  exists cycles, find_cycles parent_children = Ok cycles /\
    (forall c, c ∈ cycles -> simple_cycle c) /\
    (forall i j c k, i < j -> cycles !! i = Some c -> cycles !! j <> Some (rotate k c)) /\
    forall c, simple_cycle c -> rotated_in c cycles.
Proof.
  destruct (for_each_ok (find_from parent_children) (fun dn rest st =>
      (forall p, p ∈ rest -> p ∈ dom parent_children) /\ finding dn st)
    (dict_keys parent_children) ([], ∅)) as ([cycles visited] & E & _ & [[Hs Hn] Hseen]).
  - split; [by intros p ?%elem_of_dict_keys|]. split; [|set_solver].
    split; [by intros c []%elem_of_nil|done].
  - intros dn p rest st [Hr Hf]. destruct (find_from_spec dn p st) as (st' & ? & ?);
      [apply elem_of_union_l, Hr; left|done|].
    exists st'. split; [done|]. split; [|done]. intros p' Hp'. apply Hr. by right.
  - unfold find_cycles. rewrite E. cbn [res_bind fst snd] in *. exists cycles.
    split; [done|]. split; [done|]. split; [by apply all_new_lookup|].
    intros c Hc. pose proof Hc as [_ _ (x & y & Hx & Hy & (cs & Hcs & _))].
    apply last_Some_elem_of in Hy.
    destruct (Hseen y) as (r & Hr & Hex); [right; apply elem_of_dict_keys; by apply elem_of_dom|].
    by apply (explored_cycle r y c cycles).
Qed.
End Find_cycles_correct.
