(* ===== verification/Shellcmd.v ===== *)
(** * Shell-like command lines: [src/waf-tools/shellcmd.py], [command.py]

    [Pipeline.parse] turns a command line into a list of nodes, [Pipeline.run]
    executes it, [get_abbreviated_command] prints it; the waf task of
    [command.py] substitutes variables in a parsed pipeline before running it.
    What the operating system does (opening files, starting processes, exit
    codes) is a [world], an argument of [run]; what [run] asks of it is a trace
    of events. *)

From S2P Require Import Prelude PyLib.
From Stdlib Require Import Ascii String.
From stdpp Require Import strings gmap pretty.
Open Scope string_scope.
Open Scope nat_scope.
Open Scope list_scope.

Inductive shell_exn :=
  | AssertionError
  | IndexError
  | TypeError
  | UnboundLocalError
  | OSError
  | ValueError (what : string).

(** ** Nodes *)

(** [Command.PIPE], [Command.STDOUT] or a file name. *)
Inductive stream := PIPE | STDOUT | File (filename : string).

Record Command := mkCommand {
  name : string;
  argv : list string;
  stdin : option string;
  stdout : option stream;
  stderr : option stream;
  env_vars : option (gmap string string) }.

(** [Command(token)] *)
Definition new_command (name : string) : Command :=
  {| name := name; argv := [name]; stdin := None; stdout := None; stderr := None;
     env_vars := None |}.

Inductive Node :=
  | NCommand (cmd : Command)
  | NChdir (dir : option string)
  | NPipe
  | NAnd
  | NOr.

#[export] Instance stream_eq_dec : EqDecision stream.
Proof. solve_decision. Defined.
#[export] Instance Command_eq_dec : EqDecision Command.
Proof. solve_decision. Defined.
#[export] Instance Node_eq_dec : EqDecision Node.
Proof. solve_decision. Defined.

(** [' '.join(l)] *)
Abbreviation join_sp := (str_join " ").

(** [get_abbreviated_command]; [%s] of [None] is [None].  The last two tests of
    the chain are both for [And], so no branch prints an [Or]. *)
Definition str_of_dir (dir : option string) : string := default "None" dir.
Definition abbreviated_node (node : Node) : list string :=
  match node with
  | NCommand cmd => [name cmd]
  | NChdir dir => ["cd " +:+ str_of_dir dir]
  | NPipe => ["|"]
  | NAnd => ["&&"]
  | NOr => []
  end.
Definition get_abbreviated_command (pipeline : list Node) : string :=
  join_sp (concat (map abbreviated_node pipeline)).

(** ** [env_var_rx]: [^([a-zA-Z0-9_]+)=(\S+)$] *)

(** [(\S+)$]: [$] also matches before a newline at the very end. *)
Fixpoint match_value (s : string) : option string :=
  match s with
  | EmptyString => Some ""
  | String c EmptyString =>
      if is_space c then (if decide (c = newline) then Some "" else None)
      else Some (String c "")
  | String c s => if is_space c then None else String c <$> match_value s
  end.
Fixpoint match_name (s : string) : option (string * string) :=
  match s with
  | EmptyString => None
  | String c s =>
      if is_word c then prod_map (String c) id <$> match_name s
      else if decide (c = "="%char) then
        match match_value s with
        | Some v => if decide (v = "") then None else Some ("", v)
        | None => None
        end
      else None
  end.
Definition env_var_match (token : string) : option (string * string) :=
  match match_name token with
  | Some (k, v) => if decide (k = "") then None else Some (k, v)
  | None => None
  end.

(** ** [shlex.split]: the tokenizer in its POSIX mode *)

Inductive lex_state := LexSpace | LexWord | LexQuote (q : ascii) | LexEscape (back : option ascii).

Definition lex_space (c : ascii) : bool :=
  (code c =? 32) || (code c =? 9) || (code c =? 13) || (code c =? 10).
Definition dquote : ascii := ascii_of_nat 34.
Definition squote : ascii := ascii_of_nat 39.
Definition backslash : ascii := ascii_of_nat 92.
Definition is_quote (c : ascii) : bool := bool_decide (c = dquote) || bool_decide (c = squote).

(** [token] is in reverse; [quoted] says that a token exists even if empty. *)
Definition lex_emit (token : list ascii) (quoted : bool) : list string :=
  if (bool_decide (token = []) && negb quoted)%bool then []
  else [string_of_list_ascii (rev token)].
Fixpoint lex (st : lex_state) (token : list ascii) (quoted : bool) (s : list ascii)
    : res shell_exn (list string) :=
  match s with
  | [] =>
      match st with
      | LexQuote _ => Raise (ValueError "No closing quotation")
      | LexEscape _ => Raise (ValueError "No escaped character")
      | _ => Ok (lex_emit token quoted)
      end
  | c :: s =>
      match st with
      | LexSpace =>
          if lex_space c then lex LexSpace token quoted s
          else if decide (c = backslash) then lex (LexEscape None) token quoted s
          else if is_quote c then lex (LexQuote c) token quoted s
          else lex LexWord [c] quoted s
      | LexWord =>
          if lex_space c then
            let* ts := lex LexSpace [] false s in Ok (lex_emit token quoted ++ ts)
          else if is_quote c then lex (LexQuote c) token quoted s
          else if decide (c = backslash) then lex (LexEscape None) token quoted s
          else lex LexWord (c :: token) quoted s
      | LexQuote q =>
          if decide (c = q) then lex LexWord token true s
          else if decide (c = backslash /\ q = dquote) then lex (LexEscape (Some q)) token true s
          else lex (LexQuote q) (c :: token) true s
      | LexEscape None => lex LexWord (c :: token) quoted s
      | LexEscape (Some q) =>
          if decide (c = backslash \/ c = q) then lex (LexQuote q) (c :: token) quoted s
          else lex (LexQuote q) (c :: backslash :: token) quoted s
      end
  end.
Definition shlex_split (command : string) : res shell_exn (list string) :=
  lex LexSpace [] false (list_ascii_of_string command).

(** ** Pipeline.parse *)

Inductive parse_state := BEGIN | COMMAND | CHDIR | STDERR | IN_STDOUT | STDIN.

Record parser := mkParser {
  state : parse_state;
  current_command : option Node;
  pending_env : gmap string string;
  pipeline : list Node }.

(** [_commit_command] *)
Definition commit_command (p : parser) : res shell_exn parser :=
  match current_command p with
  | None => Raise AssertionError
  | Some node => Ok (mkParser (state p) None (pending_env p) (pipeline p ++ [node]))
  end.

(** Commit the command, append an operator and start over. *)
Definition commit_with (op : Node) (p : parser) : res shell_exn parser :=
  let* p := commit_command p in
  Ok (mkParser BEGIN (current_command p) (pending_env p) (pipeline p ++ [op])).

Definition set_command (s : parse_state) (p : parser) (cmd : Command) : parser :=
  mkParser s (Some (NCommand cmd)) (pending_env p) (pipeline p).

(** An assignment to an attribute that must still be [None]. *)
Definition set_once {A} (old : option A) : res shell_exn unit :=
  match old with None => Ok () | Some _ => Raise AssertionError end.

(** [state == BEGIN] *)
Definition parse_begin (p : parser) (token : string) : res shell_exn parser :=
  match env_var_match token with
  | Some (k, v) =>
      Ok (mkParser BEGIN (current_command p) (<[k := v]> (pending_env p)) (pipeline p))
  | None =>
      if decide (current_command p = None) then
        if decide (token = "cd") then
          if decide (pending_env p = ∅) then
            Ok (mkParser CHDIR (Some (NChdir None)) (pending_env p) (pipeline p))
          else Raise AssertionError
        else
          let cmd := new_command token in
          if decide (pending_env p = ∅) then
            Ok (mkParser COMMAND (Some (NCommand cmd)) (pending_env p) (pipeline p))
          else
            Ok (mkParser COMMAND
              (Some (NCommand (mkCommand token (argv cmd) None None None (Some (pending_env p)))))
              ∅ (pipeline p))
      else Raise AssertionError
  end.

(** [state == COMMAND], with the command being built. *)
Definition parse_command (p : parser) (cmd : Command) (token : string) : res shell_exn parser :=
  let 'mkCommand n av i o e env := cmd in
  if decide (token = ">") then
    Ok (mkParser IN_STDOUT (current_command p) (pending_env p) (pipeline p))
  else if decide (token = "2>") then
    Ok (mkParser STDERR (current_command p) (pending_env p) (pipeline p))
  else if decide (token = "2>&1") then
    let* _ := set_once e in Ok (set_command COMMAND p (mkCommand n av i o (Some STDOUT) env))
  else if decide (token = "<") then
    Ok (mkParser STDIN (current_command p) (pending_env p) (pipeline p))
  else if decide (token = "|") then
    let* _ := set_once o in
    commit_with NPipe (set_command COMMAND p (mkCommand n av i (Some PIPE) e env))
  else if decide (token = "&&") then commit_with NAnd p
  else if decide (token = "||") then commit_with NOr p
  else Ok (set_command COMMAND p (mkCommand n (av ++ [token]) i o e env)).

(** One pass of [while tokens].  The states other than [BEGIN] have a command
    under construction of the kind the state says. *)
Definition parse_token (p : parser) (token : string) : res shell_exn parser :=
  match state p, current_command p with
  | BEGIN, _ => parse_begin p token
  | COMMAND, Some (NCommand cmd) => parse_command p cmd token
  | CHDIR, Some (NChdir dir) =>
      if decide (token = "&&") then commit_with NAnd p
      else let* _ := set_once dir in
           Ok (mkParser CHDIR (Some (NChdir (Some token))) (pending_env p) (pipeline p))
  | IN_STDOUT, Some (NCommand (mkCommand n av i o e env)) =>
      let* _ := set_once o in
      Ok (set_command COMMAND p (mkCommand n av i (Some (File token)) e env))
  | STDERR, Some (NCommand (mkCommand n av i o e env)) =>
      let* _ := set_once e in
      Ok (set_command COMMAND p (mkCommand n av i o (Some (File token)) env))
  | STDIN, Some (NCommand (mkCommand n av i o e env)) =>
      let* _ := set_once i in
      Ok (set_command COMMAND p (mkCommand n av (Some token) o e env))
  | _, _ => Raise TypeError
  end.

(** [parse] of a list of tokens, and of a string. *)
Definition parse_tokens (tokens : list string) : res shell_exn (list Node) :=
  let* p := for_each parse_token tokens (mkParser BEGIN None ∅ []) in
  let* p := commit_command p in
  Ok (pipeline p).
Definition parse (command : string + list string) : res shell_exn (list Node) :=
  match command with
  | inr tokens => parse_tokens tokens
  | inl command => let* tokens := shlex_split command in parse_tokens tokens
  end.

(** ** Pipeline.run *)

(** What the operating system answers: whether a file opens, whether a process
    starts, and the exit code of the [n]-th process started. *)
Record world := {
  can_open : string -> bool;
  can_spawn : list string -> option string -> bool;
  exit_status : nat -> Z;
  environ : gmap string string }.

(** File objects and the values of the keyword arguments of [Popen]. *)
Inductive handle := DevNull | Opened (filename : string).
Inductive proc_io := Inherit | FromFile (h : handle) | NewPipe | ToStdout | OfProc (n : nat).
Inductive event :=
  | Open (filename : string)
  | Popen (argv : list string) (stdin stdout stderr : proc_io)
      (env : option (gmap string string)) (cwd : option string)
  | Wait (n : nat)
  | Close (h : handle)
  | Say (line : string).

#[export] Instance handle_eq_dec : EqDecision handle.
Proof. solve_decision. Defined.

Definition open_out_file (filename : string) : list event * handle :=
  if decide (filename = "NUL:" \/ filename = "/dev/null") then ([], DevNull)
  else ([Open filename], Opened filename).

(** Computations that leave a trace. *)
Definition io (A : Type) : Type := list event * res shell_exn A.
Definition io_bind {A B} (m : io A) (k : A -> io B) : io B :=
  match m with
  | (evs, Ok a) => let '(evs', r) := k a in (evs ++ evs', r)
  | (evs, Raise e) => (evs, Raise e)
  | (evs, OutOfFuel) => (evs, OutOfFuel)
  end.
Definition tell (evs : list event) : io unit := (evs, Ok ()).
Definition io_ret {A} (a : A) : io A := ([], Ok a).
Definition io_raise {A} (e : shell_exn) : io A := ([], Raise e).
Notation "'let!' x := m 'in' k" := (io_bind m (fun x => k))
  (at level 10, x pattern at level 200, m at level 100, k at level 200) : py_scope.

Section Run.
Context `{!DictOrder string} (w : world) (verbose : bool).

(** [_exec_piped_commands]: wait for them all, then choose the exit code. *)
Definition exec_piped_commands (commands : list nat) : list event * Z :=
  let retvals := map (exit_status w) commands in
  (map Wait commands,
   if existsb (fun r => negb (r =? 0)%Z) retvals then default 0%Z (last retvals) else 0%Z).

Definition close_files (files : list handle) : list event :=
  map Close (filter (fun f => f <> DevNull) files).

(** The loop's variables, and the number of processes started so far. *)
Record runner := mkRunner {
  files_to_close : list handle;
  piped_commands : list nat;
  piped_commands_display : list string;
  in_pipe : bool;
  cwd : string;
  spawned : nat }.

Definition when_verbose (l : list string) : list string := if verbose then l else [].

(** [open(filename)] *)
Definition open_file (h : list event * handle) : io handle :=
  match h with
  | (evs, Opened f) => if can_open w f then (evs, Ok (Opened f)) else (evs, Raise OSError)
  | (evs, h) => (evs, Ok h)
  end.

(** A redirected output: its [Popen] argument, the files opened, the display. *)
Definition out_stream (arrow : string) (s : option stream)
    : io (proc_io * list handle * list string) :=
  match s with
  | None => io_ret (Inherit, [], [])
  | Some PIPE => io_ret (NewPipe, [], [])
  | Some STDOUT => io_ret (ToStdout, [], when_verbose ["2>&1"])
  | Some (File f) =>
      let! h := open_file (open_out_file f) in
      io_ret (FromFile h, [h], when_verbose [arrow +:+ " " +:+ f])
  end.

Definition in_stream (r : runner) (cmd : Command) : io (proc_io * list handle * list string) :=
  if in_pipe r then
    match last (piped_commands r) with
    | Some n => io_ret (OfProc n, [], [])
    | None => io_raise IndexError
    end
  else match stdin cmd with
  | Some f =>
      let! h := open_file ([Open f], Opened f) in
      io_ret (FromFile h, [h], when_verbose ["< " +:+ f])
  | None => io_ret (Inherit, [], [])
  end.

(** [if verbose]: the command with its environment. *)
Definition env_display (env : gmap string string) : string :=
  join_sp (map (fun k => k +:+ "=" +:+ default "" (env !! k)) (dict_keys env)).
Definition nonempty_env (cmd : Command) : option (gmap string string) :=
  match env_vars cmd with
  | Some env => if decide (env = ∅) then None else Some env
  | None => None
  end.
Definition command_display (cmd : Command) : list string :=
  match nonempty_env cmd with
  | Some env => [env_display env +:+ " " +:+ join_sp (argv cmd)]
  | None => [join_sp (argv cmd)]
  end.

(** From the display of the command to [piped_commands.append(proc)]. *)
Definition start_command (r : runner) (cmd : Command) : io runner :=
  let display := piped_commands_display r ++ when_verbose (command_display cmd) in
  let! (pin, fin, din) := in_stream r cmd in
  let! (pout, fout, dout) := out_stream ">" (stdout cmd) in
  let! (perr, ferr, derr) := out_stream "2>" (stderr cmd) in
  let env := (fun e => e ∪ environ w) <$> nonempty_env cmd in
  let proc_cwd := if decide (cwd r = ".") then None else Some (cwd r) in
  let! _ := tell [Popen (argv cmd) pin pout perr env proc_cwd] in
  if can_spawn w (argv cmd) proc_cwd then
    io_ret (mkRunner (files_to_close r ++ fin ++ fout ++ ferr)
      (piped_commands r ++ [spawned r]) (display ++ din ++ dout ++ derr)
      (in_pipe r) (cwd r) (S (spawned r)))
  else io_raise OSError.

(** Wait for the commands of the current pipe, then close the files. *)
Definition finish_pipe (r : runner) : io Z :=
  let '(evs, retval) := exec_piped_commands (piped_commands r) in
  let! _ := tell evs in
  let! _ := tell (close_files (files_to_close r)) in
  io_ret retval.

(** The state after [&&] or [||] proceeds. *)
Definition next_pipe (r : runner) : runner := mkRunner [] [] [] false (cwd r) (spawned r).

(** [while pipeline].  In a verbose run the messages of [&&] and [||] print
    [retval], a local variable that has no value there. *)
Fixpoint run_loop (r : runner) (pipeline : list Node) : io (option Z) :=
  match pipeline with
  | [] => io_ret None
  | NChdir dir :: pipeline =>
      match pipeline with
      | [] => io_raise IndexError
      | NAnd :: pipeline =>
          match dir with
          | None => io_raise TypeError
          | Some d =>
              run_loop (mkRunner (files_to_close r) (piped_commands r)
                (piped_commands_display r ++ when_verbose ["cd " +:+ d +:+ " &&"])
                (in_pipe r) (path_join (cwd r) d) (spawned r)) pipeline
          end
      | _ => io_raise AssertionError
      end
  | NCommand cmd :: pipeline =>
      let! r := start_command r cmd in
      match pipeline with
      | [] =>
          let '(evs, retval) := exec_piped_commands (piped_commands r) in
          let! _ := tell evs in
          let! _ := tell (if verbose then
            [Say (join_sp (piped_commands_display r) +:+ ": exit code " +:+ pretty retval)]
            else []) in
          let! _ := tell (close_files (files_to_close r)) in
          io_ret (Some retval)
      | NPipe :: pipeline =>
          run_loop (mkRunner (files_to_close r) (piped_commands r)
            (piped_commands_display r ++ ["|"]) true (cwd r) (spawned r)) pipeline
      | NOr :: pipeline =>
          let! this_retval := finish_pipe r in
          if verbose then io_raise UnboundLocalError
          else if decide (this_retval = 0%Z) then io_ret (Some this_retval)
          else run_loop (next_pipe r) pipeline
      | NAnd :: pipeline =>
          let! this_retval := finish_pipe r in
          if verbose then
            io_raise UnboundLocalError
          else if decide (this_retval <> 0%Z) then io_ret (Some this_retval)
          else run_loop (next_pipe r) pipeline
      | _ :: pipeline => run_loop r pipeline
      end
  | _ => io_raise AssertionError
  end.
Definition run (pipeline : list Node) : io (option Z) :=
  run_loop (mkRunner [] [] [] false "." 0) pipeline.
End Run.

(** ** The waf task of [command.py]

    Nodes of waf are outside the sources: what the task asks of one is its
    source path and the path of its build copy.  [eval] is Python's, applied to
    the text of the substitution in the task's namespace. *)

Record waf_node := { srcpath : string; bld_abspath : string }.
Inductive value :=
  | VNode (n : waf_node)
  | VInputs
  | VOutputs
  | VList (l : list string)
  | VStr (s : string).

(** [\w] among the characters up to 255. *)
Definition is_w (c : ascii) : bool :=
  is_word c || in_range 178 179 c || in_range 185 186 c || in_range 188 190 c ||
  in_range 192 214 c || in_range 216 246 c || in_range 248 255 c ||
  (code c =? 170) || (code c =? 181).

(** A match of the second half of [arg_rx] after the opening brace: [var] is
    the longest run of word characters, [code] runs to the first closing brace
    on the line.  The third component is the length of the match. *)
Fixpoint match_code (s : list ascii) : option (list ascii * nat) :=
  match s with
  | [] => None
  | c :: s =>
      if decide (c = "}"%char) then Some ([], 1)
      else if decide (c = newline) then None
      else prod_map (cons c) S <$> match_code s
  end.
Fixpoint match_var (s : list ascii) : option (list ascii * list ascii * nat) :=
  match s with
  | c :: t =>
      if is_w c then
        (fun '(var, code, n) => (c :: var, code, S n)) <$> match_var t
      else (fun '(code, n) => ([], code, n)) <$> match_code s
  | [] => None
  end.

Section Task.
Context `{!DictOrder string} (eval : string -> res shell_exn value).
Context (inputs outputs : list waf_node).

(** [repl], for a match of the group [subst]. *)
Definition repl (var code : string) : res shell_exn string :=
  let* result := eval (var +:+ code) in
  match result with
  | VNode n =>
      if decide (var = "TGT") then Ok (bld_abspath n)
      else if decide (var = "SRC") then Ok (srcpath n)
      else Raise (ValueError "Bad subst variable")
  | VInputs =>
      match inputs with
      | [n] => Ok (srcpath n)
      | _ => Raise (ValueError "${SRC} requested but have multiple sources; which one?")
      end
  | VOutputs =>
      match outputs with
      | [n] => Ok (bld_abspath n)
      | _ => Raise (ValueError "${TGT} requested but have multiple targets; which one?")
      end
  | VList [x] => Ok x
  | VList _ => Raise AssertionError
  | VStr s => Ok s
  end.

(** [arg_rx.sub(repl, arg)]: [skip] characters belong to the last match. *)
Fixpoint sub_go (skip : nat) (s : list ascii) : res shell_exn string :=
  match s with
  | [] => Ok ""
  | c :: t =>
      match skip with
      | S skip => sub_go skip t
      | O =>
          if decide (c = "$"%char) then
            match t with
            | d :: u =>
                if decide (d = "$"%char) then
                  let* r := sub_go 1 t in Ok ("$" +:+ r)
                else if decide (d = "{"%char) then
                  match match_var u with
                  | Some (v :: var, code, n) =>
                      let* x := repl (string_of_list_ascii (v :: var)) (string_of_list_ascii code) in
                      let* r := sub_go (S n) t in Ok (x +:+ r)
                  | _ => let* r := sub_go 0 t in Ok (String c r)
                  end
                else let* r := sub_go 0 t in Ok (String c r)
            | [] => Ok (String c "")
            end
          else let* r := sub_go 0 t in Ok (String c r)
      end
  end.
Definition subst_arg (arg : string) : res shell_exn string := sub_go 0 (list_ascii_of_string arg).

(** The loop of [run] over [pipeline.pipeline]. *)
Definition subst_stream (s : option stream) : res shell_exn (option stream) :=
  match s with
  | Some (File f) => let* f := subst_arg f in Ok (Some (File f))
  | _ => Ok s
  end.
Definition subst_opt (s : option string) : res shell_exn (option string) :=
  match s with
  | Some f => let* f := subst_arg f in Ok (Some f)
  | None => Ok None
  end.
Definition subst_env (env : option (gmap string string))
    : res shell_exn (option (gmap string string)) :=
  match env with
  | None => Ok None
  | Some env =>
      let* new := for_each (fun new key =>
        let* v := subst_arg (default "" (env !! key)) in Ok (<[key := v]> new))
        (dict_keys env) ∅ in
      Ok (Some new)
  end.
Definition subst_node (node : Node) : res shell_exn Node :=
  match node with
  | NCommand cmd =>
      let* i := subst_opt (stdin cmd) in
      let* o := subst_stream (stdout cmd) in
      let* e := subst_stream (stderr cmd) in
      let* av := map_res subst_arg (argv cmd) in
      let* env := subst_env (env_vars cmd) in
      Ok (NCommand (mkCommand (name cmd) av i o e env))
  | NChdir None => Raise TypeError
  | NChdir (Some d) => let* d := subst_arg d in Ok (NChdir (Some d))
  | _ => Ok node
  end.

Definition task_run (w : world) (verbose : bool) (command : string + list string)
    : io (option Z) :=
  match (let* p := parse command in map_res subst_node p) with
  | Ok p => run w verbose p
  | Raise e => io_raise e
  | OutOfFuel => ([], OutOfFuel)
  end.

(** [__str__]: sources, a separator when there are targets, targets. *)
Definition task_str (bldpath : waf_node -> string) (command : string + list string)
    : res shell_exn string :=
  let* p := parse command in
  let src_str := join_sp (map bldpath inputs) in
  let tgt_str := join_sp (map bldpath outputs) in
  let sep := if decide (outputs = []) then "" else " -> " in
  Ok ("command (" +:+ get_abbreviated_command p +:+ "): " +:+ src_str +:+ sep +:+ tgt_str).
End Task.

(** ** Well-formed pipelines and their printing *)

Definition operators : list string := [">"; "2>"; "2>&1"; "<"; "|"; "&&"; "||"].

Definition good_env (env : gmap string string) : Prop :=
  forall k v, env !! k = Some v -> env_var_match (k +:+ "=" +:+ v) = Some (k, v).

Record wf_command (cmd : Command) : Prop := {
  wf_argv : exists args, argv cmd = name cmd :: args /\ forall a, a ∈ args -> a ∉ operators;
  wf_name : env_var_match (name cmd) = None /\ name cmd <> "cd";
  wf_stdout : stdout cmd <> Some STDOUT;
  wf_stderr : stderr cmd <> Some PIPE;
  wf_env : match env_vars cmd with Some env => env <> ∅ /\ good_env env | None => True end }.

(** Commands and operators alternate; [PIPE] is the standard output of exactly
    the commands before a pipe; only [&&] follows a [cd]. *)
Fixpoint wf_pipeline (p : list Node) : Prop :=
  match p with
  | NCommand cmd :: p =>
      wf_command cmd /\
      match p with
      | [] => stdout cmd <> Some PIPE
      | NPipe :: p => stdout cmd = Some PIPE /\ wf_pipeline p
      | NAnd :: p | NOr :: p => stdout cmd <> Some PIPE /\ wf_pipeline p
      | _ => False
      end
  | NChdir dir :: p =>
      dir <> Some "&&" /\
      match p with
      | [] => True
      | NAnd :: p => wf_pipeline p
      | _ => False
      end
  | _ => False
  end.

Definition print_env (env : gmap string string) : list string :=
  map (fun '(k, v) => k +:+ "=" +:+ v) (map_to_list env).
Definition print_command (cmd : Command) : list string :=
  match env_vars cmd with Some env => print_env env | None => [] end ++ argv cmd ++
  match stdin cmd with Some f => ["<"; f] | None => [] end ++
  match stdout cmd with Some (File f) => [">"; f] | _ => [] end ++
  match stderr cmd with Some (File f) => ["2>"; f] | Some STDOUT => ["2>&1"] | _ => [] end.
Definition print_node (node : Node) : list string :=
  match node with
  | NCommand cmd => print_command cmd
  | NChdir dir => "cd" :: match dir with Some d => [d] | None => [] end
  | NPipe => ["|"]
  | NAnd => ["&&"]
  | NOr => ["||"]
  end.
Definition print_pipeline (p : list Node) : list string := concat (map print_node p).

(** ** What [parse] accepts *)

(** The invariant of [while tokens]. *)
Definition wf_prefix (l : list Node) : Prop := forall q, wf_pipeline q -> wf_pipeline (l ++ q).
Definition wf_current (s : parse_state) (c : option Node) (env : gmap string string) : Prop :=
  match s, c with
  | BEGIN, None => good_env env
  | (COMMAND | STDERR | IN_STDOUT | STDIN), Some (NCommand cmd) =>
      env = ∅ /\ wf_command cmd /\ stdout cmd <> Some PIPE
  | CHDIR, Some (NChdir dir) => env = ∅ /\ dir <> Some "&&"
  | _, _ => False
  end.
Definition wf_parser (p : parser) : Prop :=
  wf_prefix (pipeline p) /\ wf_current (state p) (current_command p) (pending_env p).

(** An operation of the parser keeps the invariant or fails an assertion. *)
Definition keeps (P : parser -> Prop) (r : res shell_exn parser) : Prop :=
  match r with Ok p => P p | Raise e => e = AssertionError | OutOfFuel => False end.

Lemma good_env_empty : good_env ∅.
Proof. intros k v. by rewrite lookup_empty. Qed.

Lemma env_var_match_print token k v :
  env_var_match token = Some (k, v) -> env_var_match (k +:+ "=" +:+ v) = Some (k, v).
Proof.
  assert (Hval : forall s v, match_value s = Some v -> match_value v = Some v).
  { intros s. induction s as [|c s IH]; intros v' Hv; [by simplify_eq/=|].
    cbn [match_value] in Hv. destruct s as [|c' s].
    - destruct (is_space c) eqn:Hc; [case_decide; by simplify_eq|]. simplify_eq. cbn. by rewrite Hc.
    - destruct (is_space c) eqn:Hc; [done|]. apply fmap_Some in Hv as (v'' & Hv'' & ->).
      specialize (IH _ Hv''). cbn [match_value]. rewrite Hc.
      destruct v'' as [|]; [done|]. by rewrite IH. }
  assert (Hname : forall s k v, match_name s = Some (k, v) ->
    match_name (k +:+ "=" +:+ v) = Some (k, v)).
  { intros s. induction s as [|c s IH]; intros k' v' Hm; [done|]. cbn [match_name] in Hm.
    destruct (is_word c) eqn:Hw.
    - apply fmap_Some in Hm as ([k'' v''] & Hm & Heq). simplify_eq/=. rewrite Hw.
      by rewrite (IH _ _ Hm).
    - case_decide; [|done]. destruct (match_value s) as [v''|] eqn:Hv; [|done].
      case_decide; [done|]. simplify_eq/=.
      change (String.append EmptyString v') with v'. rewrite (Hval _ _ Hv).
      by rewrite decide_False by done. }
  unfold env_var_match. intros Hm. destruct (match_name token) as [[k' v']|] eqn:E; [|done].
  case_decide; [done|]. simplify_eq. rewrite (Hname _ _ _ E). by rewrite decide_False by done.
Qed.

Lemma wf_new_command token :
  env_var_match token = None -> token <> "cd" -> wf_command (new_command token).
Proof.
  intros He Hc. split; cbn; try done. exists []. split; [done|]. by intros a []%elem_of_nil.
Qed.

Lemma wf_commit_with op node s env l :
  (forall q, wf_pipeline q -> wf_pipeline (node :: op :: q)) -> wf_prefix l -> good_env env ->
  keeps wf_parser (commit_with op (mkParser s (Some node) env l)).
Proof.
  intros Hn Hl He. cbn. split; [|done]. cbn. intros q Hq. rewrite <- !app_assoc.
  by apply Hl, Hn.
Qed.

Lemma parse_begin_keeps token env l :
  wf_prefix l -> good_env env -> keeps wf_parser (parse_begin (mkParser BEGIN None env l) token).
Proof.
  intros Hl He. unfold parse_begin. destruct (env_var_match token) as [[k v]|] eqn:Em.
  - split; [done|]. cbn. intros k' v'. rewrite lookup_insert.
    case_decide as Hk; [|apply He]. intros [= <-]. subst. by eapply env_var_match_print.
  - cbn [current_command pending_env]. rewrite decide_True by done.
    destruct (decide (token = "cd")) as [->|Hcd].
    + case_decide; [|done]. split; [done|]. by subst.
    + pose proof (wf_new_command token Em Hcd) as Hw.
      case_decide as Henv; (split; [done|]); cbn; [by subst|].
      split; [done|]. split; [|done]. by destruct Hw; split.
Qed.

Lemma parse_command_keeps token cmd l :
  wf_prefix l -> wf_command cmd -> stdout cmd <> Some PIPE ->
  keeps wf_parser (parse_command (mkParser COMMAND (Some (NCommand cmd)) ∅ l) cmd token).
Proof.
  intros Hl Hw Ho. destruct cmd as [n av i o e env]. unfold parse_command.
  cbn [current_command pending_env pipeline set_command stdout] in *.
  repeat case_decide; try (by split).
  - destruct e; [done|]. cbn. split; [done|]. cbn. split; [done|]. by destruct Hw; split.
  - destruct o; [done|]. cbn [set_once res_bind]. apply wf_commit_with; [|done|apply good_env_empty].
    intros q Hq. cbn. split; [|done]. by destruct Hw; split.
  - apply wf_commit_with; [|done|apply good_env_empty]. by intros q Hq.
  - apply wf_commit_with; [|done|apply good_env_empty]. by intros q Hq.
  - split; [done|]. cbn. split; [done|]. split; [|done].
    destruct Hw as [(args & Ha & Hargs) ? ? ? ?]. split; try done. cbn in *. subst.
    exists (args ++ [token]). split; [done|].
    intros a [Hin| ->%list_elem_of_singleton]%elem_of_app; [by apply Hargs|].
    unfold operators. set_solver.
Qed.

Lemma parse_token_keeps p token : wf_parser p -> keeps wf_parser (parse_token p token).
Proof.
  destruct p as [s c env l]. intros [Hl Hc]. cbn in Hl, Hc. unfold parse_token.
  destruct s, c as [[cmd|dir| | |]|]; try done; cbn [state current_command].
  - by apply parse_begin_keeps.
  - destruct Hc as (-> & Hw & Ho). by apply parse_command_keeps.
  - destruct Hc as [-> Hd]. case_decide as Ht.
    + apply wf_commit_with; [|done|apply good_env_empty]. by intros q Hq.
    + destruct dir; [done|]. cbn. split; [done|]. cbn. split; [done|]. congruence.
  - destruct Hc as (-> & Hw & Ho), cmd as [n av i o e env']. destruct e; [done|]. cbn.
    split; [done|]. cbn. split; [done|]. split; [|done]. by destruct Hw; split.
  - destruct Hc as (-> & Hw & Ho), cmd as [n av i o e env']. destruct o; [done|]. cbn.
    split; [done|]. cbn. split; [done|]. split; [|done]. by destruct Hw; split.
  - destruct Hc as (-> & Hw & Ho), cmd as [n av i o e env']. destruct i; [done|]. cbn.
    split; [done|]. cbn. split; [done|]. split; [|done]. by destruct Hw; split.
Qed.

(** Whatever the tokens, [parse] either fails one of its assertions or
    returns a well-formed pipeline: commands and operators alternate, a [PIPE]
    output stands exactly before a pipe, the arguments of a command hold no
    operator, and a [cd] is followed by [&&] or by nothing. *)
Theorem parse_wf (tokens : list string) :
  match parse (inr tokens) with
  | Ok p => wf_pipeline p
  | Raise e => e = AssertionError
  | OutOfFuel => False
  end.
Proof.
  cbn [parse]. unfold parse_tokens.
  assert (Hk : keeps wf_parser (for_each parse_token tokens (mkParser BEGIN None ∅ []))).
  { assert (H0 : wf_parser (mkParser BEGIN None ∅ [])) by (split; [by intros q Hq|apply good_env_empty]).
    revert H0. generalize (mkParser BEGIN None ∅ []).
    induction tokens as [|t ts IH]; intros p Hp; [done|]. cbn [for_each].
    pose proof (parse_token_keeps p t Hp) as Ht. destruct (parse_token p t); try done.
    by apply IH. }
  destruct (for_each _ _ _) as [[s c env l]|e|]; try done. cbn in *.
  destruct Hk as [Hl Hc]. cbn in *. destruct c as [node|]; [|done]. cbn. apply Hl.
  destruct s, node; try done; cbn; naive_solver.
Qed.

(** ** Round trip *)

Lemma parse_env env l e0 :
  (forall k v, (k, v) ∈ env -> env_var_match (k +:+ "=" +:+ v) = Some (k, v)) ->
  NoDup env.*1 -> (forall k, k ∈ env.*1 -> e0 !! k = None) ->
  for_each parse_token (map (fun '(k, v) => k +:+ "=" +:+ v) env) (mkParser BEGIN None e0 l)
  = Ok (mkParser BEGIN None (list_to_map env ∪ e0) l).
Proof.
  revert e0. induction env as [|[k v] env IH]; intros e0 He Hnd Hdis.
  - cbn. by rewrite map_empty_union.
  - cbn [map for_each parse_token state current_command]. unfold parse_begin at 1.
    rewrite (He k v) by left. cbn [res_bind current_command pending_env pipeline].
    rewrite fmap_cons, NoDup_cons in Hnd. destruct Hnd as [Hk Hnd].
    rewrite IH; [|intros; apply He; by right|done|].
    + f_equal. f_equal. rewrite list_to_map_cons.
      rewrite <- insert_union_l, insert_union_r; [done|].
      by apply not_elem_of_list_to_map_1.
    + intros k' Hk'. rewrite lookup_insert_ne by (intros ->; done). apply Hdis. by right.
Qed.

Lemma parse_args args : forall n av i o e env l,
  (forall a, a ∈ args -> a ∉ operators) ->
  for_each parse_token args (mkParser COMMAND (Some (NCommand (mkCommand n av i o e env))) ∅ l)
  = Ok (mkParser COMMAND (Some (NCommand (mkCommand n (av ++ args) i o e env))) ∅ l).
Proof.
  induction args as [|a args IH]; intros n av i o e env l Ha; [by rewrite app_nil_r|].
  cbn [for_each parse_token state current_command]. unfold parse_command at 1.
  assert (Hop : a ∉ operators) by (apply Ha; left). unfold operators in Hop.
  repeat (rewrite decide_False by set_solver).
  unfold set_command. cbn [res_bind pending_env pipeline]. rewrite IH by (intros; apply Ha; by right).
  by rewrite <- app_assoc.
Qed.

(** What [parse] has built when the tokens of a command are read. *)
Definition without_pipe (cmd : Command) : Command :=
  match stdout cmd with
  | Some PIPE => mkCommand (name cmd) (argv cmd) (stdin cmd) None (stderr cmd) (env_vars cmd)
  | _ => cmd
  end.

Lemma parse_print_command cmd l :
  wf_command cmd ->
  for_each parse_token (print_command cmd) (mkParser BEGIN None ∅ l)
  = Ok (mkParser COMMAND (Some (NCommand (without_pipe cmd))) ∅ l).
Proof.
  intros [(args & Ha & Hargs) [Hname Hcd] Ho He Henv].
  destruct cmd as [n av i o e env]. cbn in Ha, Hname, Hcd, Ho, He, Henv. subst av.
  unfold print_command. cbn [env_vars argv stdin stdout stderr].
  rewrite for_each_app.
  assert (Hstart : (let* s := for_each parse_token
      (match env with Some env => print_env env | None => [] end) (mkParser BEGIN None ∅ l) in
      parse_token s n)
    = Ok (mkParser COMMAND (Some (NCommand (mkCommand n [n] None None None env))) ∅ l)).
  { destruct env as [env|].
    - destruct Henv as [Hne Hg]. unfold print_env. rewrite parse_env.
      + cbn [res_bind parse_token state current_command]. unfold parse_begin. rewrite Hname.
        cbn [current_command pending_env pipeline]. rewrite map_union_empty, list_to_map_to_list.
        rewrite decide_True by done. rewrite decide_False by done.
        by rewrite decide_False by done.
      + intros k v Hkv%elem_of_map_to_list. by apply Hg.
      + apply NoDup_fst_map_to_list.
      + intros k _. apply lookup_empty.
    - cbn [for_each res_bind parse_token state current_command]. unfold parse_begin.
      rewrite Hname. cbn [current_command pending_env pipeline].
      rewrite decide_True by done. rewrite decide_False by done.
      by rewrite decide_True by done. }
  destruct (for_each parse_token _ _) as [s|ex|]; cbn [res_bind] in *; try done.
  cbn [app for_each]. rewrite Hstart. cbn [res_bind]. rewrite for_each_app, parse_args by done.
  cbn [res_bind]. destruct i as [i|], o as [[| |o]|], e as [[| |e]|]; done.
Qed.

Lemma parse_operator cmd op l :
  match op with
  | NPipe => stdout cmd = Some PIPE
  | NAnd | NOr => stdout cmd <> Some PIPE
  | _ => False
  end ->
  for_each parse_token (print_node op)
    (mkParser COMMAND (Some (NCommand (without_pipe cmd))) ∅ l)
  = Ok (mkParser BEGIN None ∅ ((l ++ [NCommand cmd]) ++ [op])).
Proof. destruct cmd as [n av i [[| |o]|] e env], op; cbn; intros Ho; by simplify_eq. Qed.

Lemma parse_chdir dir l :
  dir <> Some "&&" ->
  for_each parse_token (print_node (NChdir dir)) (mkParser BEGIN None ∅ l)
  = Ok (mkParser CHDIR (Some (NChdir dir)) ∅ l).
Proof.
  intros Hd. destruct dir as [d|]; [|done]. cbn [print_node for_each].
  change (parse_token (mkParser BEGIN None ∅ l) "cd")
    with (Ok (E := shell_exn) (mkParser CHDIR (Some (NChdir None)) ∅ l)).
  cbn [res_bind parse_token state current_command].
  by rewrite decide_False by congruence.
Qed.

Lemma parse_print_pipeline p : forall l,
  wf_pipeline p ->
  res_bind (for_each parse_token (print_pipeline p) (mkParser BEGIN None ∅ l))
    (fun q => let* q := commit_command q in Ok (pipeline q)) = Ok (l ++ p).
Proof.
  unfold print_pipeline. induction p as [p IH] using (induction_ltof1 _ (@length Node)).
  intros l Hp. unfold ltof in IH.
  assert (Hrest : forall n op q, p = n :: op :: q -> wf_pipeline q ->
    res_bind (for_each parse_token (concat (map print_node q))
      (mkParser BEGIN None ∅ ((l ++ [n]) ++ [op])))
    (fun q => let* q := commit_command q in Ok (pipeline q)) = Ok (l ++ p)).
  { intros n op q -> Hq. rewrite IH by (done || (cbn; lia)). by rewrite <- !app_assoc. }
  destruct p as [|[cmd|dir| | |] p]; try done; destruct Hp as [Hw Hp];
    cbn [map concat]; rewrite for_each_app.
  - cbn [print_node]. rewrite parse_print_command by done. cbn [res_bind].
    destruct p as [|op p].
    + cbn. by destruct cmd as [n av i [[]|] e env].
    + cbn [map concat]. rewrite for_each_app.
      destruct op; try done; destruct Hp as [Ho Hp]; rewrite parse_operator by done;
        by apply Hrest.
  - rewrite parse_chdir by done. cbn [res_bind]. destruct p as [|op p]; [done|].
    destruct op; try done. cbn [map concat]. rewrite for_each_app. by apply Hrest.
Qed.

(** A token that the tokenizer of a string gives back as it is. *)
Definition plain (s : string) : Prop :=
  s <> "" /\ forall c, c ∈ list_ascii_of_string s ->
    lex_space c = false /\ is_quote c = false /\ c <> backslash.

Lemma lex_plain cs : forall token rest,
  (forall c, c ∈ cs -> lex_space c = false /\ is_quote c = false /\ c <> backslash) ->
  token <> [] \/ cs = [] ->
  lex LexWord token false (cs ++ rest) = lex LexWord (rev cs ++ token) false rest.
Proof.
  induction cs as [|c cs IH]; intros token rest Hc Ht; [done|]. cbn [app lex rev].
  destruct (Hc c) as (-> & -> & Hb); [left|]. rewrite decide_False by done.
  rewrite IH; [by rewrite <- app_assoc|intros c' Hc'; apply Hc; by right|by left].
Qed.

Lemma lex_plain_word s rest :
  plain s ->
  lex LexSpace [] false (list_ascii_of_string s ++ rest)
  = lex LexWord (rev (list_ascii_of_string s)) false rest.
Proof.
  intros [Hne Hc]. destruct s as [|c s]; [done|]. cbn [list_ascii_of_string app lex] in *.
  destruct (Hc c) as (-> & -> & Hb); [left|]. rewrite decide_False by done.
  cbn [rev]. rewrite <- lex_plain; [done|intros c' Hc'; apply Hc; by right|by left].
Qed.

Lemma lex_emit_word s :
  s <> "" -> lex_emit (rev (list_ascii_of_string s)) false = [s].
Proof.
  intros Hs. unfold lex_emit. rewrite bool_decide_eq_false_2.
  - cbn. by rewrite rev_involutive, string_of_list_ascii_of_string.
  - destruct s; [done|]. cbn. by destruct (rev _).
Qed.

Lemma shlex_split_join l :
  (forall s, s ∈ l -> plain s) -> shlex_split (join_sp l) = Ok l.
Proof.
  unfold shlex_split. induction l as [|s l IH]; intros Hl; [done|].
  assert (Hs : plain s) by (apply Hl; left).
  assert (IH' := IH (fun t Ht => Hl t (list_elem_of_further _ _ _ Ht))). clear IH.
  destruct l as [|t l]; cbn [str_join].
  - rewrite <- (app_nil_r (list_ascii_of_string s)), lex_plain_word by done. cbn [lex].
    by rewrite lex_emit_word by apply Hs.
  - rewrite !list_ascii_app, lex_plain_word by done. cbn [list_ascii_of_string app lex].
    change (lex_space " ") with true. cbn match. cbn [str_join] in IH'. rewrite IH'.
    cbn [res_bind]. by rewrite lex_emit_word by apply Hs.
Qed.

(** C8: [parse] inverts the printing of a well-formed pipeline, from its tokens
    and, when no token needs quoting, from the command line as a string. *)
Theorem parse_print (p : list Node) (Hp : wf_pipeline p) :
  parse (inr (print_pipeline p)) = Ok p /\
  ((forall s, s ∈ print_pipeline p -> plain s) ->
   parse (inl (join_sp (print_pipeline p))) = Ok p).
Proof.
  assert (Ht : parse_tokens (print_pipeline p) = Ok p)
    by (apply (parse_print_pipeline p [] Hp)).
  split; [done|]. intros Hpl. cbn [parse]. by rewrite shlex_split_join.
Qed.

Lemma parse_print_witness :
  let p := [NCommand (mkCommand "foo" ["foo"; "-x"] (Some "in") (Some PIPE) (Some STDOUT) None);
            NPipe; NCommand (mkCommand "cat" ["cat"] None (Some (File "out")) None None);
            NOr; NChdir (Some "d"); NAnd; NCommand (new_command "ls")] in
  print_pipeline p = ["foo"; "-x"; "<"; "in"; "2>&1"; "|"; "cat"; ">"; "out"; "||"; "cd"; "d"; "&&";
    "ls"] /\ parse (inr (print_pipeline p)) = Ok p.
Proof.
  split; [reflexivity|]. refine (proj1 (parse_print _ _)).
  assert (Hx : forall a, a ∈ ["-x"] -> a ∉ operators)
    by (intros a ->%list_elem_of_singleton; unfold operators; set_solver).
  assert (Hn : forall a : string, a ∈ [] -> a ∉ operators) by (intros a []%elem_of_nil).
  cbn [wf_pipeline]. split_and!; try (cbn; congruence);
    (split; [eexists; split; [reflexivity|done]|split; [reflexivity|done]|done..]).
Defined.

(** ** What a run does *)

(** The files a trace opens and closes, the processes it starts (with their
    working directories) and those it waits for. *)
Definition opens (evs : list event) : list string :=
  omap (fun e => match e with Open f => Some f | _ => None end) evs.
Definition closes (evs : list event) : list string :=
  omap (fun e => match e with Close (Opened f) => Some f | _ => None end) evs.
Definition starts (evs : list event) : list (list string * option string) :=
  omap (fun e => match e with Popen argv _ _ _ _ cwd => Some (argv, cwd) | _ => None end) evs.
Definition waits (evs : list event) : list nat :=
  omap (fun e => match e with Wait n => Some n | _ => None end) evs.
Definition handle_names (hs : list handle) : list string :=
  omap (fun h => match h with Opened f => Some f | DevNull => None end) hs.

(** The pipelines that [run] executes to an exit code: a [cd] has a directory
    and something after it. *)
Fixpoint runnable (p : list Node) : Prop :=
  match p with
  | NChdir (Some _) :: NAnd :: p => runnable p
  | NCommand _ :: [] => True
  | NCommand _ :: (NPipe | NAnd | NOr) :: p => runnable p
  | _ => False
  end.

(** The meaning of a pipeline: the exit code of a pipe is that of its last
    command, and [&&] and [||] both associate to the right.  [n] processes have
    been started before; the result is the commands started, each with its
    directory, and the exit code. *)
Fixpoint reading (exit_code : nat -> Z) (n : nat) (cwd : string) (p : list Node)
    : list (string * Command) * Z :=
  match p with
  | NChdir (Some d) :: NAnd :: p => reading exit_code n (path_join cwd d) p
  | NCommand cmd :: p =>
      let go p := let '(cmds, c) := reading exit_code (S n) cwd p in ((cwd, cmd) :: cmds, c) in
      let stop := ([(cwd, cmd)], exit_code n) in
      match p with
      | NPipe :: p => go p
      | NAnd :: p => if decide (exit_code n = 0%Z) then go p else stop
      | NOr :: p => if decide (exit_code n = 0%Z) then stop else go p
      | _ => stop
      end
  | _ => ([], 0%Z)
  end.

(** What a shell does with a pipeline when all its programs and directories are there: a list of pipes and
    [cd]s joined by [&&] and [||], which bind equally and associate to the left.  The next part runs ([active])
    after [&&] if the status is 0 and after [||] if it is not; a part that does not run keeps the status.  A [cd] has
    the status 0 and changes the directory of what follows, unless it is part of a pipe ([piped]). *)
Fixpoint shell_reading (exit_code : nat -> Z) (piped active : bool) (n : nat) (cwd : string) (status : Z)
    (p : list Node) : list (string * Command) * Z :=
  match p with
  | NChdir (Some d) :: NAnd :: p =>
      let cwd := if active && negb piped then path_join cwd d else cwd in
      let status := if active then 0%Z else status in
      shell_reading exit_code false (bool_decide (status = 0%Z)) n cwd status p
  | NCommand cmd :: p =>
      let started := if active then [(cwd, cmd)] else [] in
      let status := if active then exit_code n else status in
      let n := if active then S n else n in
      let go piped active p :=
        let '(cmds, c) := shell_reading exit_code piped active n cwd status p in (started ++ cmds, c) in
      match p with
      | NPipe :: p => go true active p
      | NAnd :: p => go false (bool_decide (status = 0%Z)) p
      | NOr :: p => go false (bool_decide (status <> 0%Z)) p
      | _ => (started, status)
      end
  | _ => ([], status)
  end.

(** Whether [&&] or [||] follows a command. *)
Fixpoint has_logic (p : list Node) : bool :=
  match p with
  | NChdir _ :: NAnd :: p => has_logic p
  | NCommand _ :: NPipe :: p => has_logic p
  | NCommand _ :: (NAnd | NOr) :: _ => true
  | _ => false
  end.

Section Run_correct.
Context `{!DictOrder string} (w : world).

(** Everything opens and starts. *)
Definition willing : Prop := (forall f, can_open w f = true) /\ forall a d, can_spawn w a d = true.

Definition proc_dir (dir : string) : option string := if decide (dir = ".") then None else Some dir.

Lemma exec_piped_last commands :
  exec_piped_commands w commands
  = (map Wait commands, default 0%Z (last (map (exit_status w) commands))).
Proof.
  unfold exec_piped_commands. f_equal.
  destruct (existsb _ _) eqn:E; [done|].
  destruct (last _) as [c|] eqn:Hl; [|done]. cbn.
  apply last_Some_elem_of in Hl. symmetry.
  destruct (decide (c = 0%Z)) as [|Hc]; [done|]. apply not_true_iff_false in E. destruct E.
  apply existsb_exists. exists c. split; [by apply list_elem_of_In|]. by apply negb_true_iff, Z.eqb_neq.
Qed.

Lemma starts_app e1 e2 : starts (e1 ++ e2) = starts e1 ++ starts e2.
Proof. apply omap_app. Qed.
Lemma opens_app e1 e2 : opens (e1 ++ e2) = opens e1 ++ opens e2.
Proof. apply omap_app. Qed.
Lemma closes_app e1 e2 : closes (e1 ++ e2) = closes e1 ++ closes e2.
Proof. apply omap_app. Qed.
Lemma waits_app e1 e2 : waits (e1 ++ e2) = waits e1 ++ waits e2.
Proof. apply omap_app. Qed.
Lemma handle_names_app l1 l2 : handle_names (l1 ++ l2) = handle_names l1 ++ handle_names l2.
Proof. apply omap_app. Qed.

(** Waiting and closing. *)
Lemma waits_map l : waits (map Wait l) = l /\ opens (map Wait l) = [] /\
  closes (map Wait l) = [] /\ starts (map Wait l) = [].
Proof. induction l as [|n l IH]; [done|]. destruct IH as (H1 & H2 & H3 & H4). cbn. by rewrite <- H1 at 2. Qed.

Lemma closes_files hs : closes (close_files hs) = handle_names hs /\ opens (close_files hs) = [] /\
  waits (close_files hs) = [] /\ starts (close_files hs) = [].
Proof.
  unfold close_files. induction hs as [|[|f] hs IH]; [done|done|].
  destruct IH as (H1 & H2 & H3 & H4). rewrite filter_cons_True by done.
  split_and!; [exact (f_equal (cons f) H1)|done..].
Qed.

Create Rewrite HintDb trace.
#[local] Hint Rewrite starts_app opens_app closes_app waits_app handle_names_app : trace.

Lemma io_bind_ok {A B} (m : io A) (k : A -> io B) evs a :
  m = (evs, Ok a) -> io_bind m k = (evs ++ (k a).1, (k a).2).
Proof. intros ->. cbn. by destruct (k a). Qed.

(** A redirection opens the file it names, and nothing else happens. *)
Definition opens_only (evs : list event) (hs : list handle) : Prop :=
  opens evs = handle_names hs /\ closes evs = [] /\ starts evs = [] /\ waits evs = [].

Lemma out_stream_spec verbose arrow s :
  willing -> exists evs io hs d, out_stream w verbose arrow s = (evs, Ok (io, hs, d)) /\ opens_only evs hs.
Proof.
  intros [Hopen _]. destruct s as [[| |f]|]; cbn; try by eexists _, _, _, _.
  unfold open_out_file. case_decide; cbn.
  - by eexists _, _, _, _.
  - rewrite Hopen. by eexists _, _, _, _.
Qed.

Lemma in_stream_spec verbose r cmd :
  willing -> (in_pipe r = true -> piped_commands r <> []) ->
  exists evs io hs d, in_stream w verbose r cmd = (evs, Ok (io, hs, d)) /\ opens_only evs hs.
Proof.
  intros [Hopen _] Hp. unfold in_stream. destruct (in_pipe r).
  - destruct (last (piped_commands r)) as [n|] eqn:Hl; [by eexists _, _, _, _|].
    apply last_None in Hl. by destruct Hp.
  - destruct (stdin cmd) as [f|]; cbn; [|by eexists _, _, _, _].
    rewrite Hopen. by eexists _, _, _, _.
Qed.

Lemma start_command_spec verbose r cmd :
  willing -> (in_pipe r = true -> piped_commands r <> []) ->
  exists evs files display,
    start_command w verbose r cmd = (evs, Ok (mkRunner (files_to_close r ++ files)
      (piped_commands r ++ [spawned r]) display (in_pipe r) (cwd r) (S (spawned r)))) /\
    opens evs = handle_names files /\ closes evs = [] /\ waits evs = [] /\
    starts evs = [(argv cmd, proc_dir (cwd r))].
Proof.
  intros Hw Hp. unfold start_command.
  destruct (in_stream_spec verbose r cmd Hw Hp) as (e1 & i & h1 & d1 & E1 & O1 & C1 & S1 & W1).
  destruct (out_stream_spec verbose ">" (stdout cmd) Hw)
    as (e2 & o & h2 & d2 & E2 & O2 & C2 & S2 & W2).
  destruct (out_stream_spec verbose "2>" (stderr cmd) Hw)
    as (e3 & e & h3 & d3 & E3 & O3 & C3 & S3 & W3).
  rewrite (io_bind_ok _ _ _ _ E1), (io_bind_ok _ _ _ _ E2), (io_bind_ok _ _ _ _ E3).
  cbn [io_bind tell]. rewrite (proj2 Hw). cbn [io_ret fst snd].
  eexists _, (h1 ++ h2 ++ h3), _. split; [done|].
  autorewrite with trace. rewrite O1, O2, O3, C1, C2, C3, S1, S2, S3, W1, W2, W3. cbn.
  by rewrite app_nil_r.
Qed.

Lemma finish_pipe_spec r n :
  last (piped_commands r) = Some n ->
  exists evs, finish_pipe w r = (evs, Ok (exit_status w n)) /\
    opens evs = [] /\ starts evs = [] /\ closes evs = handle_names (files_to_close r) /\
    waits evs = piped_commands r.
Proof.
  intros Hl. unfold finish_pipe. rewrite exec_piped_last, last_map, Hl. cbn [io_bind tell io_ret default].
  eexists. split; [done|]. autorewrite with trace.
  destruct (waits_map (piped_commands r)) as (-> & -> & -> & ->).
  destruct (closes_files (files_to_close r)) as (-> & -> & -> & ->). cbn. by rewrite !app_nil_r.
Qed.

(** The invariant of the loop holds of what the trace of [run_loop] adds. *)
Definition run_result verbose (r : runner) (p : list Node) (evs : list event)
    (res : res shell_exn (option Z)) : Prop :=
  let '(cmds, c) := reading (exit_status w) (spawned r) (cwd r) p in
  closes evs = handle_names (files_to_close r) ++ opens evs /\
  waits evs = piped_commands r ++ seq (spawned r) (length (starts evs)) /\
  if (verbose && has_logic p)%bool then res = Raise UnboundLocalError
  else res = Ok (Some c) /\ starts evs = map (fun '(d, cmd) => (argv cmd, proc_dir d)) cmds.

(** One command done, the loop goes on with [r2]. *)
Lemma run_result_go verbose r r2 cmd op p e evs res :
  reading (exit_status w) (spawned r) (cwd r) (NCommand cmd :: op :: p)
  = (let '(cmds, c) := reading (exit_status w) (S (spawned r)) (cwd r) p in
     ((cwd r, cmd) :: cmds, c)) ->
  (verbose && has_logic (NCommand cmd :: op :: p) = verbose && has_logic p)%bool ->
  closes e ++ handle_names (files_to_close r2) = handle_names (files_to_close r) ++ opens e ->
  waits e ++ piped_commands r2 = piped_commands r ++ [spawned r] ->
  starts e = [(argv cmd, proc_dir (cwd r))] ->
  spawned r2 = S (spawned r) -> cwd r2 = cwd r ->
  run_result verbose r2 p evs res -> run_result verbose r (NCommand cmd :: op :: p) (e ++ evs) res.
Proof.
  intros Hr Hl Hc Hw Hs Hn Hd. unfold run_result. rewrite Hr, Hl, Hn, Hd.
  destruct (reading _ (S (spawned r)) _ p) as [cmds c]. intros (Hcl & Hwt & Hres).
  autorewrite with trace. rewrite Hcl, Hwt, Hs. split_and!.
  - by rewrite app_assoc, Hc, <- app_assoc.
  - rewrite app_assoc, Hw, <- app_assoc. done.
  - revert Hres. destruct (verbose && has_logic p)%bool; [done|]. intros [-> Hst]. by rewrite Hst.
Qed.

(** One command done, the loop stops. *)
Lemma run_result_stop verbose r cmd p e res :
  closes e = handle_names (files_to_close r) ++ opens e ->
  waits e = piped_commands r ++ [spawned r] ->
  starts e = [(argv cmd, proc_dir (cwd r))] ->
  (if (verbose && has_logic (NCommand cmd :: p))%bool then res = Raise UnboundLocalError
   else reading (exit_status w) (spawned r) (cwd r) (NCommand cmd :: p)
        = ([(cwd r, cmd)], exit_status w (spawned r)) /\
        res = Ok (Some (exit_status w (spawned r)))) ->
  run_result verbose r (NCommand cmd :: p) e res.
Proof.
  intros Hc Hw Hs Hr. unfold run_result.
  destruct (reading _ _ _ _) as [cmds c]. rewrite Hw, Hs. split_and!; [done|done|].
  revert Hr. destruct (verbose && has_logic (NCommand cmd :: p))%bool; [done|]. by intros [[= -> ->] ->].
Qed.

Lemma run_loop_spec verbose p : forall r,
  willing -> runnable p -> (in_pipe r = true -> piped_commands r <> []) ->
  exists evs res, run_loop w verbose r p = (evs, res) /\ run_result verbose r p evs res.
Proof.
  induction p as [p IH] using (induction_ltof1 _ (@length Node)). unfold ltof in IH.
  intros r Hw Hp Hin. destruct p as [|[cmd|[d|]| | |] p]; try done.
  - destruct (start_command_spec verbose r cmd Hw Hin)
      as (e1 & files & disp & E1 & O1 & C1 & W1 & S1).
    cbn [run_loop]. rewrite (io_bind_ok _ _ _ _ E1).
    set (r1 := mkRunner _ _ _ _ _ _).
    assert (Hlast : last (piped_commands r1) = Some (spawned r)) by (cbn; apply last_snoc).
    destruct (finish_pipe_spec r1 (spawned r) Hlast) as (e2 & E2 & O2 & S2 & C2 & W2).
    assert (Hgo : forall op r2 p', length p' < length (NCommand cmd :: p) -> p = op :: p' ->
      runnable p' -> (in_pipe r2 = true -> piped_commands r2 <> []) ->
      spawned r2 = S (spawned r) -> cwd r2 = cwd r ->
      exists evs res, run_loop w verbose r2 p' = (evs, res) /\ run_result verbose r2 p' evs res)
      by (intros; by apply IH).
    assert (Hfin : closes (e1 ++ e2) = handle_names (files_to_close r) ++ opens (e1 ++ e2) /\
      waits (e1 ++ e2) = piped_commands r ++ [spawned r] /\
      starts (e1 ++ e2) = [(argv cmd, proc_dir (cwd r))]).
    { autorewrite with trace. rewrite C1, C2, O1, O2, W1, W2, S1, S2, app_nil_r.
      subst r1. cbn. by autorewrite with trace. }
    destruct Hfin as (Hfc & Hfw & Hfs).
    destruct p as [|op p].
    + rewrite exec_piped_last, last_map, Hlast.
      cbn [io_bind tell io_ret default fst snd fmap option_fmap option_map].
      eexists _, _. split; [done|]. apply run_result_stop; [..|by rewrite andb_false_r].
      all: autorewrite with trace;
        destruct (waits_map (piped_commands r1)) as (M1 & M2 & M3 & M4);
        destruct (closes_files (files_to_close r1)) as (N1 & N2 & N3 & N4);
        rewrite ?M1, ?M2, ?M3, ?M4, ?N1, ?N2, ?N3, ?N4, ?O1, ?C1, ?W1, ?S1; subst r1; cbn [files_to_close piped_commands];
        autorewrite with trace; destruct verbose; cbn; by rewrite ?app_nil_r.
    + destruct op; try done.
      * destruct (Hgo NPipe (mkRunner (files_to_close r1) (piped_commands r1)
          (piped_commands_display r1 ++ ["|"]) true (cwd r1) (spawned r1)) p) as (evs & res & E & Hr);
          [cbn; lia|done|done|cbn; intros _ Hnil; by apply app_nil in Hnil as [_ ?]|done|done|].
        rewrite E. eexists _, _. split; [done|].
        eapply run_result_go; [..|exact Hr]; cbn; try done.
        -- by rewrite C1, O1, handle_names_app.
        -- by rewrite W1.
      * rewrite (io_bind_ok _ _ _ _ E2). destruct verbose.
        { eexists _, _. split; [done|]. cbn [fst io_raise]. rewrite app_nil_r.
          by apply run_result_stop. }
        cbn [negb]. case_decide as Hz.
        { eexists _, _. split; [done|]. cbn [fst io_ret]. rewrite app_nil_r.
          apply run_result_stop; [done..|]. cbn. by rewrite decide_False. }
        destruct (Hgo NAnd (next_pipe r1) p) as (evs & res & E & Hr); [cbn; lia|done..|].
        rewrite E. eexists _, _. split; [done|]. cbn [fst]. rewrite app_assoc.
        eapply run_result_go; [..|exact Hr]; try done.
        -- cbn [reading]. by rewrite decide_True.
        -- by rewrite app_nil_r.
        -- by rewrite app_nil_r.
      * rewrite (io_bind_ok _ _ _ _ E2). destruct verbose.
        { eexists _, _. split; [done|]. cbn [fst io_raise]. rewrite app_nil_r.
          by apply run_result_stop. }
        case_decide as Hz.
        { eexists _, _. split; [done|]. cbn [fst io_ret]. rewrite app_nil_r.
          apply run_result_stop; [done..|]. cbn. by rewrite decide_True. }
        destruct (Hgo NOr (next_pipe r1) p) as (evs & res & E & Hr); [cbn; lia|done..|].
        rewrite E. eexists _, _. split; [done|]. cbn [fst]. rewrite app_assoc.
        eapply run_result_go; [..|exact Hr]; try done.
        -- cbn [reading]. by rewrite decide_False.
        -- by rewrite app_nil_r.
        -- by rewrite app_nil_r.
  - destruct p as [|[]]; try done.
    destruct (IH p ltac:(cbn; lia) (mkRunner (files_to_close r) (piped_commands r)
      (piped_commands_display r ++ when_verbose verbose ["cd " +:+ d +:+ " &&"])
      (in_pipe r) (path_join (cwd r) d) (spawned r)) Hw Hp Hin) as (evs & res & E & Hr).
    exists evs, res. split; [done|]. exact Hr.
Qed.

(** C7: when everything opens and starts, a quiet run executes a pipeline by
    the reading in which [&&] and [||] associate to the right: it starts exactly
    the commands of that reading, in order and each in its directory, and
    returns its exit code; every file it opened has been closed and every
    process it started has been waited for. *)
Theorem run_spec (p : list Node) (Hw : willing) (Hp : runnable p) :
  exists evs, run w false p = (evs, Ok (Some (reading (exit_status w) 0 "." p).2)) /\
    starts evs = map (fun '(d, cmd) => (argv cmd, proc_dir d)) (reading (exit_status w) 0 "." p).1 /\
    closes evs = opens evs /\ waits evs = seq 0 (length (starts evs)).
Proof.
  destruct (run_loop_spec false p (mkRunner [] [] [] false "." 0) Hw Hp) as (evs & res & E & Hr);
    [done|].
  unfold run_result in Hr. cbn [spawned cwd] in Hr.
  destruct (reading _ _ _ p) as [cmds c]. cbn in Hr. destruct Hr as (Hc & Hwt & -> & Hs).
  exists evs. unfold run. by rewrite E.
Qed.

(** A verbose run gives the result of the quiet run unless [&&] or [||]
    follows a command: then it raises [UnboundLocalError]. *)
Theorem run_verbose (p : list Node) (Hw : willing) (Hp : runnable p) :
  (run w true p).2 = if has_logic p then Raise UnboundLocalError else (run w false p).2.
Proof.
  destruct (run_loop_spec true p (mkRunner [] [] [] false "." 0) Hw Hp) as (evs & res & E & Hr);
    [done|].
  destruct (run_loop_spec false p (mkRunner [] [] [] false "." 0) Hw Hp) as (evs' & res' & E' & Hr');
    [done|].
  unfold run. rewrite E, E'. unfold run_result in *. cbn [spawned cwd snd andb] in *.
  destruct (reading _ _ _ p) as [cmds c].
  destruct Hr as (_ & _ & Hr), Hr' as (_ & _ & -> & _).
  destruct (has_logic p); [done|]. by destruct Hr as [-> _].
Qed.
End Run_correct.

(** ** Associativity *)

(** Pipes of commands joined by [op] only; the [&&] after a [cd] counts. *)
Fixpoint joined_by (op : Node) (p : list Node) : Prop :=
  match p with
  | NCommand _ :: NPipe :: p => match p with NChdir _ :: _ => False | _ => joined_by op p end
  | NCommand _ :: op' :: p => op' = op /\ joined_by op p
  | NChdir _ :: NAnd :: p => op = NAnd /\ joined_by op p
  | _ => True
  end.
(** The same after the [cd]s at the start. *)
Fixpoint one_operator (op : Node) (p : list Node) : Prop :=
  match p with
  | NChdir _ :: NAnd :: p => one_operator op p
  | _ => joined_by op p
  end.

(** A part that does not run keeps the others from running. *)
Lemma shell_reading_skipped exit_code op p : forall piped n dir status,
  joined_by op p -> op = NAnd /\ status <> 0%Z \/ op = NOr /\ status = 0%Z ->
  shell_reading exit_code piped false n dir status p = ([], status).
Proof.
  induction p as [p IH] using (induction_ltof1 _ (@length Node)). unfold ltof in IH.
  intros piped n dir status Ho Hst. destruct p as [|[cmd|[d|]| | |] p]; try done.
  - destruct p as [|op' p]; [done|]. destruct op'; try done; cbn [shell_reading].
    + rewrite IH; [done|cbn; lia| |done]. by destruct p as [|[] p].
    + destruct Ho as [<- Ho]. destruct Hst as [[_ Hst]|[? _]]; [|done].
      rewrite bool_decide_eq_false_2, IH by first [done|cbn; lia|by left]. done.
    + destruct Ho as [<- Ho]. destruct Hst as [[? _]|[_ Hst]]; [done|].
      rewrite bool_decide_eq_false_2, IH by first [done|cbn; lia|by right|by intros Hn; apply Hn]. done.
  - destruct p as [|[] p]; try done. destruct Ho as [-> Ho]. destruct Hst as [[_ Hst]|[? _]]; [|done].
    cbn [shell_reading andb]. rewrite bool_decide_eq_false_2 by done. apply IH; [cbn; lia|done|by left].
Qed.

(** With one operator, what [run] does is what the shell does. *)
Lemma reading_joined exit_code op p : op = NAnd \/ op = NOr -> forall piped n dir status,
  runnable p -> joined_by op p -> (piped = true -> match p with NChdir _ :: _ => False | _ => True end) ->
  reading exit_code n dir p = shell_reading exit_code piped true n dir status p.
Proof.
  intros Hop. induction p as [p IH] using (induction_ltof1 _ (@length Node)). unfold ltof in IH.
  intros piped n dir status Hp Ho Hpi. destruct p as [|[cmd|[d|]| | |] p]; try done.
  - destruct p as [|op' p]; [done|]. destruct op'; try done; cbn [reading shell_reading].
    + rewrite <- (IH p) by first [done|cbn; lia|by destruct p as [|[] p]]. done.
    + destruct Ho as [<- Ho]. case_decide as Hz.
      * rewrite bool_decide_eq_true_2, <- (IH p) by first [done|cbn; lia]. done.
      * rewrite bool_decide_eq_false_2, (shell_reading_skipped _ NAnd) by first [done|by left]. done.
    + destruct Ho as [<- Ho]. case_decide as Hz.
      * rewrite bool_decide_eq_false_2, (shell_reading_skipped _ NOr) by first [done|by right|by intros Hn; apply Hn]. done.
      * rewrite bool_decide_eq_true_2, <- (IH p) by first [done|cbn; lia]. done.
  - destruct p as [|[] p]; try done. destruct Ho as [-> Ho]. destruct piped; [by destruct Hpi|].
    cbn [reading shell_reading andb negb]. by apply IH; [cbn; lia|..].
Qed.
Lemma reading_shell exit_code op p : op = NAnd \/ op = NOr -> forall n dir status,
  runnable p -> one_operator op p ->
  reading exit_code n dir p = shell_reading exit_code false true n dir status p.
Proof.
  intros Hop. induction p as [p IH] using (induction_ltof1 _ (@length Node)). unfold ltof in IH.
  intros n dir status Hp Ho. destruct p as [|[cmd|[d|]| | |] p]; try done; [by apply (reading_joined _ op)|].
  destruct p as [|[] p]; try done. cbn [reading shell_reading andb negb]. by apply IH; [cbn; lia|..].
Qed.

(** C9: when everything opens and starts and the directories exist, a quiet run of a pipeline that ends with a command,
    in which every [cd] names a directory and is followed by [&&], and whose parts are joined by [&&] only, or by [||] only (apart from [cd]s followed by [&&] at its start; a [cd] inside a pipe is excluded), does
    what a shell does, whose operators associate to the left: it starts the same commands, in the same order and
    directories, and returns the same exit code. *)
Theorem run_shell `{!DictOrder string} (w : world) (op : Node) (p : list Node)
    (Hw : willing w) (Hp : runnable p) (Ho : one_operator op p) (Hop : op = NAnd \/ op = NOr) :
  let '(cmds, status) := shell_reading (exit_status w) false true 0 "." 0 p in
  exists evs, run w false p = (evs, Ok (Some status)) /\
    starts evs = map (fun '(d, cmd) => (argv cmd, proc_dir d)) cmds.
Proof.
  destruct (run_loop_spec w false p (mkRunner [] [] [] false "." 0) Hw Hp) as (evs & res & E & Hr);
    [done|].
  rewrite <- (reading_shell (exit_status w) op p Hop 0 "." 0 Hp Ho).
  unfold run_result in Hr. cbn [spawned cwd] in Hr. unfold run. rewrite E.
  destruct (reading _ _ _ p) as [cmds c]. destruct Hr as (_ & _ & -> & Hs). by exists evs.
Qed.

(** ** Witnesses and divergences *)

(** A world for the examples: everything works, the exit codes are given. *)
Definition example_world (codes : list Z) : world :=
  {| can_open := fun _ => true; can_spawn := fun _ _ => true;
     exit_status := fun n => nth n codes 0%Z; environ := ∅ |}.
Definition example_pipeline (command : string) : list Node :=
  match parse (inl command) with Ok p => p | _ => [] end.

Lemma run_spec_witness :
  let p := example_pipeline "cd d && a < in | b > out && c || e" in
  exists evs, run (example_world [1; 0; 2; 0]%Z) false p = (evs, Ok (Some 0%Z)) /\
    starts evs = [(["a"], Some "./d"); (["b"], Some "./d"); (["c"], Some "./d");
                  (["e"], Some "./d")] /\
    closes evs = opens evs /\ waits evs = seq 0 (length (starts evs)).
Proof.
  apply (run_spec (example_world [1; 0; 2; 0]%Z)
    (example_pipeline "cd d && a < in | b > out && c || e")); [by split|vm_compute; exact I].
Defined.

Lemma run_verbose_witness :
  (run (example_world []) true (example_pipeline "a && b")).2 = Raise UnboundLocalError.
Proof.
  refine (run_verbose (example_world []) (example_pipeline "a && b") _ _);
    [by split|vm_compute; exact I].
Defined.

Lemma run_shell_witness :
  exists evs, run (example_world [0; 3; 0]%Z) false (example_pipeline "cd d && a && b && c") = (evs, Ok (Some 3%Z)) /\
    starts evs = [(["a"], Some "./d"); (["b"], Some "./d")].
Proof.
  apply (run_shell (example_world [0; 3; 0]%Z) NAnd (example_pipeline "cd d && a && b && c")).
  all: vm_compute; tauto.
Defined.

(** Where both operators occur the exit codes differ: [a || b && c] stops after
    a successful [a], although the shell goes on to [c]; so does [a || cd d && b], in the first directory. *)
Lemma run_mixed :
  (run (example_world [0; 1]%Z) false (example_pipeline "a || b && c")).2 = Ok (Some 0%Z) /\
  (shell_reading (exit_status (example_world [0; 1]%Z)) false true 0 "." 0 (example_pipeline "a || b && c")).2
  = 1%Z.
Proof. vm_compute. done. Qed.
Lemma run_mixed_cd :
  starts (run (example_world []) false (example_pipeline "a || cd d && b")).1 = [(["a"], None)] /\
  map (fun '(d, cmd) => (d, argv cmd))
    (shell_reading (fun _ => 0%Z) false true 0 "." 0 (example_pipeline "a || cd d && b")).1
  = [(".", ["a"]); (".", ["b"])].
Proof. vm_compute. done. Qed.

(** No operator [||] is ever printed. *)
Lemma abbreviated_drops_or :
  get_abbreviated_command (example_pipeline "a || b") = "a b".
Proof. vm_compute. done. Qed.

(** A redirection without a file name is accepted, and dropped. *)
Lemma parse_dangling : parse (inl "a >") = parse (inl "a").
Proof. vm_compute. done. Qed.

(** In a pipe the file name of a [<] is ignored. *)
Lemma pipe_ignores_stdin :
  opens (run (example_world []) false (example_pipeline "a | b < f")).1 = [].
Proof. vm_compute. done. Qed.

(** When a process does not start, the files opened for it stay open. *)
Lemma spawn_failure_leaks :
  let w := {| can_open := fun _ => true; can_spawn := fun _ _ => false;
              exit_status := fun _ => 0%Z; environ := ∅ |} in
  let '(evs, r) := run w false (example_pipeline "a > f") in
  r = Raise OSError /\ opens evs = ["f"] /\ closes evs = [].
Proof. vm_compute. done. Qed.

(** ** Substitution *)

Fixpoint double_dollar (s : list ascii) : list ascii :=
  match s with
  | [] => []
  | c :: s => if decide (c = "$"%char) then c :: c :: double_dollar s else c :: double_dollar s
  end.
Definition escape (s : string) : string :=
  string_of_list_ascii (double_dollar (list_ascii_of_string s)).
Definition escape_stream (s : option stream) : option stream :=
  match s with Some (File f) => Some (File (escape f)) | _ => s end.
Definition escape_env (env : option (gmap string string)) : option (gmap string string) :=
  (fun e : gmap string string => escape <$> e) <$> env.
Definition escape_node (node : Node) : Node :=
  match node with
  | NCommand cmd => NCommand (mkCommand (name cmd) (map escape (argv cmd)) (escape <$> stdin cmd)
      (escape_stream (stdout cmd)) (escape_stream (stderr cmd)) (escape_env (env_vars cmd)))
  | NChdir dir => NChdir (escape <$> dir)
  | _ => node
  end.

Section Task_correct.
Context `{!DictOrder string} (eval : string -> res shell_exn value).
Context (inputs outputs : list waf_node).
Local Abbreviation sarg := (subst_arg eval inputs outputs).
Local Abbreviation snode := (subst_node eval inputs outputs).

Lemma subst_escape s : sarg (escape s) = Ok s.
Proof.
  unfold subst_arg, escape. rewrite list_ascii_of_string_of_list_ascii.
  induction s as [|c s IH]; [done|]. cbn [list_ascii_of_string double_dollar].
  case_decide as Hc.
  - cbn [sub_go]. rewrite !decide_True by done. rewrite IH. cbn. by subst.
  - cbn [sub_go]. rewrite decide_False by done. by rewrite IH.
Qed.

Lemma subst_escape_env env : subst_env eval inputs outputs (escape_env env) = Ok env.
Proof.
  destruct env as [env|]; [|done]. cbn [escape_env fmap option_fmap option_map subst_env].
  set (env' := escape <$> env).
  destruct (for_each_ok (fun (new : gmap string string) key =>
      let* v := sarg (default "" (env' !! key)) in Ok (<[key := v]> new))
    (fun dn rest new => (forall k, k ∈ rest -> k ∈ dom env) /\
      forall k, new !! k = if decide (k ∈ dn) then env !! k else None)
    (dict_keys env') ∅) as (new & -> & _ & Hnew).
  - split; [intros k; rewrite elem_of_dict_keys; unfold env'; by rewrite dom_fmap|].
    intros k. rewrite lookup_empty. by case_decide as Hk; [apply elem_of_nil in Hk|].
  - intros dn k rest new [Hr Hn]. destruct (proj1 (elem_of_dom env k)) as [v Hv]; [apply Hr; left|].
    assert (Hk : env' !! k = Some (escape v)) by (unfold env'; by rewrite lookup_fmap, Hv).
    rewrite Hk. change (default "" (Some (escape v))) with (escape v). rewrite subst_escape. cbn [res_bind]. eexists. split; [done|].
    split; [intros k' Hk'; apply Hr; by right|]. intros k'. rewrite lookup_insert, Hn.
    destruct (decide (k = k')) as [->|Hne].
    + rewrite decide_True by set_solver. done.
    + apply decide_ext. set_solver.
  - cbn [res_bind]. do 2 f_equal. apply map_eq. intros k. rewrite Hnew. case_decide as Hk; [done|].
    rewrite elem_of_dict_keys in Hk. unfold env' in Hk. rewrite dom_fmap in Hk.
    symmetry. by apply not_elem_of_dom.
Qed.

Lemma subst_escape_node node : node <> NChdir None -> snode (escape_node node) = Ok node.
Proof.
  intros Hn. destruct node as [cmd|[d|]| | |]; try done.
  - destruct cmd as [n av i o e env]. cbn [escape_node subst_node name argv stdin stdout
      stderr env_vars].
    assert (Hopt : forall s, subst_opt eval inputs outputs (escape <$> s) = Ok s)
      by (intros [s|]; [cbn; by rewrite subst_escape|done]).
    assert (Hstr : forall s, subst_stream eval inputs outputs (escape_stream s) = Ok s)
      by (intros [[| |f]|]; try done; cbn; by rewrite subst_escape).
    rewrite Hopt. cbn [res_bind]. rewrite !Hstr. cbn [res_bind].
    assert (Hav : map_res sarg (map escape av) = Ok av).
    { induction av as [|a av IH]; [done|]. cbn. rewrite subst_escape. cbn. by rewrite IH. }
    rewrite Hav. cbn [res_bind]. by rewrite subst_escape_env.
  - cbn. by rewrite subst_escape.
Qed.

(** Substitution is undone by doubling the dollar signs: a task whose
    command parses to the escaped form of a pipeline runs that pipeline, whatever
    [eval] is. *)
Theorem task_run_escaped (w : world) (verbose : bool) command (p : list Node)
    (Hparse : parse command = Ok (map escape_node p))
    (Hp : forall node, node ∈ p -> node <> NChdir None) :
  task_run eval inputs outputs w verbose command = run w verbose p.
Proof.
  unfold task_run. rewrite Hparse. cbn [res_bind].
  assert (E : map_res snode (map escape_node p) = Ok p).
  { clear Hparse. induction p as [|n p IH]; [done|]. cbn [map map_res].
    rewrite subst_escape_node by (apply Hp; left). cbn [res_bind].
    by rewrite IH by (intros; apply Hp; by right). }
  by rewrite E.
Qed.
End Task_correct.

Lemma task_run_escaped_witness :
  task_run (fun _ => Ok (VStr "")) [] [] (example_world [7]%Z) false (inl "echo $$HOME")
  = run (example_world [7]%Z) false (example_pipeline "echo $HOME").
Proof.
  apply task_run_escaped; [vm_compute; reflexivity|].
  intros node Hn. change (example_pipeline "echo $HOME") with
    [NCommand (mkCommand "echo" ["echo"; "$HOME"] None None None None)] in Hn.
  apply list_elem_of_singleton in Hn. by subst.
Defined.
