(* ===== verification/Timeline.v ===== *)
(** * The data of the timeline viewer: [src/utils/grid.py]

    Ranges and events on named timelines: the sorted lists and their binary
    searches ([TimelineDataRange], [TimelineEvent]), the containers that look a
    name up or create it ([Timeline], [Timelines], [Colors]) and [read_data].
    Objects that the code keeps references to are named by their index in the
    list that owns them.  The program is Python 2 (it sorts with a comparison
    function), so [/] on integers rounds down. *)

From S2P Require Import Prelude PyLib.
From Stdlib Require Import Ascii String.
From stdpp Require Import strings gmap sorting.
Open Scope string_scope.
Open Scope Z_scope.
Open Scope list_scope.

Inductive grid_exn := IndexError.

(** ** Ranges and events *)

Record DataRange := mkRange { start : Z; end_ : Z; range_value : string }.
(** [EventString], [EventInt] *)
Record Event (V : Type) := mkEvent { at_ : Z; event_value : V }.
Arguments mkEvent {V}.
Arguments at_ {V}.
Arguments event_value {V}.

Definition cmp_Z (diff : Z) : Z := if decide (diff < 0) then -1 else if decide (diff > 0) then 1 else 0.
Definition ranges_cmp (a b : DataRange) : Z := cmp_Z (start a - start b).
Definition events_cmp {V} (a b : Event V) : Z := cmp_Z (at_ a - at_ b).

(** [list.sort(cmp)], a stable sort. *)
Fixpoint sort_insert {A} (cmp : A -> A -> Z) (x : A) (l : list A) : list A :=
  match l with
  | [] => [x]
  | y :: l => if decide (cmp x y <= 0) then x :: y :: l else y :: sort_insert cmp x l
  end.
Fixpoint list_sort {A} (cmp : A -> A -> Z) (l : list A) : list A :=
  match l with
  | [] => []
  | x :: l => sort_insert cmp x (list_sort cmp l)
  end.

(** [l[i]] for an index that the code computes. *)
Definition list_get {A} (l : list A) (i : Z) : res grid_exn A :=
  match l !! Z.to_nat (if decide (i < 0) then i + Z.of_nat (length l) else i) with
  | Some x => if decide (- Z.of_nat (length l) <= i) then Ok x else Raise IndexError
  | None => Raise IndexError
  end.
(** [l[i:j]] for a lower bound that is not negative. *)
Definition slice {A} (l : list A) (i j : Z) : list A := slice_from (slice_to l j) i.

(** ** TimelineDataRange *)

Record TimelineDataRange := mkRanges { ranges_name : string; ranges : list DataRange }.

(** [__search]: the loop [while l <= u]. *)
Fixpoint range_search_loop (fuel : nat) (ranges : list DataRange) (key l u : Z)
    : res grid_exn Z :=
  if decide (l <= u) then
    match fuel with
    | O => OutOfFuel
    | S fuel =>
        let i := (l + u) / 2 in
        let* r := list_get ranges i in
        if decide (start r <= key <= end_ r) then Ok i
        else if decide (key < start r) then range_search_loop fuel ranges key l (i - 1)
        else range_search_loop fuel ranges key (i + 1) u
    end
  else Ok (-1).
Definition range_search (ranges : list DataRange) (key : Z) : res grid_exn Z :=
  range_search_loop (length ranges) ranges key 0 (Z.of_nat (length ranges) - 1).

Definition add_range (t : TimelineDataRange) (range : DataRange) : TimelineDataRange :=
  mkRanges (ranges_name t) (ranges t ++ [range]).

Definition get_ranges (ranges : list DataRange) (start end_ : Z) : res grid_exn (list DataRange) :=
  let* s := range_search ranges start in
  let* e := range_search ranges end_ in
  if decide (s = -1 /\ e = -1) then Ok []
  else if decide (s = -1) then Ok (slice ranges 0 (e + 1))
  else if decide (e = -1) then Ok (slice ranges s (Z.of_nat (length ranges)))
  else Ok (slice ranges s (e + 1)).

Definition get_ranges_bounds (ranges : list DataRange) (start end_ : Z) : res grid_exn (Z * Z) :=
  let* s := range_search ranges start in
  let* e := range_search ranges end_ in
  if decide (s = -1 /\ e = -1) then Ok (0, 0)
  else if decide (s = -1) then Ok (0, e + 1)
  else if decide (e = -1) then Ok (s, Z.of_nat (length ranges))
  else Ok (s, e + 1).

Definition sort_ranges (t : TimelineDataRange) : TimelineDataRange :=
  mkRanges (ranges_name t) (list_sort ranges_cmp (ranges t)).

Definition range_bounds (t : TimelineDataRange) : res grid_exn (Z * Z) :=
  if decide (0 < length (ranges t))%nat then
    let* first := list_get (ranges t) 0 in
    let* last := list_get (ranges t) (Z.of_nat (length (ranges t)) - 1) in
    Ok (start first, end_ last)
  else Ok (0, 0).

(** ** TimelineEvent *)

Record TimelineEvent (V : Type) := mkEvents { events_name : string; events : list (Event V) }.
Arguments mkEvents {V}.
Arguments events_name {V}.
Arguments events {V}.

Fixpoint event_search_loop {V} (fuel : nat) (events : list (Event V)) (key l u : Z)
    : res grid_exn Z :=
  if decide (l <= u) then
    match fuel with
    | O => OutOfFuel
    | S fuel =>
        let i := (l + u) / 2 in
        let* e := list_get events i in
        if decide (key = at_ e) then Ok i
        else if decide (key < at_ e) then event_search_loop fuel events key l (i - 1)
        else event_search_loop fuel events key (i + 1) u
    end
  else Ok l.
Definition event_search {V} (events : list (Event V)) (key : Z) : res grid_exn Z :=
  event_search_loop (length events) events key 0 (Z.of_nat (length events) - 1).

Definition add_event {V} (t : TimelineEvent V) (event : Event V) : TimelineEvent V :=
  mkEvents (events_name t) (events t ++ [event]).

Definition get_events {V} (events : list (Event V)) (start end_ : Z)
    : res grid_exn (list (Event V)) :=
  let* s := event_search events start in
  let* e := event_search events end_ in
  Ok (slice events s (e + 1)).
Definition get_events_bounds {V} (events : list (Event V)) (start end_ : Z)
    : res grid_exn (Z * Z) :=
  let* s := event_search events start in
  let* e := event_search events end_ in
  Ok (s, e + 1).

Definition sort_events {V} (t : TimelineEvent V) : TimelineEvent V :=
  mkEvents (events_name t) (list_sort events_cmp (events t)).

Definition event_bounds {V} (t : TimelineEvent V) : res grid_exn (Z * Z) :=
  if decide (0 < length (events t))%nat then
    let* first := list_get (events t) 0 in
    let* last := list_get (events t) (-1) in
    Ok (at_ first, at_ last)
  else Ok (0, 0).

(** ** Timeline and Timelines *)

Record Timeline := mkTimeline {
  timeline_name : string;
  t_ranges : list TimelineDataRange;
  event_str : list (TimelineEvent string);
  event_int : list (TimelineEvent Z) }.

(** The loop that returns the object with a given name, or appends a new one:
    its index, and the list. *)
Fixpoint get_or_create {A} (name_of : A -> string) (new : string -> A) (name : string) (l : list A)
    : nat * list A :=
  match l with
  | [] => (0%nat, [new name])
  | x :: l =>
      if decide (name_of x = name) then (0%nat, x :: l)
      else prod_map S (cons x) (get_or_create name_of new name l)
  end.

Definition get_range (name : string) (t : Timeline) : nat * Timeline :=
  let '(i, l) := get_or_create ranges_name (fun n => mkRanges n []) name (t_ranges t) in
  (i, mkTimeline (timeline_name t) l (event_str t) (event_int t)).
Definition get_event_str (name : string) (t : Timeline) : nat * Timeline :=
  let '(i, l) := get_or_create events_name (fun n => mkEvents n []) name (event_str t) in
  (i, mkTimeline (timeline_name t) (t_ranges t) l (event_int t)).
Definition get_event_int (name : string) (t : Timeline) : nat * Timeline :=
  let '(i, l) := get_or_create events_name (fun n => mkEvents n []) name (event_int t) in
  (i, mkTimeline (timeline_name t) (t_ranges t) (event_str t) l).

Definition sort_timeline (t : Timeline) : Timeline :=
  mkTimeline (timeline_name t) (map sort_ranges (t_ranges t))
    (map sort_events (event_str t)) (map sort_events (event_int t)).

(** The body of the loops of [get_bounds]. *)
Definition widen {A} (bounds : A -> res grid_exn (Z * Z)) (lohi : Z * Z) (x : A)
    : res grid_exn (Z * Z) :=
  let '(lo, hi) := lohi in
  let* (x_lo, x_hi) := bounds x in
  let lo := if decide (x_lo < lo) then x_lo else lo in
  let hi := if decide (x_hi > hi) then x_hi else hi in
  Ok (lo, hi).
Definition timeline_bounds (t : Timeline) : res grid_exn (Z * Z) :=
  let* lohi := for_each (widen range_bounds) (t_ranges t) (0, 0) in
  let* lohi := for_each (widen event_bounds) (event_str t) lohi in
  for_each (widen event_bounds) (event_int t) lohi.

Abbreviation Timelines := (list Timeline).
Definition get_timeline (name : string) (ts : Timelines) : nat * Timelines :=
  get_or_create timeline_name (fun n => mkTimeline n [] [] []) name ts.
Definition sort_timelines (ts : Timelines) : Timelines := map sort_timeline ts.
Definition timelines_bounds (ts : Timelines) : res grid_exn (Z * Z) :=
  for_each (widen timeline_bounds) ts (0, 0).
Definition get_all_range_values `{!DictOrder string} (ts : Timelines) : list string :=
  dict_keys (foldl (fun d (r : DataRange) => <[range_value r := 1]> d) (∅ : gmap string Z)
    (concat (map ranges (concat (map t_ranges ts))))).

(** ** Colors *)

Record Color := mkColor { red : Z; green : Z; blue : Z }.
Record Colors := mkColors { colors : gmap string Color; default_colors : list Color }.
Definition initial_colors : Colors :=
  mkColors ∅ [mkColor 1 0 0; mkColor 0 1 0; mkColor 0 0 1; mkColor 1 1 0; mkColor 1 0 1;
              mkColor 0 1 1].
Definition add_color (c : Colors) (name : string) (color : Color) : Colors :=
  mkColors (<[name := color]> (colors c)) (default_colors c).
(** [lookup]; [default_colors.pop()] fails on the empty list. *)
Definition lookup_color (c : Colors) (name : string) : res grid_exn (Color * Colors) :=
  match colors c !! name with
  | Some color => Ok (color, c)
  | None =>
      match last (default_colors c) with
      | Some color =>
          Ok (color, mkColors (<[name := color]> (colors c)) (removelast (default_colors c)))
      | None => Raise IndexError
      end
  end.

(** ** read_data *)

(** What a line of the file says. *)
Inductive line :=
  | LRange (timeline name value : string) (start end_ : Z)
  | LEventStr (timeline name value : string) (at_ : Z)
  | LEventInt (timeline name : string) (value at_ : Z)
  | LColor (name : string) (r g b : Z)
  | LOther.

(** The pieces of the regular expressions that no other component uses: [([^ ]+) ]
    and two hexadecimal digits. *)
Fixpoint take_field (s : list ascii) : option (list ascii * list ascii) :=
  match s with
  | [] => None
  | c :: s =>
      if decide (c = " "%char) then Some ([], s) else prod_map (cons c) id <$> take_field s
  end.
Definition match_field (s : list ascii) : option (string * list ascii) :=
  match take_field s with
  | Some (c :: f, rest) => Some (string_of_list_ascii (c :: f), rest)
  | _ => None
  end.
Definition hex_digit (c : ascii) : option Z :=
  let n := Z.of_nat (nat_of_ascii c) in
  if decide (48 <= n <= 57) then Some (n - 48)
  else if decide (97 <= n <= 102) then Some (n - 87)
  else if decide (65 <= n <= 70) then Some (n - 55) else None.
Definition match_hex2 (s : list ascii) : option (Z * list ascii) :=
  match s with
  | a :: b :: t => x ← hex_digit a; y ← hex_digit b; Some (16 * x + y, t)
  | _ => None
  end.
Definition m1 (s : list ascii) : option line :=
  s ← literal "range " s; '(t, s) ← match_field s; '(n, s) ← match_field s;
  '(v, s) ← match_field s; '(a, s) ← match_number s; s ← literal " " s;
  '(b, _) ← match_number s; Some (LRange t n v a b).
Definition m2 (s : list ascii) : option line :=
  s ← literal "event-str " s; '(t, s) ← match_field s; '(n, s) ← match_field s;
  '(v, s) ← match_field s; '(a, _) ← match_number s; Some (LEventStr t n v a).
Definition m3 (s : list ascii) : option line :=
  s ← literal "event-int " s; '(t, s) ← match_field s; '(n, s) ← match_field s;
  '(v, s) ← match_number s; s ← literal " " s; '(a, _) ← match_number s;
  Some (LEventInt t n v a).
Definition m4 (s : list ascii) : option line :=
  s ← literal "color " s; '(n, s) ← match_field s; s ← literal "#" s;
  '(r, s) ← match_hex2 s; '(g, s) ← match_hex2 s; '(b, _) ← match_hex2 s;
  Some (LColor n r g b).
(** The first expression that matches decides. *)
Definition parse_line (s : string) : line :=
  let s := list_ascii_of_string s in
  default LOther (match m1 s with Some l => Some l | None =>
    match m2 s with Some l => Some l | None =>
    match m3 s with Some l => Some l | None => m4 s end end end).

(** The body of the loop, once the line is matched.  [r / 255] is an integer. *)
Definition read_line (st : Colors * Timelines) (l : line) : Colors * Timelines :=
  let '(cs, ts) := st in
  match l with
  | LRange tn n v a b =>
      let '(i, ts) := get_timeline tn ts in
      (cs, alter (fun t => let '(j, t) := get_range n t in
             mkTimeline (timeline_name t) (alter (fun r => add_range r (mkRange a b v)) j (t_ranges t))
               (event_str t) (event_int t)) i ts)
  | LEventStr tn n v a =>
      let '(i, ts) := get_timeline tn ts in
      (cs, alter (fun t => let '(j, t) := get_event_str n t in
             mkTimeline (timeline_name t) (t_ranges t)
               (alter (fun e => add_event e (mkEvent a v)) j (event_str t)) (event_int t)) i ts)
  | LEventInt tn n v a =>
      let '(i, ts) := get_timeline tn ts in
      (cs, alter (fun t => let '(j, t) := get_event_int n t in
             mkTimeline (timeline_name t) (t_ranges t) (event_str t)
               (alter (fun e => add_event e (mkEvent a v)) j (event_int t))) i ts)
  | LColor n r g b => (add_color cs n (mkColor (r / 255) (g / 255) (b / 255)), ts)
  | LOther => (cs, ts)
  end.
Definition read_data (lines : list string) : Colors * Timelines :=
  let '(cs, ts) := foldl read_line (initial_colors, []) (map parse_line lines) in
  (cs, sort_timelines ts).

(** ** The sort *)

Section Sort.
Context {A : Type} (key : A -> Z).
Let cmp (a b : A) : Z := cmp_Z (key a - key b).

Definition by_key (l : list A) : Prop :=
  forall i j a b, (i < j)%nat -> l !! i = Some a -> l !! j = Some b -> key a <= key b.

Lemma cmp_le a b : cmp a b <= 0 <-> key a <= key b.
Proof. unfold cmp, cmp_Z. repeat case_decide; lia. Qed.

Lemma by_key_cons x l :
  by_key (x :: l) <-> (forall y, y ∈ l -> key x <= key y) /\ by_key l.
Proof.
  split.
  - intros Hs. split.
    + intros y [j Hj]%list_elem_of_lookup. by apply (Hs 0%nat (S j)); [lia|..].
    + intros i j a b Hij Ha Hb. by apply (Hs (S i) (S j)); [lia|..].
  - intros [Hx Hl] [|i] [|j] a b Hij Ha Hb; simplify_eq/=; try lia.
    + apply Hx. by apply list_elem_of_lookup_2 in Hb.
    + by apply (Hl i j); [lia|..].
Qed.

Lemma sort_insert_perm x l : sort_insert cmp x l ≡ₚ x :: l.
Proof.
  induction l as [|y l IH]; [done|]. cbn [sort_insert]. case_decide; [done|].
  rewrite IH. apply Permutation_swap.
Qed.

Lemma list_sort_perm l : list_sort cmp l ≡ₚ l.
Proof. induction l as [|x l IH]; [done|]. cbn [list_sort]. by rewrite sort_insert_perm, IH. Qed.

Lemma sort_insert_sorted x l : by_key l -> by_key (sort_insert cmp x l).
Proof.
  induction l as [|y l IH]; intros Hl; cbn [sort_insert].
  - apply by_key_cons. split; [by intros ? []%elem_of_nil|done].
  - pose proof (proj1 (by_key_cons _ _) Hl) as [Hy Hl']. case_decide as Hc.
    + rewrite cmp_le in Hc. apply by_key_cons. split; [|done].
      intros z [->|Hz]%elem_of_cons; [done|]. specialize (Hy z Hz). lia.
    + rewrite cmp_le in Hc. apply by_key_cons. split; [|by apply IH].
      intros z. rewrite sort_insert_perm. intros [->|Hz]%elem_of_cons; [lia|by apply Hy].
Qed.

Lemma list_sort_sorted l : by_key (list_sort cmp l).
Proof.
  induction l as [|x l IH]; [by intros i j a b _ ?|]. by apply sort_insert_sorted.
Qed.

Lemma sort_insert_stable x l k :
  filter (fun y => key y = k) (sort_insert cmp x l) = filter (fun y => key y = k) (x :: l).
Proof.
  induction l as [|y l IH]; [done|]. cbn [sort_insert]. case_decide as Hc; [done|].
  rewrite cmp_le in Hc. rewrite filter_cons, IH, !filter_cons.
  repeat case_decide; try done. lia.
Qed.

Lemma list_sort_stable l k :
  filter (fun y => key y = k) (list_sort cmp l) = filter (fun y => key y = k) l.
Proof.
  induction l as [|x l IH]; [done|]. cbn [list_sort].
  by rewrite sort_insert_stable, !filter_cons, IH.
Qed.
End Sort.

(** ** Binary search *)

Lemma list_get_ok {A} (l : list A) (i : Z) :
  0 <= i < Z.of_nat (length l) ->
  exists x, l !! Z.to_nat i = Some x /\ list_get l i = Ok x.
Proof.
  intros Hi. destruct (lookup_lt_is_Some_2 l (Z.to_nat i)) as [x Hx]; [lia|].
  exists x. split; [done|]. unfold list_get. rewrite (decide_False (P := i < 0)) by lia.
  rewrite Hx. by rewrite decide_True by lia.
Qed.

Definition within (key : Z) (r : DataRange) : Prop := start r <= key <= end_ r.
#[export] Instance within_dec key r : Decision (within key r).
Proof. apply _. Defined.

(** Neither the starts nor the ends of the ranges go back. *)
Definition monotone (rs : list DataRange) : Prop := by_key start rs /\ by_key end_ rs.

Lemma range_search_loop_spec rs key fuel : forall l u,
  monotone rs -> 0 <= l -> u < Z.of_nat (length rs) -> l <= u + 1 -> u - l + 1 <= Z.of_nat fuel ->
  (forall k r, rs !! k = Some r -> Z.of_nat k < l -> end_ r < key) ->
  (forall k r, rs !! k = Some r -> u < Z.of_nat k -> key < start r) ->
  exists i, range_search_loop fuel rs key l u = Ok i /\
    (i = -1 /\ (forall r, r ∈ rs -> ~ within key r) \/
     0 <= i /\ exists r, rs !! Z.to_nat i = Some r /\ within key r).
Proof.
  intros l u Hm. revert l u. induction fuel as [|fuel IH]; intros l u Hl Hu Hlu Hf Hlo Hhi;
    cbn [range_search_loop]; case_decide as Hd; try lia.
  1,3: exists (-1); split; [done|]; left; split; [done|];
    intros r [k Hk]%list_elem_of_lookup [Hs He];
    destruct (decide (Z.of_nat k < l)) as [H|H];
      [specialize (Hlo k r Hk H); lia|specialize (Hhi k r Hk ltac:(lia)); lia].
  set (i := (l + u) / 2). assert (Hi : l <= i <= u) by (unfold i; split;
    [apply Z.div_le_lower_bound; lia|apply Z.div_le_upper_bound; lia]).
  destruct (list_get_ok rs i) as (r & Hr & ->); [lia|]. cbn [res_bind].
  destruct Hm as [Hms Hme].
  case_decide as Hin; [exists i; split; [done|]; right; split; [lia|by exists r]|].
  case_decide as Hlt.
  - apply IH; [lia|lia|lia|lia|done|]. intros k r' Hk Hki.
    destruct (decide (k = Z.to_nat i)) as [->|Hne]; [by simplify_eq|].
    pose proof (Hms (Z.to_nat i) k r r' ltac:(lia) Hr Hk). lia.
  - apply IH; [lia|lia|lia|lia| |done]. intros k r' Hk Hki.
    destruct (decide (k = Z.to_nat i)) as [->|Hne]; [simplify_eq; lia|].
    pose proof (Hme k (Z.to_nat i) r' r ltac:(lia) Hk Hr). lia.
Qed.

Lemma range_search_ok rs key :
  monotone rs ->
  exists i, range_search rs key = Ok i /\
    (i = -1 /\ (forall r, r ∈ rs -> ~ within key r) \/
     0 <= i /\ exists r, rs !! Z.to_nat i = Some r /\ within key r).
Proof.
  intros Hm. apply range_search_loop_spec; try done; try lia.
  intros k r Hk%lookup_lt_Some. lia.
Qed.

(** On ranges whose starts and ends do not go back, the binary search ends
    without an index error; it returns the index of a range that holds the key,
    or -1 when none does. *)
Theorem range_search_spec (rs : list DataRange) (key : Z) (Hm : monotone rs) :
  exists i, range_search rs key = Ok i /\
    (i = -1 /\ (forall r, r ∈ rs -> ~ within key r) \/
     0 <= i /\ exists r, rs !! Z.to_nat i = Some r /\ within key r).
Proof. by apply range_search_ok. Qed.

Lemma range_search_spec_witness :
  let rs := [mkRange 0 1 ""; mkRange 4 6 ""; mkRange 8 9 ""] in
  monotone rs /\ exists i, range_search rs 5 = Ok i /\
    (i = -1 /\ (forall r, r ∈ rs -> ~ within 5 r) \/
     0 <= i /\ exists r, rs !! Z.to_nat i = Some r /\ within 5 r).
Proof.
  assert (Hm : monotone [mkRange 0 1 ""; mkRange 4 6 ""; mkRange 8 9 ""]).
  { split; repeat (apply by_key_cons; split;
      [intros y Hy; repeat (apply elem_of_cons in Hy as [->|Hy]; [simpl; lia|]);
       by apply elem_of_nil in Hy|]); by intros i j a b _ ?. }
  split; [exact Hm|]. apply (range_search_spec _ 5). exact Hm.
Defined.

(** ** get_ranges *)

Lemma filter_interval {A} (P : A -> Prop) `{forall x, Decision (P x)} (l : list A) :
  forall i j : nat, (forall k x, l !! k = Some x -> P x <-> (i <= k < j)%nat) ->
  filter P l = take (j - i) (drop i l).
Proof.
  induction l as [|x l IH]; intros i j Hk; [by rewrite drop_nil, take_nil|].
  pose proof (Hk 0%nat x eq_refl) as Hx. rewrite filter_cons.
  assert (Hl : forall i' j', i' = pred i -> j' = pred j -> filter P l = take (j' - i') (drop i' l)).
  { intros i' j' -> ->. apply IH. intros k y Hy. rewrite (Hk (S k) y Hy). lia. }
  destruct i as [|i].
  - rewrite drop_0. destruct j as [|j].
    + rewrite decide_False by (rewrite Hx; lia). rewrite (Hl 0%nat 0%nat) by done. done.
    + rewrite decide_True by (apply Hx; lia). rewrite (Hl 0%nat j) by done.
      by rewrite drop_0, !Nat.sub_0_r.
  - rewrite decide_False by (rewrite Hx; lia). cbn [drop].
    destruct j as [|j]; [rewrite (Hl i 0%nat) by done; done|]. by rewrite (Hl i j).
Qed.

Lemma slice_nat {A} (l : list A) (i j : nat) :
  slice l (Z.of_nat i) (Z.of_nat j) = take (j - i) (drop i l).
Proof.
  unfold slice, slice_from, slice_to, slice_index.
  rewrite !decide_False by lia. rewrite !Nat2Z.id, skipn_firstn_comm, length_take.
  destruct (decide (i <= length l)%nat).
  - destruct (decide (j <= length l)%nat).
    + rewrite (Nat.min_l j) by lia. destruct (decide (i <= j)%nat).
      * by rewrite Nat.min_l by lia.
      * rewrite Nat.min_r by lia. replace (_ - _)%nat with 0%nat by lia.
        by replace (j - i)%nat with 0%nat by lia.
    + rewrite (Nat.min_r j), Nat.min_id, Nat.min_l by lia.
      rewrite !take_ge; try done; rewrite length_drop; lia.
  - rewrite (drop_ge l i) by lia. rewrite take_nil.
    apply nil_length_inv. rewrite length_take, length_drop. lia.
Qed.

(** Ranges one after the other, none touching the next. *)
Definition disjoint_ranges (rs : list DataRange) : Prop :=
  (forall r, r ∈ rs -> start r <= end_ r) /\
  forall i j a b, (i < j)%nat -> rs !! i = Some a -> rs !! j = Some b -> end_ a < start b.
Definition overlaps (s e : Z) (r : DataRange) : Prop := start r <= e /\ s <= end_ r.
#[export] Instance overlaps_dec s e r : Decision (overlaps s e r).
Proof. apply _. Defined.

Lemma disjoint_monotone rs : disjoint_ranges rs -> monotone rs.
Proof.
  intros [Hle Hd]. split; intros i j a b Hij Ha Hb; pose proof (Hd i j a b Hij Ha Hb);
    pose proof (Hle a (list_elem_of_lookup_2 _ _ _ Ha));
    pose proof (Hle b (list_elem_of_lookup_2 _ _ _ Hb)); lia.
Qed.

Lemma disjoint_located rs i r key :
  disjoint_ranges rs -> rs !! i = Some r -> within key r ->
  forall k x, rs !! k = Some x ->
    (key <= end_ x <-> (i <= k)%nat) /\ (start x <= key <-> (k <= i)%nat).
Proof.
  intros [Hle Hd] Hr Hw k x Hx. unfold within in Hw.
  pose proof (Hle x (list_elem_of_lookup_2 _ _ _ Hx)).
  destruct (lt_eq_lt_dec i k) as [[Hik|<-]|Hik].
  - pose proof (Hd i k r x Hik Hr Hx). lia.
  - simplify_eq. lia.
  - pose proof (Hd k i x r Hik Hx Hr). lia.
Qed.

Lemma range_search_cases rs key :
  disjoint_ranges rs ->
  exists i, range_search rs key = Ok i /\
    (i = -1 /\ (forall r, r ∈ rs -> ~ within key r) \/
     exists (n : nat) r, i = Z.of_nat n /\ rs !! n = Some r /\ within key r).
Proof.
  intros Hd%disjoint_monotone. destruct (range_search_ok rs key Hd) as (i & E & Hi).
  exists i. split; [done|]. destruct Hi as [?|(Hi & r & Hr & ?)]; [by left|right].
  exists (Z.to_nat i), r. by rewrite Z2Nat.id.
Qed.

(** On ranges that do not touch, [get_ranges] returns exactly the ranges
    that overlap the interval when both its ends lie in a range; when only one
    does it returns all of those, and possibly more; when none does it returns
    nothing, whatever lies between. *)
Theorem get_ranges_spec (rs : list DataRange) (s e : Z) (Hd : disjoint_ranges rs) (Hse : s <= e) :
  let inside key := exists r, r ∈ rs /\ within key r in
  (inside s -> inside e -> get_ranges rs s e = Ok (filter (overlaps s e) rs)) /\
  (inside s \/ inside e -> exists l, get_ranges rs s e = Ok l /\
     forall r, r ∈ rs -> overlaps s e r -> r ∈ l) /\
  (~ inside s -> ~ inside e -> get_ranges rs s e = Ok []).
Proof.
  intros inside. unfold get_ranges.
  destruct (range_search_cases rs s Hd) as (i & -> & Hi). cbn [res_bind].
  destruct (range_search_cases rs e Hd) as (j & -> & Hj). cbn [res_bind].
  assert (Hin : forall key (n : nat) r, rs !! n = Some r -> within key r -> inside key)
    by (intros key n r Hr Hw; exists r; split; [by apply list_elem_of_lookup_2 in Hr|done]).
  destruct Hi as [[-> Hi]|(n & r & -> & Hr & Hwr)], Hj as [[-> Hj]|(m & r' & -> & Hr' & Hwr')].
  - rewrite decide_True by done. split; [|split]; [| |done].
    + intros (x & Hx & Hw). by destruct (Hi x Hx).
    + intros [(x & Hx & Hw)|(x & Hx & Hw)]; [by destruct (Hi x Hx)|by destruct (Hj x Hx)].
  - rewrite decide_False by lia. rewrite decide_True by done. split; [|split].
    + intros (x & Hx & Hw). by destruct (Hi x Hx).
    + intros _. eexists. split; [done|]. intros x [k Hk]%list_elem_of_lookup [Hov _].
      destruct (disjoint_located rs m r' e Hd Hr' Hwr' k x Hk) as [_ Hle].
      replace (Z.of_nat m + 1) with (Z.of_nat (S m)) by lia. rewrite (slice_nat rs 0).
      rewrite drop_0. apply list_elem_of_lookup. exists k. rewrite lookup_take_lt; [done|].
      apply Hle in Hov. lia.
    + intros _ Hne. destruct Hne. by eapply Hin.
  - rewrite decide_False by lia. rewrite decide_False by lia. rewrite decide_True by done.
    split; [|split].
    + intros _ (x & Hx & Hw). by destruct (Hj x Hx).
    + intros _. eexists. split; [done|]. intros x [k Hk]%list_elem_of_lookup [_ Hov].
      destruct (disjoint_located rs n r s Hd Hr Hwr k x Hk) as [Hle _].
      rewrite slice_nat. rewrite take_ge by (rewrite length_drop; lia).
      apply list_elem_of_lookup. exists (k - n)%nat. rewrite lookup_drop.
      apply Hle in Hov. by replace (n + (k - n))%nat with k by lia.
    + intros Hne. destruct Hne. by eapply Hin.
  - rewrite !decide_False by lia.
    assert (E : slice rs (Z.of_nat n) (Z.of_nat m + 1) = filter (overlaps s e) rs).
    { replace (Z.of_nat m + 1) with (Z.of_nat (S m)) by lia. rewrite slice_nat. symmetry.
      apply filter_interval. intros k x Hk. unfold overlaps.
      destruct (disjoint_located rs n r s Hd Hr Hwr k x Hk) as [H1 _].
      destruct (disjoint_located rs m r' e Hd Hr' Hwr' k x Hk) as [_ H2].
      rewrite H1, H2. lia. }
    rewrite E. split; [done|]. split.
    + intros _. eexists. split; [done|]. intros x Hx Hov. by apply list_elem_of_filter.
    + intros Hne. destruct (Hne (Hin s n r Hr Hwr)).
Qed.

(** A range strictly between the two ends is not found. *)
Lemma get_ranges_gap :
  get_ranges [mkRange 0 1 ""; mkRange 4 6 ""; mkRange 8 9 ""] 3 7 = Ok [].
Proof. reflexivity. Qed.

Lemma get_ranges_spec_witness :
  let rs := [mkRange 0 1 ""; mkRange 4 6 ""; mkRange 8 9 ""] in
  disjoint_ranges rs /\ get_ranges rs 5 8 = Ok [mkRange 4 6 ""; mkRange 8 9 ""].
Proof.
  assert (Hd : disjoint_ranges [mkRange 0 1 ""; mkRange 4 6 ""; mkRange 8 9 ""]).
  { split.
    - intros r Hr. repeat (apply elem_of_cons in Hr as [->|Hr]; [simpl; lia|]).
      by apply elem_of_nil in Hr.
    - intros [|[|[|i]]] [|[|[|j]]] a b Hij Ha Hb; simplify_eq/=; lia. }
  split; [exact Hd|].
  rewrite (proj1 (get_ranges_spec _ 5 8 Hd ltac:(lia))).
  - reflexivity.
  - exists (mkRange 4 6 ""). split; [right; left|]. unfold within. simpl. lia.
  - exists (mkRange 8 9 ""). split; [right; right; left|]. unfold within. simpl. lia.
Defined.

(** ** get_events *)

(** Events at increasing times. *)
Definition increasing {V} (es : list (Event V)) : Prop :=
  forall i j a b, (i < j)%nat -> es !! i = Some a -> es !! j = Some b -> at_ a < at_ b.

Lemma event_search_loop_spec {V} (es : list (Event V)) key fuel : forall l u,
  increasing es -> 0 <= l -> u < Z.of_nat (length es) -> l <= u + 1 -> u - l + 1 <= Z.of_nat fuel ->
  (forall k e, es !! k = Some e -> Z.of_nat k < l -> at_ e < key) ->
  (forall k e, es !! k = Some e -> u < Z.of_nat k -> key < at_ e) ->
  exists n : nat, event_search_loop fuel es key l u = Ok (Z.of_nat n) /\ (n <= length es)%nat /\
    forall k e, es !! k = Some e -> (at_ e < key <-> (k < n)%nat).
Proof.
  intros l u Hm. revert l u. induction fuel as [|fuel IH]; intros l u Hl Hu Hlu Hf Hlo Hhi;
    cbn [event_search_loop]; case_decide as Hd; try lia.
  1,3: exists (Z.to_nat l); rewrite Z2Nat.id by done; split; [done|]; split; [lia|];
    intros k e Hk; split; intros H;
      [destruct (decide (k < Z.to_nat l)%nat); [done|]; specialize (Hhi k e Hk); lia
      |specialize (Hlo k e Hk); lia].
  set (i := (l + u) / 2). assert (Hi : l <= i <= u) by (unfold i; split;
    [apply Z.div_le_lower_bound; lia|apply Z.div_le_upper_bound; lia]).
  destruct (list_get_ok es i) as (e & He & ->); [lia|]. cbn [res_bind].
  assert (Hord : forall k e', es !! k = Some e' ->
    ((k < Z.to_nat i)%nat -> at_ e' < at_ e) /\ ((Z.to_nat i < k)%nat -> at_ e < at_ e') /\
    (k = Z.to_nat i -> e' = e)).
  { intros k e' Hk. split_and!.
    - intros Hlt. by apply (Hm k (Z.to_nat i)).
    - intros Hlt. by apply (Hm (Z.to_nat i) k).
    - intros ->. by simplify_eq. }
  case_decide as Heq; [|case_decide as Hlt].
  - exists (Z.to_nat i). rewrite Z2Nat.id by lia. split; [done|]. split; [lia|].
    intros k e' Hk. destruct (Hord k e' Hk) as (H1 & H2 & H3). split; intros H; [|lia].
    destruct (lt_eq_lt_dec k (Z.to_nat i)) as [[?|E]|?]; [done| |lia].
    rewrite (H3 E) in H. lia.
  - apply IH; [lia|lia|lia|lia|done|]. intros k e' Hk Hki.
    destruct (Hord k e' Hk) as (_ & H2 & H3).
    destruct (decide (k = Z.to_nat i)) as [E|]; [rewrite (H3 E); lia|].
    specialize (H2 ltac:(lia)). lia.
  - apply IH; [lia|lia|lia|lia| |done]. intros k e' Hk Hki.
    destruct (Hord k e' Hk) as (H1 & _ & H3).
    destruct (decide (k = Z.to_nat i)) as [E|]; [rewrite (H3 E); lia|].
    specialize (H1 ltac:(lia)). lia.
Qed.

(** On increasing times the search returns the number of earlier events. *)
Lemma event_search_ok {V} (es : list (Event V)) key :
  increasing es ->
  exists n : nat, event_search es key = Ok (Z.of_nat n) /\ (n <= length es)%nat /\
    forall k e, es !! k = Some e -> (at_ e < key <-> (k < n)%nat).
Proof.
  intros Hm. apply event_search_loop_spec; try done; try lia.
  intros k r Hk%lookup_lt_Some. lia.
Qed.

(** On events at increasing times [get_events] returns the events of the
    interval, followed by the first event after it unless one lies exactly at
    its end. *)
Theorem get_events_spec {V} (es : list (Event V)) (s e : Z) (Hi : increasing es) (Hse : s <= e) :
  get_events es s e =
  Ok (filter (fun x => s <= at_ x <= e) es ++
      (if decide (Exists (fun x => at_ x = e) es) then []
       else take 1 (filter (fun x => e < at_ x) es))).
Proof.
  unfold get_events.
  destruct (event_search_ok es s Hi) as (n & -> & Hn & Hns). cbn [res_bind].
  destruct (event_search_ok es e Hi) as (m & -> & Hm & Hms). cbn [res_bind]. f_equal.
  replace (Z.of_nat m + 1) with (Z.of_nat (S m)) by lia. rewrite slice_nat.
  assert (Hnm : (n <= m)%nat).
  { destruct (decide (n <= m)%nat) as [|Hlt]; [done|].
    destruct (lookup_lt_is_Some_2 es m) as [x Hx]; [lia|].
    pose proof (Hns m x Hx). pose proof (Hms m x Hx). lia. }
  case_decide as Hex.
  - apply Exists_exists in Hex as (x & [k Hk]%list_elem_of_lookup & Hx).
    rewrite app_nil_r. symmetry. apply filter_interval. intros k' y Hy.
    pose proof (Hns k' y Hy). pose proof (Hms k' y Hy).
    assert (Hkm : k = m).
    { pose proof (Hms k x Hk). destruct (decide (k = m)) as [|Hne]; [done|].
      destruct (lookup_lt_is_Some_2 es m) as [z Hz]; [apply lookup_lt_Some in Hk; lia|].
      pose proof (Hms m z Hz). pose proof (Hi m k z x ltac:(lia) Hz Hk). lia. }
    subst k. destruct (lt_eq_lt_dec k' m) as [[?|E]|Hgt]; [lia|subst; simplify_eq; lia|].
    pose proof (Hi m k' x y Hgt Hk Hy). lia.
  - assert (Hlast : forall k x, es !! k = Some x -> e < at_ x <-> (m <= k < length es)%nat).
    { intros k x Hk. pose proof (Hms k x Hk). pose proof (lookup_lt_Some _ _ _ Hk).
      assert (at_ x <> e); [|lia]. intros Hx. apply Hex, Exists_exists. exists x.
      split; [by apply list_elem_of_lookup_2 in Hk|done]. }
    rewrite (filter_interval (fun x => s <= at_ x <= e) es n m), (filter_interval _ es m (length es) Hlast).
    + rewrite take_take. destruct (decide (m < length es)%nat) as [Hlt|Hge].
      * rewrite Nat.min_l by lia. replace (S m - n)%nat with ((m - n) + 1)%nat by lia.
        rewrite <- take_take_drop, drop_drop. by replace (n + (m - n))%nat with m by lia.
      * rewrite (drop_ge es m) by lia. rewrite take_nil, app_nil_r.
        rewrite !take_ge; try done; rewrite length_drop; lia.
    + intros k x Hk. pose proof (Hns k x Hk). pose proof (Hlast k x Hk).
      pose proof (lookup_lt_Some _ _ _ Hk). lia.
Qed.

Lemma get_events_spec_witness :
  let es := [mkEvent 1 7; mkEvent 3 8; mkEvent 9 9; mkEvent 12 6] in
  increasing es /\ get_events es 2 5 = Ok [mkEvent 3 8; mkEvent 9 9].
Proof.
  assert (Hi : increasing [mkEvent 1 7; mkEvent 3 8; mkEvent 9 9; mkEvent 12 6])
    by (intros [|[|[|[|i]]]] [|[|[|[|j]]]] a b Hij Ha Hb; simplify_eq/=; lia).
  split; [exact Hi|]. rewrite (get_events_spec _ 2 5 Hi) by lia. reflexivity.
Defined.

(** ** Bounds *)

(** [lohi] bounds the times of [P] from below and those of [Q] from above, and
    each bound is a time of its set, or 0. *)
Definition spans (P Q : Z -> Prop) (lohi : Z * Z) : Prop :=
  (forall z, P z -> lohi.1 <= z) /\ (lohi.1 = 0 \/ P lohi.1) /\
  (forall z, Q z -> z <= lohi.2) /\ (lohi.2 = 0 \/ Q lohi.2).

Lemma spans_ext P Q P' Q' lohi :
  spans P Q lohi -> (forall z, P z <-> P' z) -> (forall z, Q z <-> Q' z) -> spans P' Q' lohi.
Proof. unfold spans. intros (H1 & H2 & H3 & H4) HP HQ. split_and!; naive_solver. Qed.

Lemma widen_all {A} (bounds : A -> res grid_exn (Z * Z)) (P Q : A -> Z -> Prop) (l : list A) :
  (forall x, x ∈ l -> exists ab, bounds x = Ok ab /\ spans (P x) (Q x) ab) ->
  forall (P0 Q0 : Z -> Prop) lohi, spans P0 Q0 lohi -> lohi.1 <= 0 <= lohi.2 ->
  exists lohi', for_each (widen bounds) l lohi = Ok lohi' /\ lohi'.1 <= 0 <= lohi'.2 /\
    spans (fun z => P0 z \/ exists x, x ∈ l /\ P x z) (fun z => Q0 z \/ exists x, x ∈ l /\ Q x z) lohi'.
Proof.
  induction l as [|x l IH]; intros Hb P0 Q0 [lo hi] Hs Hz.
  - eexists. split; [done|]. split; [done|]. apply (spans_ext P0 Q0); [done|..];
      intros z; (split; [by left|]); intros [?|(x & []%elem_of_nil & _)]; done.
  - cbn [for_each widen]. destruct (Hb x) as ([a b] & -> & Hx); [left|]. cbn [res_bind].
    destruct (IH (fun y Hy => Hb y (list_elem_of_further _ _ _ Hy))
      (fun z => P0 z \/ P x z) (fun z => Q0 z \/ Q x z)
      ((if decide (a < lo) then a else lo), (if decide (b > hi) then b else hi)))
      as (lohi' & -> & Hz' & Hs').
    + unfold spans in *. cbn [fst snd] in *. destruct Hs as (H1 & H2 & H3 & H4), Hx as (K1 & K2 & K3 & K4).
      split_and!.
      * intros z [Hp|Hp]; [specialize (H1 z Hp)|specialize (K1 z Hp)]; case_decide; lia.
      * case_decide; naive_solver.
      * intros z [Hq|Hq]; [specialize (H3 z Hq)|specialize (K3 z Hq)]; case_decide; lia.
      * case_decide; naive_solver.
    + cbn [fst snd] in *. repeat case_decide; lia.
    + exists lohi'. split; [done|]. split; [done|]. eapply spans_ext; [done|..];
        intros z; setoid_rewrite elem_of_cons; naive_solver.
Qed.

Lemma by_key_first_last {A} (key : A -> Z) l x y :
  by_key key l -> l !! 0%nat = Some x -> l !! pred (length l) = Some y ->
  forall z, z ∈ l -> key x <= key z <= key y.
Proof.
  intros Hs Hx Hy z [k Hk]%list_elem_of_lookup. pose proof (lookup_lt_Some _ _ _ Hk). split.
  - destruct k as [|k]; [by simplify_eq|]. by apply (Hs 0%nat (S k)); [lia|..].
  - destruct (decide (k = pred (length l))) as [->|Hne]; [by simplify_eq|].
    by apply (Hs k (pred (length l))); [lia|..].
Qed.

Lemma list_get_first {A} (l : list A) :
  l <> [] -> exists x, l !! 0%nat = Some x /\ list_get l 0 = Ok x.
Proof. intros Hl. apply (list_get_ok l 0). destruct l; [done|]. cbn. lia. Qed.

Lemma list_get_last {A} (l : list A) :
  l <> [] -> exists x, l !! pred (length l) = Some x /\
    list_get l (Z.of_nat (length l) - 1) = Ok x /\ list_get l (-1) = Ok x.
Proof.
  intros Hl. assert (Hlen : (0 < length l)%nat) by (destruct l; [done|cbn; lia]).
  destruct (list_get_ok l (Z.of_nat (length l) - 1)) as (x & Hx & Hg); [lia|].
  replace (Z.to_nat (Z.of_nat (length l) - 1)) with (pred (length l)) in Hx by lia.
  exists x. split; [done|]. split; [done|]. unfold list_get.
  rewrite (decide_True (P := -1 < 0)) by lia.
  replace (Z.to_nat (-1 + Z.of_nat (length l))) with (pred (length l)) by lia.
  rewrite Hx. by rewrite decide_True by lia.
Qed.

(** The times that matter to [get_bounds]. *)
Definition starts_in (t : TimelineDataRange) (z : Z) : Prop := exists r, r ∈ ranges t /\ z = start r.
Definition ends_in (t : TimelineDataRange) (z : Z) : Prop := exists r, r ∈ ranges t /\ z = end_ r.
Definition event_in {V} (t : TimelineEvent V) (z : Z) : Prop := exists e, e ∈ events t /\ z = at_ e.

Lemma range_bounds_spans t :
  monotone (ranges t) -> exists ab, range_bounds t = Ok ab /\ spans (starts_in t) (ends_in t) ab.
Proof.
  intros [Hs He]. unfold range_bounds. case_decide as Hl.
  - assert (Hne : ranges t <> []) by (intros E; rewrite E in Hl; simpl in Hl; lia).
    destruct (list_get_first _ Hne) as (x & Hx & ->), (list_get_last _ Hne) as (y & Hy & -> & _).
    eexists. split; [done|]. unfold spans, starts_in, ends_in. cbn [fst snd]. split_and!.
    + intros z (r & Hr & ->). by apply (by_key_first_last start _ x y Hs Hx Hy r).
    + right. exists x. split; [by apply list_elem_of_lookup_2 in Hx|done].
    + intros z (r & Hr & ->). by apply (by_key_first_last end_ _ x y He Hx Hy r).
    + right. exists y. split; [by apply list_elem_of_lookup_2 in Hy|done].
  - assert (E : ranges t = []) by (destruct (ranges t); [done|simpl in Hl; lia]).
    eexists. split; [done|]. unfold spans, starts_in, ends_in. rewrite E. cbn.
    split_and!; try (by left); by intros z (r & []%elem_of_nil & _).
Qed.

Lemma event_bounds_spans {V} (t : TimelineEvent V) :
  by_key at_ (events t) -> exists ab, event_bounds t = Ok ab /\ spans (event_in t) (event_in t) ab.
Proof.
  intros Hs. unfold event_bounds. case_decide as Hl.
  - assert (Hne : events t <> []) by (intros E; rewrite E in Hl; simpl in Hl; lia).
    destruct (list_get_first _ Hne) as (x & Hx & ->), (list_get_last _ Hne) as (y & Hy & _ & ->).
    eexists. split; [done|]. unfold spans, event_in. cbn [fst snd]. split_and!.
    + intros z (r & Hr & ->). by apply (by_key_first_last at_ _ x y Hs Hx Hy r).
    + right. exists x. split; [by apply list_elem_of_lookup_2 in Hx|done].
    + intros z (r & Hr & ->). by apply (by_key_first_last at_ _ x y Hs Hx Hy r).
    + right. exists y. split; [by apply list_elem_of_lookup_2 in Hy|done].
  - assert (E : events t = []) by (destruct (events t); [done|simpl in Hl; lia]).
    eexists. split; [done|]. unfold spans, event_in. rewrite E. cbn.
    split_and!; try (by left); by intros z (r & []%elem_of_nil & _).
Qed.

Definition ordered_timeline (t : Timeline) : Prop :=
  (forall r, r ∈ t_ranges t -> monotone (ranges r)) /\
  (forall e, e ∈ event_str t -> by_key at_ (events e)) /\
  (forall e, e ∈ event_int t -> by_key at_ (events e)).
Definition event_of (t : Timeline) (z : Z) : Prop :=
  (exists e, e ∈ event_str t /\ event_in e z) \/ (exists e, e ∈ event_int t /\ event_in e z).
Definition low_time (t : Timeline) (z : Z) : Prop :=
  (exists r, r ∈ t_ranges t /\ starts_in r z) \/ event_of t z.
Definition high_time (t : Timeline) (z : Z) : Prop :=
  (exists r, r ∈ t_ranges t /\ ends_in r z) \/ event_of t z.

Lemma timeline_bounds_spans t :
  ordered_timeline t ->
  exists ab, timeline_bounds t = Ok ab /\ spans (low_time t) (high_time t) ab.
Proof.
  intros (Hr & Hs & Hi). unfold timeline_bounds.
  destruct (widen_all range_bounds starts_in ends_in (t_ranges t)
    (fun x Hx => range_bounds_spans x (Hr x Hx)) (fun _ => False) (fun _ => False) (0, 0))
    as (ab1 & -> & Hz1 & Hs1); [by split_and!; (done || left)|done|]. cbn [res_bind].
  destruct (widen_all event_bounds event_in event_in (event_str t)
    (fun x Hx => event_bounds_spans x (Hs x Hx)) _ _ ab1 Hs1 Hz1)
    as (ab2 & -> & Hz2 & Hs2). cbn [res_bind].
  destruct (widen_all event_bounds event_in event_in (event_int t)
    (fun x Hx => event_bounds_spans x (Hi x Hx)) _ _ ab2 Hs2 Hz2)
    as (ab3 & -> & Hz3 & Hs3).
  exists ab3. split; [done|]. unfold low_time, high_time, event_of.
  apply (spans_ext _ _ _ _ ab3 Hs3); naive_solver.
Qed.

(** On sorted data [Timelines.get_bounds] returns the least of 0 and the
    range starts and event times, and the greatest of 0 and the range ends and
    event times. *)
Theorem timelines_bounds_spec (ts : Timelines) (Hts : forall t, t ∈ ts -> ordered_timeline t) :
  exists lo hi, timelines_bounds ts = Ok (lo, hi) /\ lo <= 0 <= hi /\
    spans (fun z => exists t, t ∈ ts /\ low_time t z) (fun z => exists t, t ∈ ts /\ high_time t z)
      (lo, hi).
Proof.
  destruct (widen_all timeline_bounds low_time high_time ts
    (fun x Hx => timeline_bounds_spans x (Hts x Hx)) (fun _ => False) (fun _ => False) (0, 0))
    as ([lo hi] & E & Hz & Hs); [by split_and!; (done || left)|done|].
  exists lo, hi. split; [done|]. split; [done|].
  apply (spans_ext _ _ _ _ _ Hs); naive_solver.
Qed.

Lemma timelines_bounds_spec_witness :
  let ts := [mkTimeline "n" [mkRanges "s" [mkRange 3 5 ""; mkRange 4 9 ""]] []
              [mkEvents "e" [mkEvent (-2) 7]]] in
  (forall t, t ∈ ts -> ordered_timeline t) /\
  exists lo hi, timelines_bounds ts = Ok (lo, hi) /\ lo <= 0 <= hi.
Proof.
  assert (H : forall t, t ∈ [mkTimeline "n" [mkRanges "s" [mkRange 3 5 ""; mkRange 4 9 ""]] []
              [mkEvents "e" [mkEvent (-2) 7]]] -> ordered_timeline t).
  { intros t ->%list_elem_of_singleton. split_and!; cbn.
    - intros r ->%list_elem_of_singleton.
      split; intros [|[|[|i]]] [|[|[|j]]] a b Hij Ha Hb; simplify_eq/=; lia.
    - by intros e []%elem_of_nil.
    - intros e ->%list_elem_of_singleton.
      intros [|[|i]] [|[|j]] a b Hij Ha Hb; simplify_eq/=; lia. }
  split; [exact H|]. destruct (timelines_bounds_spec _ H) as (lo & hi & E & Hz & _).
  by exists lo, hi.
Defined.

(** With nested ranges the upper bound is not the greatest end. *)
Lemma bounds_nested :
  range_bounds (mkRanges "" [mkRange 0 100 ""; mkRange 10 20 ""]) = Ok (0, 20).
Proof. reflexivity. Qed.

(** ** What [read_data] builds *)

(** The first object of a list with a given name. *)
Fixpoint find_named {A} (name_of : A -> string) (name : string) (l : list A) : option A :=
  match l with
  | [] => None
  | x :: l => if decide (name_of x = name) then Some x else find_named name_of name l
  end.

(** Looking a name up or creating it, then changing the object: the lookups
    afterwards. *)
Lemma find_get_or_create {A} (name_of : A -> string) (new : string -> A) name f (l : list A) m :
  (forall n, name_of (new n) = n) -> (forall x, name_of (f x) = name_of x) ->
  let '(i, l') := get_or_create name_of new name l in
  find_named name_of m (alter f i l')
  = if decide (m = name) then Some (f (default (new name) (find_named name_of name l)))
    else find_named name_of m l.
Proof.
  intros Hnew Hf. induction l as [|x l IH]; cbn [get_or_create].
  - cbn. rewrite Hf, Hnew. repeat case_decide; by simplify_eq.
  - destruct (decide (name_of x = name)) as [Hx|Hx].
    + cbn. rewrite Hf, Hx, (decide_True (P := name = name)) by done. destruct (decide (name = m)) as [->|Hm].
      * by rewrite decide_True.
      * by rewrite decide_False.
    + destruct (get_or_create name_of new name l) as [i l']. cbn [prod_map fst snd].
      change (alter f (S i) (x :: l')) with (x :: alter f i l'). cbn [find_named].
      rewrite IH. rewrite (decide_False (P := name_of x = name)) by done.
      destruct (decide (name_of x = m)) as [Hm|]; [|done]. by rewrite decide_False by congruence.
Qed.

Lemma find_map {A} (name_of : A -> string) f name (l : list A) :
  (forall x, name_of (f x) = name_of x) ->
  find_named name_of name (map f l) = f <$> find_named name_of name l.
Proof.
  intros Hf. induction l as [|x l IH]; [done|]. cbn. rewrite Hf. by case_decide.
Qed.

(** The data under a timeline's name and a name in it. *)
Definition timeline_of (ts : Timelines) (t : string) : Timeline :=
  default (mkTimeline t [] [] []) (find_named timeline_name t ts).
Definition ranges_of (ts : Timelines) (t n : string) : list DataRange :=
  ranges (default (mkRanges n []) (find_named ranges_name n (t_ranges (timeline_of ts t)))).
Definition strs_of (ts : Timelines) (t n : string) : list (Event string) :=
  events (default (mkEvents n []) (find_named events_name n (event_str (timeline_of ts t)))).
Definition ints_of (ts : Timelines) (t n : string) : list (Event Z) :=
  events (default (mkEvents n []) (find_named events_name n (event_int (timeline_of ts t)))).

(** What a line adds to them. *)
Definition range_line (t n : string) (l : line) : option DataRange :=
  match l with
  | LRange t' n' v a b => if decide (t' = t /\ n' = n) then Some (mkRange a b v) else None
  | _ => None
  end.
Definition str_line (t n : string) (l : line) : option (Event string) :=
  match l with
  | LEventStr t' n' v a => if decide (t' = t /\ n' = n) then Some (mkEvent a v) else None
  | _ => None
  end.
Definition int_line (t n : string) (l : line) : option (Event Z) :=
  match l with
  | LEventInt t' n' v a => if decide (t' = t /\ n' = n) then Some (mkEvent a v) else None
  | _ => None
  end.
Definition color_line (n : string) (l : line) : option Color :=
  match l with
  | LColor n' r g b =>
      if decide (n' = n) then Some (mkColor (r / 255) (g / 255) (b / 255)) else None
  | _ => None
  end.

(** Changing one timeline. *)
Lemma timeline_of_alter (f : Timeline -> Timeline) tn ts t :
  (forall x, timeline_name (f x) = timeline_name x) ->
  let '(i, ts') := get_timeline tn ts in
  timeline_of (alter f i ts') t
  = if decide (t = tn) then f (timeline_of ts t) else timeline_of ts t.
Proof.
  intros Hf.
  pose proof (find_get_or_create timeline_name (fun n => mkTimeline n [] [] []) tn f ts t
    (fun _ => eq_refl) Hf) as H.
  unfold get_timeline, timeline_of.
  revert H. destruct (get_or_create _ _ tn ts) as [i ts']. intros H. rewrite H. by case_decide; subst.
Qed.

Definition opt_list {A} (o : option A) : list A := match o with Some x => [x] | None => [] end.

Lemma read_line_view st l t n :
  ranges_of (read_line st l).2 t n = ranges_of st.2 t n ++ opt_list (range_line t n l) /\
  strs_of (read_line st l).2 t n = strs_of st.2 t n ++ opt_list (str_line t n l) /\
  ints_of (read_line st l).2 t n = ints_of st.2 t n ++ opt_list (int_line t n l).
Proof.
  destruct st as [cs ts]. unfold ranges_of, strs_of, ints_of.
  destruct l as [tn n' v a b|tn n' v a|tn n' v a|n' r g b|]; cbn [read_line snd];
    try (cbn; by rewrite !app_nil_r).
  - match goal with |- context [alter ?f _ _] => pose proof (timeline_of_alter f tn ts t) as H end.
    revert H. destruct (get_timeline tn ts) as [i ts']. intros H. cbn [snd].
    rewrite H by (intros x; unfold get_range; by destruct (get_or_create _ _ _ _)). clear H.
    cbn [range_line str_line int_line opt_list]. rewrite !app_nil_r.
    destruct (decide (t = tn)) as [->|Ht]; [|rewrite decide_False by naive_solver; by rewrite app_nil_r].
    pose proof (find_get_or_create ranges_name (fun n => mkRanges n []) n'
      (fun r => add_range r (mkRange a b v)) (t_ranges (timeline_of ts tn)) n
      (fun _ => eq_refl) (fun _ => eq_refl)) as H.
    unfold get_range. revert H. destruct (get_or_create _ _ n' _) as [j l]. intros H.
    cbn [t_ranges event_str event_int].
    rewrite H. split; [|done]. destruct (decide (n = n')) as [->|Hn].
    + by rewrite decide_True.
    + rewrite decide_False by naive_solver. by rewrite app_nil_r.
  - match goal with |- context [alter ?f _ _] => pose proof (timeline_of_alter f tn ts t) as H end.
    revert H. destruct (get_timeline tn ts) as [i ts']. intros H. cbn [snd].
    rewrite H by (intros x; unfold get_event_str; by destruct (get_or_create _ _ _ _)). clear H.
    cbn [range_line str_line int_line opt_list]. rewrite !app_nil_r.
    destruct (decide (t = tn)) as [->|Ht]; [|rewrite decide_False by naive_solver; by rewrite app_nil_r].
    pose proof (find_get_or_create events_name (fun n => mkEvents n []) n'
      (fun r => add_event r (mkEvent a v)) (event_str (timeline_of ts tn)) n
      (fun _ => eq_refl) (fun _ => eq_refl)) as H.
    unfold get_event_str. revert H. destruct (get_or_create _ _ n' _) as [j l]. intros H.
    cbn [t_ranges event_str event_int]. rewrite H. split; [done|]. split; [|done].
    destruct (decide (n = n')) as [->|Hn].
    + by rewrite decide_True.
    + rewrite decide_False by naive_solver. by rewrite app_nil_r.
  - match goal with |- context [alter ?f _ _] => pose proof (timeline_of_alter f tn ts t) as H end.
    revert H. destruct (get_timeline tn ts) as [i ts']. intros H. cbn [snd].
    rewrite H by (intros x; unfold get_event_int; by destruct (get_or_create _ _ _ _)). clear H.
    cbn [range_line str_line int_line opt_list]. rewrite !app_nil_r.
    destruct (decide (t = tn)) as [->|Ht]; [|rewrite decide_False by naive_solver; by rewrite app_nil_r].
    pose proof (find_get_or_create events_name (fun n => mkEvents n []) n'
      (fun r => add_event r (mkEvent a v)) (event_int (timeline_of ts tn)) n
      (fun _ => eq_refl) (fun _ => eq_refl)) as H.
    unfold get_event_int. revert H. destruct (get_or_create _ _ n' _) as [j l]. intros H.
    cbn [t_ranges event_str event_int]. rewrite H. split; [done|]. split; [done|].
    destruct (decide (n = n')) as [->|Hn].
    + by rewrite decide_True.
    + rewrite decide_False by naive_solver. by rewrite app_nil_r.
Qed.

Lemma omap_opt {A B} (f : A -> option B) x l : omap f (x :: l) = opt_list (f x) ++ omap f l.
Proof. cbn. by destruct (f x). Qed.

Lemma read_lines_view ls t n : forall st,
  ranges_of (foldl read_line st ls).2 t n = ranges_of st.2 t n ++ omap (range_line t n) ls /\
  strs_of (foldl read_line st ls).2 t n = strs_of st.2 t n ++ omap (str_line t n) ls /\
  ints_of (foldl read_line st ls).2 t n = ints_of st.2 t n ++ omap (int_line t n) ls.
Proof.
  induction ls as [|l ls IH]; intros st; [by cbn; rewrite !app_nil_r|].
  rewrite !omap_opt, !app_assoc. destruct (read_line_view st l t n) as (<- & <- & <-). apply IH.
Qed.

Lemma read_lines_colors ls n : forall st,
  colors (foldl read_line st ls).1 !! n
  = match last (omap (color_line n) ls) with Some c => Some c | None => colors st.1 !! n end.
Proof.
  induction ls as [|l ls IH]; intros [cs ts]; [done|]. cbn [foldl]. rewrite IH, omap_opt.
  assert (Hl : colors (read_line (cs, ts) l).1 !! n
    = match color_line n l with Some c => Some c | None => colors cs !! n end).
  { destruct l as [tn n' v a b|tn n' v a|tn n' v a|n' r g b|]; cbn [read_line];
      try (by destruct (get_timeline tn ts)); [|done].
    cbn [fst add_color colors color_line]. rewrite lookup_insert. by case_decide. }
  rewrite last_app. destruct (last (omap _ ls)); [done|]. rewrite Hl. by destruct (color_line n l).
Qed.

Lemma sorted_view ts t n :
  ranges_of (sort_timelines ts) t n = list_sort ranges_cmp (ranges_of ts t n) /\
  strs_of (sort_timelines ts) t n = list_sort events_cmp (strs_of ts t n) /\
  ints_of (sort_timelines ts) t n = list_sort events_cmp (ints_of ts t n).
Proof.
  unfold ranges_of, strs_of, ints_of, sort_timelines, timeline_of.
  rewrite find_map by done. destruct (find_named timeline_name t ts) as [tl|]; [|done].
  cbn [fmap option_fmap option_map default from_option id sort_timeline t_ranges event_str event_int].
  rewrite !find_map by done. split_and!.
  - by destruct (find_named ranges_name n (t_ranges tl)).
  - by destruct (find_named events_name n (event_str tl)).
  - by destruct (find_named events_name n (event_int tl)).
Qed.

(** C10: whatever the lines of the file, in whatever order, [read_data] keeps
    under each pair of names exactly the ranges and events of the lines that
    carry these names, sorted by time and lines of equal time in file order; a
    color is the one of its last line. *)
Theorem read_data_spec (lines : list string) (t n : string) :
  let ls := map parse_line lines in
  let ts := (read_data lines).2 in
  let sorted {A} (key : A -> Z) (l l' : list A) :=
    l ≡ₚ l' /\ by_key key l /\ forall k, filter (fun x => key x = k) l = filter (fun x => key x = k) l' in
  sorted start (ranges_of ts t n) (omap (range_line t n) ls) /\
  sorted at_ (strs_of ts t n) (omap (str_line t n) ls) /\
  sorted at_ (ints_of ts t n) (omap (int_line t n) ls) /\
  colors (read_data lines).1 !! n = last (omap (color_line n) ls).
Proof.
  intros ls ts sorted. subst ts. unfold read_data. fold ls.
  pose proof (read_lines_view ls t n (initial_colors, [])) as (Hr & Hs & Hi).
  pose proof (read_lines_colors ls n (initial_colors, [])) as Hc.
  destruct (foldl read_line (initial_colors, []) ls) as [cs ts]. cbn [fst snd] in *.
  destruct (sorted_view ts t n) as (-> & -> & ->). rewrite Hr, Hs, Hi, Hc.
  change (ranges_of [] t n) with (@nil DataRange). change (strs_of [] t n) with (@nil (Event string)).
  change (ints_of [] t n) with (@nil (Event Z)). cbn [app]. unfold sorted. split_and!;
    try apply (list_sort_perm start); try apply (list_sort_sorted start);
    try apply (list_sort_stable start); try apply (list_sort_perm at_);
    try apply (list_sort_sorted at_); try apply (list_sort_stable at_).
  cbn. destruct (last _); [done|]. apply lookup_empty.
Qed.
