(* ===== verification/View.v ===== *)
(** * The view of the timeline viewer: [src/utils/grid.py]

    The layout of the legend, the data and the scales ([TopLegendRenderer],
    [TimelinesRenderer], [ScaleRenderer]), the visible range and its geometry
    ([GraphicRenderer]) and the handlers of the window ([GtkGraphicRenderer]),
    which drag and zoom that range, as operations on the objects' state that can
    raise: GTK reports an exception of a handler and goes on with the state it
    left.  The drawing itself is left out.

    Numbers are Python 2's: integers, with their floor division, and floats, which
    are rational numbers here, without rounding.  The sizes of texts are those of
    cairo, an argument. *)

From S2P Require Import Prelude State Timeline.
From Stdlib Require Import Ascii String.
From Stdlib Require Import QArith Qround Lqa Sorting.Sorted.
From stdpp Require Import strings.
Open Scope string_scope.
Open Scope nat_scope.
Open Scope list_scope.

Inductive view_exn := ZeroDivisionError | AttributeError.

(** ** Numbers *)

Inductive num := Int (z : Z) | Flo (q : Q).
Definition val (a : num) : Q := match a with Int z => inject_Z z | Flo q => q end.
Definition arith (fz : Z -> Z -> Z) (fq : Q -> Q -> Q) (a b : num) : num :=
  match a, b with Int x, Int y => Int (fz x y) | _, _ => Flo (fq (val a) (val b)) end.
Definition add : num -> num -> num := arith Z.add Qplus.
Definition sub : num -> num -> num := arith Z.sub Qminus.
Definition mul : num -> num -> num := arith Z.mul Qmult.
Definition is_zero (a : num) : bool := Qeq_bool (val a) 0.
Definition div (a b : num) : res view_exn num :=
  if is_zero b then Raise ZeroDivisionError else Ok (arith Z.div Qdiv a b).
Definition modulo (a b : num) : res view_exn num :=
  if is_zero b then Raise ZeroDivisionError
  else Ok (arith Z.modulo (fun x y => x - y * inject_Z (Qfloor (x / y)))%Q a b).
Definition le (a b : num) : bool := Qle_bool (val a) (val b).
Definition lt (a b : num) : bool := negb (le b a).
(** [min(a, b)], [max(a, b)], [abs(a)], [float(a)], [int(a)] *)
Definition py_min (a b : num) : num := if lt b a then b else a.
Definition py_max (a b : num) : num := if lt a b then b else a.
Definition py_abs (a : num) : num := if lt a (Int 0) then sub (Int 0) a else a.
Definition py_float (a : num) : num := Flo (val a).
Definition py_int (a : num) : Z :=
  match a with Int z => z | Flo q => Z.quot (Qnum q) (Zpos (Qden q)) end.

(** ** Layout *)

Section Layout.
(** The width and the height of a text. *)
Context (text_width text_height : string -> num).

(** [TopLegendRenderer]: the loop over the legends places one item after the
    other, on a new line when the width is used up; the variables are
    [line_height], [total_height] and [line_used].  Each item gets its place. *)
Record legend_loop := { line_height : num; total_height : num; line_used : num }.
Definition place_legend (padding width : num) (l : legend_loop) (legend : string)
    : legend_loop * (num * num * string) :=
  let item_width := add (add (add padding padding) (text_width legend)) padding in
  let item_height := add (text_height legend) padding in
  let line_height := if lt (line_height l) item_height then item_height else line_height l in
  let l' :=
    if lt width (add (line_used l) item_width) then
      {| line_height := line_height; total_height := add (total_height l) line_height;
         line_used := add padding item_width |}
    else {| line_height := line_height; total_height := total_height l;
            line_used := add (line_used l) item_width |} in
  (l', (sub (line_used l') item_width, total_height l', legend)).
Fixpoint place_legends (padding width : num) (l : legend_loop) (legends : list string)
    : legend_loop * list (num * num * string) :=
  match legends with
  | [] => (l, [])
  | x :: legends =>
      let '(l, p) := place_legend padding width l x in
      let '(l, ps) := place_legends padding width l legends in (l, p :: ps)
  end.
Definition legend_start (padding : num) : legend_loop :=
  {| line_height := Int 0; total_height := padding; line_used := padding |}.
(** [layout]: the height; [draw]: where each legend is drawn. *)
Definition legend_layout (padding width : num) (legends : list string) : num :=
  let '(l, _) := place_legends padding width (legend_start padding) legends in
  add (total_height l) (line_height l).
Definition legend_places (padding width : num) (legends : list string)
    : list (num * num * string) :=
  snd (place_legends padding width (legend_start padding) legends).

Definition alphabet : string := "ABCDEFGHIJKLMNOPQRSTUVWXYZabcedefghijklmnopqrstuvwxyz0123456789".
Definition max_text_height : num := text_height alphabet.

(** [TimelinesRenderer.layout] *)
Record data_layout := { left_width : num; right_width : num; d_height : num }.
Definition widest (names : list string) (w : num) : num :=
  foldl (fun w name => py_max w (text_width name)) w names.
Definition names_of (t : Timeline) : list string :=
  map ranges_name (t_ranges t) ++ map events_name (event_int t) ++ map events_name (event_str t).
Definition timelines_layout (padding : Z) (timelines : Timelines) : data_layout :=
  let left_n_lines := Z.of_nat (length timelines) in
  let range_n := Z.of_nat (sum_list (map (fun t => length (t_ranges t)) timelines)) in
  let eventint_n := Z.of_nat (sum_list (map (fun t => length (event_int t)) timelines)) in
  let eventstr_n := Z.of_nat (sum_list (map (fun t => length (event_str t)) timelines)) in
  let left_height :=
    add (mul (Int left_n_lines) max_text_height) (Int ((left_n_lines - 1) * padding)) in
  let right_n_lines := (range_n + eventint_n + eventstr_n)%Z in
  let right_height :=
    add (Int ((right_n_lines - 1) * padding)) (mul (Int right_n_lines) max_text_height) in
  let right_data_height :=
    add (add (mul (Int (eventint_n + eventstr_n)) (add max_text_height (Int 5)))
             (Int (range_n * 10)))
        (Int ((right_n_lines - 1) * padding)) in
  {| left_width := widest (map timeline_name timelines) (Int 0);
     right_width := widest (concat (map names_of timelines)) (Int 0);
     d_height := add (py_max (py_max left_height right_height) right_data_height) (Int padding) |}.
Definition get_data_x_start (padding : Z) (d : data_layout) : num :=
  add (add (add (add (Int (padding / 2)) (left_width d)) (Int padding)) (right_width d))
      (Int (padding / 2)).

(** [ScaleRenderer] *)
Record scale := { lo : num; hi : num; s_top : bool; s_width : num; delta : num; s_height : num }.
Definition set_bounds (a b : num) (s : scale) : scale :=
  {| lo := a; hi := b; s_top := s_top s; s_width := s_width s; delta := delta s;
     s_height := s_height s |}.
Definition get_position (s : scale) (x : num) : res view_exn num :=
  div (mul (sub x (lo s)) (s_width s)) (sub (hi s) (lo s)).
(** [while (closest*10) < data_delta] *)
Fixpoint find_closest (fuel : nat) (data_delta : num) (closest : Z) : res view_exn Z :=
  if lt (Int (closest * 10)) data_delta then
    match fuel with
    | O => OutOfFuel
    | S fuel => find_closest fuel data_delta (closest * 10)
    end
  else Ok closest.
Definition closest_fuel (data_delta : num) : nat := Z.to_nat (Z.log2_up (Qceiling (val data_delta))).
Definition choose_delta (data_delta : num) : res view_exn num :=
  let* closest := find_closest (closest_fuel data_delta) data_delta 1 in
  let* q := div data_delta (Int closest) in
  if is_zero q then Ok (Int closest)
  else if is_zero (sub q (Int 1)) then div (Int closest) (Int 10)
  else Ok (Int closest).
Definition scale_layout (width : num) (s : scale) : res view_exn scale :=
  let* d := choose_delta (sub (hi s) (lo s)) in
  let* _ := modulo (lo s) d in
  let* _ := modulo (hi s) d in
  Ok {| lo := lo s; hi := hi s; s_top := s_top s; s_width := width; delta := d;
        s_height := add max_text_height (Int 10) |}.
(** [range(a, b, step)] for a positive step. *)
Definition py_range (a b step : Z) : list Z :=
  map (fun i => a + Z.of_nat i * step)%Z (seq 0 (Z.to_nat ((b - a + step - 1) / step))).
(** The points that [draw] marks with a distance [d], each with its position. *)
Definition tick_points (s : scale) (d : num) : res view_exn (list (Z * num)) :=
  let* ml := modulo (lo s) d in
  let* mh := modulo (hi s) d in
  let start := add (sub (lo s) ml) d in
  let end_ := sub (hi s) mh in
  map_res (fun x => let* real_x := get_position s (Int x) in Ok (x, real_x))
    (py_range (py_int start) (py_int (add end_ d)) (py_int d)).
(** The scale points with their labels, and the subticks. *)
Definition scale_draw (s : scale) : res view_exn (list (Z * num) * list (Z * num)) :=
  let* ticks := tick_points s (delta s) in
  let* d := div (delta s) (Int 10) in
  let* subticks := if lt (Int 0) d then tick_points s d else Ok [] in
  Ok (ticks, subticks).
End Layout.

(** ** GraphicRenderer *)

Record graphic := mkGraphic {
  g_start : num; g_end : num; mid_scale : scale; bot_scale : scale;
  g_width : num; g_height : num; r_start : num; r_end : num;
  top_legend_height : num; data_layout_of : data_layout }.
Definition set_size (w h : num) (g : graphic) : graphic :=
  mkGraphic (g_start g) (g_end g) (mid_scale g) (bot_scale g) w h (r_start g) (r_end g)
    (top_legend_height g) (data_layout_of g).
Definition set_legend_data (lh : num) (d : data_layout) (g : graphic) : graphic :=
  mkGraphic (g_start g) (g_end g) (mid_scale g) (bot_scale g) (g_width g) (g_height g)
    (r_start g) (r_end g) lh d.
Definition set_mid_scale (s : scale) (g : graphic) : graphic :=
  mkGraphic (g_start g) (g_end g) s (bot_scale g) (g_width g) (g_height g)
    (r_start g) (r_end g) (top_legend_height g) (data_layout_of g).
Definition set_bot_scale (s : scale) (g : graphic) : graphic :=
  mkGraphic (g_start g) (g_end g) (mid_scale g) s (g_width g) (g_height g)
    (r_start g) (r_end g) (top_legend_height g) (data_layout_of g).
Definition set_r (a b : num) (g : graphic) : graphic :=
  mkGraphic (g_start g) (g_end g) (mid_scale g) (bot_scale g) (g_width g) (g_height g)
    a b (top_legend_height g) (data_layout_of g).

Section View.
Context (text_width text_height : string -> num).
(** What is shown: the legends and the timelines. *)
Context (legends : list string) (timelines : Timelines).

Definition padding : Z := 10.
Abbreviation G := (st graphic view_exn).

Definition layout (width height : num) : G unit :=
  let! _ := modify (set_size width height) in
  let! _ := modify (set_legend_data
    (legend_layout text_width text_height (Int padding) width legends)
    (timelines_layout text_width text_height padding timelines)) in
  let! g := reads id in
  let! m := lift (scale_layout text_height
    (sub width (get_data_x_start padding (data_layout_of g))) (mid_scale g)) in
  let! _ := modify (set_mid_scale m) in
  let! b := lift (scale_layout text_height width (bot_scale g)) in
  modify (set_bot_scale b).

Definition get_data_rectangle (g : graphic) : num * num * num * num :=
  let x_start := get_data_x_start padding (data_layout_of g) in
  (x_start, top_legend_height g, sub (g_width g) x_start, d_height (data_layout_of g)).
Definition scale_data (g : graphic) (x : num) : res view_exn num :=
  let x_start := get_data_x_start padding (data_layout_of g) in
  let* q := div x (sub (g_width g) x_start) in
  Ok (mul q (sub (r_end g) (r_start g))).
Definition get_selection_rectangle (g : graphic) : res view_exn (num * num * num * num) :=
  let y_start := add (add (add (top_legend_height g) (d_height (data_layout_of g)))
                          (s_height (mid_scale g))) (Int 20) in
  let y_height := add (s_height (bot_scale g)) (Int 20) in
  let* x_start := get_position (bot_scale g) (r_start g) in
  let* x_end := get_position (bot_scale g) (r_end g) in
  Ok (x_start, y_start, sub x_end x_start, y_height).
Definition scale_selection (g : graphic) (x : num) : res view_exn num :=
  let* q := div x (g_width g) in Ok (mul q (sub (g_end g) (g_start g))).

Definition set_range (start end_ : num) : G unit :=
  let s := py_min start end_ in
  let e := py_max start end_ in
  let! g := reads id in
  let start := py_max (g_start g) s in
  let end_ := py_min (g_end g) e in
  let! _ := modify (set_r start end_) in
  let! _ := modify (fun g => set_mid_scale (set_bounds start end_ (mid_scale g)) g) in
  layout (g_width g) (g_height g).

(** [GraphicRenderer(lower_bound, upper_bound)] and the range that [main] sets.  The
    attributes that have no value yet are 0. *)
Definition new_scale (top : bool) : scale :=
  {| lo := Int 0; hi := Int 0; s_top := top; s_width := Int 0; delta := Int 0; s_height := Int 0 |}.
Definition new_graphic (lower_bound upper_bound : Z) : graphic :=
  mkGraphic (py_float (Int lower_bound)) (py_float (Int upper_bound)) (new_scale true)
    (set_bounds (Int lower_bound) (Int upper_bound) (new_scale false)) (Int 1) (Int 1)
    (Int 0) (Int 0) (Int 0) {| left_width := Int 0; right_width := Int 0; d_height := Int 0 |}.
Definition main_range (lower_bound upper_bound : Z) : num * num :=
  let range_mid := ((upper_bound - lower_bound) / 2)%Z in
  let range_width := ((upper_bound - lower_bound) / 10)%Z in
  (Int (range_mid - range_width / 2), Int (range_mid + range_width / 2)).
Definition main (lower_bound upper_bound : Z) : res view_exn unit * graphic :=
  let '(range_lo, range_hi) := main_range lower_bound upper_bound in
  set_range range_lo range_hi (new_graphic lower_bound upper_bound).

(** ** GtkGraphicRenderer *)

(** The attributes of a drag are set when it first needs them. *)
Record gtk := mkGtk {
  data : graphic;
  moving_left : bool; moving_right : bool; moving_both : bool; moving_top : bool;
  moving_left_cur : option num; moving_right_cur : option num;
  moving_both_start : option num; moving_both_cur : option num;
  moving_top_start : option num; moving_top_cur : option num;
  allocated : option (num * num); force_full_redraw : bool }.
Definition new_gtk (g : graphic) : gtk :=
  mkGtk g false false false false None None None None None None None true.
Definition set_data (x : graphic) (s : gtk) : gtk :=
  let 'mkGtk _ ml mr mb mt lc rc bs bc ts tc al f := s in mkGtk x ml mr mb mt lc rc bs bc ts tc al f.
Definition set_moving_left (x : bool) (s : gtk) : gtk :=
  let 'mkGtk g _ mr mb mt lc rc bs bc ts tc al f := s in mkGtk g x mr mb mt lc rc bs bc ts tc al f.
Definition set_moving_right (x : bool) (s : gtk) : gtk :=
  let 'mkGtk g ml _ mb mt lc rc bs bc ts tc al f := s in mkGtk g ml x mb mt lc rc bs bc ts tc al f.
Definition set_moving_both (x : bool) (s : gtk) : gtk :=
  let 'mkGtk g ml mr _ mt lc rc bs bc ts tc al f := s in mkGtk g ml mr x mt lc rc bs bc ts tc al f.
Definition set_moving_top (x : bool) (s : gtk) : gtk :=
  let 'mkGtk g ml mr mb _ lc rc bs bc ts tc al f := s in mkGtk g ml mr mb x lc rc bs bc ts tc al f.
Definition set_left_cur (x : num) (s : gtk) : gtk :=
  let 'mkGtk g ml mr mb mt _ rc bs bc ts tc al f := s in mkGtk g ml mr mb mt (Some x) rc bs bc ts tc al f.
Definition set_right_cur (x : num) (s : gtk) : gtk :=
  let 'mkGtk g ml mr mb mt lc _ bs bc ts tc al f := s in mkGtk g ml mr mb mt lc (Some x) bs bc ts tc al f.
Definition set_both (start cur : num) (s : gtk) : gtk :=
  let 'mkGtk g ml mr mb mt lc rc _ _ ts tc al f := s in
  mkGtk g ml mr mb mt lc rc (Some start) (Some cur) ts tc al f.
Definition set_both_cur (x : num) (s : gtk) : gtk :=
  let 'mkGtk g ml mr mb mt lc rc bs _ ts tc al f := s in mkGtk g ml mr mb mt lc rc bs (Some x) ts tc al f.
Definition set_top_drag (start cur : num) (s : gtk) : gtk :=
  let 'mkGtk g ml mr mb mt lc rc bs bc _ _ al f := s in
  mkGtk g ml mr mb mt lc rc bs bc (Some start) (Some cur) al f.
Definition set_allocated (x : num * num) (s : gtk) : gtk :=
  let 'mkGtk g ml mr mb mt lc rc bs bc ts tc _ f := s in mkGtk g ml mr mb mt lc rc bs bc ts tc (Some x) f.
Definition set_redraw (x : bool) (s : gtk) : gtk :=
  let 'mkGtk g ml mr mb mt lc rc bs bc ts tc al _ := s in mkGtk g ml mr mb mt lc rc bs bc ts tc al x.

Abbreviation H := (st gtk view_exn).
Definition on_data {A} (m : G A) : H A := fun s =>
  let '(r, g) := m (data s) in (r, set_data g s).
(** An attribute that may not be set yet. *)
Definition attribute (f : gtk -> option num) : H num :=
  let! x := reads f in match x with Some x => ret x | None => raise AttributeError end.
Definition self_width : H num := attribute (fun s => fst <$> allocated s).

Definition set_smaller_zoom : H unit :=
  let! g := reads data in
  let s := r_start g in let e := r_end g in
  let! _ := on_data (set_range s (add s (mul (sub e s) (Int 2)))) in modify (set_redraw true).
Definition set_bigger_zoom : H unit :=
  let! g := reads data in
  let s := r_start g in let e := r_end g in
  let! h := lift (div (sub e s) (Int 2)) in
  let! _ := on_data (set_range s (add s h)) in modify (set_redraw true).

Definition inside (a x b : num) : bool := (lt a x && lt x b)%bool.
Definition near (a b : num) : bool := lt (py_abs (sub a b)) (Int 5).

Definition button_press (ex ey : num) : H bool :=
  let! g := reads data in
  let! (x, y, width, height) := lift (get_selection_rectangle g) in
  let '(d_x, d_y, d_width, d_height) := get_data_rectangle g in
  if (inside y ey (add y height) && near ex x)%bool then
    let! _ := modify (set_moving_left true) in ret true
  else if (inside y ey (add y height) && near ex (add x width))%bool then
    let! _ := modify (set_moving_right true) in ret true
  else if (inside y ey (add y height) && inside x ex (add x width))%bool then
    let! _ := modify (set_moving_both true) in
    let! _ := modify (set_both ex ex) in ret true
  else if (inside d_y ey (add d_y d_height) && inside d_x ex (add d_x d_width))%bool then
    let! _ := modify (set_moving_top true) in
    let! _ := modify (set_top_drag ex ex) in ret true
  else ret false.

Definition button_release : H bool :=
  let! s := reads id in
  if moving_left s then
    let! _ := modify (set_moving_left false) in
    let! cur := attribute moving_left_cur in
    let! new_left := lift (scale_selection (data s) cur) in
    let! _ := on_data (set_range new_left (r_end (data s))) in
    let! _ := modify (set_redraw true) in ret true
  else if moving_right s then
    let! _ := modify (set_moving_right false) in
    let! cur := attribute moving_right_cur in
    let! new_right := lift (scale_selection (data s) cur) in
    let! _ := on_data (set_range (r_start (data s)) new_right) in
    let! _ := modify (set_redraw true) in ret true
  else if moving_both s then
    let! _ := modify (set_moving_both false) in
    let! cur := attribute moving_both_cur in
    let! start := attribute moving_both_start in
    let! delta := lift (scale_selection (data s) (sub cur start)) in
    let! _ := on_data (set_range (add (r_start (data s)) delta) (add (r_end (data s)) delta)) in
    let! _ := modify (set_redraw true) in ret true
  else if moving_top s then
    let! _ := modify (set_moving_top false) in ret false
  else ret false.

Definition motion_notify (ex ey : num) : H bool :=
  let! s := reads id in
  let! (x, y, width, height) := lift (get_selection_rectangle (data s)) in
  if moving_left s then
    let! _ := modify (set_left_cur
      (if le ex (Int 0) then Int 0 else if le (add x width) ex then add x width else ex)) in
    let! _ := self_width in ret true
  else if moving_right s then
    let! w := self_width in
    let! _ :=
      if le w ex then modify (set_moving_right (negb (is_zero w)))
      else if lt ex x then modify (set_right_cur x) else modify (set_right_cur ex) in
    ret true
  else if moving_both s then
    let! start := attribute moving_both_start in
    let! w := self_width in
    let cur_e := sub w (sub (add x width) start) in
    let cur_s := sub start x in
    let! _ := modify (set_both_cur
      (if lt ex cur_s then cur_s else if lt cur_e ex then cur_e else ex)) in
    ret true
  else if moving_top s then
    let! start := attribute moving_top_start in
    let! _ := modify (set_top_drag start ex) in
    let! delta := lift (scale_data (data s) (sub start ex)) in
    let! _ := on_data (set_range (add (r_start (data s)) delta) (add (r_end (data s)) delta)) in
    let! _ := modify (set_redraw true) in
    let! _ := modify (set_top_drag ex ex) in ret true
  else
    let '(d_x, d_y, d_width, d_height) := get_data_rectangle (data s) in
    ret ((inside y ey (add y height) &&
            (near ex x || near ex (add x width) || inside x ex (add x width)))
         || (inside d_y ey (add d_y d_height) && inside d_x ex (add d_x d_width)))%bool.

Definition size_allocate (width height : num) : H bool :=
  let! _ := modify (set_allocated (width, height)) in
  let! _ := on_data (layout width height) in
  let! _ := modify (set_redraw true) in ret false.

(** What the window can do to the renderer. *)
Inductive gui_event :=
  | Press (x y : num) | Release | Motion (x y : num) | Allocate (width height : num)
  | ZoomOut | ZoomIn.
Definition handle (ev : gui_event) : H bool :=
  match ev with
  | Press x y => button_press x y
  | Release => button_release
  | Motion x y => motion_notify x y
  | Allocate w h => size_allocate w h
  | ZoomOut => let! _ := set_smaller_zoom in ret true
  | ZoomIn => let! _ := set_bigger_zoom in ret true
  end.
(** The state after an event, whether its handler raised or not. *)
Definition after (ev : gui_event) (s : gtk) : gtk := snd (handle ev s).
End View.
#[global] Arguments layout : simpl never.
#[global] Arguments set_range : simpl never.
#[global] Arguments get_selection_rectangle : simpl never.

(** ** Numbers *)

Local Open Scope Q_scope.

Lemma val_add a b : val (add a b) == val a + val b.
Proof. destruct a, b; cbn; rewrite ?inject_Z_plus; reflexivity. Qed.
Lemma val_sub a b : val (sub a b) == val a - val b.
Proof.
  destruct a, b; cbn; try reflexivity. unfold Z.sub. rewrite inject_Z_plus, inject_Z_opp. reflexivity.
Qed.
Lemma val_mul a b : val (mul a b) == val a * val b.
Proof. destruct a, b; cbn; rewrite ?inject_Z_mult; reflexivity. Qed.
Lemma le_spec a b : reflect (val a <= val b) (le a b).
Proof. apply iff_reflect. unfold le. by rewrite Qle_bool_iff. Qed.
Lemma lt_spec a b : reflect (val a < val b) (lt a b).
Proof.
  unfold lt. destruct (le_spec b a); constructor; [by apply Qle_not_lt|by apply Qnot_le_lt].
Qed.

Lemma py_max_spec a b : val a <= val (py_max a b) /\ val b <= val (py_max a b) /\
  (py_max a b = a \/ py_max a b = b).
Proof. unfold py_max. destruct (lt_spec a b); split_and!; try lra; auto. Qed.
Lemma py_min_spec a b : val (py_min a b) <= val a /\ val (py_min a b) <= val b /\
  (py_min a b = a \/ py_min a b = b).
Proof. unfold py_min. destruct (lt_spec b a); split_and!; try lra; auto. Qed.

(** ** The visible range *)

Definition range_of (g : graphic) : num * num * num * num := (g_start g, g_end g, r_start g, r_end g).
(** The range is in the bounds of the data. *)
Definition within (g : graphic) : Prop := val (g_start g) <= val (r_start g) /\ val (r_end g) <= val (g_end g).
Definition ordered (g : graphic) : Prop := val (r_start g) <= val (r_end g).

Section ViewSpec.
Context (text_width text_height : string -> num) (legends : list string) (timelines : Timelines).
Abbreviation set_range := (set_range text_width text_height legends timelines).
Abbreviation layout := (layout text_width text_height legends timelines).
Abbreviation handle := (handle text_width text_height legends timelines).
Abbreviation after := (after text_width text_height legends timelines).

Lemma layout_range w h g : range_of (layout w h g).2 = range_of g.
Proof.
  unfold layout, View.layout, bind, modify, reads, lift. cbn.
  destruct (scale_layout _ _ _); cbn; [|done..].
  by destruct (scale_layout _ _ _).
Qed.

(** [set_range] takes the part of the range that is in the bounds, also when the
    layout fails. *)
Lemma set_range_range a b g : range_of (set_range a b g).2
  = (g_start g, g_end g, py_max (g_start g) (py_min a b), py_min (g_end g) (py_max a b)).
Proof.
  unfold set_range, View.set_range, bind, modify, reads, lift. cbn.
  by rewrite layout_range.
Qed.

Lemma set_range_within a b g : within (set_range a b g).2.
Proof.
  pose proof (set_range_range a b g) as Hr. unfold range_of, within in *.
  injection Hr as -> -> -> ->.
  destruct (py_max_spec (g_start g) (py_min a b)) as (? & _), (py_min_spec (g_end g) (py_max a b)) as (? & _).
  done.
Qed.

(** It is in order exactly when the two ranges meet. *)
Lemma set_range_ordered a b g : val (g_start g) <= val (g_end g) ->
  ordered (set_range a b g).2 <->
  val (py_min a b) <= val (g_end g) /\ val (g_start g) <= val (py_max a b).
Proof.
  intros Hse. pose proof (set_range_range a b g) as Hr. unfold range_of, ordered in *.
  injection Hr as _ _ -> ->.
  destruct (py_max_spec (g_start g) (py_min a b)) as (H1 & H2 & H3),
    (py_min_spec (g_end g) (py_max a b)) as (H4 & H5 & H6).
  destruct (py_min_spec a b) as (H7 & H8 & _), (py_max_spec a b) as (H9 & H10 & _).
  split; [intros; split; lra|]. intros [Ha Hb].
  destruct H3 as [E3|E3], H6 as [E6|E6]; rewrite E3, E6; lra.
Qed.

(** One end of the new range in the bounds is enough. *)
Lemma set_range_anchored a b x g : x = a \/ x = b ->
  val (g_start g) <= val x -> val x <= val (g_end g) -> ordered (set_range a b g).2.
Proof.
  intros Hx H1 H2. apply set_range_ordered; [lra|].
  destruct (py_min_spec a b) as (H7 & H8 & _), (py_max_spec a b) as (H9 & H10 & _).
  destruct Hx as [->| ->]; lra.
Qed.

(** An event that moves both ends by the same distance. *)
Definition shifts (ev : gui_event) (s : gtk) : bool :=
  match ev with
  | Release => negb (moving_left s) && negb (moving_right s) && moving_both s
  | Motion _ _ =>
      negb (moving_left s) && negb (moving_right s) && negb (moving_both s) && moving_top s
  | _ => false
  end.
(** What an event does to the visible range. *)
Definition range_change (ev : gui_event) (s s' : gtk) : Prop :=
  range_of (data s') = range_of (data s) \/
  exists a b, range_of (data s') = range_of (set_range a b (data s)).2 /\
    (a = r_start (data s) \/ b = r_end (data s) \/ shifts ev s = true).

Lemma after_press x y s : range_change (Press x y) s (after (Press x y) s).
Proof.
  destruct s. unfold after, View.after, handle, View.handle, button_press.
  unfold bind, modify, reads, lift, raise, ret; cbn.
  destruct (get_selection_rectangle _) as [[[[? ?] ?] ?]| |]; cbn; [|by left..].
  repeat (case_match; cbn); by left.
Qed.

Lemma after_release s : range_change Release s (after Release s).
Proof.
  destruct s as [g ml mr mb mt lc rc bs bc ts tc al f].
  unfold after, View.after, handle, View.handle, button_release.
  unfold bind, modify, reads, lift, raise, ret, on_data, attribute; cbn.
  destruct ml; cbn.
  { destruct lc as [c|]; cbn; [|by left]. destruct (scale_selection g c) as [l| |]; cbn; [|by left..].
    destruct (set_range l (r_end g) g) as [[| |] g'] eqn:E; right; exists l, (r_end g); cbn;
      rewrite E; auto. }
  destruct mr; cbn.
  { destruct rc as [c|]; cbn; [|by left]. destruct (scale_selection g c) as [l| |]; cbn; [|by left..].
    destruct (set_range (r_start g) l g) as [[| |] g'] eqn:E; right; exists (r_start g), l; cbn;
      rewrite E; auto. }
  destruct mb; cbn.
  { destruct bc as [c|]; cbn; [|by left]. destruct bs as [b|]; cbn; [|by left].
    destruct (scale_selection g _) as [d| |]; cbn; [|by left..].
    destruct (set_range (add (r_start g) d) (add (r_end g) d) g) as [[| |] g'] eqn:E; right;
      exists (add (r_start g) d), (add (r_end g) d); cbn; rewrite E; auto. }
  destruct mt; by left.
Qed.

Lemma after_motion x y s : range_change (Motion x y) s (after (Motion x y) s).
Proof.
  destruct s as [g ml mr mb mt lc rc bs bc ts tc al f].
  unfold after, View.after, handle, View.handle, motion_notify, self_width.
  unfold bind, modify, reads, lift, raise, ret, on_data, attribute; cbn.
  destruct (get_selection_rectangle g) as [[[[x0 y0] w0] h0]| |]; cbn; [|by left..].
  destruct ml; cbn; [destruct al; by left|].
  destruct mr; cbn.
  { destruct al as [[w h]|]; cbn; [|by left].
    destruct (le w x); cbn; [by left|]. destruct (lt x x0); by left. }
  destruct mb; cbn; [destruct bs; cbn; [destruct al as [[w h]|]; cbn|]; by left|].
  destruct mt; cbn; [|by left].
  destruct ts as [t|]; cbn; [|by left]. destruct (scale_data g (sub t x)) as [d| |]; cbn; [|by left..].
  destruct (set_range (add (r_start g) d) (add (r_end g) d) g) as [[| |] g'] eqn:E; right;
    exists (add (r_start g) d), (add (r_end g) d); cbn; rewrite E; auto.
Qed.

Lemma after_other ev s : match ev with Press _ _ | Release | Motion _ _ => False | _ => True end ->
  range_change ev s (after ev s).
Proof.
  destruct s as [g ml mr mb mt lc rc bs bc ts tc al f].
  destruct ev as [| | |w h| |]; intros Hev; try done; clear Hev;
    unfold after, View.after, handle, View.handle, size_allocate, set_smaller_zoom, set_bigger_zoom;
    unfold bind, modify, reads, lift, raise, ret, on_data, attribute; cbn.
  - pose proof (layout_range w h g) as Hr. destruct (layout w h g) as [[| |] g'] eqn:E; left; exact Hr.
  - set (b := add _ _). destruct (set_range (r_start g) b g) as [[| |] g'] eqn:E; right;
      exists (r_start g), b; cbn; rewrite E; auto.
  - destruct (div _ _) as [d| |]; cbn; [|by left..].
    destruct (set_range (r_start g) (add (r_start g) d) g) as [[| |] g'] eqn:E; right;
      exists (r_start g), (add (r_start g) d); cbn; rewrite E; auto.
Qed.

Lemma after_range ev s : range_change ev s (after ev s).
Proof.
  destruct ev; [apply after_press|apply after_release|apply after_motion|by apply after_other..].
Qed.

Lemma after_within ev s : within (data s) -> within (data (after ev s)).
Proof.
  intros Hw. destruct (after_range ev s) as [Hr|(a & b & Hr & _)].
  - unfold range_of, within in *. by injection Hr as -> -> -> ->.
  - pose proof (set_range_within a b (data s)) as Hs.
    unfold range_of, within in *. by injection Hr as -> -> -> ->.
Qed.

Lemma after_ordered ev s : within (data s) -> ordered (data s) -> shifts ev s = false ->
  ordered (data (after ev s)).
Proof.
  intros [Hw1 Hw2] Ho Hs. unfold ordered in Ho.
  destruct (after_range ev s) as [Hr|(a & b & Hr & Hab)].
  - unfold range_of, ordered in *. by injection Hr as _ _ -> ->.
  - assert (Hs' : ordered (set_range a b (data s)).2).
    { destruct Hab as [->|[->|Hab]]; [| |congruence].
      - apply (set_range_anchored _ _ (r_start (data s))); [by left|done|lra].
      - apply (set_range_anchored _ _ (r_end (data s))); [by right|lra|done]. }
    unfold range_of, ordered in *. by injection Hr as _ _ -> ->.
Qed.

(** The events in their order; whether none of them shifts the range. *)
Definition run (evs : list gui_event) (s : gtk) : gtk := foldl (fun s ev => after ev s) s evs.
Fixpoint calm (evs : list gui_event) (s : gtk) : bool :=
  match evs with [] => true | ev :: evs => negb (shifts ev s) && calm evs (after ev s) end.

(** C19: from the range that [main] sets, whatever the user does and whichever
    handlers raise, the visible range does not leave the bounds of the data; and its
    start stays before its end as long as no drag moves both of them. *)
Theorem visible_range (upper_bound : Z) (evs : list gui_event) (Hb : (0 <= upper_bound)%Z) :
  let s0 := new_gtk (main text_width text_height legends timelines 0 upper_bound).2 in
  within (data (run evs s0)) /\ (calm evs s0 = true -> ordered (data (run evs s0))).
Proof.
  intros s0.
  assert (H0 : within (data s0) /\ ordered (data s0)).
  { split; [apply set_range_within|]. apply set_range_ordered; cbn.
    - rewrite <- Zle_Qle. done.
    - destruct (py_min_spec (fst (main_range 0 upper_bound)) (snd (main_range 0 upper_bound)))
        as (Hmin & _), (py_max_spec (fst (main_range 0 upper_bound)) (snd (main_range 0 upper_bound)))
        as (_ & Hmax & _).
      cbn in Hmin, Hmax. split; [eapply Qle_trans; [exact Hmin|]|eapply Qle_trans; [|exact Hmax]];
        rewrite <- Zle_Qle; rewrite ?Z.sub_0_r;
        pose proof (Z.div_pos upper_bound 2); pose proof (Z.div_pos (upper_bound / 10) 2);
        pose proof (Z.div_pos upper_bound 10);
        pose proof (Z.div_le_upper_bound upper_bound 2 upper_bound); lia. }
  clearbody s0. destruct H0 as [Hw Ho]. revert s0 Hw Ho.
  induction evs as [|ev evs IH]; intros s0 Hw Ho; [done|]. cbn. split.
  - clear Ho. revert Hw. assert (Hall : forall s, within (data s) -> within (data (run evs s))).
    { clear. induction evs as [|ev evs IH]; intros s Hs; [done|]. by apply IH, after_within. }
    intros Hw. by apply Hall, after_within.
  - intros [Hs Hc]%andb_true_iff. apply negb_true_iff in Hs.
    by apply IH; [apply after_within|apply after_ordered|].
Qed.
End ViewSpec.

(** ** The scales *)

Local Open Scope Z_scope.

Lemma lt_Int a b : lt (Int a) (Int b) = (a <? b).
Proof.
  destruct (lt_spec (Int a) (Int b)) as [Hlt|Hlt]; cbn in Hlt; rewrite <- Zlt_Qlt in Hlt;
    symmetry; [by apply Z.ltb_lt|by apply Z.ltb_nlt].
Qed.
Lemma is_zero_Int a : is_zero (Int a) = (a =? 0).
Proof.
  unfold is_zero. cbn. destruct (a =? 0) eqn:E.
  - apply Z.eqb_eq in E as ->. done.
  - apply not_true_iff_false. intros H%Qeq_bool_iff. apply Z.eqb_neq in E.
    by rewrite <- (inject_Z_injective a 0) in E.
Qed.
Lemma div_Int a b : b <> 0 -> div (Int a) (Int b) = Ok (Int (a / b)).
Proof. intros Hb. unfold div. rewrite is_zero_Int. by apply Z.eqb_neq in Hb as ->. Qed.
Lemma modulo_Int a b : b <> 0 -> modulo (Int a) (Int b) = Ok (Int (a mod b)).
Proof. intros Hb. unfold modulo. rewrite is_zero_Int. by apply Z.eqb_neq in Hb as ->. Qed.

Lemma find_closest_spec fuel dd c : 1 <= c -> dd <= c * 10 ^ Z.of_nat (S fuel) ->
  exists k, find_closest fuel (Int dd) c = Ok (c * 10 ^ Z.of_nat k) /\
    dd <= c * 10 ^ Z.of_nat k * 10 /\ (k = 0%nat \/ c * 10 ^ Z.of_nat k < dd).
Proof.
  revert c. induction fuel as [|fuel IH]; intros c Hc Hdd; cbn [find_closest]; rewrite lt_Int.
  - change (10 ^ Z.of_nat 1) with 10 in Hdd. replace (c * 10 <? dd) with false by lia.
    exists 0%nat. cbn. split_and!; [f_equal; lia|lia|by left].
  - destruct (c * 10 <? dd) eqn:E; [apply Z.ltb_lt in E|apply Z.ltb_nlt in E].
    + destruct (IH (c * 10)) as (k & -> & H1 & H2); [lia| |].
      { rewrite Nat2Z.inj_succ, Z.pow_succ_r in Hdd by lia. lia. }
      assert (Hk : c * 10 * 10 ^ Z.of_nat k = c * 10 ^ Z.of_nat (S k)).
      { rewrite Nat2Z.inj_succ, Z.pow_succ_r by lia. lia. }
      exists (S k). rewrite <- Hk. split_and!; [done|lia|]. right.
      destruct H2 as [->|H2]; [cbn; lia|done].
    + exists 0%nat. cbn. split_and!; [f_equal; lia|lia|by left].
Qed.

(** The distance of the points is a power of ten, from a half to a twentieth of
    what is shown. *)
Lemma choose_delta_spec dd : 2 <= dd ->
  exists k, choose_delta (Int dd) = Ok (Int (10 ^ Z.of_nat k)) /\
    2 * 10 ^ Z.of_nat k <= dd < 20 * 10 ^ Z.of_nat k.
Proof.
  intros Hdd. unfold choose_delta, closest_fuel. cbn [val]. rewrite Qceiling_Z.
  destruct (find_closest_spec (Z.to_nat (Z.log2_up dd)) dd 1) as (k & -> & H1 & H2); [lia| |].
  { destruct (Z.log2_up_spec dd) as [_ Hlog]; [lia|]. pose proof (Z.log2_up_nonneg dd).
    rewrite Nat2Z.inj_succ, Z2Nat.id, Z.pow_succ_r by lia.
    pose proof (Z.pow_le_mono_l 2 10 (Z.log2_up dd)). lia. }
  rewrite Z.mul_1_l in *. set (c := 10 ^ Z.of_nat k) in *.
  assert (Hc : 1 <= c <= dd) by (destruct H2 as [->|H2]; lia).
  cbn [res_bind]. rewrite div_Int by lia. cbn [res_bind]. rewrite is_zero_Int.
  assert (Hq : 1 <= dd / c) by (apply Z.div_le_lower_bound; lia).
  replace (dd / c =? 0) with false by lia. unfold sub, arith. rewrite is_zero_Int.
  destruct (dd / c - 1 =? 0) eqn:E; [apply Z.eqb_eq in E|apply Z.eqb_neq in E].
  - assert (Hlt : dd < 2 * c).
    { pose proof (Z.div_mod dd c). pose proof (Z.mod_pos_bound dd c). nia. }
    destruct k as [|k]; [unfold c in *; cbn in *; rewrite Z.div_1_r in E; lia|].
    exists k. assert (Hck : c = 10 * 10 ^ Z.of_nat k).
    { unfold c. by rewrite Nat2Z.inj_succ, Z.pow_succ_r by lia. }
    rewrite div_Int by lia. rewrite Hck, Z.mul_comm, Z.div_mul by lia. split; [done|]. lia.
  - exists k. split; [done|]. fold c.
    pose proof (Z.mul_div_le dd c). nia.
Qed.

Lemma elem_of_py_range a b step x : 0 < step ->
  x ∈ py_range a b step <-> a <= x < b /\ (step | x - a).
Proof.
  intros Hs. unfold py_range. rewrite list_elem_of_fmap. setoid_rewrite elem_of_seq. split.
  - intros (i & -> & Hi). assert (Hi' : Z.of_nat i < (b - a + step - 1) / step) by lia.
    assert (Z.of_nat i * step < b - a).
    { pose proof (Z.mul_div_le (b - a + step - 1) step). nia. }
    split; [lia|]. exists (Z.of_nat i). lia.
  - intros (Hx & i & Hi). exists (Z.to_nat i). assert (0 <= i) by nia.
    split; [rewrite Z2Nat.id by lia; lia|]. split; [lia|].
    assert (Hi2 : i + 1 <= (b - a + step - 1) / step) by (apply Z.div_le_lower_bound; nia).
    lia.
Qed.

Lemma py_range_sorted a b step : 0 < step -> StronglySorted Z.lt (py_range a b step).
Proof.
  intros Hs. unfold py_range. generalize (Z.to_nat ((b - a + step - 1) / step)). intros n.
  generalize 0%nat. induction n as [|n IH]; intros k; cbn; constructor; [apply IH|].
  apply Forall_forall. intros x (i & -> & Hi%elem_of_seq)%list_elem_of_fmap. nia.
Qed.

(** Multiples of [d] in an interval that is open to the left. *)
Lemma multiples lo hi d x : 0 < d ->
  lo - lo mod d + d <= x < hi - hi mod d + d /\ (d | x - (lo - lo mod d + d))
  <-> lo < x <= hi /\ (d | x).
Proof.
  intros Hd. pose proof (Z.div_mod lo d). pose proof (Z.div_mod hi d).
  pose proof (Z.mod_pos_bound lo d). pose proof (Z.mod_pos_bound hi d).
  assert (Hdiv : (d | x - (lo - lo mod d + d)) <-> (d | x)).
  { split; intros [q Hq]; [exists (q + lo / d + 1)|exists (q - lo / d - 1)]; nia. }
  assert (Hl : forall q, lo < q * d <-> lo / d + 1 <= q).
  { intros q. split; intros Hq; [apply Z.nlt_ge; intros Hn|]; nia. }
  assert (Hh : forall q, q * d <= hi <-> q <= hi / d).
  { intros q. split; intros Hq; [apply Z.div_le_lower_bound|]; nia. }
  rewrite Hdiv. split; intros [Hx [q ->]]; (split; [|by exists q]).
  - rewrite Hl, Hh. split; nia.
  - rewrite Hl, Hh in Hx. split; nia.
Qed.

Lemma map_res_fst {A B} (f : A -> res view_exn B) l ps :
  map_res (fun x => let* y := f x in Ok (x, y)) l = Ok ps ->
  ps.*1 = l /\ forall x y, (x, y) ∈ ps -> f x = Ok y.
Proof.
  revert ps. induction l as [|x l IH]; intros ps; cbn.
  - intros [= <-]. split; [done|]. by intros x y ?%elem_of_nil.
  - destruct (f x) as [y| |] eqn:E; cbn; [|done..].
    destruct (map_res _ l) as [ys| |]; cbn; [|done..]. intros [= <-].
    destruct (IH ys eq_refl) as [H1 H2]. split; [cbn; by rewrite H1|].
    intros x' y' [[= -> ->]|Hin]%elem_of_cons; [done|by apply H2].
Qed.

Definition ticks_at (s : scale) (a b d : Z) (ticks : list (Z * num)) : Prop :=
  StronglySorted Z.lt ticks.*1 /\
  (forall x, x ∈ ticks.*1 <-> a < x <= b /\ (d | x)) /\
  forall x p, (x, p) ∈ ticks -> get_position s (Int x) = Ok p.

Lemma tick_points_spec s a b d : lo s = Int a -> hi s = Int b -> a < b -> 0 < d ->
  exists ticks, tick_points s (Int d) = Ok ticks /\ ticks_at s a b d ticks.
Proof.
  intros Hlo Hhi Hab Hd. unfold tick_points. rewrite Hlo, Hhi, !modulo_Int by lia.
  cbn [res_bind sub add arith py_int].
  set (l := py_range _ _ _).
  assert (Hok : exists ps, map_res (fun x => let* real_x := get_position s (Int x) in Ok (x, real_x)) l
    = Ok ps).
  { generalize l. clear l. intros l. induction l as [|x l [ps IH]]; [by exists []|]. cbn.
    unfold get_position at 1. rewrite Hlo, Hhi. unfold div. cbn [sub arith]. rewrite is_zero_Int.
    replace (b - a =? 0) with false by lia. cbn. rewrite IH. cbn. eauto. }
  destruct Hok as [ps Hps]. exists ps. split; [done|]. apply map_res_fst in Hps as [Hfst Hpos].
  split_and!; [|intros x|done]; rewrite Hfst.
  - by apply py_range_sorted.
  - unfold l. rewrite elem_of_py_range by done. by apply multiples.
Qed.

Section Ticks.
Context (text_height : string -> num).

(** On integer bounds that are at least two apart, the layout of a scale
    chooses a power of ten of which it shows at least two and less than twenty
    steps, and the drawing marks exactly the multiples of it, in order and each at
    its position, with subticks at the multiples of its tenth when that is an
    integer. *)
Theorem scale_ticks (s : scale) (a b : Z) (width : num)
    (Hlo : lo s = Int a) (Hhi : hi s = Int b) (Hab : 2 <= b - a) :
  exists k s' ticks subticks, let d := 10 ^ Z.of_nat k in
    scale_layout text_height width s = Ok s' /\ s_width s' = width /\ delta s' = Int d /\
    2 * d <= b - a < 20 * d /\
    scale_draw s' = Ok (ticks, subticks) /\ ticks_at s' a b d ticks /\
    (if decide (k = 0%nat) then subticks = [] else ticks_at s' a b (d / 10) subticks).
Proof.
  destruct (choose_delta_spec (b - a) Hab) as (k & Hd & Hk).
  assert (Hpos : 0 < 10 ^ Z.of_nat k) by (apply Z.pow_pos_nonneg; lia).
  eexists k, _. unfold scale_layout, scale_draw. rewrite Hlo, Hhi. cbn [sub arith].
  rewrite Hd. cbn [res_bind]. rewrite !modulo_Int by lia. cbn [res_bind].
  set (s' := {| lo := _ |}).
  destruct (tick_points_spec s' a b (10 ^ Z.of_nat k)) as (ticks & Ht & Hticks); [done..|lia|done|].
  exists ticks. destruct (decide (k = 0%nat)) as [Hk0|Hk0].
  - exists []. do 3 (split; [done|]). split; [exact Hk|]. split; [|by split].
    fold s'. change (delta s') with (Int (10 ^ Z.of_nat k)). rewrite Ht. cbn [res_bind]. rewrite div_Int by lia. cbn [res_bind].
    rewrite lt_Int. by subst k.
  - assert (H10 : 10 ^ Z.of_nat k / 10 = 10 ^ Z.of_nat (pred k)).
    { replace (Z.of_nat k) with (Z.succ (Z.of_nat (pred k))) by lia.
      rewrite Z.pow_succ_r, Z.mul_comm, Z.div_mul by lia. done. }
    destruct (tick_points_spec s' a b (10 ^ Z.of_nat k / 10)) as (sub' & Hs & Hsub); [done..|lia| |].
    { rewrite H10. apply Z.pow_pos_nonneg; lia. }
    exists sub'. do 3 (split; [done|]). split; [exact Hk|]. split; [|by split].
    fold s'. change (delta s') with (Int (10 ^ Z.of_nat k)). rewrite Ht. cbn [res_bind]. rewrite div_Int by lia. cbn [res_bind].
    rewrite lt_Int. replace (0 <? _) with true; [by rewrite Hs|].
    symmetry. apply Z.ltb_lt. rewrite H10. apply Z.pow_pos_nonneg; lia.
Qed.
End Ticks.

(** ** Dragging the left handle *)

Local Open Scope Q_scope.

Lemma div_le a b c : div a b = Ok c -> 0 < val b -> val c * val b <= val a.
Proof.
  unfold div. destruct (is_zero b); [done|]. intros [= <-] Hb.
  destruct a as [a|a], b as [b|b]; cbn in *.
  - rewrite <- inject_Z_mult, <- Zle_Qle. change 0 with (inject_Z 0) in Hb.
    rewrite <- Zlt_Qlt in Hb. rewrite Z.mul_comm. by apply Z.mul_div_le.
  - unfold Qdiv. rewrite <- Qmult_assoc, (Qmult_comm (/ b)), Qmult_inv_r; lra.
  - unfold Qdiv. rewrite <- Qmult_assoc, (Qmult_comm (/ _)), Qmult_inv_r; lra.
  - unfold Qdiv. rewrite <- Qmult_assoc, (Qmult_comm (/ b)), Qmult_inv_r; lra.
Qed.

Lemma div_Flo q b : 0 < val b -> exists c, div (Flo q) b = Ok (Flo c) /\ c * val b == q.
Proof.
  intros Hb. unfold div, is_zero. destruct (Qeq_bool (val b) 0) eqn:E.
  - apply Qeq_bool_iff in E. lra.
  - exists (q / val b). split; [done|]. unfold Qdiv.
    rewrite <- Qmult_assoc, (Qmult_comm (/ _)), Qmult_inv_r; lra.
Qed.

Section Drag.
Context (text_width text_height : string -> num) (legends : list string) (timelines : Timelines).
Abbreviation after := (after text_width text_height legends timelines).

(** No drag is going on. *)
Definition idle (s : gtk) : Prop :=
  moving_left s = false /\ moving_right s = false /\ moving_both s = false /\ moving_top s = false.
(** The data starts at 0, and the window has been laid out. *)
Record settled (s : gtk) : Prop := {
  settled_start : val (g_start (data s)) == 0;
  settled_lo : val (lo (bot_scale (data s))) == 0;
  settled_hi : val (hi (bot_scale (data s))) == val (g_end (data s));
  settled_width : s_width (bot_scale (data s)) = g_width (data s);
  settled_allocated : is_Some (allocated s);
  settled_pos : 0 < val (g_width (data s)) /\ 0 < val (g_end (data s)) }.

(** The right handle is at or before the end of the range. *)
Lemma selection_end (g : graphic) x y w h :
  val (lo (bot_scale g)) == 0 -> val (hi (bot_scale g)) == val (g_end g) ->
  s_width (bot_scale g) = g_width g -> 0 < val (g_end g) ->
  get_selection_rectangle g = Ok (x, y, w, h) ->
  val (add x w) * val (g_end g) <= val (r_end g) * val (g_width g).
Proof.
  intros Hlo Hhi Hwd He0 Hrect. unfold get_selection_rectangle in Hrect.
  destruct (get_position (bot_scale g) (r_start g)) as [xs| |] eqn:E1; [|done..].
  destruct (get_position (bot_scale g) (r_end g)) as [xe| |] eqn:E2; [|done..].
  cbn in Hrect. injection Hrect as <- _ <- _. unfold get_position in E2.
  apply div_le in E2; [|rewrite val_sub; lra].
  rewrite val_sub, val_mul, val_sub, Hwd in E2. rewrite val_add, val_sub.
  assert (Hx : val xs + (val xe - val xs) == val xe) by ring. rewrite Hx.
  rewrite Hlo, Hhi in E2. lra.
Qed.
(** The time at a pixel is shown at this pixel. *)
Lemma position_of_time (g : graphic) (t p : Q) :
  val (lo (bot_scale g)) == 0 -> val (hi (bot_scale g)) == val (g_end g) ->
  s_width (bot_scale g) = g_width g -> 0 < val (g_end g) ->
  t * val (g_width g) == p * val (g_end g) ->
  exists q, get_position (bot_scale g) (Flo t) = Ok q /\ val q == p.
Proof.
  intros Hlo Hhi Hwd He0 Htw. unfold get_position. rewrite Hwd.
  assert (Hsub : exists q, mul (sub (Flo t) (lo (bot_scale g))) (g_width g) = Flo q /\ q == p * val (g_end g)).
  { exists ((t - val (lo (bot_scale g))) * val (g_width g)). split; [done|]. rewrite Hlo. lra. }
  destruct Hsub as (q & -> & Hq).
  destruct (div_Flo q (sub (hi (bot_scale g)) (lo (bot_scale g)))) as (r & -> & Hr).
  { rewrite val_sub. lra. }
  exists (Flo r). split; [done|]. cbn. rewrite val_sub, Hhi, Hlo, Hq in Hr.
  apply (Qmult_inj_r _ _ (val (g_end g))); lra.
Qed.
(** The three events of a drag of the left handle set the range from the pixel to the end. *)
Lemma drag_left_range (s : gtk) (x y w h ex ey my : num) (p : Q) :
  idle s -> is_Some (allocated s) ->
  get_selection_rectangle (data s) = Ok (x, y, w, h) ->
  (inside y ey (add y h) && near ex x)%bool = true -> 0 < p /\ p < val (add x w) ->
  forall c, div (Flo p) (g_width (data s)) = Ok c ->
  let s' := after Release (after (Motion (Flo p) my) (after (Press ex ey) s)) in
  idle s' /\ range_of (data s') = range_of (set_range text_width text_height legends timelines
    (mul c (sub (g_end (data s)) (g_start (data s)))) (r_end (data s)) (data s)).2.
Proof.
  intros (Hml & Hmr & Hmb & Hmt) [[aw ah] Hal] Hrect Hpress Hp c Hdiv.
  destruct s as [g ml mr mb mt lc rc bs bc ts tc al f]. cbn in *. subst ml mr mb mt al.
  set (s1 := mkGtk g true false false false lc rc bs bc ts tc (Some (aw, ah)) f).
  assert (H1 : after (Press ex ey) (mkGtk g false false false false lc rc bs bc ts tc (Some (aw, ah)) f) = s1).
  { unfold after, View.after. cbn. unfold button_press, bind, reads, lift, modify, ret. cbn.
    rewrite Hrect. cbn. by rewrite Hpress. }
  assert (H2 : after (Motion (Flo p) my) s1 = set_left_cur (Flo p) s1).
  { unfold after, View.after. cbn. unfold motion_notify, self_width, attribute, bind, reads, lift, modify, ret.
    cbn. rewrite Hrect. cbn. destruct (le_spec (Flo p) (Int 0)) as [Hle|_]; [change (p <= 0) in Hle; lra|].
    destruct (le_spec (add x w) (Flo p)) as [Hle|_]; [|done].
    change (val (Flo p)) with p in Hle. lra. }
  rewrite H1, H2. unfold s1, after, View.after.
  cbn. unfold button_release, attribute, bind, reads, lift, modify, ret, on_data.
  cbn. unfold scale_selection. rewrite Hdiv. cbn.
  destruct (set_range text_width text_height legends timelines _ (r_end g) g) as [[| |] g'] eqn:E;
    cbn; (split; [by repeat split|done]).
Qed.

(** Pressing the button near the left handle of the selection, moving to a
    pixel [p] between the left border of the window and the right handle, and
    releasing the button makes the visible range start at the time that is at
    that pixel; the end of the range stays, and the drag is over. *)
Theorem drag_left (s : gtk) (x y w h ex ey my : num) (p : Q)
    (Hidle : idle s) (Hs : settled s) (Hw : within (data s))
    (Hrect : get_selection_rectangle (data s) = Ok (x, y, w, h))
    (Hpress : (inside y ey (add y h) && near ex x)%bool = true)
    (Hp : 0 < p /\ p < val (add x w)) :
  let s' := after Release (after (Motion (Flo p) my) (after (Press ex ey) s)) in
  idle s' /\ val (r_end (data s')) == val (r_end (data s)) /\
  exists t, r_start (data s') = Flo t /\
    t * val (g_width (data s)) == p * val (g_end (data s)) /\
    exists q, get_position (bot_scale (data s)) (Flo t) = Ok q /\ val q == p.
Proof.
  destruct Hs as [Hst Hlo Hhi Hwd Hal [Hw0 He0]], Hw as [Hw1 Hw2].
  assert (Hend := selection_end (data s) x y w h Hlo Hhi Hwd He0 Hrect).
  destruct (div_Flo p (g_width (data s)) Hw0) as (c & Hdiv & Hc).
  assert (Hdrag := drag_left_range s x y w h ex ey my p Hidle Hal Hrect Hpress Hp (Flo c) Hdiv).
  intros s'. cbv zeta in Hdrag. fold s' in Hdrag. clearbody s'. destruct Hdrag as [Hi Hr].
  assert (Hnew : exists t, mul (Flo c) (sub (g_end (data s)) (g_start (data s))) = Flo t /\ t == c * val (g_end (data s))).
  { exists (c * val (sub (g_end (data s)) (g_start (data s)))). split; [by destruct (sub _ _)|].
    rewrite val_sub, Hst. ring. }
  destruct Hnew as (t & Hnew & Ht). rewrite Hnew in Hr.
  assert (Htw : t * val (g_width (data s)) == p * val (g_end (data s))) by (rewrite Ht, <- Hc; ring).
  assert (Ht0 : 0 < t).
  { apply (Qmult_lt_r _ _ (val (g_width (data s)))); [done|]. rewrite Htw. nra. }
  assert (Hte : t <= val (r_end (data s))).
  { assert (Hpe : p * val (g_end (data s)) <= val (add x w) * val (g_end (data s)))
      by (apply Qmult_le_compat_r; lra).
    apply (Qmult_le_r _ _ (val (g_width (data s)))); [done|]. rewrite Htw. lra. }
  split; [exact Hi|]. rewrite set_range_range in Hr.
  unfold range_of in Hr. injection Hr as _ _ Hrs Hre. rewrite Hrs, Hre. clear Hrs Hre.
  assert (Hmin : py_min (Flo t) (r_end (data s)) = Flo t).
  { unfold py_min. destruct (lt_spec (r_end (data s)) (Flo t)) as [Hlt|_]; [cbn in Hlt; lra|done]. }
  assert (Hmax : val (py_max (Flo t) (r_end (data s))) == val (r_end (data s))).
  { destruct (py_max_spec (Flo t) (r_end (data s))) as (_ & Hm & [E|E]); rewrite E in *; cbn in *; lra. }
  split.
  - destruct (py_min_spec (g_end (data s)) (py_max (Flo t) (r_end (data s)))) as (_ & Hm & [E|E]); rewrite E in *; lra.
  - exists t. rewrite Hmin. split; [|split; [done|by apply position_of_time]].
    unfold py_max. destruct (lt_spec (g_start (data s)) (Flo t)) as [_|Hlt]; [done|]. cbn in Hlt. lra.
Qed.
End Drag.

(** ** The theorems on a concrete window *)

Definition demo_width (s : string) : num := Int (8 * Z.of_nat (String.length s)).
Definition demo_height (s : string) : num := Int 12.
(** 1000 time units in a window of 800 by 400 pixels. *)
Definition demo_window : gtk :=
  after demo_width demo_height [] [] (Allocate (Int 800) (Int 400))
    (new_gtk (main demo_width demo_height [] [] 0 1000).2).

Lemma visible_range_witness : (0 <= 1000)%Z /\
  let evs := [Press (Int 360) (Int 60); Motion (Int 200) (Int 60); Release; ZoomOut] in
  let s := run demo_width demo_height [] [] evs
    (new_gtk (main demo_width demo_height [] [] 0 1000).2) in
  within (data s) /\ ordered (data s).
Proof.
  split; [lia|]. intros evs s.
  destruct (visible_range demo_width demo_height [] [] 1000 evs) as [H1 H2]; [lia|].
  split; [exact H1|]. apply H2. vm_compute. reflexivity.
Defined.

Local Open Scope Z_scope.

Lemma scale_ticks_witness :
  let s := set_bounds (Int 0) (Int 1000) (new_scale false) in
  2 <= 1000 - 0 /\ exists k s' ticks subticks, let d := 10 ^ Z.of_nat k in
    scale_layout demo_height (Int 800) s = Ok s' /\ s_width s' = Int 800 /\ delta s' = Int d /\
    2 * d <= 1000 - 0 < 20 * d /\
    scale_draw s' = Ok (ticks, subticks) /\ ticks_at s' 0 1000 d ticks /\
    (if decide (k = 0%nat) then subticks = [] else ticks_at s' 0 1000 (d / 10) subticks).
Proof.
  intros s. split; [lia|].
  apply (scale_ticks demo_height s 0 1000 (Int 800) eq_refl eq_refl). lia.
Defined.

Local Open Scope Q_scope.

Lemma drag_left_witness :
  (idle demo_window /\ settled demo_window /\ within (data demo_window) /\
   get_selection_rectangle (data demo_window) = Ok (Int 360, Int 52, Int 80, Int 42) /\
   0 < 100 /\ 100 < val (add (Int 360) (Int 80))) /\
  let s' := after demo_width demo_height [] [] Release
    (after demo_width demo_height [] [] (Motion (Flo 100) (Int 60))
      (after demo_width demo_height [] [] (Press (Int 360) (Int 60)) demo_window)) in
  idle s' /\ val (r_end (data s')) == val (r_end (data demo_window)) /\
  exists t, r_start (data s') = Flo t /\
    t * val (g_width (data demo_window)) == 100 * val (g_end (data demo_window)) /\
    exists q, get_position (bot_scale (data demo_window)) (Flo t) = Ok q /\ val q == 100.
Proof.
  assert (Hi : idle demo_window) by (vm_compute; auto).
  assert (Hs : settled demo_window) by (split; vm_compute; eauto).
  assert (Hw : within (data demo_window)) by (vm_compute; by split).
  assert (Hr : get_selection_rectangle (data demo_window) = Ok (Int 360, Int 52, Int 80, Int 42))
    by (vm_compute; reflexivity).
  assert (Hp : 0 < 100 /\ 100 < val (add (Int 360) (Int 80))) by (vm_compute; by split).
  split; [exact (conj Hi (conj Hs (conj Hw (conj Hr Hp))))|].
  apply (drag_left demo_width demo_height [] [] demo_window (Int 360) (Int 52) (Int 80) (Int 42)
    (Int 360) (Int 60) (Int 60) 100 Hi Hs Hw Hr); [vm_compute; reflexivity|exact Hp].
Defined.

(** A drag of the data that leaves the bounds makes a range that ends before it
    starts: the theorem above needs its hypothesis. *)
Lemma shift_inverts :
  let evs := [Allocate (Int 800) (Int 400); Press (Int 400) (Int 20); Motion (Flo (-4000)) (Int 20)] in
  let s := run demo_width demo_height [] [mkTimeline "a" [] [] []]
    evs (new_gtk (main demo_width demo_height [] [mkTimeline "a" [] [] []] 0 1000).2) in
  val (r_end (data s)) < val (r_start (data s)).
Proof. vm_compute. reflexivity. Qed.

(** Pressing and releasing a handle without a motion in between raises, since the
    position of the drag was never set. *)
Lemma click_raises :
  (handle demo_width demo_height [] [] Release
    (after demo_width demo_height [] [] (Press (Int 360) (Int 60)) demo_window)).1
  = Raise AttributeError.
Proof. vm_compute. reflexivity. Qed.

(** Zooming in divides by zero once one unit is left, and data of length one
    cannot be shown at all. *)
Lemma zoom_in_raises :
  (handle demo_width demo_height [] [] ZoomIn
    (run demo_width demo_height [] [] (replicate 5 ZoomIn) demo_window)).1
  = Raise ZeroDivisionError.
Proof. vm_compute. reflexivity. Qed.
Lemma short_data_raises : (main demo_width demo_height [] [] 0 1).1 = Raise ZeroDivisionError.
Proof. vm_compute. reflexivity. Qed.

(** On less than 20 units of data the range that [main] sets is empty. *)
Lemma short_data_range n : (0 <= n < 20)%Z ->
  fst (main_range 0 n) = snd (main_range 0 n).
Proof.
  intros Hn. unfold main_range. cbn. rewrite Z.sub_0_r.
  assert (Hq : (n / 10 / 2 = 0)%Z).
  { apply Z.div_small. split; [apply Z.div_pos; lia|apply Z.div_lt_upper_bound; lia]. }
  by rewrite Hq, Z.sub_0_r, Z.add_0_r.
Qed.
