(* ===== verification/TestJobs.v ===== *)
(** * The jobs of the test driver: [src/test.py]

    The [Job] class, [worker_thread.run] and the queues as a transition system,
    the loop of [run_tests] that collects the results, the summary and the exit
    code.  Jobs are mutable objects that the queues pass by reference: a job is
    paired with its identity, the place at which it was dispatched.  The return
    code and the elapsed time of a command are whatever the operating system
    reports; times are an abstract type with its formatting. *)

From S2P Require Import Prelude PyLib.
From Stdlib Require Import Ascii String.
From stdpp Require Import strings relations sorting pretty.
Open Scope string_scope.
Open Scope nat_scope.
Open Scope list_scope.

(** ** class Job *)

Section Jobs.
Context {T : Type}.

Record Job := mkJob {
  is_break : bool;
  is_skip : bool;
  skip_reason : string;
  is_example : bool;
  is_pyexample : bool;
  shell_command : string;
  display_name : string;
  basedir : string;
  tempdir : string;
  cwd : string;
  tmp_file_name : string;
  returncode : Z;
  elapsed_time : T;
  build_path : string }.

(** [Job()]; [returncode] is [False], which compares equal to 0. *)
Definition new_job (zero : T) : Job :=
  mkJob false false "" false false "" "" "" "" "" "" 0 zero "".

Definition set_is_break (b : bool) (j : Job) : Job :=
  let 'mkJob _ a c d e f g h i k l m n o := j in mkJob b a c d e f g h i k l m n o.
Definition set_is_skip (b : bool) (j : Job) : Job :=
  let 'mkJob a _ c d e f g h i k l m n o := j in mkJob a b c d e f g h i k l m n o.
Definition set_skip_reason (s : string) (j : Job) : Job :=
  let 'mkJob a b _ d e f g h i k l m n o := j in mkJob a b s d e f g h i k l m n o.
Definition set_is_example (b : bool) (j : Job) : Job :=
  let 'mkJob a c d _ e f g h i k l m n o := j in mkJob a c d b e f g h i k l m n o.
Definition set_is_pyexample (b : bool) (j : Job) : Job :=
  let 'mkJob a c d e _ f g h i k l m n o := j in mkJob a c d e b f g h i k l m n o.
Definition set_shell_command (s : string) (j : Job) : Job :=
  let 'mkJob a b c d e _ g h i k l m n o := j in mkJob a b c d e s g h i k l m n o.
Definition set_display_name (s : string) (j : Job) : Job :=
  let 'mkJob a b c d e f _ h i k l m n o := j in mkJob a b c d e f s h i k l m n o.
Definition set_basedir (s : string) (j : Job) : Job :=
  let 'mkJob a b c d e f g _ i k l m n o := j in mkJob a b c d e f g s i k l m n o.
Definition set_tempdir (s : string) (j : Job) : Job :=
  let 'mkJob a b c d e f g h _ k l m n o := j in mkJob a b c d e f g h s k l m n o.
Definition set_cwd (s : string) (j : Job) : Job :=
  let 'mkJob a b c d e f g h i _ l m n o := j in mkJob a b c d e f g h i s l m n o.
Definition set_tmp_file_name (s : string) (j : Job) : Job :=
  let 'mkJob a b c d e f g h i k _ m n o := j in mkJob a b c d e f g h i k s m n o.
Definition set_returncode (z : Z) (j : Job) : Job :=
  let 'mkJob a b c d e f g h i k l _ n o := j in mkJob a b c d e f g h i k l z n o.
Definition set_elapsed_time (t : T) (j : Job) : Job :=
  let 'mkJob a b c d e f g h i k l m _ o := j in mkJob a b c d e f g h i k l m t o.
Definition set_build_path (s : string) (j : Job) : Job :=
  let 'mkJob a b c d e f g h i k l m n _ := j in mkJob a b c d e f g h i k l m n s.

(** The shell command that [worker_thread.run] passes on for a job. *)
Definition worker_command (update_data : bool) (j : Job) : string :=
  if (is_example j || is_pyexample j)%bool then shell_command j
  else shell_command j +:+ " --xml --tempdir=" +:+ tempdir j +:+ " --out=" +:+ tmp_file_name j
       +:+ " " +:+ (if update_data then "--update-data" else "").

(** ** The worker threads

    [item] is a job with its identity; [None] is one of the break jobs that the
    main thread queues last. *)

Definition item : Type := nat * Job.

Inductive worker :=
  | Waiting
  | Holding (it : item)
  | Launched (it : item)
  | Exited.

(** The state of the program from the first [input_queue.put] to the last
    [thread.join]. *)
Record pool := mkPool {
  to_put : list (option item);
  input_queue : list (option item);
  workers : list worker;
  output_queue : list item;
  collected : list item;
  thread_exit : bool }.

(** One thread moves.  [WorkerRan] is the end of [run_job_synchronously], with
    any return code and time; [Sigint] is [sigint_hook].  The main thread takes
    results only when it has put everything. *)
Inductive step : pool -> pool -> Prop :=
  | Put x tp iq ws oq co te :
      step (mkPool (x :: tp) iq ws oq co te) (mkPool tp (iq ++ [x]) ws oq co te)
  | WorkerGet it tp iq ws1 ws2 oq co te :
      step (mkPool tp (Some it :: iq) (ws1 ++ Waiting :: ws2) oq co te)
           (mkPool tp iq (ws1 ++ Holding it :: ws2) oq co te)
  | WorkerBreak tp iq ws1 ws2 oq co te :
      step (mkPool tp (None :: iq) (ws1 ++ Waiting :: ws2) oq co te)
           (mkPool tp iq (ws1 ++ Exited :: ws2) oq co te)
  | WorkerInterrupted n j tp iq ws1 ws2 oq co :
      step (mkPool tp iq (ws1 ++ Holding (n, j) :: ws2) oq co true)
           (mkPool tp iq (ws1 ++ Waiting :: ws2) (oq ++ [(n, set_is_break true j)]) co true)
  | WorkerSkip n j tp iq ws1 ws2 oq co :
      is_skip j = true ->
      step (mkPool tp iq (ws1 ++ Holding (n, j) :: ws2) oq co false)
           (mkPool tp iq (ws1 ++ Waiting :: ws2) (oq ++ [(n, j)]) co false)
  | WorkerLaunch n j tp iq ws1 ws2 oq co :
      is_skip j = false ->
      step (mkPool tp iq (ws1 ++ Holding (n, j) :: ws2) oq co false)
           (mkPool tp iq (ws1 ++ Launched (n, j) :: ws2) oq co false)
  | WorkerRan n j rc et tp iq ws1 ws2 oq co te :
      step (mkPool tp iq (ws1 ++ Launched (n, j) :: ws2) oq co te)
           (mkPool tp iq (ws1 ++ Waiting :: ws2)
             (oq ++ [(n, set_elapsed_time et (set_returncode rc j))]) co te)
  | Collect it iq ws oq co te :
      step (mkPool [] iq ws (it :: oq) co te) (mkPool [] iq ws oq (co ++ [it]) te).

Inductive sigint : pool -> pool -> Prop :=
  | Sigint tp iq ws oq co te :
      sigint (mkPool tp iq ws oq co te) (mkPool tp iq ws oq co true).

Definition run_step (s s' : pool) : Prop := step s s' \/ sigint s s'.

(** What the main thread puts: the jobs, then a break job for each worker. *)
Definition numbered (jobs : list Job) : list item := zip (seq 0 (length jobs)) jobs.
Definition initial (jobs : list Job) (processors : nat) : pool :=
  mkPool (map Some (numbered jobs) ++ replicate processors None) []
    (replicate processors Waiting) [] [] false.

(** All results are in and every thread can be joined. *)
Definition final (s : pool) : Prop :=
  to_put s = [] /\ input_queue s = [] /\ output_queue s = [] /\ Forall (fun w => w = Exited) (workers s).

(** ** Collecting the results *)

Inductive status := PASS | FAIL | VALGR | CRASH | SKIP.
#[export] Instance status_eq_dec : EqDecision status.
Proof. solve_decision. Defined.
Definition show_status (s : status) : string :=
  match s with
  | PASS => "PASS" | FAIL => "FAIL" | VALGR => "VALGR" | CRASH => "CRASH" | SKIP => "SKIP"
  end.

Definition job_status (j : Job) : status :=
  if is_skip j then SKIP
  else if decide (returncode j = 0)%Z then PASS
  else if decide (returncode j = 1)%Z then FAIL
  else if decide (returncode j = 2)%Z then VALGR
  else CRASH.

(** The counters and the lists of names; what is printed and what is appended
    to the results file. *)
Record results := mkResults {
  passed_tests : nat;
  skipped_tests : nat;
  skipped_testnames : list string;
  failed_tests : nat;
  failed_testnames : list string;
  crashed_tests : nat;
  crashed_testnames : list string;
  valgrind_errors : nat;
  valgrind_testnames : list string;
  printed : list string;
  xml : list string }.
Definition no_results : results := mkResults 0 0 [] 0 [] 0 [] 0 [] [] [].

Definition count_result (j : Job) (r : results) : results :=
  let 'mkResults p s sn f fn c cn v vn out x := r in
  match job_status j with
  | SKIP =>
      mkResults p (s + 1) (sn ++ [display_name j +:+ " (" +:+ skip_reason j +:+ ")"])
        f fn c cn v vn out x
  | PASS => mkResults (p + 1) s sn f fn c cn v vn out x
  | FAIL => mkResults p s sn (f + 1) (fn ++ [display_name j]) c cn v vn out x
  | VALGR => mkResults p s sn f fn c cn (v + 1) (vn ++ [display_name j]) out x
  | CRASH => mkResults p s sn f fn (c + 1) (cn ++ [display_name j]) v vn out x
  end.

Definition eol : string := String newline "".
Definition dquote : string := String quote "".

Section Report.
Context (show_time : T -> string) (with_time : bool) (read_file : string -> string).

Definition result_line (j : Job) : string :=
  let kind := if (is_example j || is_pyexample j)%bool then "Example" else "TestSuite" in
  if with_time then
    show_status (job_status j) +:+ " (" +:+ show_time (elapsed_time j) +:+ "): " +:+ kind
    +:+ " " +:+ display_name j
  else show_status (job_status j) +:+ ": " +:+ kind +:+ " " +:+ display_name j.

(** What is appended to the results file for a job. *)
Definition result_xml (j : Job) : list string :=
  if (is_example j || is_pyexample j)%bool then
    ["<Example>" +:+ eol;
     "  <Name>" +:+ display_name j +:+ "</Name>" +:+ eol;
     "  <Result>" +:+ show_status (job_status j) +:+ "</Result>" +:+ eol;
     "  <Time real=" +:+ dquote +:+ show_time (elapsed_time j) +:+ dquote +:+ "/>" +:+ eol;
     "</Example>" +:+ eol]
  else if is_skip j then
    ["<Test>" +:+ eol;
     "  <Name>" +:+ display_name j +:+ "</Name>" +:+ eol;
     "  <Result>SKIP</Result>" +:+ eol;
     "  <Reason>" +:+ skip_reason j +:+ "</Reason>" +:+ eol;
     "</Test>" +:+ eol]
  else if decide (returncode j = 0 \/ returncode j = 1 \/ returncode j = 2)%Z then
    [read_file (tmp_file_name j)]
  else
    ["<Test>" +:+ eol;
     "  <Name>" +:+ display_name j +:+ "</Name>" +:+ eol;
     "  <Result>CRASH</Result>" +:+ eol;
     "</Test>" +:+ eol].

(** One pass of [for i in range(jobs)]. *)
Definition collect (r : results) (j : Job) : results :=
  if is_break j then r
  else
    let 'mkResults p s sn f fn c cn v vn out x := count_result j r in
    mkResults p s sn f fn c cn v vn (out ++ [result_line j]) (x ++ result_xml j).
Definition collect_all (js : list Job) : results := foldl collect no_results js.

(** The results file: its head, the jobs, its end. *)
Definition results_file (js : list Job) : list string :=
  ["<?xml version=" +:+ dquote +:+ "1.0" +:+ dquote +:+ "?>" +:+ eol; "<Results>" +:+ eol]
  ++ xml (collect_all js) ++ ["</Results>" +:+ eol].

(** The summary and the value that [run_tests] returns. *)
Definition listing (title : string) (names : list string) : list string :=
  let sep := eol +:+ "    " in
  if decide (names = []) then []
  else [title +:+ sep +:+ str_join sep (merge_sort String.le names)].
Definition summary (total_tests : nat) (r : results) : list string :=
  let n := fun k : nat => pretty k in
  [n (passed_tests r) +:+ " of " +:+ n total_tests +:+ " tests passed (" +:+
   n (passed_tests r) +:+ " passed, " +:+ n (skipped_tests r) +:+ " skipped, " +:+
   n (failed_tests r) +:+ " failed, " +:+ n (crashed_tests r) +:+ " crashed, " +:+
   n (valgrind_errors r) +:+ " valgrind errors)"]
  ++ listing "List of SKIPped tests:" (skipped_testnames r)
  ++ listing "List of FAILed tests:" (failed_testnames r)
  ++ listing "List of CRASHed tests:" (crashed_testnames r)
  ++ listing "List of VALGR failures:" (valgrind_testnames r).
Definition exit_code (total_tests : nat) (r : results) : Z :=
  if decide (passed_tests r + skipped_tests r = total_tests) then 0%Z else 1%Z.
End Report.
End Jobs.
Arguments Job : clear implicits.
Arguments pool : clear implicits.
Arguments worker : clear implicits.
Arguments item : clear implicits.

(** ** The workers lose nothing and get stuck nowhere *)

Section Pool.
Context {T : Type}.
Implicit Types (jobs : list (Job T)) (s : pool T) (w : worker T).

(** What a worker makes of a job: it hands it back marked as a break after an
    interrupt, unchanged when it is to be skipped, or with a return code and a
    time. *)
Definition answers (te : bool) (j j' : Job T) : Prop :=
  te = true /\ j' = set_is_break true j \/
  is_skip j = true /\ j' = j \/
  is_skip j = false /\ exists rc et, j' = set_elapsed_time et (set_returncode rc j).

Definition held w : list (item T) :=
  match w with Holding it | Launched it => [it] | _ => [] end.
Definition not_exited w : bool := match w with Exited => false | _ => true end.

(** The items no worker has answered yet, and those answered. *)
Definition unanswered s : list (item T) :=
  omap id (to_put s) ++ omap id (input_queue s) ++ concat (map held (workers s)).
Definition answered s : list (item T) := output_queue s ++ collected s.

Record pool_inv jobs (processors : nat) s : Prop := {
  inv_ids : (unanswered s ++ answered s).*1 ≡ₚ seq 0 (length jobs);
  inv_unanswered : forall n j, (n, j) ∈ unanswered s -> jobs !! n = Some j;
  inv_answered : forall n j', (n, j') ∈ answered s ->
    exists j, jobs !! n = Some j /\ answers (thread_exit s) j j';
  inv_breaks : exists its : list (item T), input_queue s ++ to_put s
    = map Some its ++ replicate (length (filter not_exited (workers s))) None /\
    (Exists (fun w => w = Exited) (workers s) -> its = []);
  inv_workers : length (workers s) = processors;
  inv_launched : forall it, Launched it ∈ workers s -> is_skip it.2 = false }.

Lemma answers_exit te j j' : answers te j j' -> answers true j j'.
Proof. unfold answers. naive_solver. Qed.

Lemma omap_id_Some {A} (l : list A) : omap id (map Some l) = l.
Proof. induction l as [|x l IH]; [done|]. cbn. by f_equal. Qed.

Lemma omap_id_None {A} n : omap id (replicate n (@None A)) = [].
Proof. by induction n. Qed.

Lemma numbered_fst jobs : (numbered jobs).*1 = seq 0 (length jobs).
Proof. unfold numbered. rewrite fst_zip; [done|]. by rewrite length_seq. Qed.

Lemma numbered_lookup jobs n j : (n, j) ∈ numbered jobs -> jobs !! n = Some j.
Proof.
  unfold numbered. intros [k Hk]%list_elem_of_lookup.
  apply lookup_zip_Some in Hk as [Hn Hj]. apply lookup_seq in Hn as [-> _]. done.
Qed.

Lemma inv_initial jobs processors : pool_inv jobs processors (initial jobs processors).
Proof.
  assert (Hh : concat (map held (replicate processors (@Waiting T))) = [])
    by (induction processors; done).
  assert (Hf : filter not_exited (replicate processors (@Waiting T)) = replicate processors Waiting).
  { induction processors as [|p IH]; [done|]. cbn [replicate]. rewrite filter_cons_True by done.
    cbn in Hh. by rewrite IH. }
  assert (Hu : unanswered (initial jobs processors) = numbered jobs).
  { unfold unanswered. cbn. rewrite Hh, omap_app. rewrite omap_id_Some, omap_id_None.
    by rewrite !app_nil_r. }
  split.
  - rewrite Hu. cbn. by rewrite app_nil_r, numbered_fst.
  - rewrite Hu. intros n j. apply numbered_lookup.
  - by intros n j' []%elem_of_nil.
  - exists (numbered jobs). cbn [input_queue to_put initial workers app]. split.
    + by rewrite Hf, length_replicate.
    + intros He. exfalso. clear -He. induction processors as [|p IH]; [by apply Exists_nil in He|].
      apply Exists_cons in He as [?|?]; [done|by apply IH].
  - cbn. apply length_replicate.
  - intros it Hit. cbn in Hit. by apply elem_of_replicate in Hit as [? _].
Qed.

Lemma held_middle ws1 ws2 w :
  concat (map held (ws1 ++ w :: ws2)) ≡ₚ held w ++ concat (map held (ws1 ++ ws2)).
Proof. rewrite !map_app, !concat_app. cbn. by rewrite Permutation_app_swap_app. Qed.

Lemma live_middle ws1 ws2 w :
  length (filter not_exited (ws1 ++ w :: ws2))
  = (if not_exited w then 1 else 0) + length (filter not_exited (ws1 ++ ws2)).
Proof.
  rewrite !filter_app, filter_cons, !length_app.
  case_decide as Hw; destruct w; cbn in *; try done; lia.
Qed.

(** The invariant depends on the unanswered items up to their order. *)
Lemma inv_answer jobs processors s s' it (j' : Job T) :
  pool_inv jobs processors s ->
  unanswered s ≡ₚ it :: unanswered s' -> answered s' ≡ₚ (it.1, j') :: answered s ->
  answers (thread_exit s) it.2 j' -> thread_exit s' = thread_exit s ->
  input_queue s' = input_queue s -> to_put s' = to_put s ->
  length (filter not_exited (workers s')) = length (filter not_exited (workers s)) ->
  (Exists (fun w => w = Exited) (workers s') -> Exists (fun w => w = Exited) (workers s)) ->
  length (workers s') = length (workers s) ->
  (forall it, Launched it ∈ workers s' -> Launched it ∈ workers s \/ is_skip it.2 = false) ->
  pool_inv jobs processors s'.
Proof.
  intros [Hids Hun Han (its & Hits & Hex) Hws Hl] Hu Ha Hj Hte Hi Ht Hlive Hexit Hlen Hla. split.
  - rewrite <- Hids, Hu, Ha, !fmap_app. cbn. by rewrite Permutation_middle.
  - intros n j Hn. apply Hun. rewrite Hu. by right.
  - intros n j. rewrite Ha, Hte. intros [[= -> ->]|Hn]%elem_of_cons; [|by apply Han].
    exists it.2. split; [|done]. apply Hun. rewrite Hu, <- surjective_pairing. left.
  - exists its. rewrite Hi, Ht, Hlive. split; [done|]. intros He. by apply Hex, Hexit.
  - by rewrite Hlen.
  - intros it' Hit. destruct (Hla it' Hit) as [?|?]; [by apply Hl|done].
Qed.

(** A move of an item, or of a break job, that answers nothing. *)
Lemma inv_move jobs processors s s' :
  pool_inv jobs processors s ->
  unanswered s ≡ₚ unanswered s' -> answered s' ≡ₚ answered s -> thread_exit s' = thread_exit s ->
  (exists its : list (item T), input_queue s' ++ to_put s'
    = map Some its ++ replicate (length (filter not_exited (workers s'))) None /\
    (Exists (fun w => w = Exited) (workers s') -> its = [])) ->
  length (workers s') = length (workers s) ->
  (forall it, Launched it ∈ workers s' -> Launched it ∈ workers s \/ is_skip it.2 = false) ->
  pool_inv jobs processors s'.
Proof.
  intros [Hids Hun Han _ Hws Hl] Hu Ha Hte Hb Hlen Hla. split.
  - by rewrite <- Hids, Hu, Ha.
  - intros n j Hn. apply Hun. by rewrite Hu.
  - intros n j. rewrite Ha, Hte. apply Han.
  - done.
  - by rewrite Hlen.
  - intros it' Hit. destruct (Hla it' Hit) as [?|?]; [by apply Hl|done].
Qed.

Lemma exited_middle ws1 ws2 w w' :
  w' <> Exited ->
  Exists (fun x => x = Exited) (ws1 ++ w' :: ws2) -> Exists (fun x => x = @Exited T) (ws1 ++ w :: ws2).
Proof. rewrite !Exists_app, !Exists_cons. naive_solver. Qed.

Lemma launched_middle ws1 ws2 w w' it :
  (forall it, w' <> Launched it) ->
  Launched it ∈ ws1 ++ w' :: ws2 -> Launched it ∈ ws1 ++ w :: ws2 \/ is_skip it.2 = false.
Proof.
  intros Hw. rewrite !elem_of_app, !elem_of_cons. intros [?|[?|?]]; [by left; left| |by left; right; right].
  by destruct (Hw it).
Qed.

(** One of the steps by which a worker answers the item it has. *)
Lemma inv_worker_answer jobs processors tp iq ws1 ws2 oq co te w n j j' :
  pool_inv jobs processors (mkPool tp iq (ws1 ++ w :: ws2) oq co te) ->
  held w = [(n, j)] -> answers te j j' ->
  pool_inv jobs processors (mkPool tp iq (ws1 ++ Waiting :: ws2) (oq ++ [(n, j')]) co te).
Proof.
  intros Hinv Hw Ha.
  assert (Hlive : not_exited w = true) by (by destruct w).
  apply (inv_answer _ _ _ _ (n, j) j' Hinv);
    cbn [to_put input_queue workers thread_exit]; try done.
  - unfold unanswered. cbn [to_put input_queue workers]. rewrite !held_middle, Hw. cbn [held app].
    by rewrite !Permutation_middle.
  - unfold answered. cbn. rewrite <- app_assoc. cbn [app]. by rewrite <- Permutation_middle.
  - rewrite !live_middle. by rewrite Hlive.
  - by apply exited_middle.
  - by rewrite !length_app.
  - intros it. by apply launched_middle.
Qed.

Lemma inv_step jobs processors s s' :
  pool_inv jobs processors s -> run_step s s' -> pool_inv jobs processors s'.
Proof.
  intros Hinv [Hs|Hs].
  - destruct Hs as [x tp iq ws oq co te|it tp iq ws1 ws2 oq co te|tp iq ws1 ws2 oq co te
      |n j tp iq ws1 ws2 oq co|n j tp iq ws1 ws2 oq co Hk|n j tp iq ws1 ws2 oq co Hk
      |n j rc et tp iq ws1 ws2 oq co te|it iq ws oq co te].
    + apply (inv_move _ _ _ _ Hinv); try done.
      * unfold unanswered. cbn [to_put input_queue workers]. rewrite omap_app.
        change (x :: tp) with ([x] ++ tp). rewrite omap_app, <- !app_assoc.
        rewrite (Permutation_app_swap_app (omap id [x]) (omap id tp)). f_equiv.
        by rewrite Permutation_app_swap_app.
      * destruct (inv_breaks _ _ _ Hinv) as (its & Hi & He). exists its.
        cbn [to_put input_queue workers] in *. by rewrite <- app_assoc.
      * intros it. by left.
    + apply (inv_move _ _ _ _ Hinv); try done.
      * unfold unanswered. cbn [to_put input_queue workers omap list_omap id].
        f_equiv. rewrite !held_middle. cbn [held app].
        by rewrite Permutation_middle.
      * destruct (inv_breaks _ _ _ Hinv) as (its & Hi & He).
        cbn [to_put input_queue workers] in *. rewrite live_middle in *. cbn [not_exited] in *.
        destruct its as [|it' its]; [done|]. cbn in Hi. simplify_eq. exists its. split; [done|].
        intros Hex. apply (exited_middle _ _ Waiting) in Hex; [|done]. by specialize (He Hex).
      * cbn. by rewrite !length_app.
      * intros it'. by apply launched_middle.
    + apply (inv_move _ _ _ _ Hinv); try done.
      * unfold unanswered. cbn [to_put input_queue workers omap list_omap id].
        by rewrite !held_middle.
      * destruct (inv_breaks _ _ _ Hinv) as (its & Hi & He).
        cbn [to_put input_queue workers] in *. rewrite live_middle in *. cbn [not_exited] in *.
        destruct its as [|it' its]; [|done]. cbn in Hi. simplify_eq. by exists [].
      * cbn. by rewrite !length_app.
      * intros it'. by apply launched_middle.
    + apply (inv_worker_answer _ _ _ _ _ _ _ _ _ _ _ j _ Hinv); [done|by left].
    + apply (inv_worker_answer _ _ _ _ _ _ _ _ _ _ _ j _ Hinv); [done|right; by left].
    + apply (inv_move _ _ _ _ Hinv); try done.
      * unfold unanswered. cbn [to_put input_queue workers]. by rewrite !held_middle.
      * destruct (inv_breaks _ _ _ Hinv) as (its & Hi & He). exists its.
        cbn [to_put input_queue workers] in *. rewrite live_middle in *. split; [done|].
        intros Hex. by apply (exited_middle _ _ (Holding (n, j))) in Hex; [apply He|].
      * cbn. by rewrite !length_app.
      * intros it. cbn [workers]. rewrite !elem_of_app, !elem_of_cons.
        intros [?|[[= ->]|?]]; [by left; left|by right|by left; right; right].
    + apply (inv_worker_answer _ _ _ _ _ _ _ _ _ _ _ j _ Hinv); [done|]. right. right.
      split; [|by eexists _, _]. apply (inv_launched _ _ _ Hinv (n, j)). cbn. set_solver.
    + apply (inv_move _ _ _ _ Hinv); try done.
      * unfold answered. cbn. rewrite app_assoc. symmetry. apply Permutation_cons_append.
      * apply (inv_breaks _ _ _ Hinv).
      * intros it'. by left.
  - destruct Hs as [tp iq ws oq co te]. destruct Hinv as [Hids Hun Han Hb Hws Hl].
    split; try done. intros n j' Hn. destruct (Han n j' Hn) as (j & Hj & Ha).
    exists j. split; [done|]. by eapply answers_exit.
Qed.

Lemma inv_reachable jobs processors s :
  rtc run_step (initial jobs processors) s -> pool_inv jobs processors s.
Proof.
  intros Hr. remember (initial jobs processors) as s0 eqn:E.
  assert (H0 : pool_inv jobs processors s0) by (subst; apply inv_initial). clear E.
  induction Hr as [s|s s1 s2 Hs _ IH]; [done|]. apply IH. by eapply inv_step.
Qed.

Lemma workers_cases (ws : list (worker T)) :
  (exists w ws1 ws2, ws = ws1 ++ w :: ws2 /\ w <> Exited) \/ Forall (fun w => w = Exited) ws.
Proof.
  induction ws as [|w ws [(w' & ws1 & ws2 & -> & Hw)|Hall]]; [by right| |].
  - left. by exists w', (w :: ws1), ws2.
  - destruct w; [left; eexists _, [], ws; by split..|]. right. by constructor.
Qed.

(** A state that is not final can move without an interrupt. *)
Lemma progress jobs processors s :
  0 < processors -> pool_inv jobs processors s -> final s \/ exists s', step s s'.
Proof.
  intros Hp [_ _ _ (its & Hi & He) Hws _]. destruct s as [tp iq ws oq co te].
  cbn [to_put input_queue workers] in *.
  destruct tp as [|x tp]; [|right; eexists; apply Put].
  destruct oq as [|it oq]; [|right; eexists; apply Collect].
  rewrite app_nil_r in Hi.
  destruct (workers_cases ws) as [(w & ws1 & ws2 & -> & Hw)|Hex].
  - right. destruct w as [|[n j]|[n j]|]; [| | |done].
    + destruct iq as [|[it|] iq]; [|eexists; apply WorkerGet|eexists; apply WorkerBreak].
      rewrite live_middle in Hi. by destruct its.
    + destruct te; [eexists; apply WorkerInterrupted|].
      destruct (is_skip j) eqn:Hk; eexists; [by apply WorkerSkip|by apply WorkerLaunch].
    + eexists. apply (WorkerRan n j 0 (elapsed_time j)).
  - left. assert (Hlive : filter not_exited ws = []).
    { clear -Hex. induction Hex as [|w ws -> _ IH]; [done|]. by rewrite filter_cons_False by (intros []). }
    rewrite Hlive in Hi. destruct ws as [|w ws]; [cbn in Hws; lia|].
    rewrite He in Hi by (left; by apply Forall_cons in Hex as [? _]). by subst iq.
Qed.

(** Every step but an interrupt makes this smaller. *)
Definition worker_work w : nat :=
  match w with Holding _ => 4 | Launched _ => 3 | Waiting | Exited => 0 end.
Definition work s : nat :=
  6 * length (to_put s) + 5 * length (input_queue s) + sum_list (worker_work <$> workers s)
  + length (output_queue s).

Lemma work_middle ws1 ws2 w :
  sum_list (worker_work <$> ws1 ++ w :: ws2)
  = worker_work w + sum_list (worker_work <$> ws1 ++ ws2).
Proof.
  induction ws1 as [|w' ws1 IH]; [done|]. cbn [app]. rewrite !fmap_cons.
  change (worker_work w' + sum_list (worker_work <$> ws1 ++ w :: ws2)
    = worker_work w + (worker_work w' + sum_list (worker_work <$> ws1 ++ ws2))). lia.
Qed.

Lemma step_work s s' : step s s' -> work s' < work s.
Proof.
  intros Hs. destruct Hs; unfold work; cbn [to_put input_queue workers output_queue];
    rewrite ?work_middle, ?length_app; cbn [worker_work length]; lia.
Qed.

(** [k] steps, with any number of interrupts between them. *)
Inductive run_steps : nat -> pool T -> pool T -> Prop :=
  | RunNil s : run_steps 0 s s
  | RunSigint k s s1 s2 : sigint s s1 -> run_steps k s1 s2 -> run_steps k s s2
  | RunStep k s s1 s2 : step s s1 -> run_steps k s1 s2 -> run_steps (S k) s s2.

Lemma run_steps_work k s s' : run_steps k s s' -> k + work s' <= work s.
Proof.
  induction 1 as [s|k s s1 s2 Hs _ IH|k s s1 s2 Hs _ IH]; [lia| |].
  - destruct Hs. exact IH.
  - apply step_work in Hs. lia.
Qed.

Lemma run_steps_rtc k s s' : run_steps k s s' -> rtc run_step s s'.
Proof.
  induction 1 as [s|k s s1 s2 Hs _ IH|k s s1 s2 Hs _ IH]; [done|..];
    (eapply rtc_l; [|exact IH]); [by right|by left].
Qed.

Lemma work_initial jobs processors :
  work (initial jobs processors) = 6 * (length jobs + processors).
Proof.
  unfold work. cbn [to_put input_queue workers output_queue initial length].
  rewrite length_app, length_map, length_replicate. unfold numbered.
  rewrite length_zip_with, length_seq, Nat.min_id.
  assert (Hw : sum_list (worker_work <$> replicate processors (@Waiting T)) = 0)
    by (induction processors as [|p IH]; [done|exact IH]).
  rewrite Hw. lia.
Qed.

(** C1: with at least one worker, whatever the schedule and the interrupts, the
    program never deadlocks and never runs on: after at most six steps for each
    job and worker it has stopped, and it stops only when every thread has
    exited and the queues are empty. *)
Theorem pool_terminates jobs processors k s
    (Hp : 0 < processors) (Hr : run_steps k (initial jobs processors) s) :
  k <= 6 * (length jobs + processors) /\ (final s \/ exists s', step s s').
Proof.
  split.
  - apply run_steps_work in Hr. rewrite work_initial in Hr. lia.
  - apply (progress jobs processors); [done|]. apply inv_reachable. by eapply run_steps_rtc.
Qed.

Lemma collected_answers jobs processors s
    (Hr : rtc run_step (initial jobs processors) s) (Hf : final s) :
  (collected s).*1 ≡ₚ seq 0 (length jobs) /\
  forall n j', (n, j') ∈ collected s ->
    exists j, jobs !! n = Some j /\ answers (thread_exit s) j j'.
Proof.
  destruct (inv_reachable _ _ _ Hr) as [Hids _ Han _ _ _].
  destruct s as [tp iq ws oq co te], Hf as (Ht & Hi & Ho & Hws).
  cbn [to_put input_queue output_queue workers collected thread_exit] in *. subst.
  assert (Hu : unanswered (mkPool [] [] ws [] co te) = []).
  { unfold unanswered. cbn. clear -Hws. by induction Hws as [|w ws -> _ IH]. }
  rewrite Hu in Hids. by split.
Qed.

(** C2: when the program has stopped, the main thread has collected exactly one
    answer for each job it dispatched, whatever the schedule: the job with the
    return code of its run, or the job unchanged when it was to be skipped, or,
    only after an interrupt, the job marked as a break. *)
Theorem pool_collects jobs processors s
    (Hr : rtc run_step (initial jobs processors) s) (Hf : final s) :
  (collected s).*1 ≡ₚ seq 0 (length jobs) /\
  forall n j', (n, j') ∈ collected s ->
    exists j, jobs !! n = Some j /\ answers (thread_exit s) j j'.
Proof. by apply (collected_answers jobs processors). Qed.
(** *** Liveness *)

(** [P] holds sooner or later, whatever the threads do and whether the user
    interrupts: now, or after every next step, of which there is one. *)
Inductive inevitably (P : pool T -> Prop) : pool T -> Prop :=
  | Now s : P s -> inevitably P s
  | Later s : (exists s', step s s') -> (forall s', step s s' -> inevitably P s') ->
      (forall s', sigint s s' -> s' <> s -> inevitably P s') -> inevitably P s.

(** The steps that are left, with the one interrupt that changes something. *)
Definition work_left s : nat := 2 * work s + if thread_exit s then 0 else 1.

(** Every job that is dispatched is sooner or later collected, with any
    number of workers but none, from any state that the program can get into. *)
Theorem job_collected jobs processors s n
    (Hp : 0 < processors) (Hr : rtc run_step (initial jobs processors) s) (Hn : n < length jobs) :
  inevitably (fun s => n ∈ (collected s).*1) s.
Proof.
  remember (work_left s) as k eqn:Ek. revert s Hr Ek.
  induction (lt_wf k) as [k _ IH]. intros s Hr ->.
  destruct (progress jobs processors s Hp (inv_reachable _ _ _ Hr)) as [Hf|Hs].
  - apply Now. destruct (collected_answers jobs processors s Hr Hf) as [Hperm _].
    rewrite Hperm. apply elem_of_seq. lia.
  - apply Later; [exact Hs| |]; intros s' Hs'.
    + eapply IH; [|by eapply rtc_r; [|left]|done]. apply step_work in Hs'. unfold work_left.
      destruct (thread_exit s), (thread_exit s'); lia.
    + intros Hne. eapply IH; [|by eapply rtc_r; [|right]|done].
      destruct Hs' as [tp iq ws oq co te]. unfold work_left. destruct te; [done|].
      unfold work. cbn. lia.
Qed.

(** *** The pool as one worker at a time *)

(** What the pool promises: the jobs that are pending are answered one at a time, in
    any order, and the answers are delivered in the order in which they are made. *)
Record service := mkService { pending : list (item T); delivered : list (item T); interrupted : bool }.
Inductive serve : service -> service -> Prop :=
  | Answer n j j' rest rest' out te :
      rest ≡ₚ (n, j) :: rest' -> answers te j j' ->
      serve (mkService rest out te) (mkService rest' (out ++ [(n, j')]) te)
  | Interrupt rest out te : serve (mkService rest out te) (mkService rest out true).
Definition start jobs : service := mkService (numbered jobs) [] false.

(** The states of the service that a state of the pool implements. *)
Definition implements s (a : service) : Prop :=
  pending a ≡ₚ unanswered s /\ delivered a = collected s ++ output_queue s /\
  interrupted a = thread_exit s.

Lemma serve_answer s s' a n j j' : implements s a ->
  unanswered s ≡ₚ (n, j) :: unanswered s' -> answers (thread_exit s) j j' ->
  collected s' ++ output_queue s' = (collected s ++ output_queue s) ++ [(n, j')] ->
  thread_exit s' = thread_exit s -> exists a', rtc serve a a' /\ implements s' a'.
Proof.
  intros (Hp & Hd & Hi) Hu Ha Ho Ht. destruct a as [p d i]. cbn in *. subst.
  eexists. split; [apply rtc_once, (Answer n j j' p (unanswered s')); [by rewrite Hp|done]|].
  by split_and!.
Qed.
Lemma serve_nothing s s' a : implements s a -> unanswered s ≡ₚ unanswered s' ->
  collected s' ++ output_queue s' = collected s ++ output_queue s -> thread_exit s' = thread_exit s ->
  exists a', rtc serve a a' /\ implements s' a'.
Proof.
  intros (Hp & Hd & Hi) Hu Ho Ht. exists a. split; [done|]. split_and!; [by rewrite Hp|congruence..].
Qed.

(** A step of the pool is a step of the service or none. *)
Lemma implements_step jobs processors s s' a : pool_inv jobs processors s -> run_step s s' ->
  implements s a -> exists a', rtc serve a a' /\ implements s' a'.
Proof.
  intros Hinv [Hs|Hs] Ha; [|destruct Hs as [tp iq ws oq co te], a as [p d i], Ha as (Hp & Hd & Hi);
    eexists; split; [apply rtc_once, Interrupt|by split_and!]].
  assert (Hun : forall tp iq ws1 ws2 w oq co te oq' n j, held w = [(n, j)] ->
    unanswered (mkPool tp iq (ws1 ++ w :: ws2) oq co te)
    ≡ₚ (n, j) :: unanswered (mkPool tp iq (ws1 ++ Waiting :: ws2) oq' co te)).
  { intros * Hw. unfold unanswered. cbn [to_put input_queue workers]. rewrite !held_middle, Hw.
    cbn [held app]. by rewrite !Permutation_middle. }
  destruct Hs as [x tp iq ws oq co te|it tp iq ws1 ws2 oq co te|tp iq ws1 ws2 oq co te
    |n j tp iq ws1 ws2 oq co|n j tp iq ws1 ws2 oq co Hk|n j tp iq ws1 ws2 oq co Hk
    |n j rc et tp iq ws1 ws2 oq co te|it iq ws oq co te].
  - apply (serve_nothing _ _ _ Ha); try done. unfold unanswered. cbn [to_put input_queue workers].
    change (x :: tp) with ([x] ++ tp). rewrite !omap_app, <- !app_assoc.
    rewrite (Permutation_app_swap_app (omap id [x]) (omap id tp)). f_equiv.
    by rewrite Permutation_app_swap_app.
  - apply (serve_nothing _ _ _ Ha); try done. unfold unanswered.
    cbn [to_put input_queue workers omap list_omap id]. f_equiv. rewrite !held_middle.
    cbn [held app]. by rewrite Permutation_middle.
  - apply (serve_nothing _ _ _ Ha); try done. unfold unanswered.
    cbn [to_put input_queue workers omap list_omap id]. by rewrite !held_middle.
  - eapply (serve_answer _ _ _ n j (set_is_break true j) Ha (Hun _ _ _ _ (Holding (n, j)) _ _ _ _ n j eq_refl)); [by left| |done].
    cbn. by rewrite app_assoc.
  - eapply (serve_answer _ _ _ n j j Ha (Hun _ _ _ _ (Holding (n, j)) _ _ _ _ n j eq_refl)); [right; by left| |done].
    cbn. by rewrite app_assoc.
  - apply (serve_nothing _ _ _ Ha); try done. unfold unanswered. cbn [to_put input_queue workers].
    by rewrite !held_middle.
  - eapply (serve_answer _ _ _ n j (set_elapsed_time et (set_returncode rc j)) Ha (Hun _ _ _ _ (Launched (n, j)) _ _ _ _ n j eq_refl)); [| |done].
    + right. right. split; [|by eexists _, _]. apply (inv_launched _ _ _ Hinv (n, j)). cbn. set_solver.
    + cbn. by rewrite app_assoc.
  - apply (serve_nothing _ _ _ Ha); try done. cbn. by rewrite <- app_assoc.
Qed.

(** C20: the pool of threads and queues refines the service: every run of it, with
    any schedule and interrupts, is a run of the service, and when it has stopped the
    main thread has collected the answers in the order in which the service made them. *)
Theorem pool_refines jobs processors s (Hr : rtc run_step (initial jobs processors) s) :
  exists a, rtc serve (start jobs) a /\ implements s a /\
    (final s -> pending a = [] /\ collected s = delivered a).
Proof.
  assert (Hsim : exists a, rtc serve (start jobs) a /\ implements s a).
  { remember (initial jobs processors) as s0 eqn:E.
    assert (Hinv : pool_inv jobs processors s0) by (subst; apply inv_initial).
    assert (H0 : exists a, rtc serve (start jobs) a /\ implements s0 a).
    { exists (start jobs). split; [done|]. subst s0. split_and!; [|done..]. unfold unanswered. cbn.
      assert (Hh : concat (map held (replicate processors (@Waiting T))) = [])
        by (clear; induction processors; done).
      by rewrite Hh, omap_app, omap_id_Some, omap_id_None, !app_nil_r. }
    clear E. induction Hr as [s|s s1 s2 Hs _ IH]; [done|]. apply IH; [by eapply inv_step|].
    destruct H0 as (a & Ha & Hi). destruct (implements_step _ _ _ _ _ Hinv Hs Hi) as (a' & Hs' & Hi').
    exists a'. split; [by etransitivity|done]. }
  destruct Hsim as (a & Ha & Hi). exists a. split; [done|]. split; [done|]. intros (H1 & H2 & H3 & H4).
  destruct Hi as (Hp & Hd & _). rewrite Hd, H3, app_nil_r. split; [|done].
  apply Permutation_nil_r. rewrite Hp. unfold unanswered. rewrite H1, H2. cbn.
  clear -H4. by induction H4 as [|w ws -> _ IH].
Qed.
End Pool.

(** A run of one job on one worker. *)
Definition demo_job : Job nat := set_display_name "demo" (new_job 0).
Definition demo_done : Job nat := set_elapsed_time 5 (set_returncode 1 demo_job).
Definition demo_end : pool nat := mkPool [] [] [Exited] [] [(0, demo_done)] false.

Lemma demo_run : run_steps 7 (initial [demo_job] 1) demo_end.
Proof.
  eapply RunStep; [apply Put|].
  eapply RunStep; [apply (WorkerGet (0, demo_job) [None] [] [] [])|].
  eapply RunStep; [by apply (WorkerLaunch 0 demo_job [None] [] [] [])|].
  eapply RunStep; [apply Put|].
  eapply RunStep; [apply (WorkerRan 0 demo_job 1 5 [] [None] [] [])|].
  eapply RunStep; [apply (WorkerBreak [] [] [] [])|].
  eapply RunStep; [apply Collect|]. apply RunNil.
Qed.

Lemma pool_terminates_witness :
  run_steps 7 (initial [demo_job] 1) demo_end /\ 7 <= 6 * (1 + 1).
Proof.
  split; [exact demo_run|].
  exact (proj1 (pool_terminates [demo_job] 1 7 demo_end ltac:(lia) demo_run)).
Defined.

Lemma pool_collects_witness :
  rtc run_step (initial [demo_job] 1) demo_end /\ final demo_end /\ [0] ≡ₚ seq 0 1.
Proof.
  assert (Hr : rtc run_step (initial [demo_job] 1) demo_end)
    by exact (run_steps_rtc _ _ _ demo_run).
  assert (Hf : final demo_end) by (split_and!; [done|done|done|by repeat constructor]).
  split; [exact Hr|]. split; [exact Hf|].
  exact (proj1 (pool_collects [demo_job] 1 demo_end Hr Hf)).
Defined.

Lemma job_collected_witness :
  (0 < 1 /\ rtc run_step (initial [demo_job] 1) (initial [demo_job] 1) /\ 0 < length [demo_job]) /\
  inevitably (fun s => 0 ∈ (collected s).*1) (initial [demo_job] 1).
Proof.
  split; [split; [lia|split; [apply rtc_refl|cbn; lia]]|].
  apply (job_collected [demo_job] 1); [lia|apply rtc_refl|cbn; lia].
Defined.

Lemma pool_refines_witness :
  rtc run_step (initial [demo_job] 1) demo_end /\
  exists a, rtc serve (start [demo_job]) a /\ implements demo_end a /\
    (final demo_end -> pending a = [] /\ collected demo_end = delivered a).
Proof.
  split; [exact (run_steps_rtc _ _ _ demo_run)|].
  exact (pool_refines [demo_job] 1 demo_end (run_steps_rtc _ _ _ demo_run)).
Defined.

(** ** The summary *)

Section Summary.
Context {T : Type} (show_time : T -> string) (with_time : bool) (read_file : string -> string).
Implicit Types (js : list (Job T)).

Local Abbreviation tally := (collect_all show_time with_time read_file).

Definition live js : list (Job T) := filter (fun j => is_break j = false) js.
Definition with_status (s : status) js : list (Job T) := filter (fun j => job_status j = s) (live js).
Definition skip_label (j : Job T) : string :=
  display_name j +:+ " (" +:+ skip_reason j +:+ ")".

(** The counters count, the lists list, and the results file has the fragment of
    each job that was not interrupted, in the order of arrival. *)
Lemma collect_all_spec js :
  tally js = mkResults
    (length (with_status PASS js)) (length (with_status SKIP js)) (map skip_label (with_status SKIP js))
    (length (with_status FAIL js)) (map display_name (with_status FAIL js))
    (length (with_status CRASH js)) (map display_name (with_status CRASH js))
    (length (with_status VALGR js)) (map display_name (with_status VALGR js))
    (map (result_line show_time with_time) (live js))
    (concat (map (result_xml show_time read_file) (live js))).
Proof.
  induction js as [|j js IH] using rev_ind; [done|].
  unfold collect_all in *. rewrite foldl_app. cbn [foldl]. rewrite IH. unfold collect.
  assert (Hl : live (js ++ [j]) = live js ++ (if is_break j then [] else [j])).
  { unfold live. rewrite filter_app, filter_cons, filter_nil. by destruct (is_break j). }
  unfold with_status. rewrite !Hl. destruct (is_break j); [by rewrite app_nil_r|].
  rewrite !filter_app, !map_app, concat_app. unfold count_result.
  destruct (job_status j) eqn:Hs; rewrite !filter_cons, !filter_nil, !Hs;
    repeat (rewrite decide_True by done || rewrite decide_False by done);
    rewrite ?length_app, ?map_app; cbn [map length concat]; rewrite ?app_nil_r, ?Nat.add_0_r; done.
Qed.

Lemma elem_of_live j js : j ∈ live js <-> j ∈ js /\ is_break j = false.
Proof. unfold live. rewrite list_elem_of_filter. tauto. Qed.

(** Every job that was not interrupted is counted once. *)
Lemma counters_total js :
  passed_tests (tally js) + skipped_tests (tally js) + failed_tests (tally js)
  + crashed_tests (tally js) + valgrind_errors (tally js) = length (live js).
Proof.
  rewrite collect_all_spec. cbn [passed_tests skipped_tests failed_tests crashed_tests valgrind_errors].
  unfold with_status. induction (live js) as [|j l IH]; [done|].
  rewrite !filter_cons. destruct (job_status j) eqn:Hs; rewrite ?Hs;
    repeat case_decide; try congruence; cbn [length]; lia.
Qed.

Lemma exit_code_zero js :
  exit_code (length js) (tally js) = 0%Z <->
  forall j, j ∈ js -> is_break j = false /\ (is_skip j = true \/ returncode j = 0%Z).
Proof.
  assert (Hok : forall j : Job T, is_skip j = true \/ returncode j = 0%Z <->
    job_status j = PASS \/ job_status j = SKIP).
  { intros j. unfold job_status. destruct (is_skip j); [naive_solver|].
    repeat case_decide; naive_solver. }
  setoid_rewrite Hok. unfold exit_code. rewrite collect_all_spec.
  cbn [passed_tests skipped_tests].
  assert (Hle : length (with_status PASS js) + length (with_status SKIP js) <= length (live js) /\
    (length (with_status PASS js) + length (with_status SKIP js) = length (live js) <->
     forall j, j ∈ live js -> job_status j = PASS \/ job_status j = SKIP)).
  { unfold with_status. induction (live js) as [|j l [IH1 IH2]].
    - split; [done|]. split; [|done]. by intros _ j []%elem_of_nil.
    - rewrite !filter_cons. setoid_rewrite elem_of_cons.
      destruct (job_status j) eqn:Hs; rewrite ?Hs;
        repeat case_decide; try congruence; cbn [length].
      2-4: split; [lia|]; split; [lia|]; intros Hall; destruct (Hall j) as [?|?]; [by left|congruence..].
      1,2: split; [lia|]; split; [intros Hlen j' [->|Hj']; [tauto|]; apply IH2; [lia|done]
        |intros Hall; assert (Hall' : forall j', j' ∈ l -> job_status j' = PASS \/ job_status j' = SKIP)
           by (intros; apply Hall; by right); apply IH2 in Hall'; lia]. }
  assert (Hlive : length (live js) <= length js /\
    (length (live js) = length js <-> forall j, j ∈ js -> is_break j = false)).
  { clear Hle. unfold live. induction js as [|j l [IH1 IH2]].
    - split; [done|]. split; [|done]. by intros _ j []%elem_of_nil.
    - rewrite filter_cons. setoid_rewrite elem_of_cons. case_decide as Hb; cbn [length].
      + split; [lia|]. split; [intros Hlen j' [->|Hj']; [done|]; apply IH2; [lia|done]|].
        intros Hall. f_equal. apply IH2. intros j' Hj'. apply Hall. by right.
      + split; [lia|]. split; [lia|]. intros Hall. destruct Hb. apply Hall. by left. }
  destruct Hle as [Hle1 Hle2], Hlive as [Hl1 Hl2]. case_decide as Hd; split; try done.
  - intros _ j Hj. assert (Hb : is_break j = false) by (apply Hl2; [lia|done]).
    split; [done|]. apply Hle2; [lia|]. by apply elem_of_live.
  - intros Hall. destruct Hd.
    assert (length (live js) = length js) by (apply Hl2; intros j Hj; by apply Hall).
    assert (length (with_status PASS js) + length (with_status SKIP js) = length (live js)).
    { apply Hle2. intros j [Hj _]%elem_of_live. by apply Hall. }
    lia.
Qed.

(** C3: the exit code is 0 exactly when no job was interrupted and every job
    that was not skipped returned 0; for the jobs of a complete run of the
    program, every dispatched job is among those that count. *)
Theorem run_exit_code (jobs : list (Job T)) (processors : nat) (s : pool T)
    (Hr : rtc run_step (initial jobs processors) s) (Hf : final s) :
  exit_code (length jobs) (tally (collected s).*2) = 0%Z <->
  forall n, n < length jobs -> exists j', (n, j') ∈ collected s /\
    is_break j' = false /\ (is_skip j' = true \/ returncode j' = 0%Z).
Proof.
  destruct (collected_answers jobs processors s Hr Hf) as [Hids _].
  assert (Hlen : length jobs = length (collected s).*2).
  { rewrite length_fmap, <- (length_fmap fst), Hids. by rewrite length_seq. }
  rewrite Hlen, exit_code_zero, <- Hlen. split.
  - intros Hall n Hn. assert (Hin : n ∈ (collected s).*1) by (rewrite Hids; apply elem_of_seq; lia).
    apply list_elem_of_fmap in Hin as ([n' j'] & -> & Hin). exists j'. split; [done|].
    apply Hall. apply list_elem_of_fmap. by exists (n', j').
  - intros Hall j ([n j'] & -> & Hin)%list_elem_of_fmap. cbn.
    assert (Hn : n ∈ seq 0 (length jobs)).
    { rewrite <- Hids. apply list_elem_of_fmap. by exists (n, j'). }
    apply elem_of_seq in Hn. destruct (Hall n) as (j2 & Hin2 & Hok); [lia|].
    assert (j2 = j'); [|by subst].
    assert (Hnd : NoDup (collected s).*1) by (rewrite Hids; apply NoDup_seq).
    apply list_elem_of_lookup in Hin as [a Ha], Hin2 as [b Hb].
    assert (a = b).
    { apply (NoDup_lookup _ a b n Hnd); rewrite list_lookup_fmap; [by rewrite Ha|by rewrite Hb]. }
    by simplify_eq.
Qed.

(** The order in which the workers finish changes neither the exit code nor
    the printed summary: every list of names in it is sorted. *)
Theorem summary_order (js js' : list (Job T)) (total : nat) (Hp : js ≡ₚ js') :
  exit_code total (tally js) = exit_code total (tally js') /\
  summary total (tally js) = summary total (tally js').
Proof.
  assert (Hst : forall st, with_status st js ≡ₚ with_status st js').
  { intros st. unfold with_status, live. by rewrite Hp. }
  assert (Hl : forall (f : Job T -> string) st title,
    listing title (map f (with_status st js)) = listing title (map f (with_status st js'))).
  { intros f st title.
    assert (Hm : map f (with_status st js) ≡ₚ map f (with_status st js')) by (by rewrite Hst).
    unfold listing.
    assert (Hs : merge_sort String.le (map f (with_status st js))
      = merge_sort String.le (map f (with_status st js'))).
    { apply (StronglySorted_unique String.le).
      - apply StronglySorted_merge_sort; apply _.
      - apply StronglySorted_merge_sort; apply _.
      - by rewrite !merge_sort_Permutation. }
    rewrite Hs. apply decide_ext. by rewrite <- !Permutation_nil_r, Hm. }
  rewrite !collect_all_spec. unfold exit_code, summary.
  cbn [passed_tests skipped_tests skipped_testnames failed_tests failed_testnames crashed_tests
       crashed_testnames valgrind_errors valgrind_testnames].
  assert (Hlen : forall st, length (with_status st js) = length (with_status st js'))
    by (intros st; by rewrite (Hst st)).
  split; [by rewrite !Hlen|]. by rewrite !Hl, !Hlen.
Qed.
End Summary.

Lemma run_exit_code_witness :
  ~ exit_code 1 (collect_all (fun _ => "") false (fun _ => "") [demo_done]) = 0%Z.
Proof.
  assert (Hr : rtc run_step (initial [demo_job] 1) demo_end)
    by exact (run_steps_rtc _ _ _ demo_run).
  assert (Hf : final demo_end) by (split_and!; [done|done|done|by repeat constructor]).
  rewrite (run_exit_code (fun _ => "") false (fun _ => "") [demo_job] 1 demo_end Hr Hf).
  intros Hall. destruct (Hall 0) as (j & Hj & _ & Hok); [cbn; lia|].
  apply list_elem_of_singleton in Hj. injection Hj as ->. by destruct Hok.
Defined.

Lemma summary_order_witness :
  [demo_job; demo_done] ≡ₚ [demo_done; demo_job] /\
  summary 2 (collect_all (fun _ => "") false (fun _ => "") [demo_job; demo_done])
  = summary 2 (collect_all (fun _ => "") false (fun _ => "") [demo_done; demo_job]).
Proof.
  assert (Hp : [demo_job; demo_done] ≡ₚ [demo_done; demo_job]) by apply Permutation_swap.
  split; [exact Hp|]. exact (proj2 (summary_order _ _ _ _ _ 2 Hp)).
Defined.
