(* ===== verification/TestPlan.v ===== *)
(** * What the test driver runs: [src/test.py]

    The options, the examples to run, the waf command, the choice of the test
    suites, the jobs that [run_tests] dispatches, the environment and the shell
    commands.  The file system, the evaluation of the conditions in
    [examples-to-run.py] and the output of the test runner are arguments. *)

From S2P Require Import Prelude PyLib TestJobs.
From Stdlib Require Import Ascii String.
From stdpp Require Import strings gmap sorting pretty.
Open Scope string_scope.
Open Scope nat_scope.
Open Scope list_scope.

Inductive plan_exn :=
  | SystemExit (code : Z)
  | KeyError
  | AttributeError
  | ConditionError.

(** ** Options and configuration *)

Record options := mkOptions {
  buildpath : string; constrain : string; duration : bool; example : string;
  update_data : bool; fullness : string; valgrind : bool; kinds : bool; list_tests : bool;
  multiple : bool; nowaf : bool; pyexample : string; retain : bool; suite : string;
  text : string; verbose : bool; html : string; xml_file : string }.
Definition default_options : options :=
  mkOptions "" "" false "" false "QUICK" false false false false false "" false "" "" false "" "".

(** The variables that [read_waf_config] takes from waf. *)
Record config := mkConfig {
  NSC_ENABLED : bool; ENABLE_EXAMPLES : bool; ENABLE_PYTHON_BINDINGS : bool;
  APPNAME : string; VERSION : string; BUILD_PROFILE : string; PYTHON : string;
  NS3_BASEDIR : string; NS3_BUILDDIR : string; NS3_MODULE_PATH : list string;
  EXAMPLE_DIRECTORIES : list string; NS3_ENABLED_MODULES : list string;
  NS3_ENABLED_CONTRIBUTED_MODULES : list string }.

Definition core_kinds : list string := ["bvt"; "core"; "performance"; "system"; "unit"].
Definition core_valgrind_skip_tests : list string :=
  ["ns3-tcp-cwnd"; "nsc-tcp-loss"; "ns3-tcp-interoperability"; "routing-click";
   "lte-rr-ff-mac-scheduler"; "lte-tdmt-ff-mac-scheduler"; "lte-fdmt-ff-mac-scheduler";
   "lte-pf-ff-mac-scheduler"; "lte-tta-ff-mac-scheduler"; "lte-fdbet-ff-mac-scheduler";
   "lte-ttbet-ff-mac-scheduler"; "lte-fdtbfq-ff-mac-scheduler"; "lte-tdtbfq-ff-mac-scheduler";
   "lte-pss-ff-mac-scheduler"].
Definition core_nsc_missing_skip_tests : list string :=
  ["ns3-tcp-cwnd"; "nsc-tcp-loss"; "ns3-tcp-interoperability"].

Section Plan.
Context (opts : options) (cfg : config) (cwd : string).
Context (exists_path : string -> bool) (eval_cond : string -> res plan_exn bool).

Definition build_profile_suffix : string :=
  if decide (BUILD_PROFILE cfg = "release") then "" else "-" +:+ BUILD_PROFILE cfg.
(** ["%s%s-%s%s" % (APPNAME, VERSION, name, BUILD_PROFILE_SUFFIX)] *)
Definition program_name (name : string) : string :=
  APPNAME cfg +:+ VERSION cfg +:+ "-" +:+ name +:+ build_profile_suffix.
Definition test_runner_name : string := program_name "test-runner".

(** The command that builds what is needed, unless [--nowaf]. *)
Definition waf_cmd : option string :=
  if nowaf opts then None
  else if (kinds opts || list_tests opts ||
           (bool_decide (constrain opts <> "") && bool_decide (constrain opts ∈ core_kinds)))%bool
  then Some "./waf --target=test-runner"
  else if decide (example opts <> "") then Some ("./waf --target=" +:+ basename (example opts))
  else Some "./waf".

(** ** Examples *)

(** The arguments of [get_list_from_file] for a directory are the lists of the
    file; a C++ example has a name, a condition and a condition for valgrind. *)
Definition example_test : Type := string * string * string * string.
Record examples := mkExamples {
  example_tests : list example_test;
  example_names_original : list string;
  python_tests : list (string * string) }.

(** [example_path] with the arguments of the example, if it has any. *)
Definition with_arguments (path : string) (arguments : option string) : string :=
  match arguments with None => path | Some a => path +:+ " " +:+ a end.

Definition add_cpp_example (cpp_executable_dir : string) (ex : examples)
    (entry : string * string * string) : examples :=
  let '(original, do_run, do_valgrind_run) := entry in
  let '(name, arguments) := split_once " "%char original in
  let path := path_join cpp_executable_dir (program_name name) in
  let name := path_join (relpath cwd cpp_executable_dir (NS3_BUILDDIR cfg)) name in
  if exists_path path then
    mkExamples
      (example_tests ex ++
        [(with_arguments name arguments, with_arguments path arguments, do_run, do_valgrind_run)])
      (example_names_original ex ++ [original]) (python_tests ex)
  else ex.

Definition add_python_example (python_script_dir : string) (ex : examples)
    (entry : string * string) : examples :=
  let '(original, do_run) := entry in
  let '(name, arguments) := split_once " "%char original in
  let path := path_join python_script_dir name in
  if exists_path path then
    mkExamples (example_tests ex) (example_names_original ex)
      (python_tests ex ++ [(with_arguments path arguments, do_run)])
  else ex.

(** The lists in a file of examples, by its path. *)
Context (cpp_examples : string -> list (string * string * string)).
Context (python_examples : string -> list (string * string)).

Definition parse_examples_to_run_file (examples_to_run_path cpp_executable_dir python_script_dir : string)
    (ex : examples) : examples :=
  if exists_path examples_to_run_path then
    let ex := foldl (add_cpp_example cpp_executable_dir) ex (cpp_examples examples_to_run_path) in
    foldl (add_python_example python_script_dir) ex (python_examples examples_to_run_path)
  else ex.

(** The three loops of [run_tests] over the directories and modules. *)
Definition parse_directory (ex : examples) (directory : string) : examples :=
  let example_directory := path_join "examples" directory in
  parse_examples_to_run_file (path_join example_directory "examples-to-run.py")
    (path_join (NS3_BUILDDIR cfg) example_directory) example_directory ex.
Definition parse_module (root : string) (ex : examples) (module : string) : examples :=
  let module_directory := path_join root (str_drop (String.length "ns3-") module) in
  let example_directory := path_join module_directory "examples" in
  parse_examples_to_run_file (path_join (path_join module_directory "test") "examples-to-run.py")
    (path_join (NS3_BUILDDIR cfg) example_directory) example_directory ex.
Definition all_examples : examples :=
  let ex := foldl parse_directory (mkExamples [] [] []) (EXAMPLE_DIRECTORIES cfg) in
  let ex := foldl (parse_module "src") ex (NS3_ENABLED_MODULES cfg) in
  foldl (parse_module "contrib") ex (NS3_ENABLED_CONTRIBUTED_MODULES cfg).

(** [ns3_runnable_programs_dictionary] *)
Definition programs_dictionary (ns3_runnable_programs : list string) : gmap string string :=
  foldl (fun d program => <[basename program := program]> d) ∅ ns3_runnable_programs.

(** ** run_job_synchronously *)

Definition job_command (shell_command : string) (is_python : bool) (build_path : string) : string :=
  let suppressions_path := path_join (NS3_BASEDIR cfg) "testpy.supp" in
  let path_cmd :=
    if is_python then PYTHON cfg +:+ " " +:+ path_join (NS3_BASEDIR cfg) shell_command
    else if decide (build_path <> "") then path_join build_path shell_command
    else path_join (NS3_BUILDDIR cfg) shell_command in
  if valgrind opts then
    "valgrind --suppressions=" +:+ suppressions_path +:+
    " --leak-check=full --show-reachable=yes --error-exitcode=2 --errors-for-leak-kinds=all "
    +:+ path_cmd
  else path_cmd.
(** The return code, after the decoding of the two streams. *)
Definition job_retval (returncode : Z) (stdout_decodes stderr_decodes : bool) : Z :=
  if (stdout_decodes && stderr_decodes)%bool then returncode else 1%Z.

(** ** The test suites *)

(** What the test runner answers to its arguments: a return code, and the text,
    which [run_job_synchronously] has decoded. *)
Context (test_runner : string -> Z * string).

Definition runner_cmd (arguments : string) : string :=
  path_join "utils" (test_runner_name +:+ arguments).

(** [--kinds] calls [decode] on the text again, which a string does not have;
    [--list] prints the sorted names, unless the test runner failed. *)
Definition blank (s : string) : bool := bool_decide (strip s = "").
Definition print_listing (example_names_original : list string)
    : res plan_exn (list string) :=
  if kinds opts then Raise AttributeError
  else
    let arguments :=
      if decide (constrain opts <> "")
      then " --print-test-name-list --print-test-types --test-type=" +:+ constrain opts
      else " --print-test-name-list --print-test-types" in
    let '(rc, standard_out) := test_runner (runner_cmd arguments) in
    if decide (rc <> 0%Z) then
      Ok ["test.py error:  test-runner return code returned " +:+ pretty rc;
          "To debug, try running './waf --run " +:+ String quote
          "test-runner --print-test-name-list" +:+ String quote "'" +:+ String newline ""]
    else
      let list_items := merge_sort String.le (split_on newline standard_out) in
      Ok (["Test Type    Test Name"; "---------    ---------"]
          ++ filter (fun item => blank item = false) list_items
          ++ map (fun item => "example      " +:+ item)
               (merge_sort String.le example_names_original) ++ [""]).

(** The list of test suites, and whether one was asked for by name. *)
Definition select_suites : res plan_exn (list string * bool) :=
  if decide (suite opts <> "") then
    let suites := (test_runner (runner_cmd " --print-test-name-list")).2 in
    if decide (suite opts ∈ split_on newline suites)
    then Ok (split_on newline (suite opts +:+ String newline ""), true)
    else Raise (SystemExit 2)
  else if decide (example opts = "" /\ pyexample opts = "") then
    let arguments :=
      if decide (constrain opts <> "")
      then " --print-test-name-list --test-type=" +:+ constrain opts
      else " --print-test-name-list" in
    Ok (split_on newline (test_runner (runner_cmd arguments)).2, false)
  else Ok (split_on newline "", false).

(** Performance tests are not run by default. *)
Definition drop_performance (suite_list : list string) : list string :=
  let performance_tests :=
    (test_runner (runner_cmd " --print-test-name-list --test-type=performance")).2 in
  foldl (fun l t => if decide (t ∈ l) then list_remove t l else l) suite_list
    (split_on newline performance_tests).
Definition suites_to_run : res plan_exn (list string) :=
  let* (suite_list, single_suite) := select_suites in
  if (negb single_suite && bool_decide (constrain opts <> "performance"))%bool
  then Ok (drop_performance suite_list) else Ok suite_list.

(** ** The jobs *)

Context {T : Type} (zero : T) (testpy_output_dir : string).

Definition suite_job (test : string) : Job T :=
  let job := new_job zero in
  let job := set_is_example false job in
  let job := set_is_pyexample false job in
  let job := set_display_name test job in
  let job := set_tmp_file_name (path_join testpy_output_dir (test +:+ ".xml")) job in
  let job := set_cwd cwd job in
  let job := set_basedir cwd job in
  let job := set_tempdir testpy_output_dir job in
  let multiple := if multiple opts then "" else " --stop-on-failure" in
  let fullness :=
    if decide (fullness opts <> "") then " --fullness=" +:+ upper (fullness opts)
    else " --fullness=QUICK" in
  let job := set_shell_command (runner_cmd (" --test-name=" +:+ test +:+ multiple +:+ fullness)) job in
  let job :=
    if (valgrind opts && bool_decide (test ∈ core_valgrind_skip_tests))%bool
    then set_skip_reason "crashes valgrind" (set_is_skip true job) else job in
  if (negb (NSC_ENABLED cfg) && bool_decide (test ∈ core_nsc_missing_skip_tests))%bool
  then set_skip_reason "requires NSC" (set_is_skip true job) else job.
Definition suite_jobs (suite_list : list string) : list (Job T) :=
  map suite_job (filter (fun test => test <> "") (map strip suite_list)).

(** The parts that the jobs of all examples share. *)
Definition example_job (is_example is_pyexample : bool) (name command build : string) : Job T :=
  let job := new_job zero in
  let job := set_is_example is_example job in
  let job := set_is_pyexample is_pyexample job in
  let job := set_display_name name job in
  let job := set_tmp_file_name "" job in
  let job := set_cwd testpy_output_dir job in
  let job := set_basedir cwd job in
  let job := set_tempdir testpy_output_dir job in
  let job := set_shell_command command job in
  set_build_path build job.

(** The name of a program without its arguments and directories. *)
Definition program_of (test : string) : string := basename (split_once " "%char test).1.

(** The body of [for name, test, do_run, do_valgrind_run in example_tests]. *)
Definition queue_example (programs : gmap string string) (jobs : list (Job T)) (e : example_test)
    : res plan_exn (list (Job T)) :=
  let '(name, test, do_run, do_valgrind_run) := e in
  if has_key programs (program_of test) then
    let* run := eval_cond do_run in
    if run : bool then
      let job := example_job true false name test (buildpath opts) in
      if valgrind opts then
        let* run := eval_cond do_valgrind_run in
        if run : bool then Ok (jobs ++ [job])
        else Ok (jobs ++ [set_skip_reason "skip in valgrind runs" (set_is_skip true job)])
      else Ok (jobs ++ [job])
    else Ok jobs
  else Ok jobs.

Definition no_single_test : bool :=
  bool_decide (suite opts = "" /\ example opts = "" /\ pyexample opts = "").

Definition example_jobs (programs : gmap string string) (tests : list example_test)
    : res plan_exn (list (Job T)) :=
  if no_single_test then
    if decide ((constrain opts = "" \/ constrain opts = "example") /\ ENABLE_EXAMPLES cfg = true)
    then for_each (queue_example programs) tests []
    else Ok []
  else if decide (example opts <> "") then
    match programs !! program_name (example opts) with
    | None => Ok []
    | Some example_path =>
        let example_path := abspath cwd example_path in
        Ok [example_job true false example_path example_path (buildpath opts)]
    end
  else Ok [].

(** The body of [for test, do_run in python_tests]. *)
Definition queue_pyexample (scripts : list string) (jobs : list (Job T)) (e : string * string)
    : res plan_exn (list (Job T)) :=
  let '(test, do_run) := e in
  if decide (program_of test ∈ scripts) then
    let* run := eval_cond do_run in
    if run : bool then
      let job := example_job false true test test "" in
      let job :=
        if valgrind opts then set_skip_reason "skip in valgrind runs" (set_is_skip true job)
        else job in
      let job :=
        if ENABLE_PYTHON_BINDINGS cfg then job
        else set_skip_reason "requires Python bindings" (set_is_skip true job) in
      Ok (jobs ++ [job])
    else Ok jobs
  else Ok jobs.

Definition pyexample_jobs (scripts : list string) (tests : list (string * string))
    : res plan_exn (list (Job T)) :=
  if no_single_test then
    if decide ((constrain opts = "" \/ constrain opts = "pyexample") /\ ENABLE_EXAMPLES cfg = true)
    then for_each (queue_pyexample scripts) tests []
    else Ok []
  else if decide (pyexample opts <> "") then
    if decide (basename (pyexample opts) ∈ scripts)
    then Ok [example_job false true (pyexample opts) (pyexample opts) ""]
    else Ok []
  else Ok [].

(** All the jobs of [run_tests], in the order of dispatch; [total_tests] is their
    number. *)
Definition dispatched (ns3_runnable_programs ns3_runnable_scripts : list string)
    : res plan_exn (list (Job T)) :=
  let ex := all_examples in
  let programs := programs_dictionary ns3_runnable_programs in
  let* suite_list := suites_to_run in
  let* js2 := example_jobs programs (example_tests ex) in
  let* js3 := pyexample_jobs ns3_runnable_scripts (python_tests ex) in
  Ok (suite_jobs suite_list ++ js2 ++ js3).
End Plan.

(** ** make_paths *)

(** [os.environ[key] += sep + path] for each path, after the variable has been
    given an empty value if it had none. *)
Definition append_paths (key sep : string) (paths : list string) (env : gmap string string)
    : gmap string string :=
  let env := match env !! key with None => <[key := ""]> env | Some _ => env end in
  foldl (fun env path => <[key := default "" (env !! key) +:+ sep +:+ path]> env) env paths.

Definition make_paths (platform : string) (cfg : config) (env : gmap string string)
    : gmap string string :=
  let have_PYTHONPATH := has_key env "PYTHONPATH" in
  let pypath := path_join (path_join (NS3_BUILDDIR cfg) "bindings") "python" in
  let env := <["PYTHONPATH" := pypath]> env in
  let env :=
    if have_PYTHONPATH
    then <["PYTHONPATH" := default "" (env !! "PYTHONPATH") +:+ ":" +:+ pypath]> env
    else <["PYTHONPATH" := pypath]> env in
  if decide (platform = "darwin") then append_paths "DYLD_LIBRARY_PATH" ":" (NS3_MODULE_PATH cfg) env
  else if decide (platform = "win32") then append_paths "PATH" ";" (NS3_MODULE_PATH cfg) env
  else if decide (platform = "cygwin") then append_paths "PATH" ":" (NS3_MODULE_PATH cfg) env
  else append_paths "LD_LIBRARY_PATH" ":" (NS3_MODULE_PATH cfg) env.

(** ** Performance tests *)

Lemma foldl_remove (ps : list string) : forall (l : list string),
  NoDup l ->
  foldl (fun l t => if decide (t ∈ l) then list_remove t l else l) l ps = filter (fun t => t ∉ ps) l.
Proof.
  assert (Hrm : forall (p : string) l, NoDup l ->
    (if decide (p ∈ l) then list_remove p l else l) = filter (fun t => t <> p) l).
  { intros p l Hl. case_decide as Hp.
    - induction Hl as [|x l Hx Hl IH]; [by apply elem_of_nil in Hp|].
      cbn [list_remove]. case_decide as Hxp.
      + subst. rewrite filter_cons_False by naive_solver.
        clear -Hx. induction l as [|y l IH]; [done|]. rewrite filter_cons_True by set_solver.
        f_equal. apply IH. set_solver.
      + rewrite filter_cons_True by done. f_equal. apply IH. set_solver.
    - clear Hl. induction l as [|y l IH]; [done|]. rewrite filter_cons_True by set_solver.
      f_equal. apply IH. set_solver. }
  induction ps as [|p ps IH]; intros l Hl; cbn [foldl].
  - induction l as [|y l IHl]; [done|]. rewrite filter_cons_True by set_solver.
    f_equal. apply IHl. by apply NoDup_cons in Hl as [_ ?].
  - rewrite Hrm by done. rewrite IH by (by apply NoDup_filter).
    rewrite list_filter_filter. apply list_filter_iff. intros x. set_solver.
Qed.

(** Unless one suite or the performance tests were asked for, exactly the
    suites that the test runner lists as performance tests are taken out, and
    the others keep their order. *)
Theorem drop_performance_spec (cfg : config) (test_runner : string -> Z * string)
    (suite_list : list string) (Hnd : NoDup suite_list) :
  drop_performance cfg test_runner suite_list
  = filter (fun t => t ∉ split_on newline
      (test_runner (runner_cmd cfg " --print-test-name-list --test-type=performance")).2) suite_list.
Proof. by apply foldl_remove. Qed.

(** ** The suites *)

Section Plan_correct.
Context (opts : options) (cfg : config) (cwd : string).
Context {T : Type} (zero : T) (out_dir : string).

(** Why a suite is skipped, if it is. *)
Definition suite_skip (test : string) : option string :=
  if decide (NSC_ENABLED cfg = false /\ test ∈ core_nsc_missing_skip_tests) then Some "requires NSC"
  else if decide (valgrind opts = true /\ test ∈ core_valgrind_skip_tests) then Some "crashes valgrind"
  else None.

(** Each suite name that is not blank gives one job, in the order of the
    list: a job of the suite's name that is skipped exactly when NSC is missing
    and the suite needs it, or valgrind is used and the suite does not bear it,
    and that otherwise runs the test runner on the suite; with both reasons the
    missing NSC is reported. *)
Theorem suite_jobs_spec (suite_list : list string) :
  map display_name (suite_jobs opts cfg cwd zero out_dir suite_list)
  = filter (fun test => test <> "") (map strip suite_list) /\
  forall job, job ∈ suite_jobs opts cfg cwd zero out_dir suite_list ->
    is_break job = false /\ is_example job = false /\ is_pyexample job = false /\
    tempdir job = out_dir /\ tmp_file_name job = path_join out_dir (display_name job +:+ ".xml") /\
    is_skip job = bool_decide (is_Some (suite_skip (display_name job))) /\
    (forall reason, suite_skip (display_name job) = Some reason -> skip_reason job = reason) /\
    worker_command (update_data opts) job
    = runner_cmd cfg (" --test-name=" +:+ display_name job +:+
        (if multiple opts then "" else " --stop-on-failure") +:+
        (if decide (fullness opts <> "") then " --fullness=" +:+ upper (fullness opts)
         else " --fullness=QUICK"))
      +:+ " --xml --tempdir=" +:+ out_dir +:+ " --out=" +:+ tmp_file_name job +:+ " " +:+
      (if update_data opts then "--update-data" else "").
Proof.
  assert (Hjob : forall test, display_name (suite_job opts cfg cwd zero out_dir test) = test).
  { intros test. unfold suite_job. by destruct (_ && _)%bool, (_ && _)%bool. }
  unfold suite_jobs. split.
  - rewrite map_map. rewrite (map_ext _ id) by exact Hjob. apply map_id.
  - intros job (test & -> & _)%list_elem_of_fmap. rewrite Hjob. unfold suite_skip, suite_job.
    destruct (NSC_ENABLED cfg), (valgrind opts); cbn [negb andb];
      repeat case_decide; repeat case_bool_decide; naive_solver.
Qed.

(** ** The examples *)

Section Examples_correct.
Context (eval_cond : string -> res plan_exn bool).
Context (holds : string -> bool) (Hholds : forall s, eval_cond s = Ok (holds s)).

(** The examples of the lists that are run: those that were built and whose
    condition holds. *)
Definition runnable_example (programs : gmap string string) (e : example_test) : Prop :=
  let '(_, test, do_run, _) := e in program_of test ∈ dom programs /\ holds do_run = true.
#[export] Instance runnable_example_dec programs e : Decision (runnable_example programs e).
Proof. destruct e as [[[? ?] ?] ?]. apply _. Defined.
Definition runnable_pyexample (scripts : list string) (e : string * string) : Prop :=
  program_of e.1 ∈ scripts /\ holds e.2 = true.
#[export] Instance runnable_pyexample_dec scripts e : Decision (runnable_pyexample scripts e).
Proof. apply _. Defined.

Definition job_of_example (e : example_test) : Job T :=
  let '(name, test, _, do_valgrind_run) := e in
  let job := example_job cwd zero out_dir true false name test (buildpath opts) in
  if (valgrind opts && negb (holds do_valgrind_run))%bool
  then set_skip_reason "skip in valgrind runs" (set_is_skip true job) else job.
Definition job_of_pyexample (e : string * string) : Job T :=
  let job := example_job cwd zero out_dir false true e.1 e.1 "" in
  if negb (ENABLE_PYTHON_BINDINGS cfg)
  then set_skip_reason "requires Python bindings" (set_is_skip true job)
  else if valgrind opts then set_skip_reason "skip in valgrind runs" (set_is_skip true job)
  else job.

Lemma queue_examples programs tests :
  for_each (queue_example opts cwd eval_cond zero out_dir programs) tests []
  = Ok (map job_of_example (filter (runnable_example programs) tests)).
Proof.
  cut (forall js, for_each (queue_example opts cwd eval_cond zero out_dir programs) tests js
    = Ok (js ++ map job_of_example (filter (runnable_example programs) tests))).
  { intros H. apply H. }
  induction tests as [|[[[name test] dr] dv] tests IH]; intros js;
    [cbn; by rewrite app_nil_r|].
  cbn [for_each]. unfold queue_example at 1. rewrite filter_cons.
  destruct (has_key programs (program_of test)) eqn:Hk.
  - rewrite Hholds. cbn [res_bind]. apply has_key_true in Hk. destruct (holds dr) eqn:Hd.
    + rewrite decide_True by done. cbn [map]. unfold job_of_example at 1.
      destruct (valgrind opts); cbn [andb].
      * rewrite Hholds. cbn [res_bind]. destruct (holds dv); cbn [negb res_bind];
          rewrite IH; by rewrite <- app_assoc.
      * cbn [res_bind]. rewrite IH. by rewrite <- app_assoc.
    + rewrite decide_False by (intros [_ ?]; congruence). apply IH.
  - rewrite decide_False; [apply IH|]. intros [Hin _]. apply has_key_true in Hin. congruence.
Qed.

Lemma queue_pyexamples scripts tests :
  for_each (queue_pyexample opts cfg cwd eval_cond zero out_dir scripts) tests []
  = Ok (map job_of_pyexample (filter (runnable_pyexample scripts) tests)).
Proof.
  cut (forall js, for_each (queue_pyexample opts cfg cwd eval_cond zero out_dir scripts) tests js
    = Ok (js ++ map job_of_pyexample (filter (runnable_pyexample scripts) tests))).
  { intros H. apply H. }
  induction tests as [|[test dr] tests IH]; intros js; [cbn; by rewrite app_nil_r|].
  cbn [for_each]. unfold queue_pyexample at 1. rewrite filter_cons. case_decide as Hk.
  - rewrite Hholds. cbn [res_bind]. destruct (holds dr) eqn:Hd.
    + rewrite decide_True by done. cbn [map]. unfold job_of_pyexample at 1. cbn [fst].
      cbn [res_bind]. rewrite IH, <- app_assoc. cbn [app].
      by destruct (ENABLE_PYTHON_BINDINGS cfg), (valgrind opts).
    + rewrite decide_False by (intros [_ ?]; cbn in *; congruence). apply IH.
  - rewrite decide_False; [apply IH|]. by intros [Hin _].
Qed.

(** The one job of an example asked for by name. *)
Definition single_job (python : bool) (command build : string) (j : Job T) : Prop :=
  is_skip j = false /\ is_example j = negb python /\ is_pyexample j = python /\ shell_command j = command /\
  display_name j = command /\ build_path j = build.

(** C18: when the conditions evaluate, the examples and Python examples are
    dispatched as the comments of [run_tests] tell.  With no suite or example
    asked for by name: if the examples are enabled ([ENABLE_EXAMPLES]) and there is no constraint, or the constraint [example]
    ([pyexample]), every example that was built and whose condition holds is
    dispatched once, in order, to be skipped under valgrind when its second
    condition fails (always, for Python; and without the bindings); otherwise there is none.
    With a suite or example asked for by name, the example asked for is dispatched, under no condition,
    if it was built, and no other one; the same for the Python example. *)
Theorem example_jobs_spec programs scripts tests pytests :
  exists js pyjs,
    example_jobs opts cfg cwd eval_cond zero out_dir programs tests = Ok js /\
    pyexample_jobs opts cfg cwd eval_cond zero out_dir scripts pytests = Ok pyjs /\
    if no_single_test opts then
      js = (if decide ((constrain opts = "" \/ constrain opts = "example") /\ ENABLE_EXAMPLES cfg = true)
            then map job_of_example (filter (runnable_example programs) tests) else []) /\
      pyjs = (if decide ((constrain opts = "" \/ constrain opts = "pyexample") /\ ENABLE_EXAMPLES cfg = true)
              then map job_of_pyexample (filter (runnable_pyexample scripts) pytests) else [])
    else
      (forall p, example opts <> "" -> programs !! program_name cfg (example opts) = Some p ->
         exists j, js = [j] /\ single_job false (abspath cwd p) (buildpath opts) j) /\
      (example opts = "" \/ programs !! program_name cfg (example opts) = None -> js = []) /\
      (pyexample opts <> "" -> basename (pyexample opts) ∈ scripts ->
         exists j, pyjs = [j] /\ single_job true (pyexample opts) "" j) /\
      (pyexample opts = "" \/ basename (pyexample opts) ∉ scripts -> pyjs = []).
Proof.
  unfold example_jobs, pyexample_jobs. rewrite queue_examples, queue_pyexamples.
  destruct (no_single_test opts).
  - eexists _, _. split; [|split; [|by split]]; by case_decide.
  - exists (if decide (example opts <> "") then match programs !! program_name cfg (example opts) with
      | None => []
      | Some p => [example_job cwd zero out_dir true false (abspath cwd p) (abspath cwd p) (buildpath opts)] end else []),
      (if decide (pyexample opts <> "") then if decide (basename (pyexample opts) ∈ scripts)
       then [example_job cwd zero out_dir false true (pyexample opts) (pyexample opts) ""] else [] else []).
    split_and!.
    + case_decide; [|done]. by destruct (programs !! _).
    + case_decide; [|done]. by case_decide.
    + intros p He Hp. rewrite decide_True, Hp by done. eexists. split; [done|]. by repeat split.
    + intros [He|Hp]; [by rewrite decide_False by (rewrite He; auto)|]. rewrite Hp. by case_decide.
    + intros He Hp. rewrite !decide_True by done. eexists. split; [done|]. by repeat split.
    + intros [He|Hp]; [by rewrite decide_False by (rewrite He; auto)|]. rewrite (decide_False (P := _ ∈ _)) by done. by case_decide.
Qed.
End Examples_correct.
End Plan_correct.

(** ** The environment *)

Lemma append_paths_spec key sep paths env k :
  append_paths key sep paths env !! k
  = if decide (k = key) then Some (default "" (env !! key) +:+
      foldr (fun p acc => sep +:+ p +:+ acc) "" paths)
    else env !! k.
Proof.
  unfold append_paths.
  assert (Hf : forall (env : gmap string string), is_Some (env !! key) ->
    foldl (fun env path => <[key := default "" (env !! key) +:+ sep +:+ path]> env) env paths !! k
    = if decide (k = key) then Some (default "" (env !! key) +:+
        foldr (fun p acc => sep +:+ p +:+ acc) "" paths) else env !! k).
  { clear env. induction paths as [|p paths IH]; intros env [v Hv]; cbn [foldl foldr].
    - rewrite str_append_nil_r. case_decide; [|done]. subst. by rewrite Hv.
    - rewrite IH by (rewrite lookup_insert_eq; by eexists).
      case_decide as Hk; [|by rewrite lookup_insert_ne].
      rewrite lookup_insert_eq. cbn [default from_option id]. by rewrite !str_append_assoc. }
  destruct (env !! key) as [v|] eqn:Hv.
  - rewrite Hf by (by eexists). by rewrite Hv.
  - rewrite Hf by (rewrite lookup_insert_eq; by eexists). rewrite lookup_insert_eq.
    case_decide; [done|]. by rewrite lookup_insert_ne.
Qed.

(** [make_paths] appends the module paths to the variable of the platform
    and changes no other variable but [PYTHONPATH].  That one does not keep the
    value it had: it becomes the path of the bindings, twice if it was set. *)
Theorem make_paths_spec (platform : string) (cfg : config) (env : gmap string string) :
  let pypath := path_join (path_join (NS3_BUILDDIR cfg) "bindings") "python" in
  let '(key, sep) :=
    if decide (platform = "darwin") then ("DYLD_LIBRARY_PATH", ":")
    else if decide (platform = "win32") then ("PATH", ";")
    else if decide (platform = "cygwin") then ("PATH", ":") else ("LD_LIBRARY_PATH", ":") in
  make_paths platform cfg env !! "PYTHONPATH"
  = Some (if has_key env "PYTHONPATH" then pypath +:+ ":" +:+ pypath else pypath) /\
  make_paths platform cfg env !! key
  = Some (default "" (env !! key) +:+
      foldr (fun p acc => sep +:+ p +:+ acc) "" (NS3_MODULE_PATH cfg)) /\
  forall k, k <> "PYTHONPATH" -> k <> key -> make_paths platform cfg env !! k = env !! k.
Proof.
  intros pypath.
  assert (Hgen : forall key sep env', key <> "PYTHONPATH" ->
    env' !! "PYTHONPATH" = Some (if has_key env "PYTHONPATH" then pypath +:+ ":" +:+ pypath else pypath) ->
    (forall k, k <> "PYTHONPATH" -> env' !! k = env !! k) ->
    append_paths key sep (NS3_MODULE_PATH cfg) env' !! "PYTHONPATH"
    = Some (if has_key env "PYTHONPATH" then pypath +:+ ":" +:+ pypath else pypath) /\
    append_paths key sep (NS3_MODULE_PATH cfg) env' !! key
    = Some (default "" (env !! key) +:+
        foldr (fun p acc => sep +:+ p +:+ acc) "" (NS3_MODULE_PATH cfg)) /\
    forall k, k <> "PYTHONPATH" -> k <> key ->
      append_paths key sep (NS3_MODULE_PATH cfg) env' !! k = env !! k).
  { intros key sep env' Hkey Hpy Hk. split_and!.
    - rewrite append_paths_spec. by rewrite decide_False.
    - rewrite append_paths_spec. rewrite decide_True by done. by rewrite Hk.
    - intros k H1 H2. rewrite append_paths_spec. rewrite decide_False by done. by apply Hk. }
  unfold make_paths. fold pypath.
  set (env1 := if has_key env "PYTHONPATH" then _ else _).
  assert (H1 : env1 !! "PYTHONPATH"
    = Some (if has_key env "PYTHONPATH" then pypath +:+ ":" +:+ pypath else pypath)).
  { unfold env1. destruct (has_key env "PYTHONPATH"); by rewrite !lookup_insert_eq. }
  assert (H2 : forall k, k <> "PYTHONPATH" -> env1 !! k = env !! k).
  { intros k Hk. unfold env1. destruct (has_key env "PYTHONPATH"); by rewrite !lookup_insert_ne. }
  repeat (case_decide; [by apply Hgen|]). by apply Hgen.
Qed.

(** ** Witnesses *)

Definition example_config : config :=
  mkConfig false true true "ns3" ".35" "debug" "python3" "/r" "/r/build" ["/r/build/lib"]
    ["tutorial"] ["ns3-core"] [].

Lemma drop_performance_spec_witness :
  let runner := fun _ : string => (0%Z, "perf" +:+ String newline "") in
  NoDup ["core"; "perf"; "tcp"; ""] /\
  drop_performance example_config runner ["core"; "perf"; "tcp"; ""] = ["core"; "tcp"].
Proof.
  assert (Hnd : NoDup ["core"; "perf"; "tcp"; ""]) by (apply (bool_decide_unpack _); exact I).
  split; [exact Hnd|]. rewrite (drop_performance_spec example_config _ _ Hnd). reflexivity.
Defined.

Lemma example_jobs_spec_witness :
  let tests := [("tutorial/first", "/b/ns3.35-first-debug", "True", "True");
                ("tutorial/nsc", "/b/ns3.35-nsc-debug", "NSC_ENABLED", "True")] in
  let holds := fun s : string => bool_decide (s = "True") in
  (forall s, (fun s : string => Ok (E := plan_exn) (holds s)) s = Ok (holds s)) /\
  exists js : list (Job nat),
    example_jobs default_options example_config "/r" (fun s => Ok (holds s)) 0 "out"
      (programs_dictionary ["build/ns3.35-first-debug"; "build/ns3.35-nsc-debug"]) tests = Ok js /\
    map display_name js = ["tutorial/first"].
Proof.
  split; [intros s; reflexivity|].
  destruct (example_jobs_spec default_options example_config "/r" 0 "out"
    (fun s => Ok (bool_decide (s = "True"))) (fun s => bool_decide (s = "True"))
    (fun s => eq_refl)
    (programs_dictionary ["build/ns3.35-first-debug"; "build/ns3.35-nsc-debug"]) []
    [("tutorial/first", "/b/ns3.35-first-debug", "True", "True");
     ("tutorial/nsc", "/b/ns3.35-nsc-debug", "NSC_ENABLED", "True")] [])
    as (js & pyjs & Hjs & _ & Hall & _).
  exists js. split; [exact Hjs|].
  rewrite Hall. reflexivity.
Defined.

(** A user's [PYTHONPATH] is lost. *)
Lemma pythonpath_lost :
  make_paths "linux" example_config {["PYTHONPATH" := "/home/me/lib"]} !! "PYTHONPATH"
  = Some "/r/build/bindings/python:/r/build/bindings/python".
Proof. reflexivity. Qed.
