(* ===== verification/TestReport.v ===== *)
(** * The reports of the test driver: [src/test.py]

    [read_test], [node_to_text], [translate_to_text] and [translate_to_html], on
    the tree that [xml.etree.ElementTree] makes of the results file.  A report is
    the list of the strings written to the file, one for each [f.write]. *)

From S2P Require Import Prelude PyLib.
From Stdlib Require Import Ascii String.
From stdpp Require Import strings.
Open Scope string_scope.
Open Scope nat_scope.
Open Scope list_scope.

(** [AttributeError]: an attribute of the [None] that [find] returns when there
    is no such child. *)
Inductive report_exn := AttributeError.

(** ** Element trees *)

Inductive element :=
  Elem (tag : string) (attributes : list (string * string)) (text : option string)
    (children : list element).

Definition tag (e : element) : string := let 'Elem t _ _ _ := e in t.
Definition attributes (e : element) : list (string * string) := let 'Elem _ a _ _ := e in a.
Definition text (e : element) : option string := let 'Elem _ _ x _ := e in x.
Definition children (e : element) : list element := let 'Elem _ _ _ c := e in c.

(** [e.findall(t)], [e.find(t)], [e.get(a)], [e.find(t).text]. *)
Definition findall (t : string) (e : element) : list element :=
  filter (fun c => tag c = t) (children e).
Definition find (t : string) (e : element) : option element := head (findall t e).
Definition get (a : string) (e : element) : option string :=
  snd <$> head (filter (fun p => p.1 = a) (attributes e)).
Definition find_text (t : string) (e : element) : res report_exn (option string) :=
  match find t e with Some c => Ok (text c) | None => Raise AttributeError end.

(** [%s] of a text that may be [None]. *)
Definition show (s : option string) : string := default "None" s.
Definition eol : string := String newline "".
Definition dq : string := String quote "".

(** ** read_test *)

Record test_info := mkInfo {
  result : option string; name : option string; reason : option string; time_real : option string }.
Definition read_test (test : element) : res report_exn test_info :=
  let* result := find_text "Result" test in
  let* name := find_text "Name" test in
  let reason := match find "Reason" test with Some r => text r | None => Some "" end in
  let time_real := match find "Time" test with Some t => get "real" t | None => Some "" end in
  Ok (mkInfo result name reason time_real).

(** ** The text report *)

(** The fields of a [FailureDetails], in the order in which they are written. *)
Definition detail_fields : list string :=
  ["Message"; "Condition"; "Actual"; "Limit"; "File"; "Line"].
Definition detail_label (field : string) : string :=
  if decide (field = "Message") then "      Message:   "
  else if decide (field = "Condition") then "      Condition: "
  else if decide (field = "Actual") then "      Actual:    "
  else if decide (field = "Limit") then "      Limit:     "
  else if decide (field = "File") then "      File:      "
  else "      Line:      ".
Definition details_to_text (details : element) : res report_exn (list string) :=
  let* lines := map_res (fun field =>
    let* x := find_text field details in Ok (detail_label field +:+ show x +:+ eol)) detail_fields in
  Ok (("    Details:" +:+ eol) :: lines).

(** The part of [node_to_text] before its last loop. *)
Definition node_head (test : element) : res report_exn (list string) :=
  let* i := read_test test in
  let reason :=
    if decide (reason i = None \/ reason i = Some "") then show (reason i)
    else " (" +:+ show (reason i) +:+ ")" in
  let output := show (result i) +:+ ": Test Suite " +:+ dq +:+ show (name i) +:+ dq +:+ " ("
    +:+ show (time_real i) +:+ ")" +:+ reason +:+ eol in
  let* details := map_res details_to_text (findall "FailureDetails" test) in
  Ok (output :: concat details).

Fixpoint node_to_text (test : element) : res report_exn (list string) :=
  let* out := node_head test in
  let 'Elem _ _ _ cs := test in
  let* rest :=
    (fix loop (cs : list element) : res report_exn (list string) :=
      match cs with
      | [] => Ok []
      | child :: cs =>
          if decide (tag child = "Test") then
            let* a := node_to_text child in
            let* b := loop cs in Ok (a ++ b)
          else loop cs
      end) cs in
  Ok (out ++ rest).

Definition example_to_text (example : element) : res report_exn (list string) :=
  let* result := find_text "Result" example in
  let* name := find_text "Name" example in
  let time_real := match find "Time" example with Some t => get "real" t | None => Some "" end in
  Ok [show result +:+ ": Example " +:+ dq +:+ show name +:+ dq +:+ " (" +:+ show time_real +:+ ")"
      +:+ eol].

Definition translate_to_text (et : element) : res report_exn (list string) :=
  let* tests := map_res node_to_text (findall "Test" et) in
  let* examples := map_res example_to_text (findall "Example" et) in
  Ok (concat tests ++ concat examples).

(** ** The HTML report *)

Definition style (tag color : string) : string := "<" +:+ tag +:+ " style=" +:+ dq +:+ "color:" +:+ color +:+ dq +:+ ">".
Definition td (s : string) : string := "<td>" +:+ s +:+ "</td>" +:+ eol.
Definition td_color (color s : string) : string := style "td" color +:+ s +:+ "</td>" +:+ eol.
Definition tr_open : string := "<tr>" +:+ eol.
Definition tr_close : string := "</tr>" +:+ eol.
Definition table_open : string := "<table border=" +:+ dq +:+ "1" +:+ dq +:+ ">" +:+ eol.
Definition table_close : string := "</table>" +:+ eol.

(** One pass of [for details in case.findall('FailureDetails')].  The row is
    closed with the tag of a cell. *)
Definition detail_cell (field : string) (x : option string) : string :=
  "<b>" +:+ field +:+ ": </b>" +:+ show x +:+ (if decide (field = "Line") then "" else ", ").
Definition failure_row (i : test_info) (first_row : bool) (details : element)
    : res report_exn (list string) :=
  let* cells := map_res (fun field =>
    let* x := find_text field details in Ok (detail_cell field x)) detail_fields in
  Ok ([tr_open]
      ++ (if first_row
          then [td_color "red" (show (result i)); td (show (name i)); td (show (time_real i))]
          else [td ""; td ""; td ""])
      ++ ["<td>"] ++ cells ++ ["</td>" +:+ eol] ++ ["</td>" +:+ eol]).
Fixpoint failure_rows (i : test_info) (first_row : bool) (details : list element)
    : res report_exn (list string) :=
  match details with
  | [] => Ok []
  | d :: details =>
      let* row := failure_row i first_row d in
      let* rows := failure_rows i false details in
      Ok (row ++ rows)
  end.

(** One pass of [for case in suite.findall('Test')]. *)
Definition case_to_html (case : element) : res report_exn (list string) :=
  let* i := read_test case in
  if decide (result i = Some "FAIL") then failure_rows i true (findall "FailureDetails" case)
  else Ok [tr_open; td_color "green" (show (result i)); td (show (name i)); td (show (time_real i));
           td (show (reason i)); tr_close].

(** One pass of [for suite in et.findall('Test')]. *)
Definition no_cases (i : test_info) : Prop :=
  result i = Some "CRASH" \/ result i = Some "SKIP" \/ result i = Some "VALGR".
Definition suite_to_html (suite : element) : res report_exn (list string) :=
  let* i := read_test suite in
  let title := show (result i) +:+ ": " +:+ show (name i) +:+ " (" +:+ show (time_real i) +:+ ")" in
  let header :=
    if decide (result i = Some "PASS") then style "h3" "green" +:+ title +:+ "</h3>" +:+ eol
    else if decide (result i = Some "SKIP") then
      style "h3" "#ff6600" +:+ title +:+ " (" +:+ show (reason i) +:+ ")</h3>" +:+ eol
    else style "h3" "red" +:+ title +:+ "</h3>" +:+ eol in
  let top := [header; table_open; "<th> Result </th>" +:+ eol] in
  if decide (result i = Some "CRASH" \/ result i = Some "SKIP" \/ result i = Some "VALGR") then
    Ok (top ++ [tr_open;
        td_color (if decide (result i = Some "SKIP") then "#ff6600" else "red") (show (result i));
        tr_close; table_close])
  else
    let* cases := map_res case_to_html (findall "Test" suite) in
    Ok (top ++ ["<th>Test Case Name</th>" +:+ eol; "<th> Time </th>" +:+ eol]
        ++ (if decide (result i = Some "FAIL") then ["<th>Failure Details</th>" +:+ eol] else [])
        ++ concat cases ++ [table_close]).

(** One pass of [for example in et.findall("Example")]; the cell of a skipped
    example ends in a tag that does not exist. *)
Definition example_to_html (example : element) : res report_exn (list string) :=
  let* i := read_test example in
  let cell :=
    if decide (result i = Some "PASS") then td_color "green" (show (result i))
    else if decide (result i = Some "SKIP")
    then style "td" "#ff6600" +:+ show (result i) +:+ "</fd>" +:+ eol
    else td_color "red" (show (result i)) in
  Ok [tr_open; cell; td (show (name i)); td (show (time_real i)); td (show (reason i)); tr_close].

Definition translate_to_html (et : element) : res report_exn (list string) :=
  let* suites := map_res suite_to_html (findall "Test" et) in
  let* examples := map_res example_to_html (findall "Example" et) in
  Ok (["<html>" +:+ eol; "<body>" +:+ eol; "<center><h1>ns-3 Test Results</h1></center>" +:+ eol;
       "<h2>Test Suites</h2>" +:+ eol]
      ++ concat suites
      ++ ["<h2>Examples</h2>" +:+ eol; table_open; "<th> Result </th>" +:+ eol;
          "<th>Example Name</th>" +:+ eol; "<th>Elapsed Time</th>" +:+ eol; "<th>Details</th>" +:+ eol]
      ++ concat examples
      ++ [table_close; "</body>" +:+ eol; "</html>" +:+ eol]).

(** ** The text report lists every test *)

(** The tests of a tree, each before the tests under it. *)
Fixpoint tests_of (test : element) : list element :=
  let 'Elem _ _ _ cs := test in
  test :: (fix loop (cs : list element) : list element :=
    match cs with
    | [] => []
    | child :: cs => if decide (tag child = "Test") then tests_of child ++ loop cs else loop cs
    end) cs.

Fixpoint element_nested_ind (P : element -> Prop)
    (H : forall t a x cs, Forall P cs -> P (Elem t a x cs)) (e : element) : P e :=
  let 'Elem t a x cs := e in
  H t a x cs ((fix loop (cs : list element) : Forall P cs :=
    match cs with
    | [] => Forall_nil_2 _
    | c :: cs => Forall_cons_2 _ _ _ (element_nested_ind P H c) (loop cs)
    end) cs).

Lemma map_res_app {E A B} (f : A -> res E B) l1 l2 :
  map_res f (l1 ++ l2)
  = (let* a := map_res f l1 in let* b := map_res f l2 in Ok (a ++ b)).
Proof.
  induction l1 as [|x l1 IH]; cbn [app map_res res_bind].
  - by destruct (map_res f l2).
  - destruct (f x); cbn [res_bind]; [|done..]. rewrite IH.
    destruct (map_res f l1); cbn [res_bind]; [|done..]. by destruct (map_res f l2).
Qed.

(** The text report of a tree is the report of each test in it by itself,
    every test after the one that contains it and in the order of the file; it
    fails only where one of these reports does. *)
Theorem node_to_text_spec (test : element) :
  node_to_text test = (let* reports := map_res node_head (tests_of test) in Ok (concat reports)).
Proof.
  induction test as [t a x cs IH] using element_nested_ind.
  cbn [node_to_text tests_of map_res]. destruct (node_head (Elem t a x cs)); cbn [res_bind]; [|done..].
  assert (Hloop : (fix loop (cs : list element) : res report_exn (list string) :=
      match cs with
      | [] => Ok []
      | child :: cs =>
          if decide (tag child = "Test") then
            let* a := node_to_text child in
            let* b := loop cs in Ok (a ++ b)
          else loop cs
      end) cs
    = (let* reports := map_res node_head ((fix loop (cs : list element) : list element :=
        match cs with
        | [] => []
        | child :: cs => if decide (tag child = "Test") then tests_of child ++ loop cs else loop cs
        end) cs) in Ok (concat reports))).
  { induction IH as [|c cs Hc _ IH]; [done|]. case_decide; [|exact IH].
    rewrite Hc, IH, map_res_app.
    destruct (map_res node_head (tests_of c)); cbn [res_bind]; [|done..].
    destruct (map_res node_head _); cbn [res_bind]; [|done..]. by rewrite concat_app. }
  rewrite Hloop. by destruct (map_res node_head _).
Qed.

(** ** The rows and tables of the HTML report *)

Definition has_result (r : string) (e : element) : bool :=
  match find "Result" e with Some c => bool_decide (text c = Some r) | None => false end.
(** Nothing that the report reads is missing. *)
Definition complete (e : element) : Prop :=
  is_Some (find "Result" e) /\ is_Some (find "Name" e) /\
  forall d, d ∈ findall "FailureDetails" e -> forall f, f ∈ detail_fields -> is_Some (find f d).
Definition complete_results (et : element) : Prop :=
  (forall suite, suite ∈ findall "Test" et ->
     complete suite /\ forall case, case ∈ findall "Test" suite -> complete case) /\
  forall example, example ∈ findall "Example" et -> complete example.

(** The failure details that the report shows. *)
Definition case_failures (case : element) : nat :=
  if has_result "FAIL" case then length (findall "FailureDetails" case) else 0.
Definition suite_failures (suite : element) : nat :=
  if (has_result "CRASH" suite || has_result "SKIP" suite || has_result "VALGR" suite)%bool then 0
  else sum_list (map case_failures (findall "Test" suite)).
Definition shown_failures (et : element) : nat := sum_list (map suite_failures (findall "Test" et)).

(** How often a string was written. *)
Definition writes (s : string) (out : list string) : nat := count (fun x => x = s) out.
#[global] Arguments writes : simpl never.
Definition balanced (n : nat) (out : list string) : Prop :=
  writes tr_open out = writes tr_close out + n /\ writes table_open out = writes table_close out.

Lemma writes_app s l1 l2 : writes s (l1 ++ l2) = writes s l1 + writes s l2.
Proof. apply count_app. Qed.
Lemma writes_cons s x l : writes s (x :: l) = (if decide (x = s) then 1 else 0) + writes s l.
Proof. unfold writes. by rewrite count_cons. Qed.
Lemma writes_nil s : writes s [] = 0.
Proof. done. Qed.

Lemma balanced_app n m l1 l2 : balanced n l1 -> balanced m l2 -> balanced (n + m) (l1 ++ l2).
Proof. unfold balanced. rewrite !writes_app. lia. Qed.
Lemma balanced_nil : balanced 0 [].
Proof. done. Qed.

Lemma balanced_concat {A} (f : A -> res report_exn (list string)) (n : A -> nat) l :
  (forall x, x ∈ l -> exists out, f x = Ok out /\ balanced (n x) out) ->
  exists outs, map_res f l = Ok outs /\ balanced (sum_list (map n l)) (concat outs).
Proof.
  induction l as [|x l IH]; intros Hl; [by exists []|]. cbn [map_res].
  destruct (Hl x) as (out & -> & Hb); [left|]. cbn [res_bind].
  destruct IH as (outs & -> & Hbs); [intros y Hy; apply Hl; by right|]. cbn [res_bind].
  exists (out :: outs). split; [done|]. cbn. by apply balanced_app.
Qed.

(** A string that opens and closes nothing. *)
Definition neutral (s : string) : Prop :=
  s <> tr_open /\ s <> tr_close /\ s <> table_open /\ s <> table_close.
Lemma balanced_neutral n s l : neutral s -> balanced n l -> balanced n (s :: l).
Proof.
  intros (H1 & H2 & H3 & H4). unfold balanced. rewrite !writes_cons.
  by repeat rewrite decide_False by done.
Qed.
Lemma balanced_table n l l' : balanced n l -> balanced 0 l' -> balanced n (table_open :: l ++ table_close :: l').
Proof.
  unfold balanced. rewrite !writes_cons, !writes_app, !writes_cons.
  assert (E : forall (s t : string) b, bool_decide (s = t) = b ->
    (if decide (s = t) then 1 else 0) = if b then 1 else 0)
    by (intros s t b <-; case_decide as H; by case_bool_decide).
  rewrite !(E table_open tr_open false), !(E table_open tr_close false),
    !(E table_open table_open true), !(E table_close tr_open false),
    !(E table_close tr_close false), !(E table_close table_open false),
    !(E table_open table_close false), !(E table_close table_close true) by reflexivity.
  lia.
Qed.

(** Decide that a written string is no tag of a row or table: the first
    characters differ. *)
Ltac solve_neutral := split_and!; intros Heq; vm_compute in Heq; discriminate Heq.

Ltac solve_neutrals := repeat (apply Forall_cons_2; [solve_neutral|]); apply Forall_nil_2.

Lemma balanced_row l : Forall neutral l -> balanced 0 (tr_open :: l ++ [tr_close]).
Proof.
  intros Hl. assert (Hz : forall s, s = tr_open \/ s = tr_close \/ s = table_open \/ s = table_close ->
    writes s l = 0).
  { intros s Hs. apply count_zero. intros x Hx ->.
    destruct (proj1 (Forall_forall _ _) Hl s Hx) as (? & ? & ? & ?). naive_solver. }
  unfold balanced. rewrite !writes_cons, !writes_app, !Hz by tauto. clear.
  vm_compute. done.
Qed.

Lemma balanced_open_row l : Forall neutral l -> balanced 1 (tr_open :: l).
Proof.
  intros Hl. assert (Hz : forall s, s = tr_open \/ s = tr_close \/ s = table_open \/ s = table_close ->
    writes s l = 0).
  { intros s Hs. apply count_zero. intros x Hx ->.
    destruct (proj1 (Forall_forall _ _) Hl s Hx) as (? & ? & ? & ?). naive_solver. }
  unfold balanced. rewrite !writes_cons, !Hz by tauto. clear. vm_compute. done.
Qed.

Lemma find_text_ok t e : is_Some (find t e) -> exists x, find_text t e = Ok x.
Proof. unfold find_text. intros [c ->]. eauto. Qed.

Lemma read_test_ok e :
  complete e -> exists i, read_test e = Ok i /\ find_text "Result" e = Ok (result i).
Proof.
  intros (Hr & Hn & _). unfold read_test.
  destruct (find_text_ok _ _ Hr) as (r & Er), (find_text_ok _ _ Hn) as (n & En).
  rewrite Er, En. cbn [res_bind]. eexists. split; done.
Qed.

Lemma has_result_info r e i :
  find_text "Result" e = Ok (result i) -> has_result r e = bool_decide (result i = Some r).
Proof. unfold find_text, has_result. destruct (find "Result" e); [|done]. by intros [= ->]. Qed.

Lemma failure_row_balanced i first_row d :
  (forall f, f ∈ detail_fields -> is_Some (find f d)) ->
  exists out, failure_row i first_row d = Ok out /\ balanced 1 out.
Proof.
  intros Hd. unfold failure_row.
  assert (Hc : exists cells, map_res (fun field =>
      let* x := find_text field d in Ok (detail_cell field x)) detail_fields
    = Ok (E := report_exn) cells /\ Forall neutral cells).
  { revert Hd. generalize detail_fields. intros fs Hd. induction fs as [|f fs IH].
    - exists []. by split.
    - cbn [map_res]. destruct (find_text_ok f d) as (x & ->); [apply Hd; left|]. cbn [res_bind].
      destruct IH as (cells & -> & Hn); [intros g Hg; apply Hd; by right|]. cbn [res_bind].
      eexists. split; [done|]. constructor; [|done]. unfold detail_cell.
      destruct (decide (f = "Line")); solve_neutral. }
  destruct Hc as (cells & -> & Hn). cbn [res_bind]. eexists. split; [done|].
  apply (balanced_open_row (_ ++ ["<td>"] ++ cells ++ ["</td>" +:+ eol] ++ ["</td>" +:+ eol])).
  rewrite !Forall_app. split_and!; [destruct first_row| |done| |]; solve_neutrals.
Qed.

Lemma failure_rows_balanced i ds : forall first_row,
  (forall d, d ∈ ds -> forall f, f ∈ detail_fields -> is_Some (find f d)) ->
  exists out, failure_rows i first_row ds = Ok out /\ balanced (length ds) out.
Proof.
  induction ds as [|d ds IH]; intros first_row Hd; [by exists []|]. cbn [failure_rows].
  destruct (failure_row_balanced i first_row d) as (row & -> & Hb); [apply Hd; left|].
  cbn [res_bind]. destruct (IH false) as (rows & -> & Hbs); [intros d' Hd'; apply Hd; by right|].
  cbn [res_bind]. eexists. split; [done|]. by apply (balanced_app 1).
Qed.

Lemma case_balanced case :
  complete case -> exists out, case_to_html case = Ok out /\ balanced (case_failures case) out.
Proof.
  intros Hc. destruct (read_test_ok case Hc) as (i & Ei & Er). unfold case_to_html, case_failures.
  rewrite Ei, (has_result_info _ _ _ Er). cbn [res_bind]. case_bool_decide as Hf.
  - rewrite decide_True by done. apply failure_rows_balanced. apply Hc.
  - rewrite decide_False by done. eexists. split; [done|].
    apply (balanced_row [_; _; _; _]). solve_neutrals.
Qed.

Lemma suite_balanced suite :
  complete suite -> (forall case, case ∈ findall "Test" suite -> complete case) ->
  exists out, suite_to_html suite = Ok out /\ balanced (suite_failures suite) out.
Proof.
  intros Hs Hcs. destruct (read_test_ok suite Hs) as (i & Ei & Er).
  unfold suite_to_html, suite_failures. rewrite Ei, !(has_result_info _ _ _ Er). cbn [res_bind].
  set (header := if decide (result i = Some "PASS") then _ else _).
  assert (Hh : neutral header) by (unfold header; repeat case_decide; solve_neutral).
  case_decide as Hno.
  - assert ((bool_decide (result i = Some "CRASH") || bool_decide (result i = Some "SKIP")
      || bool_decide (result i = Some "VALGR"))%bool = true) as ->
      by (rewrite !orb_true_iff, !bool_decide_eq_true; tauto).
    eexists. split; [done|]. cbn [app]. apply balanced_neutral; [done|].
    apply (balanced_table 0 [_; _; _; _] []); [|apply balanced_nil].
    apply balanced_neutral; [solve_neutral|]. apply (balanced_row [_]).
    case_decide; solve_neutrals.
  - assert ((bool_decide (result i = Some "CRASH") || bool_decide (result i = Some "SKIP")
      || bool_decide (result i = Some "VALGR"))%bool = false) as ->
      by (rewrite !orb_false_iff, !bool_decide_eq_false; tauto).
    destruct (balanced_concat case_to_html case_failures (findall "Test" suite))
      as (cases & -> & Hb); [intros c Hc; by apply case_balanced, Hcs|].
    cbn [res_bind]. eexists. split; [done|]. cbn [app]. apply balanced_neutral; [done|].
    set (fail := if decide (result i = Some "FAIL") then _ else []).
    assert (Hn : balanced (sum_list (map case_failures (findall "Test" suite)))
      (("<th> Result </th>" +:+ eol) :: ("<th>Test Case Name</th>" +:+ eol)
        :: ("<th> Time </th>" +:+ eol) :: fail ++ concat cases)).
    { do 3 (apply balanced_neutral; [solve_neutral|]). unfold fail. case_decide; [|done].
      by apply balanced_neutral; [solve_neutral|]. }
    pose proof (balanced_table _ _ [] Hn balanced_nil) as Ht. cbn [app] in Ht.
    by rewrite <- app_assoc in Ht.
Qed.

Lemma example_balanced example :
  complete example -> exists out, example_to_html example = Ok out /\ balanced 0 out.
Proof.
  intros Hc. destruct (read_test_ok example Hc) as (i & Ei & _). unfold example_to_html.
  rewrite Ei. cbn [res_bind]. eexists. split; [done|]. apply (balanced_row [_; _; _; _]).
  repeat case_decide; solve_neutrals.
Qed.

(** C32: on complete results the HTML report is written; it closes every table
    it opens, but of its rows it leaves open exactly one for each failure detail
    that it shows (those rows end in the tag that closes a cell). *)
Theorem translate_to_html_spec (et : element) (Hc : complete_results et) :
  exists out, translate_to_html et = Ok out /\
    writes table_open out = writes table_close out /\
    writes tr_open out = writes tr_close out + shown_failures et.
Proof.
  destruct Hc as [Hs He]. unfold translate_to_html.
  destruct (balanced_concat suite_to_html suite_failures (findall "Test" et)) as (suites & -> & Hbs).
  { intros s Hin. destruct (Hs s Hin). by apply suite_balanced. }
  cbn [res_bind].
  destruct (balanced_concat example_to_html (fun _ => 0) (findall "Example" et)) as (exs & -> & Hbe).
  { intros e Hin. by apply example_balanced, He. }
  cbn [res_bind]. eexists. split; [done|].
  assert (Hz : sum_list (map (fun _ : element => 0) (findall "Example" et)) = 0)
    by (clear; induction (findall "Example" et) as [|x l IH]; [done|exact IH]).
  rewrite Hz in Hbe.
  assert (Hex : balanced 0 (("<th> Result </th>" +:+ eol) :: ("<th>Example Name</th>" +:+ eol)
    :: ("<th>Elapsed Time</th>" +:+ eol) :: ("<th>Details</th>" +:+ eol) :: concat exs))
    by (do 4 (apply balanced_neutral; [solve_neutral|]); done).
  assert (Hend : balanced 0 ["</body>" +:+ eol; "</html>" +:+ eol])
    by (do 2 (apply balanced_neutral; [solve_neutral|]); apply balanced_nil).
  pose proof (balanced_table 0 _ _ Hex Hend) as Ht.
  assert (Hall : balanced (shown_failures et)
    (concat suites ++ ("<h2>Examples</h2>" +:+ eol) :: table_open
      :: (("<th> Result </th>" +:+ eol) :: ("<th>Example Name</th>" +:+ eol)
      :: ("<th>Elapsed Time</th>" +:+ eol) :: ("<th>Details</th>" +:+ eol) :: concat exs)
      ++ table_close :: ["</body>" +:+ eol; "</html>" +:+ eol])).
  { rewrite <- (Nat.add_0_r (shown_failures et)). apply balanced_app; [done|].
    by apply balanced_neutral; [solve_neutral|]. }
  assert (Htop : balanced (shown_failures et) (("<html>" +:+ eol) :: ("<body>" +:+ eol)
    :: ("<center><h1>ns-3 Test Results</h1></center>" +:+ eol) :: ("<h2>Test Suites</h2>" +:+ eol)
    :: concat suites ++ ("<h2>Examples</h2>" +:+ eol) :: table_open
      :: (("<th> Result </th>" +:+ eol) :: ("<th>Example Name</th>" +:+ eol)
      :: ("<th>Elapsed Time</th>" +:+ eol) :: ("<th>Details</th>" +:+ eol) :: concat exs)
      ++ table_close :: ["</body>" +:+ eol; "</html>" +:+ eol]))
    by (do 4 (apply balanced_neutral; [solve_neutral|]); done).
  destruct Htop. by split.
Qed.

(** A suite with one failed case that has two failure details. *)
Definition leaf (t x : string) : element := Elem t [] (Some x) [].
Definition demo_detail : element := Elem "FailureDetails" [] None (map (fun f => leaf f "x") detail_fields).
Definition demo_results : element :=
  Elem "Results" [] None
    [Elem "Test" [] None [leaf "Name" "s"; leaf "Result" "FAIL";
       Elem "Test" [] None [leaf "Name" "c"; leaf "Result" "FAIL"; demo_detail; demo_detail]];
     Elem "Example" [] None [leaf "Name" "e"; leaf "Result" "PASS"]].

Lemma translate_to_html_spec_witness :
  complete_results demo_results /\ shown_failures demo_results = 2 /\
  exists out, translate_to_html demo_results = Ok out /\ writes tr_open out = writes tr_close out + 2.
Proof.
  assert (Hd : forall f, f ∈ detail_fields -> is_Some (find f demo_detail)).
  { intros f Hf. unfold detail_fields in Hf.
    repeat (apply elem_of_cons in Hf as [->|Hf]; [by eexists|]). by apply elem_of_nil in Hf. }
  assert (Hc : complete_results demo_results).
  { split.
    - intros suite ->%list_elem_of_singleton. split.
      + split; [by eexists|]. split; [by eexists|]. by intros d []%elem_of_nil.
      + intros case ->%list_elem_of_singleton. split; [by eexists|]. split; [by eexists|].
        intros d Hin. change (d ∈ [demo_detail; demo_detail]) in Hin.
        rewrite !elem_of_cons in Hin. destruct Hin as [->|[->|[]%elem_of_nil]]; exact Hd.
    - intros e ->%list_elem_of_singleton. split; [by eexists|]. split; [by eexists|].
      by intros d []%elem_of_nil. }
  split; [exact Hc|]. split; [reflexivity|].
  destruct (translate_to_html_spec demo_results Hc) as (out & Ho & _ & Hr).
  exists out. split; [exact Ho|exact Hr].
Defined.
