(* ===== verification/Format.v ===== *)
(** * Texts from templates

    The [%] operator of Python on a template with named fields, as the generators of
    source files use it: [%(NAME)s], [%(NAME)r] and [%%]; [repr] of a string; and the
    methods of ASCII strings these programs need besides those of [PyLib].  A template
    is first read into a list of symbols, a character or a field each, so that facts
    about a template can be computed before its fields are known. *)

From S2P Require Import Prelude PyLib.
From Stdlib Require Import Ascii String.
From stdpp Require Import strings.
Open Scope string_scope.
Open Scope nat_scope.
Open Scope list_scope.

(** ** Strings *)

Definition lower_char (c : ascii) : ascii :=
  if in_range 65 90 c then ascii_of_nat (code c + 32) else c.
(** [s.lower()], [s.capitalize()], [s.isalnum()], [s.replace(c, d)] *)
Definition lower (s : string) : string := str_map lower_char s.
Definition capitalize (s : string) : string :=
  match s with EmptyString => "" | String c s => String (upper_char c) (lower s) end.
Definition is_alnum_char (c : ascii) : bool :=
  in_range 97 122 c || in_range 65 90 c || in_range 48 57 c.
Fixpoint str_all (P : ascii -> bool) (s : string) : bool :=
  match s with EmptyString => true | String c s => P c && str_all P s end.
Definition isalnum (s : string) : bool :=
  match s with EmptyString => false | _ => str_all is_alnum_char s end.
Definition replace_char (c d : ascii) (s : string) : string :=
  str_map (fun x => if decide (x = c) then d else x) s.

(** [repr(s)]: single quotes unless there are only single quotes in it, escapes for
    the backslash, the quote and the characters that are not printed. *)
Definition hex_digit (n : nat) : ascii :=
  if n <? 10 then ascii_of_nat (48 + n) else ascii_of_nat (87 + n).
Definition repr_char (q c : ascii) : list ascii :=
  if (bool_decide (c = q) || bool_decide (c = "\"%char))%bool then ["\"%char; c]
  else if code c =? 9 then ["\"%char; "t"%char]
  else if code c =? 10 then ["\"%char; "n"%char]
  else if code c =? 13 then ["\"%char; "r"%char]
  else if in_range 32 126 c then [c]
  else ["\"%char; "x"%char; hex_digit (code c / 16); hex_digit (code c mod 16)].
Definition py_repr (s : string) : string :=
  let l := list_ascii_of_string s in
  let q := if (bool_decide ("'"%char ∈ l) && negb (bool_decide (quote ∈ l)))%bool then quote else "'"%char in
  string_of_list_ascii (q :: concat (map (repr_char q) l) ++ [q]).

(** ** Formatting *)

Inductive conv := AsStr | AsRepr.
Inductive sym := Lit (c : ascii) | Field (name : string) (v : conv).
Inductive fmt_exn := FieldMissing (name : string) | BadFormat.

(** What the reader of a template has seen last: text, a percent sign, a part of the
    name of a field, a whole name. *)
Inductive fmt_mode := InText | AfterPercent | InName (acc : string) | AfterName (name : string).
Fixpoint parse_fmt (m : fmt_mode) (s : string) : res fmt_exn (list sym) :=
  match m, s with
  | InText, EmptyString => Ok []
  | _, EmptyString => Raise BadFormat
  | InText, String c s =>
      if decide (c = "%"%char) then parse_fmt AfterPercent s
      else let* l := parse_fmt InText s in Ok (Lit c :: l)
  | AfterPercent, String c s =>
      if decide (c = "%"%char) then let* l := parse_fmt InText s in Ok (Lit c :: l)
      else if decide (c = "("%char) then parse_fmt (InName "") s
      else Raise BadFormat
  | InName acc, String c s =>
      if decide (c = ")"%char) then parse_fmt (AfterName acc) s
      else parse_fmt (InName (acc +:+ String c "")) s
  | AfterName name, String c s =>
      if decide (c = "s"%char) then let* l := parse_fmt InText s in Ok (Field name AsStr :: l)
      else if decide (c = "r"%char) then let* l := parse_fmt InText s in Ok (Field name AsRepr :: l)
      else Raise BadFormat
  end.

(** The fields and their values: a dictionary. *)
Abbreviation fields := (list (string * string)).
Fixpoint field (env : fields) (name : string) : option string :=
  match env with
  | [] => None
  | (k, v) :: env => if decide (k = name) then Some v else field env name
  end.
Definition convert (v : conv) (x : string) : string :=
  match v with AsStr => x | AsRepr => py_repr x end.
Fixpoint render (env : fields) (l : list sym) : res fmt_exn string :=
  match l with
  | [] => Ok ""
  | Lit c :: l => let* s := render env l in Ok (String c s)
  | Field name v :: l =>
      match field env name with
      | Some x => let* s := render env l in Ok (convert v x +:+ s)
      | None => Raise (FieldMissing name)
      end
  end.
(** [template % env] *)
Definition format (template : string) (env : fields) : res fmt_exn string :=
  let* l := parse_fmt InText template in render env l.

(** ** What a template yields *)

(** The text of the symbols, where a field that is missing has none. *)
Definition text_of (env : fields) (x : sym) : string :=
  match x with
  | Lit c => String c ""
  | Field name v => match field env name with Some x => convert v x | None => "" end
  end.
Fixpoint text (env : fields) (l : list sym) : string :=
  match l with [] => "" | x :: l => text_of env x +:+ text env l end.

(** Every field of the template is among the names. *)
Definition fields_in (names : list string) (l : list sym) : bool :=
  forallb (fun x => match x with Field k _ => bool_decide (k ∈ names) | Lit _ => true end) l.

Lemma field_is_Some env name : name ∈ env.*1 <-> is_Some (field env name).
Proof.
  induction env as [|[k v] env IH]; cbn.
  - split; [by intros ?%elem_of_nil|by intros [? ?]].
  - rewrite elem_of_cons, IH. case_decide; subst; [|naive_solver]. split; [by eauto|by left].
Qed.

(** With all its fields, a template always has a text. *)
Lemma render_ok env names l : names ⊆ env.*1 -> fields_in names l = true ->
  render env l = Ok (text env l).
Proof.
  intros Hn. induction l as [|[c|k v] l IH]; cbn; [done|intros H|intros [Hk H]%andb_true_iff].
  - by rewrite IH.
  - apply bool_decide_eq_true in Hk. apply Hn, field_is_Some in Hk as [x Hx].
    by rewrite Hx, IH.
Qed.

(** The symbols of [l] occur in [t] one after the other. *)
Fixpoint sym_prefix (l t : list sym) : bool :=
  match l, t with
  | [], _ => true
  | Lit c :: l, Lit d :: t => bool_decide (c = d) && sym_prefix l t
  | Field k AsStr :: l, Field k' AsStr :: t => bool_decide (k = k') && sym_prefix l t
  | Field k AsRepr :: l, Field k' AsRepr :: t => bool_decide (k = k') && sym_prefix l t
  | _, _ => false
  end.
Fixpoint sym_infix (l t : list sym) : bool :=
  sym_prefix l t || match t with [] => false | _ :: t => sym_infix l t end.
(** A text contains another one. *)
Definition contains (s t : string) : Prop := exists a b, t = a +:+ s +:+ b.

Lemma text_app env l1 l2 : text env (l1 ++ l2) = text env l1 +:+ text env l2.
Proof. induction l1 as [|x l1 IH]; cbn; [done|]. by rewrite IH, str_append_assoc. Qed.

Lemma sym_prefix_text env l t : sym_prefix l t = true -> exists b, text env t = text env l +:+ b.
Proof.
  revert t. induction l as [|x l IH]; intros t H; cbn in *; [by exists (text env t)|].
  assert (Hx : exists t', t = x :: t' /\ sym_prefix l t' = true).
  { destruct x as [c|k []], t as [|[d|k' []] t]; try done; apply andb_true_iff in H as [Hc H];
      apply bool_decide_eq_true in Hc; subst; by eauto. }
  destruct Hx as (t' & -> & Ht). destruct (IH _ Ht) as [b Hb]. exists b. cbn.
  by rewrite Hb, str_append_assoc.
Qed.

Lemma sym_infix_text env l t : sym_infix l t = true -> contains (text env l) (text env t).
Proof.
  induction t as [|x t IH]; intros [H|H]%orb_true_iff; cbn in *.
  - destruct (sym_prefix_text env _ _ H) as [b Hb]. exists "", b. exact Hb.
  - done.
  - destruct (sym_prefix_text env _ _ H) as [b Hb]. exists "", b. exact Hb.
  - destruct (IH H) as (a & b & Hab). exists (text_of env x +:+ a), b. cbn. by rewrite Hab, str_append_assoc.
Qed.

(** [repr] of a text of letters, digits and dashes puts it between quotes. *)
Definition is_name_char (c : ascii) : bool := is_alnum_char c || bool_decide (c = "-"%char).
Lemma py_repr_name s : str_all is_name_char s = true -> py_repr s = "'" +:+ s +:+ "'".
Proof.
  intros Hs.
  assert (Hall : Forall (fun c => is_name_char c = true) (list_ascii_of_string s)).
  { induction s as [|c s IH]; cbn in *; [constructor|]. apply andb_true_iff in Hs as [Hc Hs].
    constructor; [done|by apply IH]. }
  unfold py_repr.
  replace (bool_decide ("'"%char ∈ list_ascii_of_string s)) with false.
  2:{ symmetry. apply bool_decide_eq_false. intros Hin. rewrite Forall_forall in Hall.
      by specialize (Hall _ Hin). }
  assert (Hmap : concat (map (repr_char "'") (list_ascii_of_string s)) = list_ascii_of_string s).
  { induction Hall as [|c l Hc Hl IH]; [done|]. cbn. rewrite IH.
    replace (repr_char "'" c) with [c]; [done|]. clear -Hc. symmetry. revert Hc.
    destruct c as [[] [] [] [] [] [] [] []]; vm_compute; congruence. }
  cbn [andb]. rewrite Hmap. cbn. rewrite string_of_list_ascii_app, string_of_list_ascii_of_string. done.
Qed.

Lemma str_all_append P s t : str_all P (s +:+ t) = str_all P s && str_all P t.
Proof.
  induction s as [|c s IH]; [done|]. change (String c s +:+ t) with (String c (s +:+ t)). cbn.
  by rewrite IH, andb_assoc.
Qed.
