(* ===== verification/Files.v ===== *)
(** * The file system

    Directories and the contents of files by path, with the calls that make them:
    [os.path.exists], [os.path.dirname], [os.mkdir], [open(path, "wt")] and [write].
    The system may refuse to create an entry ([Permissions]). *)

From S2P Require Import Prelude PyLib.
From Stdlib Require Import Ascii String.
From stdpp Require Import strings.
Open Scope string_scope.
Open Scope nat_scope.
Open Scope list_scope.

Record fs := mkFs { dirs : gset string; files : gmap string string }.
Inductive os_exn := FileExistsError | FileNotFoundError | IsADirectoryError | PermissionError.

(** The entries that the system allows to be created or written. *)
Class Permissions := allowed : string -> bool.

(** [os.path.dirname]: the path up to the last slash, without slashes at its end
    unless it has nothing else. *)
Fixpoint strip_slashes (l : list ascii) : list ascii :=
  match l with
  | [] => []
  | c :: l => match strip_slashes l with
              | [] => if decide (c = "/"%char) then [] else [c]
              | l => c :: l
              end
  end.
Fixpoint to_last_slash (l : list ascii) : list ascii :=
  match l with
  | [] => []
  | c :: l => match to_last_slash l with
              | [] => if decide (c = "/"%char) then [c] else []
              | h => c :: h
              end
  end.
Definition dirname (p : string) : string :=
  let head := to_last_slash (list_ascii_of_string p) in
  string_of_list_ascii (match strip_slashes head with [] => head | h => h end).

(** The empty path is the current directory. *)
Definition is_dir (d : string) (w : fs) : bool := bool_decide (d = "") || bool_decide (d ∈ dirs w).
Definition exists_path (p : string) (w : fs) : bool := is_dir p w || has_key (files w) p.

Section Calls.
Context `{Permissions}.
Definition mkdir (p : string) (w : fs) : res os_exn fs :=
  if exists_path p w then Raise FileExistsError
  else if negb (is_dir (dirname p) w) then Raise FileNotFoundError
  else if negb (allowed p) then Raise PermissionError
  else Ok (mkFs ({[p]} ∪ dirs w) (files w)).
(** Opening for writing creates the file, or empties it. *)
Definition open_wt (p : string) (w : fs) : res os_exn fs :=
  if is_dir p w then Raise IsADirectoryError
  else if negb (is_dir (dirname p) w) then Raise FileNotFoundError
  else if negb (allowed p) then Raise PermissionError
  else Ok (mkFs (dirs w) (<[p := ""]> (files w))).
(** [f.write(t)] on an open file. *)
Definition write_file (p t : string) (w : fs) : fs :=
  mkFs (dirs w) (alter (fun s => s +:+ t) p (files w)).
End Calls.

(** ** Paths *)

Lemma strip_slashes_snoc l c : strip_slashes (l ++ [c])
  = if decide (c = "/"%char) then strip_slashes l else l ++ [c].
Proof.
  induction l as [|d l IH]; cbn; [by case_decide|].
  rewrite IH. case_decide; [done|]. by destruct (l ++ [c]) eqn:E; [destruct l|].
Qed.
Lemma strip_slashes_id l : last l <> Some "/"%char -> strip_slashes l = l.
Proof.
  destruct l as [|c l _] using rev_ind; [done|]. rewrite last_snoc, strip_slashes_snoc.
  intros Hc. case_decide; [by subst|done].
Qed.
Lemma to_last_slash_none l : "/"%char ∉ l -> to_last_slash l = [].
Proof.
  induction l as [|c l IH]; [done|]. intros [Hc Hl]%not_elem_of_cons. cbn.
  rewrite IH by done. by case_decide.
Qed.
Lemma to_last_slash_app l n : "/"%char ∉ n -> to_last_slash (l ++ "/"%char :: n) = l ++ ["/"%char].
Proof.
  intros Hn. induction l as [|c l IH]; cbn; [by rewrite to_last_slash_none|].
  rewrite IH. by destruct l.
Qed.

Lemma slash_free_join d n : "/"%char ∉ list_ascii_of_string n -> n <> "" ->
  path_join d n = (if decide (d = "") then n
                   else if ends_with_slash d then d +:+ n else d +:+ ("/" +:+ n)).
Proof.
  intros Hn Hne. destruct n as [|c n]; [done|]. cbn [list_ascii_of_string] in Hn.
  apply not_elem_of_cons in Hn as [Hc _].
  destruct c as [[] [] [] [] [] [] [] []]; try done.
Qed.

(** A name in a directory: its path, and the way back. *)
Definition plain (n : string) : Prop := ("/"%char ∉ list_ascii_of_string n) /\ n <> "".
Lemma dirname_join d n : ends_with_slash d = false -> plain n -> dirname (path_join d n) = d.
Proof.
  intros Hd [Hn Hne]. rewrite slash_free_join by done. rewrite Hd.
  unfold ends_with_slash in Hd. apply bool_decide_eq_false in Hd. unfold dirname.
  case_decide as Hd0; subst; [by rewrite to_last_slash_none|].
  rewrite list_ascii_append. cbn [append list_ascii_of_string].
  replace (list_ascii_of_string ("/" +:+ n)) with ("/"%char :: list_ascii_of_string n) by done.
  rewrite to_last_slash_app by done. rewrite strip_slashes_snoc, decide_True by done.
  rewrite strip_slashes_id by done.
  destruct (list_ascii_of_string d) eqn:E.
  { apply (f_equal string_of_list_ascii) in E. by rewrite string_of_list_ascii_of_string in E. }
  by rewrite <- E, string_of_list_ascii_of_string.
Qed.

Lemma append_inj_l (a b c : string) : a +:+ b = a +:+ c -> b = c.
Proof. induction a as [|x a IH]; [done|]. intros [= H]. by apply IH. Qed.

Lemma join_plain d n : d <> "" -> ends_with_slash d = false -> plain n ->
  path_join d n = d +:+ ("/" +:+ n).
Proof. intros Hd He [Hn Hne]. rewrite slash_free_join by done. by rewrite decide_False, He. Qed.
Lemma join_no_slash d n : d <> "" -> ends_with_slash d = false -> plain n ->
  path_join d n <> "" /\ ends_with_slash (path_join d n) = false.
Proof.
  intros Hd He Hp. rewrite join_plain by done. destruct Hp as [Hn Hne]. split.
  - by destruct d.
  - unfold ends_with_slash. apply bool_decide_eq_false. rewrite !list_ascii_append, !last_app.
    cbn. destruct (list_ascii_of_string n) as [|c l _] eqn:E using rev_ind.
    + by destruct n.
    + rewrite last_snoc. intros [= ->]. apply Hn. apply elem_of_app. right. by left.
Qed.

(** Paths that [os.path.join] can be undone on. *)
Definition regular (d : string) : Prop := d <> "" /\ ends_with_slash d = false.
(** The path with these names below a directory. *)
Definition path_at (root : string) (parts : list string) : string := foldl path_join root parts.

Lemma plain_append m s : plain m -> bool_decide ("/"%char ∈ list_ascii_of_string s) = false ->
  plain (m +:+ s).
Proof.
  intros [Hm Hne] Hs%bool_decide_eq_false_1. split; [|by destruct m].
  rewrite list_ascii_append, elem_of_app. tauto.
Qed.
Lemma plain_literal s : bool_decide ("/"%char ∈ list_ascii_of_string s) = false -> s <> "" -> plain s.
Proof. intros Hs%bool_decide_eq_false_1 Hne. by split. Qed.

Section PathAt.
Context (root : string) (Hroot : regular root).
Lemma path_at_regular parts : Forall plain parts -> regular (path_at root parts).
Proof.
  induction parts as [|n parts IH] using rev_ind; [done|].
  intros [Hp [Hn _]%Forall_cons]%Forall_app. unfold path_at. rewrite foldl_app. cbn.
  destruct (IH Hp) as [H1 H2]. by apply join_no_slash.
Qed.
Lemma path_at_dirname parts n : Forall plain parts -> plain n ->
  dirname (path_at root (parts ++ [n])) = path_at root parts.
Proof.
  intros Hp Hn. unfold path_at. rewrite foldl_app. cbn. apply dirname_join; [|done].
  by apply path_at_regular.
Qed.
Lemma path_at_length parts : Forall plain parts ->
  String.length root <= String.length (path_at root parts) /\
  (parts <> [] -> String.length root < String.length (path_at root parts)).
Proof.
  induction parts as [|n parts IH] using rev_ind; [by split|].
  intros [Hp [Hn _]%Forall_cons]%Forall_app. destruct (IH Hp) as [Hl _].
  destruct (path_at_regular parts Hp) as [H1 H2].
  unfold path_at in *. rewrite foldl_app. cbn. rewrite join_plain by done.
  rewrite !str_length_append. cbn. split; intros; lia.
Qed.
Lemma path_at_inj l1 l2 : Forall plain l1 -> Forall plain l2 ->
  path_at root l1 = path_at root l2 -> l1 = l2.
Proof.
  revert l2. induction l1 as [|n l1 IH] using rev_ind; intros l2 H1 H2 Heq.
  - destruct (decide (l2 = [])) as [|Hne]; [done|]. apply path_at_length in H2 as [_ H2].
    specialize (H2 Hne). rewrite <- Heq in H2. cbn in H2. lia.
  - destruct l2 as [|n2 l2 _] using rev_ind.
    { apply path_at_length in H1 as [_ H1]. rewrite Heq in H1. cbn in H1.
      assert (Hne : l1 ++ [n] <> []) by (by intros [_ ?]%app_nil). specialize (H1 Hne). lia. }
    apply Forall_app in H1 as [H1 [Hn _]%Forall_cons], H2 as [H2 [Hn2 _]%Forall_cons].
    assert (l1 = l2) as ->.
    { apply IH; [done..|]. by rewrite <- (path_at_dirname l1 n), Heq, path_at_dirname. }
    f_equal. unfold path_at in Heq. rewrite !foldl_app in Heq. cbn in Heq.
    destruct (path_at_regular l2 H2) as [H3 H4]. unfold path_at in H3, H4.
    rewrite !join_plain in Heq by done. apply append_inj_l, append_inj_l in Heq. by subst.
Qed.
End PathAt.

(** ** Well-formed file systems *)

(** Every entry is in a directory, and none is both a file and a directory. *)
Record wf_fs (w : fs) : Prop := {
  wf_dir : forall d, d ∈ dirs w -> is_dir (dirname d) w = true;
  wf_file : forall p, p ∈ dom (files w) -> is_dir (dirname p) w = true /\ is_dir p w = false }.

Lemma is_dir_spec d w : is_dir d w = true <-> d = "" \/ d ∈ dirs w.
Proof. unfold is_dir. by rewrite orb_true_iff, !bool_decide_eq_true. Qed.

(** In a directory that is not there, nothing is. *)
Lemma fresh_below w p : wf_fs w -> p <> "" -> is_dir (dirname p) w = false -> exists_path p w = false.
Proof.
  intros Hw Hp Hd. apply orb_false_iff. split.
  - apply not_true_iff_false. rewrite is_dir_spec. intros [?|Hin]; [done|].
    apply Hw in Hin. congruence.
  - apply has_key_false, not_elem_of_dom. intros Hin. apply Hw in Hin as [Hin _]. congruence.
Qed.
Lemma fresh_at w root parts : wf_fs w -> regular root -> Forall plain parts ->
  exists_path root w = false -> exists_path (path_at root parts) w = false.
Proof.
  intros Hw Hr Hp Hex. induction parts as [|n parts IH] using rev_ind; [done|].
  pose proof Hp as Hp'. apply Forall_app in Hp as [Hp [Hn _]%Forall_cons]. apply fresh_below; [done| |].
  - by apply path_at_regular.
  - rewrite path_at_dirname by done. by apply IH, orb_false_iff in Hp as [? _].
Qed.

Section CallLemmas.
Context `{Permissions}.
Lemma mkdir_ok p w : exists_path p w = false -> is_dir (dirname p) w = true -> allowed p = true ->
  mkdir p w = Ok (mkFs ({[p]} ∪ dirs w) (files w)).
Proof. unfold mkdir. by intros -> -> ->. Qed.
Lemma open_ok p w : is_dir p w = false -> is_dir (dirname p) w = true -> allowed p = true ->
  open_wt p w = Ok (mkFs (dirs w) (<[p := ""]> (files w))).
Proof. unfold open_wt. by intros -> -> ->. Qed.

Lemma mkdir_inv p w w' : mkdir p w = Ok w' ->
  exists_path p w = false /\ is_dir (dirname p) w = true /\ w' = mkFs ({[p]} ∪ dirs w) (files w).
Proof.
  unfold mkdir. destruct (exists_path p w); [done|]. destruct (is_dir (dirname p) w); [|done].
  cbn. destruct (allowed p); [|done]. cbn. by intros [= <-].
Qed.
Lemma open_inv p w w' : open_wt p w = Ok w' ->
  is_dir p w = false /\ is_dir (dirname p) w = true /\ w' = mkFs (dirs w) (<[p := ""]> (files w)).
Proof.
  unfold open_wt. destruct (is_dir p w); [done|]. destruct (is_dir (dirname p) w); [|done].
  cbn. destruct (allowed p); [|done]. cbn. by intros [= <-].
Qed.

Lemma mkdir_wf p w w' : wf_fs w -> mkdir p w = Ok w' -> wf_fs w'.
Proof.
  intros Hw (He & Hd & ->)%mkdir_inv. apply orb_false_iff in He as [Hnd Hnf].
  apply has_key_false in Hnf.
  assert (Hmono : forall d, is_dir d w = true -> is_dir d (mkFs ({[p]} ∪ dirs w) (files w)) = true).
  { intros d. rewrite !is_dir_spec. cbn. set_solver. }
  split; cbn.
  - intros d [Hdp|Hdw]%elem_of_union; apply Hmono; [|by apply Hw].
    apply elem_of_singleton in Hdp. by subst.
  - intros q Hq. destruct (wf_file _ Hw q Hq) as [H1 H2]. split; [by apply Hmono|].
    apply not_true_iff_false. rewrite is_dir_spec. cbn. apply not_true_iff_false in H2.
    rewrite is_dir_spec in H2. intros [Hq0|[Hqp%elem_of_singleton|Hqd]%elem_of_union];
      [naive_solver| |naive_solver]. subst. by apply not_elem_of_dom in Hnf.
Qed.
Lemma open_wf p w w' : wf_fs w -> open_wt p w = Ok w' -> wf_fs w'.
Proof.
  intros Hw (Hnd & Hd & ->)%open_inv. split; cbn; [apply Hw|].
  intros q. rewrite dom_insert. intros [Hq%elem_of_singleton|Hq]%elem_of_union; [by subst|].
  by apply Hw.
Qed.
Lemma write_wf p t w : wf_fs w -> wf_fs (write_file p t w).
Proof.
  intros Hw. split; cbn; [apply Hw|]. intros q. rewrite dom_alter. apply Hw.
Qed.
End CallLemmas.

(** ** Components of a path *)

Lemma split_on_cons_ne c d s : d <> c -> exists x l, split_on c s = x :: l /\
  split_on c (String d s) = String d x :: l.
Proof.
  intros Hd. cbn. rewrite decide_False by done.
  destruct (split_on c s) as [|x l] eqn:E; [by apply split_on_nonempty in E|]. by exists x, l.
Qed.
Lemma split_on_app c a b : split_on c (a +:+ String c b) = split_on c a ++ split_on c b.
Proof.
  induction a as [|d a IH].
  { change ("" +:+ String c b) with (String c b). cbn. by rewrite decide_True. }
  change (String d a +:+ String c b) with (String d (a +:+ String c b)).
  destruct (decide (d = c)) as [->|Hd]; [cbn; rewrite !decide_True by done; by rewrite IH|].
  destruct (split_on_cons_ne c d a Hd) as (x & l & E1 & ->).
  destruct (split_on_cons_ne c d (a +:+ String c b) Hd) as (y & k & E2 & ->).
  rewrite E2, E1 in IH. by injection IH as -> ->.
Qed.
Lemma split_on_free c s : c ∉ list_ascii_of_string s -> split_on c s = [s].
Proof.
  induction s as [|d s IH]; [done|]. cbn. intros [Hd Hs]%not_elem_of_cons.
  rewrite decide_False by done. by rewrite IH.
Qed.

(** A path is its directory, slashes and its last component. *)
Lemma to_last_slash_split l : exists n, l = to_last_slash l ++ n /\ ("/"%char ∉ n) /\
  (to_last_slash l = [] \/ exists h, to_last_slash l = h ++ ["/"%char]).
Proof.
  induction l as [|c l (n & Hl & Hn & Hh)]; [exists []; split_and!; [done|apply not_elem_of_nil|by left]|].
  cbn. destruct (to_last_slash l) as [|d h] eqn:E.
  - cbn in Hl. subst n. case_decide as Hc.
    + subst. exists l. split_and!; [done|done|]. right. by exists [].
    + exists (c :: l). split_and!; [done| |by left]. by apply not_elem_of_cons.
  - exists n. split_and!; [cbn; by rewrite Hl at 1|done|]. right.
    destruct Hh as [?|[h' ->]]; [done|]. by exists (c :: h').
Qed.
Lemma strip_slashes_split l : exists k, l = strip_slashes l ++ replicate k "/"%char.
Proof.
  induction l as [|c l (k & IH)] using rev_ind; [by exists 0|].
  rewrite strip_slashes_snoc. case_decide as Hc; [|exists 0; by rewrite app_nil_r].
  subst c. exists (S k). rewrite replicate_S_end, app_assoc. by f_equal.
Qed.

Lemma split_slashes k s : split_on "/" (string_of_list_ascii (replicate k "/"%char) +:+ s)
  = replicate k "" ++ split_on "/" s.
Proof.
  induction k as [|k IH]; [done|]. cbn [replicate string_of_list_ascii app].
  change (String "/" ?a +:+ s) with (String "/" (a +:+ s)). cbn [split_on].
  rewrite decide_True by done. by rewrite <- IH.
Qed.

(** The directory of a path has components of the path, and empty ones. *)
Lemma dirname_components p x : x ∈ split_on "/" (dirname p) -> x = "" \/ x ∈ split_on "/" p.
Proof.
  unfold dirname. destruct (to_last_slash_split (list_ascii_of_string p)) as (n & Hp & Hn & Hh).
  set (head := to_last_slash (list_ascii_of_string p)) in *.
  destruct (strip_slashes_split head) as [k Hk].
  assert (Hstr : p = string_of_list_ascii (strip_slashes head) +:+
    (string_of_list_ascii (replicate k "/"%char) +:+ string_of_list_ascii n)).
  { rewrite <- (string_of_list_ascii_of_string p), Hp, <- !string_of_list_ascii_app, app_assoc.
    by rewrite <- Hk. }
  destruct (strip_slashes head) as [|c h] eqn:E.
  - cbn [app] in Hk. rewrite Hk. intros Hin. left. clear -Hin.
    pose proof (split_slashes k "") as Hs. rewrite str_append_nil_r in Hs. rewrite Hs in Hin.
    apply elem_of_app in Hin as [Hin|Hin]; [by apply elem_of_replicate in Hin as [-> _]|].
    by apply elem_of_cons in Hin as [->|?%elem_of_nil].
  - intros Hin. right. rewrite Hstr. destruct k as [|k].
    + exfalso. rewrite app_nil_r in Hk. destruct Hh as [Hh|[h' Hh]]; [by rewrite Hh in Hk|].
      rewrite Hh in E. rewrite strip_slashes_snoc, decide_True in E by done.
      destruct (strip_slashes_split h') as [k' Hk']. rewrite E in Hk'.
      apply (f_equal length) in Hh, Hk, Hk'. rewrite length_app in Hh, Hk'. cbn in *. lia.
    + cbn [replicate string_of_list_ascii].
      change (String "/" ?a +:+ ?s) with (String "/" (a +:+ s)). rewrite split_on_app.
      apply elem_of_app. by left.
Qed.

Lemma basename_component p : basename p ∈ split_on "/" p.
Proof.
  unfold basename. destruct (last (split_on "/" p)) as [x|] eqn:E.
  - by apply last_Some_elem_of.
  - by apply last_None, split_on_nonempty in E.
Qed.
Lemma basename_join d n : regular d -> plain n -> basename (path_join d n) = n.
Proof.
  intros [H1 H2] Hn. rewrite join_plain by done. unfold basename.
  change ("/" +:+ n) with (String "/" n). rewrite split_on_app, (split_on_free _ n) by apply Hn.
  by rewrite last_snoc.
Qed.

(** The directory of a path is shorter, or the path itself at a root. *)
Lemma dirname_prefix p : exists s, p = dirname p +:+ s.
Proof.
  unfold dirname. destruct (to_last_slash_split (list_ascii_of_string p)) as (n & Hp & _).
  set (head := to_last_slash (list_ascii_of_string p)) in *.
  destruct (strip_slashes_split head) as [k Hk].
  assert (Hstr : forall a b, list_ascii_of_string p = a ++ b ->
    p = string_of_list_ascii a +:+ string_of_list_ascii b).
  { intros a b Hab. by rewrite <- (string_of_list_ascii_of_string p), Hab, string_of_list_ascii_app. }
  destruct (strip_slashes head) as [|c h] eqn:E; eexists; apply Hstr; [exact Hp|].
  by rewrite Hp, Hk, <- app_assoc at 1.
Qed.
Lemma dirname_shorter p : dirname p = p \/ String.length (dirname p) < String.length p.
Proof.
  destruct (dirname_prefix p) as [s Hp]. destruct s as [|c s].
  - left. symmetry. rewrite Hp at 1. apply str_append_nil_r.
  - right. rewrite Hp at 2. rewrite str_length_append. cbn. lia.
Qed.

(** The directory of an absolute path is absolute. *)
Definition absolute (p : string) : Prop := exists r, p = String "/" r.
Lemma dirname_absolute p : absolute p -> absolute (dirname p).
Proof.
  intros [r ->]. unfold dirname. set (l := list_ascii_of_string (String "/" r)).
  assert (Hh : exists h, to_last_slash l = "/"%char :: h).
  { cbn. destruct (to_last_slash (list_ascii_of_string r)); [|by eexists]. rewrite decide_True by done. by eexists. }
  destruct Hh as [h Hh]. rewrite Hh. destruct (strip_slashes_split ("/"%char :: h)) as [k Hk].
  destruct (strip_slashes ("/"%char :: h)) as [|c s]; [by eexists|].
  injection Hk as <- _. by eexists.
Qed.
