(* ===== verification/CreateModule.v ===== *)
(** * The module creator: [src/src/create-module.py]

    [main] checks the name of a new module and makes its directory: subdirectories and
    nine files from templates.  It is a computation over the file system and the
    lines printed, in which any call to the system can raise.  The command line has
    been parsed ([args]); names are ASCII text. *)

From S2P Require Import Prelude State PyLib Format Files.
From Stdlib Require Import Ascii String.
From stdpp Require Import strings.
Open Scope string_scope.
Open Scope nat_scope.
Open Scope list_scope.

(** ** Templates

    A double quote in a template is written as an at sign. *)

Definition template (s : string) : string := replace_char "@"%char quote s.

Definition WSCRIPT_TEMPLATE : string := template "# -*- Mode: python; py-indent-offset: 4; indent-tabs-mode: nil; coding: utf-8; -*-

# def options(opt):
#     pass

# def configure(conf):
#     conf.check_nonfatal(header_name='stdint.h', define_name='HAVE_STDINT_H')

def build(bld):
    module = bld.create_ns3_module(%(MODULE)r, ['core'])
    module.source = [
        'model/%(MODULE)s.cc',
        'helper/%(MODULE)s-helper.cc',
        ]

    module_test = bld.create_ns3_module_test_library('%(MODULE)s')
    module_test.source = [
        'test/%(MODULE)s-test-suite.cc',
        ]

    headers = bld(features='ns3header')
    headers.module = %(MODULE)r
    headers.source = [
        'model/%(MODULE)s.h',
        'helper/%(MODULE)s-helper.h',
        ]

    if bld.env.ENABLE_EXAMPLES:
        bld.recurse('examples')

    # bld.ns3_python_bindings()

".

Definition MODEL_CC_TEMPLATE : string := template "/* -*- Mode:C++; c-file-style:@gnu@; indent-tabs-mode:nil; -*- */

#include @%(MODULE)s.h@

namespace ns3 {

/* ... */


}

".

Definition MODEL_H_TEMPLATE : string := template "/* -*- Mode:C++; c-file-style:@gnu@; indent-tabs-mode:nil; -*- */
#ifndef %(INCLUDE_GUARD)s
#define %(INCLUDE_GUARD)s

namespace ns3 {

/* ... */

}

#endif /* %(INCLUDE_GUARD)s */

".

Definition HELPER_CC_TEMPLATE : string := template "/* -*- Mode:C++; c-file-style:@gnu@; indent-tabs-mode:nil; -*- */

#include @%(MODULE)s-helper.h@

namespace ns3 {

/* ... */


}

".

Definition HELPER_H_TEMPLATE : string := template "/* -*- Mode:C++; c-file-style:@gnu@; indent-tabs-mode:nil; -*- */
#ifndef %(INCLUDE_GUARD)s
#define %(INCLUDE_GUARD)s

#include @ns3/%(MODULE)s.h@

namespace ns3 {

/* ... */

}

#endif /* %(INCLUDE_GUARD)s */

".

Definition EXAMPLES_WSCRIPT_TEMPLATE : string := template "# -*- Mode: python; py-indent-offset: 4; indent-tabs-mode: nil; coding: utf-8; -*-

def build(bld):
    obj = bld.create_ns3_program('%(MODULE)s-example', [%(MODULE)r])
    obj.source = '%(MODULE)s-example.cc'

".

Definition EXAMPLE_CC_TEMPLATE : string := template "/* -*- Mode:C++; c-file-style:@gnu@; indent-tabs-mode:nil; -*- */

#include @ns3/core-module.h@
#include @ns3/%(MODULE)s-helper.h@

using namespace ns3;


int 
main (int argc, char *argv[])
{
  bool verbose = true;

  CommandLine cmd;
  cmd.AddValue (@verbose@, @Tell application to log if true@, verbose);

  cmd.Parse (argc,argv);

  /* ... */

  Simulator::Run ();
  Simulator::Destroy ();
  return 0;
}


".

Definition TEST_CC_TEMPLATE : string := template "/* -*- Mode:C++; c-file-style:@gnu@; indent-tabs-mode:nil; -*- */

// Include a header file from your module to test.
#include @ns3/%(MODULE)s.h@

// An essential include is test.h
#include @ns3/test.h@

// Do not put your test classes in namespace ns3.  You may find it useful
// to use the using directive to access the ns3 namespace directly
using namespace ns3;

// This is an example TestCase.
class %(CAPITALIZED)sTestCase1 : public TestCase
{
public:
  %(CAPITALIZED)sTestCase1 ();
  virtual ~%(CAPITALIZED)sTestCase1 ();

private:
  virtual void DoRun (void);
};

// Add some help text to this case to describe what it is intended to test
%(CAPITALIZED)sTestCase1::%(CAPITALIZED)sTestCase1 ()
  : TestCase (@%(CAPITALIZED)s test case (does nothing)@)
{
}

// This destructor does nothing but we include it as a reminder that
// the test case should clean up after itself
%(CAPITALIZED)sTestCase1::~%(CAPITALIZED)sTestCase1 ()
{
}

//
// This method is the pure virtual method from class TestCase that every
// TestCase must implement
//
void
%(CAPITALIZED)sTestCase1::DoRun (void)
{
  // A wide variety of test macros are available in src/core/test.h
  NS_TEST_ASSERT_MSG_EQ (true, true, @true doesn't equal true for some reason@);
  // Use this one for floating point comparisons
  NS_TEST_ASSERT_MSG_EQ_TOL (0.01, 0.01, 0.001, @Numbers are not equal within tolerance@);
}

// The TestSuite class names the TestSuite, identifies what type of TestSuite,
// and enables the TestCases to be run.  Typically, only the constructor for
// this class must be defined
//
class %(CAPITALIZED)sTestSuite : public TestSuite
{
public:
  %(CAPITALIZED)sTestSuite ();
};

%(CAPITALIZED)sTestSuite::%(CAPITALIZED)sTestSuite ()
  : TestSuite (@%(MODULE)s@, UNIT)
{
  // TestDuration for TestCase can be QUICK, EXTENSIVE or TAKES_FOREVER
  AddTestCase (new %(CAPITALIZED)sTestCase1, TestCase::QUICK);
}

// Do not forget to allocate an instance of this TestSuite
static %(CAPITALIZED)sTestSuite %(COMPOUND)sTestSuite;

".

Definition DOC_RST_TEMPLATE : string := template "Example Module Documentation
----------------------------

.. include:: replace.txt
.. highlight:: cpp

.. heading hierarchy:
   ------------- Chapter
   ************* Section (#.#)
   ============= Subsection (#.#.#)
   ############# Paragraph (no number)

This is a suggested outline for adding new module documentation to |ns3|.
See ``src/click/doc/click.rst`` for an example.

The introductory paragraph is for describing what this code is trying to
model.

For consistency (italicized formatting), please use |ns3| to refer to
ns-3 in the documentation (and likewise, |ns2| for ns-2).  These macros
are defined in the file ``replace.txt``.

Model Description
*****************

The source code for the new module lives in the directory ``src/%(MODULE)s``.

Add here a basic description of what is being modeled.

Design
======

Briefly describe the software design of the model and how it fits into 
the existing ns-3 architecture. 

Scope and Limitations
=====================

What can the model do?  What can it not do?  Please use this section to
describe the scope and limitations of the model.

References
==========

Add academic citations here, such as if you published a paper on this
model, or if readers should read a particular specification or other work.

Usage
*****

This section is principally concerned with the usage of your model, using
the public API.  Focus first on most common usage patterns, then go
into more advanced topics.

Building New Module
===================

Include this subsection only if there are special build instructions or
platform limitations.

Helpers
=======

What helper API will users typically use?  Describe it here.

Attributes
==========

What classes hold attributes, and what are the key ones worth mentioning?

Output
======

What kind of data does the model generate?  What are the key trace
sources?   What kind of logging output can be enabled?

Advanced Usage
==============

Go into further details (such as using the API outside of the helpers)
in additional sections, as needed.

Examples
========

What examples using this new code are available?  Describe them here.

Troubleshooting
===============

Add any tips for avoiding pitfalls, etc.

Validation
**********

Describe how the model has been tested/validated.  What tests run in the
test suite?  How much API and code is covered by the tests?  Again, 
references to outside published work may help here.
".

(** ** The program *)

Inductive exn := Os (e : os_exn) | Fmt (e : fmt_exn) | AssertionError.
Record world := mkWorld { files_of : fs; printed : list string }.
Abbreviation M := (st world exn).
Definition print (s : string) : M unit :=
  modify (fun w => mkWorld (files_of w) (printed w ++ [s])).
(** A call to the file system. *)
Definition call (f : fs -> res os_exn fs) : M unit := fun w =>
  match f (files_of w) with
  | Ok w' => (Ok tt, mkWorld w' (printed w))
  | Raise e => (Raise (Os e), w)
  | OutOfFuel => (OutOfFuel, w)
  end.
Definition formatted (t : string) (env : fields) : M string :=
  match format t env with
  | Ok s => ret s
  | Raise e => raise (Fmt e)
  | OutOfFuel => fun w => (OutOfFuel, w)
  end.

(** [False in [word.isalnum() for word in modname.split("-")]] *)
Definition bad_name (modname : string) : bool :=
  negb (forallb isalnum (split_on "-"%char modname)).
Definition include_guard (modname suffix : string) : string :=
  upper (replace_char "-"%char "_"%char modname) +:+ suffix.
Definition capitalized (modname : string) : string :=
  str_join "" (map capitalize (split_on "-"%char modname)).
Definition compound (modname : string) : string :=
  let words := split_on "-"%char modname in
  str_join "" (take 1 words ++ map capitalize (drop 1 words)).

Section Main.
Context `{Permissions}.
(** Opening a file, formatting a template, writing and closing; a file that opens can be written and closed. *)
Definition create (path t : string) (env : fields) : M unit :=
  let! _ := call (open_wt path) in
  let! s := formatted t env in
  modify (fun w => mkWorld (write_file path s (files_of w)) (printed w)).

(** The directory of the script. *)
Context (here : string).

Definition main (args : list string) : M Z :=
  match args with
  | [arg] =>
      let modname := lower arg in
      if bad_name modname then
        let! _ := print "Module name should only contain alphanumeric characters and dashes" in
        ret 2%Z
      else if bool_decide ("/"%char ∈ list_ascii_of_string modname) then raise AssertionError
      else
        let moduledir := path_join here modname in
        let! exists_ := reads (fun w => exists_path moduledir (files_of w)) in
        if exists_ then
          let! _ := print ("Module " +:+ py_repr modname +:+ " already exists") in ret 2%Z
        else
          let! _ := print ("Creating module " +:+ py_repr modname +:+
            ", run './waf configure' to include it in the build") in
          let! _ := call (mkdir moduledir) in
          let! _ := create (path_join moduledir "wscript") WSCRIPT_TEMPLATE [("MODULE", modname)] in
          let modeldir := path_join moduledir "model" in
          let! _ := call (mkdir modeldir) in
          let! _ := create (path_join modeldir (modname +:+ ".cc"))
            MODEL_CC_TEMPLATE [("MODULE", modname)] in
          let! _ := create (path_join modeldir (modname +:+ ".h"))
            MODEL_H_TEMPLATE [("MODULE", modname); ("INCLUDE_GUARD", include_guard modname "_H")] in
          let testdir := path_join moduledir "test" in
          let! _ := call (mkdir testdir) in
          let! _ := create (path_join testdir (modname +:+ "-test-suite.cc"))
            TEST_CC_TEMPLATE [("MODULE", modname); ("CAPITALIZED", capitalized modname);
                              ("COMPOUND", compound modname)] in
          let helperdir := path_join moduledir "helper" in
          let! _ := call (mkdir helperdir) in
          let! _ := create (path_join helperdir (modname +:+ "-helper.cc"))
            HELPER_CC_TEMPLATE [("MODULE", modname)] in
          let! _ := create (path_join helperdir (modname +:+ "-helper.h"))
            HELPER_H_TEMPLATE [("MODULE", modname);
                               ("INCLUDE_GUARD", include_guard modname "_HELPER_H")] in
          let examplesdir := path_join moduledir "examples" in
          let! _ := call (mkdir examplesdir) in
          let! _ := create (path_join examplesdir "wscript")
            EXAMPLES_WSCRIPT_TEMPLATE [("MODULE", modname)] in
          let! _ := create (path_join examplesdir (modname +:+ "-example.cc"))
            EXAMPLE_CC_TEMPLATE [("MODULE", modname)] in
          let docdir := path_join moduledir "doc" in
          let! _ := call (mkdir docdir) in
          let! _ := create (path_join docdir (modname +:+ ".rst"))
            DOC_RST_TEMPLATE [("MODULE", modname)] in
          ret 0%Z
  | _ => let! _ := print "usage" in ret 1%Z
  end.
End Main.

(** ** What a module consists of *)

(** The directories and files of a module by their names below its directory, in the
    order in which they are made. *)
Inductive entry := Dir (parts : list string) | File (parts : list string) (t : string) (env : fields).
Definition entry_parts (e : entry) : list string := match e with Dir p => p | File p _ _ => p end.
Definition module_entries (m : string) : list entry := [
  Dir [];
  File ["wscript"] WSCRIPT_TEMPLATE [("MODULE", m)];
  Dir ["model"];
  File ["model"; m +:+ ".cc"] MODEL_CC_TEMPLATE [("MODULE", m)];
  File ["model"; m +:+ ".h"] MODEL_H_TEMPLATE
    [("MODULE", m); ("INCLUDE_GUARD", include_guard m "_H")];
  Dir ["test"];
  File ["test"; m +:+ "-test-suite.cc"] TEST_CC_TEMPLATE
    [("MODULE", m); ("CAPITALIZED", capitalized m); ("COMPOUND", compound m)];
  Dir ["helper"];
  File ["helper"; m +:+ "-helper.cc"] HELPER_CC_TEMPLATE [("MODULE", m)];
  File ["helper"; m +:+ "-helper.h"] HELPER_H_TEMPLATE
    [("MODULE", m); ("INCLUDE_GUARD", include_guard m "_HELPER_H")];
  Dir ["examples"];
  File ["examples"; "wscript"] EXAMPLES_WSCRIPT_TEMPLATE [("MODULE", m)];
  File ["examples"; m +:+ "-example.cc"] EXAMPLE_CC_TEMPLATE [("MODULE", m)];
  Dir ["doc"];
  File ["doc"; m +:+ ".rst"] DOC_RST_TEMPLATE [("MODULE", m)] ].
Definition is_dir_entry (e : entry) : bool := match e with Dir _ => true | _ => false end.
Definition at_root (root : string) (e : entry) : string := path_at root (entry_parts e).

Section MainSpec.
Context `{Permissions}.

(** Making one entry. *)
Definition make (root : string) (e : entry) : M unit :=
  match e with
  | Dir p => call (mkdir (path_at root p))
  | File p t env => create (path_at root p) t env
  end.

Lemma bind_assoc {A B C} (m : M A) (f : A -> M B) (g : B -> M C) w :
  bind (bind m f) g w = bind m (fun a => bind (f a) g) w.
Proof. unfold bind. by destruct (m w) as [[a|e|] w1]. Qed.
Lemma bind_ext {A B} (m : M A) (f g : A -> M B) w : (forall a w, f a w = g a w) -> bind m f w = bind m g w.
Proof. intros Hfg. unfold bind. by destruct (m w) as [[a|e|] w1]. Qed.
Lemma iter_bind {A B} (f : A -> M unit) (l : list A) (k : M B) w :
  bind (iter_m f l) (fun _ => k) w = fold_right (fun x m => bind (f x) (fun _ => m)) k l w.
Proof.
  revert w. induction l as [|x l IH]; intros w; [done|]. cbn. rewrite bind_assoc.
  apply bind_ext. intros _. exact IH.
Qed.

(** A good name has only letters, digits and dashes. *)
Lemma name_chars m : bad_name m = false ->
  str_all is_name_char m = true /\ plain m.
Proof.
  unfold bad_name. intros Hb%negb_false_iff.
  assert (Hc : str_all is_name_char m = true).
  { assert (Hgen : forall s, forallb (str_all is_alnum_char) (split_on "-" s) = true -> str_all is_name_char s = true).
    { induction s as [|c s IH]; [done|]. cbn. unfold is_name_char at 1. case_decide as Hc.
      - subst. cbn. exact IH.
      - destruct (split_on "-" s) as [|x l] eqn:E; [by apply split_on_nonempty in E|].
        cbn. intros [[H1 H2]%andb_true_iff H3]%andb_true_iff. rewrite H1. cbn. apply IH. cbn.
        by rewrite H2, H3. }
    apply Hgen. rewrite forallb_forall in Hb |- *. intros x Hx. specialize (Hb x Hx). by destruct x. }
  split; [done|]. split.
  - clear Hb. induction m as [|c m IH]; cbn in *; [by intros ?%elem_of_nil|].
    apply andb_true_iff in Hc as [Hc Hm]. rewrite elem_of_cons. intros [<-|Hin]; [done|].
    by apply IH.
  - intros ->. done.
Qed.

(** On a good name, [main] is the making of the entries one after the other. *)
Lemma main_run here arg w (modname := lower arg) (moduledir := path_join here modname) :
  bad_name modname = false -> exists_path moduledir (files_of w) = false ->
  main here [arg] w = bind (iter_m (make moduledir) (module_entries modname)) (fun _ => ret 0%Z)
    (mkWorld (files_of w) (printed w ++ ["Creating module " +:+ py_repr modname +:+
      ", run './waf configure' to include it in the build"])).
Proof.
  intros Hbad Hex. destruct (name_chars _ Hbad) as [_ [Hplain _]].
  unfold main. fold modname. rewrite Hbad.
  rewrite bool_decide_eq_false_2 by exact Hplain. fold moduledir.
  unfold bind at 1, reads. cbv beta iota. rewrite Hex.
  unfold bind at 1, print at 1, modify at 1. cbv beta iota. cbn [files_of printed].
  rewrite iter_bind. reflexivity.
Qed.

Lemma module_dir_regular here m : ends_with_slash here = false -> plain m ->
  regular (path_join here m) /\ dirname (path_join here m) = here.
Proof.
  intros Hh Hm. split; [|by apply dirname_join].
  destruct (decide (here = "")) as [E|Hne]; [|by apply join_no_slash].
  rewrite slash_free_join by apply Hm. rewrite decide_True by done.
  split; [apply Hm|]. apply bool_decide_eq_false. destruct Hm as [Hs _]. intros Hl.
  apply Hs. by apply last_Some_elem_of in Hl.
Qed.

Lemma entries_plain m : plain m -> Forall (fun e => Forall plain (entry_parts e)) (module_entries m).
Proof.
  intros Hm. unfold module_entries.
  repeat first [apply Forall_cons; split | apply Forall_nil; done]; cbn [entry_parts];
    repeat first [apply Forall_cons; split | apply Forall_nil; done];
    first [by apply plain_literal | by apply plain_append].
Qed.

(** Entries that can be made one after the other: the directory of each is there,
    or comes earlier. *)
Fixpoint parents_ok (root : string) (known : list string) (l : list entry) : Prop :=
  match l with
  | [] => True
  | e :: l => dirname (at_root root e) ∈ known /\
      parents_ok root (if is_dir_entry e then at_root root e :: known else known) l
  end.
(** The same on the names, which can be computed. *)
Fixpoint parts_ok (known : list (list string)) (l : list entry) : bool :=
  match l with
  | [] => true
  | e :: l => bool_decide (entry_parts e <> []) && bool_decide (removelast (entry_parts e) ∈ known) &&
      parts_ok (if is_dir_entry e then entry_parts e :: known else known) l
  end.
Lemma parts_parents root known paths l : regular root ->
  Forall (fun e => Forall plain (entry_parts e)) l ->
  (forall p, p ∈ known -> path_at root p ∈ paths) ->
  parts_ok known l = true -> parents_ok root paths l.
Proof.
  intros Hr. revert known paths. induction l as [|e l IH]; intros known paths Hl Hk; [done|].
  apply Forall_cons in Hl as [He Hl]. cbn [parts_ok parents_ok].
  intros [[Hne Hin]%andb_true_iff Hok]%andb_true_iff.
  apply bool_decide_eq_true in Hne, Hin. split.
  - unfold at_root. rewrite (app_removelast_last "" Hne) in He |- *.
    apply Forall_app in He as [H1 [H2 _]%Forall_cons].
    rewrite path_at_dirname by done. by apply Hk.
  - eapply IH, Hok; [done|]. intros p Hp. destruct (is_dir_entry e); [|by apply Hk].
    apply elem_of_cons in Hp as [->|Hp]; [by left|right; by apply Hk].
Qed.

Lemma create_ok p t env s w : is_dir p (files_of w) = false ->
  is_dir (dirname p) (files_of w) = true -> allowed p = true -> format t env = Ok s ->
  create p t env w
  = (Ok tt, mkWorld (mkFs (dirs (files_of w)) (<[p := s]> (files (files_of w)))) (printed w)).
Proof.
  intros H1 H2 H3 H4. unfold create, call, formatted, bind, modify, ret.
  rewrite open_ok by done. rewrite H4. cbn. do 3 f_equal. unfold write_file. cbn.
  by rewrite alter_insert_eq.
Qed.

Lemma make_all root l known w :
  (forall d, d ∈ known -> is_dir d (files_of w) = true) ->
  NoDup (map (at_root root) l) ->
  (forall e, e ∈ l -> exists_path (at_root root e) (files_of w) = false
     /\ allowed (at_root root e) = true) ->
  parents_ok root known l ->
  (forall p t env, File p t env ∈ l -> exists s, format t env = Ok s) ->
  exists w', iter_m (make root) l w = (Ok tt, w') /\ printed w' = printed w /\
    dirs (files_of w') = list_to_set (map (at_root root) (List.filter is_dir_entry l)) ∪ dirs (files_of w) /\
    (forall p t env, File p t env ∈ l -> exists s, format t env = Ok s /\
       files (files_of w') !! path_at root p = Some s) /\
    (forall q, q ∉ map (at_root root) l ->
       files (files_of w') !! q = files (files_of w) !! q).
Proof.
  revert known w. induction l as [|e l IH]; intros known w Hk Hnd Hfresh Hpar Hfmt.
  { exists w. cbn. repeat (split; [by rewrite ?(left_id_L ∅ _)|]). split; [|done].
    by intros p t env ?%elem_of_nil. }
  cbn in Hnd. apply NoDup_cons in Hnd as [Hnot Hnd]. cbn in Hpar. destruct Hpar as [Hp Hpar].
  destruct (Hfresh e) as [Hex Hal]; [by left|].
  apply Hk in Hp. apply orb_false_iff in Hex as [Hnd' Hnf]. cbn [map iter_m].
  set (w1 := mkWorld match e with
    | Dir p => mkFs ({[path_at root p]} ∪ dirs (files_of w)) (files (files_of w))
    | File p t env => mkFs (dirs (files_of w))
        (<[path_at root p := match format t env with Ok s => s | _ => "" end]> (files (files_of w)))
    end (printed w)).
  assert (Hmake : make root e w = (Ok tt, w1)).
  { destruct e as [p|p t env]; unfold at_root in *; cbn [make entry_parts] in *.
    - unfold call. rewrite mkdir_ok; [done| |done..]. unfold exists_path. by rewrite Hnd', Hnf.
    - destruct (Hfmt p t env) as [s Hs]; [by left|]. unfold w1. rewrite Hs. by apply create_ok. }
  assert (Hdirs1 : forall d, is_dir d (files_of w1) = true <->
    is_dir d (files_of w) = true \/ is_dir_entry e = true /\ d = at_root root e).
  { intros d. rewrite !is_dir_spec. unfold w1. destruct e as [p|p t env]; cbn; [|naive_solver].
    rewrite elem_of_union, elem_of_singleton. unfold at_root. cbn. naive_solver. }
  assert (Hfiles1 : forall q, q <> at_root root e ->
    files (files_of w1) !! q = files (files_of w) !! q).
  { intros q Hq. unfold w1. destruct e; cbn in *; [done|]. by rewrite lookup_insert_ne. }
  destruct (IH (if is_dir_entry e then at_root root e :: known else known) w1)
    as (w' & Hrun & Hpr & Hd & Hf & Hrest); [|done| |done| |].
  { intros d Hd. apply Hdirs1. destruct (is_dir_entry e); [|left; by apply Hk].
    apply elem_of_cons in Hd as [->|Hd]; [by right|left; by apply Hk]. }
  { intros e' He'. destruct (Hfresh e') as [Hex' Hal']; [by right|]. split; [|done].
    apply orb_false_iff in Hex' as [Hd' Hf']. apply orb_false_iff.
    assert (Hne : at_root root e' <> at_root root e).
    { intros Heq. apply Hnot. rewrite <- Heq. by apply list_elem_of_fmap_2. }
    split.
    - apply not_true_iff_false in Hd'. apply not_true_iff_false. rewrite Hdirs1. naive_solver.
    - apply has_key_false. rewrite Hfiles1 by done. by apply has_key_false. }
  { intros p t env Hin. apply (Hfmt p t env). by right. }
  exists w'. split; [by rewrite (bind_ok _ _ _ _ _ Hmake)|].
  split; [by rewrite Hpr|]. split_and!.
  - rewrite Hd. unfold w1. destruct e as [p|]; cbn; [|done]. unfold at_root. cbn. set_solver.
  - intros p t env [<-|Hin]%elem_of_cons; [|by apply Hf].
    destruct (Hfmt p t env) as [s Hs]; [by left|]. exists s. split; [done|].
    rewrite Hrest by done. unfold w1. cbn. by rewrite lookup_insert_eq, Hs.
  - intros q [Hq1 Hq2]%not_elem_of_cons. rewrite Hrest by done. by apply Hfiles1.
Qed.

(** What can be computed about the templates. *)
Definition template_ok (t : string) (names : list string) : bool :=
  match parse_fmt InText t with Ok l => fields_in names l | _ => false end.
Lemma format_total t env : template_ok t env.*1 = true -> exists s, format t env = Ok s.
Proof.
  unfold template_ok, format. destruct (parse_fmt InText t) as [l| |]; [|done..].
  intros Hl. cbn. exists (text env l). by apply (render_ok env env.*1).
Qed.
Lemma module_formats m p t env : File p t env ∈ module_entries m -> exists s, format t env = Ok s.
Proof.
  unfold module_entries. rewrite !elem_of_cons. intros Hin.
  destruct_or!; try done; try (by apply elem_of_nil in Hin);
    injection Hin as _ -> ->; apply format_total; vm_compute; reflexivity.
Qed.

Lemma wscript_name m : "wscript" <> m +:+ "-example.cc".
Proof.
  intros Heq%(f_equal (fun s => last (list_ascii_of_string s))).
  by rewrite list_ascii_append, last_app in Heq.
Qed.

(** Names of files that end differently are different. *)
Lemma entries_distinct m : plain m -> NoDup (map entry_parts (module_entries m)).
Proof.
  intros Hm. unfold module_entries. cbn [map entry_parts].
  assert (Hne : forall a b, a <> b -> m +:+ a <> m +:+ b).
  { intros a b Hab Heq. by apply append_inj_l in Heq. }
  pose proof (wscript_name m) as Hw.
  repeat (apply NoDup_cons; split; [|]); [..|apply NoDup_nil; done];
    rewrite ?not_elem_of_cons; split_and?; try (by apply not_elem_of_nil); try done;
    intros [= E]; try done; by apply Hne in E.
Qed.

(** ** Adding only below the directory of the module *)

(** What may have changed since [w0]: entries at or below the root are new. *)
Record extends (root : string) (w0 w : fs) : Prop := {
  ext_wf : wf_fs w;
  ext_dirs : dirs w0 ⊆ dirs w;
  ext_files : files w0 ⊆ files w;
  ext_new : forall p, exists_path p w = true ->
    exists_path p w0 = true \/ exists parts, p = path_at root parts }.
(** Only the system makes it fail. *)
Definition system_only {A} (r : res exn A) : Prop :=
  match r with Ok _ => True | Raise (Os _) => True | _ => False end.

Lemma exists_path_spec p w : exists_path p w = true <-> p = "" \/ p ∈ dirs w \/ p ∈ dom (files w).
Proof. unfold exists_path. rewrite orb_true_iff, is_dir_spec, has_key_true. tauto. Qed.

Lemma make_extends root w0 e w : extends root w0 (files_of w) -> exists_path (at_root root e) w0 = false ->
  match e with File _ t env => exists s, format t env = Ok s | _ => True end ->
  extends root w0 (files_of (make root e w).2) /\ system_only (make root e w).1.
Proof.
  intros Hw Hfresh Hfmt. apply orb_false_iff in Hfresh as [Hnd Hnf]. apply has_key_false in Hnf.
  destruct e as [p|p t env]; unfold at_root in *; cbn [make entry_parts] in *.
  - unfold call. destruct (mkdir _ (files_of w)) as [w'| |] eqn:E; [|by split|unfold mkdir in E; repeat case_match; done].
    split; [|done]. cbn [snd files_of]. pose proof E as (_ & _ & ->)%mkdir_inv. split; cbn.
    + eapply mkdir_wf, E. apply Hw.
    + pose proof (ext_dirs _ _ _ Hw). set_solver.
    + apply Hw.
    + intros q. rewrite exists_path_spec. cbn. rewrite elem_of_union, elem_of_singleton.
      intros [?|[[->|?]|?]]; [|right; by eexists| |]; apply Hw, exists_path_spec; tauto.
  - destruct Hfmt as [s Hs]. unfold create, formatted. rewrite Hs. unfold call, bind, modify, ret.
    destruct (open_wt _ (files_of w)) as [w'| |] eqn:E; [|by split|unfold open_wt in E; repeat case_match; done].
    split; [|done]. cbn [snd files_of]. pose proof E as (_ & _ & Hw')%open_inv. split; cbn.
    + apply write_wf. eapply open_wf, E. apply Hw.
    + rewrite Hw'. apply Hw.
    + rewrite Hw'. cbn. rewrite alter_insert_eq. pose proof (ext_files _ _ _ Hw) as Hf.
      rewrite map_subseteq_spec in Hf |- *. intros q x Hq. rewrite lookup_insert_ne; [by apply Hf|].
      intros <-. congruence.
    + intros q. rewrite exists_path_spec. rewrite Hw'. cbn. rewrite alter_insert_eq, dom_insert, elem_of_union, elem_of_singleton.
      intros [?|[?|[->|?]]]; [| |right; by eexists|]; apply Hw, exists_path_spec; tauto.
Qed.

Lemma make_all_extends root w0 l w : extends root w0 (files_of w) ->
  (forall e, e ∈ l -> exists_path (at_root root e) w0 = false) ->
  (forall p t env, File p t env ∈ l -> exists s, format t env = Ok s) ->
  extends root w0 (files_of (iter_m (make root) l w).2) /\ system_only (iter_m (make root) l w).1.
Proof.
  revert w. induction l as [|e l IH]; intros w Hw Hfresh Hfmt; [by split|]. cbn [iter_m].
  destruct (make_extends root w0 e w) as [H1 H2]; [done|by apply Hfresh; left| |].
  { destruct e; [done|]. eapply Hfmt. by left. }
  unfold bind. destruct (make root e w) as [[[]|x|] w1]; cbn in *; [|by split|done].
  apply IH; [done| |]; intros; [apply Hfresh|eapply Hfmt]; by right.
Qed.
End MainSpec.

(** ** The properties *)

(** C26: on a good name that is new, when the system allows the entries, the
    program returns 0 and has made the six directories and the nine files of the
    module, each file with its template's text, and has changed nothing else. *)
Theorem main_creates `{Permissions} (here arg : string) (w : world)
    (Hhere : ends_with_slash here = false) (Hdir : is_dir here (files_of w) = true)
    (Hwf : wf_fs (files_of w)) (Hname : bad_name (lower arg) = false)
    (Hnew : exists_path (path_join here (lower arg)) (files_of w) = false)
    (Hallow : forall e, e ∈ module_entries (lower arg) ->
       allowed (at_root (path_join here (lower arg)) e) = true) :
  let m := lower arg in let root := path_join here m in
  exists w', main here [arg] w = (Ok 0%Z, w') /\
    dirs (files_of w') = list_to_set
      (map (path_at root) [[]; ["model"]; ["test"]; ["helper"]; ["examples"]; ["doc"]])
      ∪ dirs (files_of w) /\
    (forall p t env, File p t env ∈ module_entries m -> exists s, format t env = Ok s /\
       files (files_of w') !! path_at root p = Some s) /\
    (forall q, q ∉ map (at_root root) (module_entries m) ->
       files (files_of w') !! q = files (files_of w) !! q).
Proof.
  intros m root. destruct (name_chars _ Hname) as [_ Hm].
  destruct (module_dir_regular here m) as [Hr Hd]; [done..|].
  pose proof (entries_plain m Hm) as Hp.
  rewrite main_run by done. fold m root.
  set (w1 := mkWorld _ _).
  assert (Hf : forall e, e ∈ module_entries m -> exists_path (at_root root e) (files_of w) = false).
  { intros e He. rewrite Forall_forall in Hp. by apply fresh_at; [| |apply Hp|]. }
  destruct (make_all root (module_entries m) [here] w1) as (w' & Hrun & _ & H1 & H2 & H3).
  - by intros d [->|?%elem_of_nil]%elem_of_cons.
  - replace (map (at_root root) (module_entries m))
      with (map (path_at root) (map entry_parts (module_entries m))) by apply map_map.
    pose proof (entries_distinct m Hm) as Hnd.
    assert (Hpp : Forall (Forall plain) (map entry_parts (module_entries m))) by (by apply Forall_map).
    revert Hnd Hpp. generalize (map entry_parts (module_entries m)). intros l Hnd.
    induction Hnd as [|p l Hpl Hnd IH]; intros Hl; cbn; [constructor|].
    apply Forall_cons in Hl as [Hpp Hl]. apply NoDup_cons. split; [|by apply IH].
    intros (q & Heq & Hq)%list_elem_of_fmap. rewrite Forall_forall in Hl.
    apply path_at_inj in Heq; [congruence|done..|by apply Hl].
  - intros e He. split; [by apply Hf|by apply Hallow].
  - change (module_entries m) with (Dir [] :: tail (module_entries m)). cbn [parents_ok]. split.
    + apply elem_of_cons. left. exact Hd.
    + apply (parts_parents root [[]]); [done|by inversion Hp| |by vm_compute].
      intros p [->|?%elem_of_nil]%elem_of_cons; [by left|done].
  - apply module_formats.
  - exists w'. split; [|by split].
    by rewrite (bind_ok _ _ _ _ _ Hrun).
Qed.

(** C27: whatever the arguments, the files and the refusals of the system, a run
    leaves every entry as it was and every file system well-formed, adds entries only
    at the directory of the module or below it, ends by itself or by an exception of
    the system, and when it reports an error it has changed nothing. *)
Theorem main_adds_only `{Permissions} (here : string) (args : list string) (w : world)
    (Hhere : ends_with_slash here = false) (Hwf : wf_fs (files_of w)) :
  let '(r, w') := main here args w in
  wf_fs (files_of w') /\ dirs (files_of w) ⊆ dirs (files_of w') /\
  files (files_of w) ⊆ files (files_of w') /\
  (forall p, exists_path p (files_of w') = true -> exists_path p (files_of w) = true \/
     exists arg parts, args = [arg] /\ p = path_at (path_join here (lower arg)) parts) /\
  match r with
  | Ok v => v = 0%Z \/ (v = 1%Z \/ v = 2%Z) /\ files_of w' = files_of w
  | Raise (Os _) => True
  | _ => False
  end.
Proof.
  assert (Hsame : forall w' v, files_of w' = files_of w -> v = 1%Z \/ v = 2%Z ->
    wf_fs (files_of w') /\ dirs (files_of w) ⊆ dirs (files_of w') /\
    files (files_of w) ⊆ files (files_of w') /\
    (forall p, exists_path p (files_of w') = true -> exists_path p (files_of w) = true \/
     exists arg parts, args = [arg] /\ p = path_at (path_join here (lower arg)) parts) /\
    (v = 0%Z \/ (v = 1%Z \/ v = 2%Z) /\ files_of w' = files_of w))
    by (intros w' v -> Hv; split_and!; auto).
  destruct args as [|arg []]; [apply Hsame; auto| |apply Hsame; auto].
  destruct (bad_name (lower arg)) eqn:Hbad.
  { unfold main. rewrite Hbad. apply Hsame; auto. }
  destruct (name_chars _ Hbad) as [_ Hm].
  destruct (exists_path (path_join here (lower arg)) (files_of w)) eqn:Hex.
  { unfold main. rewrite Hbad, bool_decide_eq_false_2 by apply Hm.
    unfold bind at 1, reads. rewrite Hex. apply Hsame; auto. }
  rewrite main_run by done. set (root := path_join here (lower arg)) in *. set (w1 := mkWorld _ _).
  destruct (make_all_extends root (files_of w) (module_entries (lower arg)) w1) as [[H1 H2 H3 H4] H5].
  { split; auto. }
  { intros e He. pose proof (entries_plain _ Hm) as Hp. rewrite Forall_forall in Hp.
    destruct (module_dir_regular here (lower arg)) as [Hr _]; [done..|]. by apply fresh_at; [| |apply Hp|]. }
  { apply module_formats. }
  unfold bind, ret. destruct (iter_m _ _ w1) as [[[]|[]|] w']; cbn in *; try done;
    (split_and!; [done..| |by auto]); intros p Hp; destruct (H4 p Hp) as [|[parts ->]]; eauto.
Qed.

(** ** The generated texts fit together *)

Lemma format_text t env s : format t env = Ok s ->
  exists l, parse_fmt InText t = Ok l /\ s = text env l.
Proof.
  unfold format. destruct (parse_fmt InText t) as [l| |]; [|done..]. cbn. intros Hr. exists l.
  split; [done|]. revert s Hr. induction l as [|[c|k v] l IH]; intros s; cbn.
  - by intros [= <-].
  - destruct (render env l) as [s'| |]; [|done..]. intros [= <-]. by rewrite <- (IH s').
  - destruct (field env k); [|done]. destruct (render env l) as [s'| |]; [|done..].
    intros [= <-]. by rewrite <- (IH s').
Qed.

(** The symbols that stand for a text in a template. *)
Definition symbols (t : string) : list sym :=
  match parse_fmt InText (template t) with Ok l => l | _ => [] end.
(** A template contains a text with fields. *)
Definition mentions (t part : string) : bool :=
  match parse_fmt InText t with Ok l => sym_infix (symbols part) l | _ => false end.
Lemma mentions_contains t part env s : mentions t part = true -> format t env = Ok s ->
  contains (text env (symbols part)) s.
Proof.
  unfold mentions. intros Hm (l & Hl & ->)%format_text. rewrite Hl in Hm. by apply sym_infix_text.
Qed.

(** A generated text contains what its template mentions. *)
Ltac in_template p H :=
  apply mentions_contains with (part := p) in H; [|vm_compute; reflexivity];
  rewrite ?str_append_assoc; exact H.

(** The text that a run has put into a file of the module. *)
Definition generated (m : string) (parts : list string) (s : string) : Prop :=
  exists t env, File parts t env ∈ module_entries m /\ format t env = Ok s.

Definition quoted (q : ascii) (s : string) : string := String q (s +:+ String q "").

(** The script that builds the module names sources and headers that exist: each is
    in the list of it, in single quotes, and is generated; and each source includes the
    headers that it needs by their names. *)
Theorem generated_fit (m : string) :
  (forall s, generated m ["wscript"] s -> Forall (fun p =>
     contains (quoted "'" (str_join "/" p)) s /\ exists s', generated m p s')
     [["model"; m +:+ ".cc"]; ["helper"; m +:+ "-helper.cc"]; ["test"; m +:+ "-test-suite.cc"];
      ["model"; m +:+ ".h"]; ["helper"; m +:+ "-helper.h"]]) /\
  (forall s, generated m ["examples"; "wscript"] s ->
     contains (quoted "'" (m +:+ "-example.cc")) s) /\
  (forall s, generated m ["model"; m +:+ ".cc"] s ->
     contains ("#include " +:+ quoted quote (m +:+ ".h")) s) /\
  (forall s, generated m ["helper"; m +:+ "-helper.cc"] s ->
     contains ("#include " +:+ quoted quote (m +:+ "-helper.h")) s) /\
  (forall s, generated m ["test"; m +:+ "-test-suite.cc"] s ->
     contains ("#include " +:+ quoted quote ("ns3/" +:+ m +:+ ".h")) s).
Proof.
  assert (Hgen : forall p t env, File p t env ∈ module_entries m -> exists s, generated m p s).
  { intros p t env Hin. destruct (module_formats m p t env Hin) as [s Hs]. by exists s, t, env. }
  split; [|split; [|split; [|split]]]; intros s (t & env & Hin & Hs); unfold module_entries in Hin;
    rewrite !elem_of_cons in Hin; destruct_or! Hin; try discriminate; try (by apply elem_of_nil in Hin).
  all: try (by (injection Hin as Hp _ _; apply append_inj_l in Hp)).
  all: try (by (injection Hin as Hp _ _; apply wscript_name in Hp)).
  all: injection Hin as -> ->.
  1: repeat (apply Forall_cons; split; [split|]); [..|by apply Forall_nil].
  all: try (eapply Hgen; unfold module_entries; rewrite !elem_of_cons; tauto).
  all: unfold quoted; cbn [str_join].
  - in_template "'model/%(MODULE)s.cc'" Hs.
  - in_template "'helper/%(MODULE)s-helper.cc'" Hs.
  - in_template "'test/%(MODULE)s-test-suite.cc'" Hs.
  - in_template "'model/%(MODULE)s.h'" Hs.
  - in_template "'helper/%(MODULE)s-helper.h'" Hs.
  - in_template "'%(MODULE)s-example.cc'" Hs.
  - in_template "#include @%(MODULE)s.h@" Hs.
  - in_template "#include @%(MODULE)s-helper.h@" Hs.
  - in_template "#include @ns3/%(MODULE)s.h@" Hs.
Qed.

(** ** On a concrete tree *)

Definition all_allowed : Permissions := fun _ => true.
Definition demo_tree : world := mkWorld (mkFs {["src"]} {["src/create-module.py" := "..."]}) [].
Lemma demo_tree_wf : wf_fs (files_of demo_tree).
Proof.
  split; cbn; intros p Hp.
  - apply elem_of_singleton in Hp as ->. by vm_compute.
  - rewrite dom_singleton, elem_of_singleton in Hp. subst. by vm_compute.
Qed.

Lemma main_creates_witness :
  (bad_name (lower "My-mod") = false /\ exists_path (path_join "src" (lower "My-mod")) (files_of demo_tree) = false) /\
  exists w', @main all_allowed "src" ["My-mod"] demo_tree = (Ok 0%Z, w') /\
    exists s, files (files_of w') !! "src/my-mod/doc/my-mod.rst" = Some s.
Proof.
  split; [by split; vm_compute|].
  destruct (@main_creates all_allowed "src" "My-mod" demo_tree eq_refl eq_refl demo_tree_wf eq_refl eq_refl
    (fun _ _ => eq_refl)) as (w' & Hrun & _ & Hf & _).
  exists w'. split; [exact Hrun|].
  destruct (Hf ["doc"; "my-mod.rst"] DOC_RST_TEMPLATE [("MODULE", "my-mod")]) as (s & _ & Hs).
  - unfold module_entries. rewrite !elem_of_cons. do 14 right. left. reflexivity.
  - exists s. exact Hs.
Defined.

(** The system lets the directory be made, and then has no more room. *)
Definition only_root : Permissions := fun p => bool_decide (p = "src/my-mod").
Lemma main_adds_only_witness :
  ends_with_slash "src" = false /\ wf_fs (files_of demo_tree) /\
  (@main only_root "src" ["my-mod"] demo_tree).1 = Raise (Os PermissionError) /\
  wf_fs (files_of (@main only_root "src" ["my-mod"] demo_tree).2).
Proof.
  split; [reflexivity|]. split; [exact demo_tree_wf|]. split; [vm_compute; reflexivity|].
  pose proof (@main_adds_only only_root "src" ["my-mod"] demo_tree eq_refl demo_tree_wf) as Hm.
  destruct (@main only_root "src" ["my-mod"] demo_tree) as [r w'] eqn:E. cbn. apply Hm.
Defined.

Lemma generated_fit_witness :
  exists s, generated "my-mod" ["examples"; "wscript"] s /\ contains "'my-mod-example.cc'" s.
Proof.
  destruct (module_formats "my-mod" ["examples"; "wscript"] EXAMPLES_WSCRIPT_TEMPLATE [("MODULE", "my-mod")])
    as [s Hs].
  - unfold module_entries. rewrite !elem_of_cons. do 11 right. left. reflexivity.
  - exists s. assert (Hg : generated "my-mod" ["examples"; "wscript"] s).
    { exists EXAMPLES_WSCRIPT_TEMPLATE, [("MODULE", "my-mod")]. split; [|exact Hs].
      unfold module_entries. rewrite !elem_of_cons. do 11 right. left. reflexivity. }
    split; [exact Hg|]. destruct (generated_fit "my-mod") as (_ & H & _). exact (H s Hg).
Defined.

(** ** Names that are not apart enough *)

(** Two modules can have the same include guard, or the same class names, and a name
    that starts with a digit is not refused though its classes cannot be compiled. *)
Lemma guards_collide :
  include_guard "a" "_HELPER_H" = include_guard "a-helper" "_H" /\
  forallb (fun m => negb (bad_name m)) ["a"; "a-helper"] = true.
Proof. by split; vm_compute. Qed.
Lemma classes_collide :
  capitalized "a1" = capitalized "a-1" /\ forallb (fun m => negb (bad_name m)) ["a1"; "a-1"] = true.
Proof. by split; vm_compute. Qed.
Lemma digit_accepted : bad_name "5g" = false /\ capitalized "5g" = "5g".
Proof. by split; vm_compute. Qed.

Definition guard_char (c : ascii) : ascii := upper_char (if decide (c = "-"%char) then "_"%char else c).
Lemma guard_char_inv c : is_name_char c = true -> lower_char c = c ->
  (if decide (guard_char c = "_"%char) then "-"%char else lower_char (guard_char c)) = c.
Proof. destruct c as [[] [] [] [] [] [] [] []]; vm_compute; congruence. Qed.

(** Guards of headers of the same kind are apart. *)
Lemma include_guard_inj m1 m2 suffix : bad_name m1 = false -> bad_name m2 = false ->
  lower m1 = m1 -> lower m2 = m2 -> include_guard m1 suffix = include_guard m2 suffix -> m1 = m2.
Proof.
  intros H1%name_chars H2%name_chars L1 L2. destruct H1 as [H1 _], H2 as [H2 _].
  unfold include_guard. intros Heq.
  assert (Heq' : upper (replace_char "-" "_" m1) = upper (replace_char "-" "_" m2)).
  { apply (f_equal list_ascii_of_string) in Heq. rewrite !list_ascii_append in Heq.
    apply app_inv_tail in Heq. rewrite <- (string_of_list_ascii_of_string (upper _)), Heq.
    by rewrite string_of_list_ascii_of_string. }
  clear Heq. revert m2 H1 H2 L1 L2 Heq'.
  induction m1 as [|c m1 IH]; intros [|d m2] H1 H2 L1 L2; try done. cbn in *.
  apply andb_true_iff in H1 as [Hc H1], H2 as [Hd H2].
  injection L1 as Lc L1. injection L2 as Ld L2. intros [= Hcd Heq].
  f_equal; [|by apply IH]. rewrite <- (guard_char_inv c), <- (guard_char_inv d) by done.
  unfold guard_char. by rewrite Hcd.
Qed.
