(* ===== verification/ModuleScan.v ===== *)
(** * The scanner of the bindings: [ns3modulescan.py], [ns3modulescan-modular.py]

    Both programs of [src/bindings/python] run the parser of pybindgen over the headers.
    Here are their own parts: where a header lies below [ns3/], the hooks that annotate
    each definition before it is scanned ([pre_scan_hook] and [PreScanHook]), with the
    table [type_annotations] that the hooks share and change, the list of callback
    classes, and the sections of the generated code, which [ns3_module_scan] orders with
    [Topsort.topsort].  What pygccxml says about a definition is a record; its functions
    on templates are arguments.  The one program is written for Python 2 and started with
    Python 3, so the version is an argument where it matters. *)

From S2P Require Import Prelude State PyLib Topsort Format Files.
From Stdlib Require Import Ascii String.
From stdpp Require Import strings gmap sorting.
Open Scope string_scope.
Open Scope nat_scope.
Open Scope list_scope.

Inductive python := Python2 | Python3.
Inductive scan_exn := ValueError | TypeError | AssertionError | RuntimeError | AttributeError
  | KeyError (k : string) | TopsortError (e : topsort_exn string).

(** ** Headers *)

(** [os.path.join( *l)] *)
Definition join_all (l : list string) : res scan_exn string :=
  match l with [] => Raise TypeError | x :: l => Ok (foldl path_join x l) end.
(** The loop of [get_ns3_relative_path]; the variable [l] is its list.  In the older
    program nothing stops it at the root. *)
Fixpoint relative_loop (fuel : nat) (l : list string) (head : string) : res scan_exn string :=
  if decide (head = "") then Raise AssertionError
  else match fuel with
  | O => OutOfFuel
  | S fuel =>
      let tail := basename head in
      if decide (tail = "ns3") then join_all l else relative_loop fuel (tail :: l) (dirname head)
  end.
Fixpoint relative_loop_modular (fuel : nat) (l : list string) (head : string) : res scan_exn string :=
  if decide (head = "") then Raise AssertionError
  else match fuel with
  | O => OutOfFuel
  | S fuel =>
      let tail := basename head in
      if decide (dirname head = head) then Raise ValueError
      else if decide (tail = "ns3") then join_all l
      else relative_loop_modular fuel (tail :: l) (dirname head)
  end.
Definition get_ns3_relative_path (fuel : nat) (path : string) : res scan_exn string :=
  relative_loop fuel [] path.
(** The later version, with [None] on an empty path. *)
Definition get_ns3_relative_path_modular (path : string) : res scan_exn (option string) :=
  if decide (path = "") then Ok None
  else let* h := relative_loop_modular (String.length path) [] path in Ok (Some h).

(** ** Annotations *)

Abbreviation options := (gmap string string).
Inductive annotation := NoValue | TrueValue | Text (s : string) | Params (p : gmap string options).
Abbreviation annotations := (gmap string annotation).
Abbreviation table := (gmap string annotations).

Definition type_annotations : table := list_to_map (map (fun x => (x.1, list_to_map x.2)) [
  ("::ns3::AttributeChecker",
   [("automatic_type_narrowing", Text "true"); ("allow_subclassing", Text "false")]);
  ("::ns3::AttributeValue",
   [("automatic_type_narrowing", Text "true"); ("allow_subclassing", Text "false")]);
  ("::ns3::CommandLine",
   [("allow_subclassing", Text "true")]);
  ("::ns3::NscTcpL4Protocol",
   [("ignore", Text "true")]);
  ("ns3::RandomVariable::RandomVariable(ns3::RandomVariableBase const & variable) [constructor]",
   [("ignore", NoValue)]);
  ("ns3::RandomVariableBase * ns3::RandomVariable::Peek() const [member function]",
   [("ignore", NoValue)]);
  ("void ns3::RandomVariable::GetSeed(uint32_t * seed) const [member function]",
   [("params", Params (list_to_map [("seed", list_to_map [("direction", "out"); ("array_length", "6")])]))]);
  ("bool ns3::TypeId::LookupAttributeByName(std::string name, ns3::TypeId::AttributeInformation * info) const [member function]",
   [("params", Params (list_to_map [("info", list_to_map [("transfer_ownership", "false")])]))]);
  ("static bool ns3::TypeId::LookupByNameFailSafe(std::string name, ns3::TypeId * tid) [member function]",
   [("ignore", NoValue)]);
  ("bool ns3::TraceSourceAccessor::ConnectWithoutContext(ns3::ObjectBase * obj, ns3::CallbackBase const & cb) const [member function]",
   [("params", Params (list_to_map [("obj", list_to_map [("transfer_ownership", "false")])]))]);
  ("bool ns3::TraceSourceAccessor::Connect(ns3::ObjectBase * obj, std::string context, ns3::CallbackBase const & cb) const [member function]",
   [("params", Params (list_to_map [("obj", list_to_map [("transfer_ownership", "false")])]))]);
  ("bool ns3::TraceSourceAccessor::DisconnectWithoutContext(ns3::ObjectBase * obj, ns3::CallbackBase const & cb) const [member function]",
   [("params", Params (list_to_map [("obj", list_to_map [("transfer_ownership", "false")])]))]);
  ("bool ns3::TraceSourceAccessor::Disconnect(ns3::ObjectBase * obj, std::string context, ns3::CallbackBase const & cb) const [member function]",
   [("params", Params (list_to_map [("obj", list_to_map [("transfer_ownership", "false")])]))]);
  ("bool ns3::AttributeAccessor::Set(ns3::ObjectBase * object, ns3::AttributeValue const & value) const [member function]",
   [("params", Params (list_to_map [("object", list_to_map [("transfer_ownership", "false")])]))]);
  ("ns3::EmpiricalVariable::EmpiricalVariable(ns3::RandomVariableBase const & variable) [constructor]",
   [("ignore", NoValue)]);
  ("static ns3::AttributeList * ns3::AttributeList::GetGlobal() [member function]",
   [("caller_owns_return", Text "false")]);
  ("void ns3::CommandLine::Parse(int argc, char * * argv) const [member function]",
   [("ignore", NoValue)]);
  ("extern void ns3::PythonCompleteConstruct(ns3::Ptr<ns3::Object> object, ns3::TypeId typeId, ns3::AttributeList const & attributes) [free function]",
   [("ignore", NoValue)]);
  ("ns3::Ptr<ns3::Ipv4RoutingProtocol> ns3::Ipv4ListRouting::GetRoutingProtocol(uint32_t index, int16_t & priority) const [member function]",
   [("params", Params (list_to_map [("priority", list_to_map [("direction", "out")])]))]);
  ("ns3::Ipv4RoutingTableEntry * ns3::GlobalRouter::GetInjectedRoute(uint32_t i) [member function]",
   [("params", Params (list_to_map [("return", list_to_map [("caller_owns_return", "false")])]))]);
  ("ns3::Ipv4RoutingTableEntry * ns3::Ipv4GlobalRouting::GetRoute(uint32_t i) const [member function]",
   [("params", Params (list_to_map [("return", list_to_map [("caller_owns_return", "false")])]))]);
  ("::ns3::TestCase",
   [("ignore", Text "true")]);
  ("::ns3::TestRunner",
   [("ignore", Text "true")]);
  ("::ns3::TestSuite",
   [("ignore", Text "true")]) ]).

(** ** Definitions *)

Inductive kind := MemberFunction | FreeFunction | Constructor | OtherCalldef | Class_ | Enumeration
  | OtherDefinition.
#[export] Instance kind_eq_dec : EqDecision kind. Proof. solve_decision. Defined.
(** A definition: its kind, its name, the name of its parent, [str] of it, its
    [decl_string], its [demangled_name], the file it is in, and the default values of its
    arguments, which a hook may replace. *)
Record definition := {
  d_kind : kind; d_name : string; d_parent : string; d_text : string; d_decl : string;
  d_demangled : string; d_file : string }.
Definition is_calldef (k : kind) : bool :=
  match k with MemberFunction | FreeFunction | Constructor | OtherCalldef => true | _ => false end.

(** What a call of a hook works on: the shared table, the annotations of the definition
    and of its parameters, and the default values. *)
Record scan := mkScan {
  s_table : table; globals : annotations; params : gmap string options;
  defaults : list (option string) }.
Abbreviation M := (st scan scan_exn).
Definition annotate (k : string) (v : annotation) : M unit :=
  modify (fun w => mkScan (s_table w) (<[k := v]> (globals w)) (params w) (defaults w)).
(** [d.update(e)] keeps what [e] does not have. *)
Definition update_globals (a : annotations) : M unit :=
  modify (fun w => mkScan (s_table w) (a ∪ globals w) (params w) (defaults w)).

Section Hooks.
(** [templates.args], [templates.is_instantiation], [templates.split]. *)
Context (template_args : string -> list string).
Context (is_instantiation : string -> bool) (template_split : string -> string * list string).

(** The rules that the two hooks share. *)
Definition get_object_rule (d : definition) (name : string) : M unit :=
  if decide (d_kind d = MemberFunction /\ d_parent d = "Object" /\ d_name d = "GetObject") then
    if decide (template_args name = ["ns3::Object"]) then
      annotate "template_instance_names" (Text "ns3::Object=>GetObject")
    else ret tt
  else ret tt.
Definition simulator_rules (d : definition) : M unit :=
  let! _ :=
    if decide (d_kind d = MemberFunction /\ d_parent d = "Simulator" /\
               starts_with "Schedule" (d_name d) = true)
    then annotate "ignore" NoValue else ret tt in
  if decide (d_kind d = MemberFunction /\ d_parent d = "Simulator" /\ d_name d = "Run")
  then annotate "ignore" TrueValue else ret tt.
Definition fix_default (v : option string) : option string :=
  match v with
  | None => None
  | Some s => Some (if decide (s = "ns3::MilliSeconds( )") then "ns3::MilliSeconds(0)"
                    else if decide (s = "ns3::Seconds( )") then "ns3::Seconds(0)" else s)
  end.
Definition default_rule (d : definition) : M unit :=
  if is_calldef (d_kind d) then
    modify (fun w => mkScan (s_table w) (globals w) (params w) (map fix_default (defaults w)))
  else ret tt.
(** The classes that are treated by their names; whether the hook then returns. *)
Definition class_rule (d : definition) : M bool :=
  if starts_with "::ns3::SimpleRefCount<" (d_decl d) then
    let! _ := annotate "incref_method" (Text "Ref") in
    let! _ := annotate "decref_method" (Text "Unref") in
    let! _ := annotate "peekref_method" (Text "GetReferenceCount") in
    let! _ := annotate "automatic_type_narrowing" (Text "true") in ret true
  else if starts_with "::ns3::Callback<" (d_decl d) then
    let! _ := annotate "ignore" NoValue in ret true
  else if starts_with "::ns3::TracedCallback<" (d_decl d) then
    let! _ := annotate "ignore" NoValue in ret true
  else if starts_with "::ns3::Ptr<" (d_decl d) then
    let! _ := annotate "ignore" NoValue in ret true
  else ret false.
Definition class_table (d : definition) : M unit :=
  let! t := reads s_table in
  match t !! d_decl d with Some a => update_globals a | None => ret tt end.
(** The entry of a function: its parameters are moved out of the table.  A loop over the
    dictionary itself, and not over a copy, then raises in Python 3. *)
Definition function_table (copied : bool) (d : definition) : M unit :=
  let! t := reads s_table in
  match t !! d_text d with
  | None => ret tt
  | Some a =>
      match a !! "params" with
      | None => update_globals a
      | Some (Params p) =>
          let a := delete "params" a in
          let! _ := modify (fun w => mkScan (<[d_text d := a]> (s_table w)) (globals w) (p ∪ params w)
                                       (defaults w)) in
          if copied then update_globals a else raise RuntimeError
      | Some _ => raise TypeError
      end
  end.
Definition has_table_entry (k : kind) : bool :=
  match k with FreeFunction | MemberFunction | Constructor => true | _ => false end.

(** [pre_scan_hook] *)
Definition pre_scan_hook (fuel : nat) (py : python) (d : definition) : M unit :=
  let! ns3_header := lift (get_ns3_relative_path fuel (d_file d)) in
  let! _ := annotate "pygen_comment" (Text (ns3_header +:+ ": " +:+ d_text d)) in
  let! _ := get_object_rule d (d_demangled d) in
  let! _ := simulator_rules d in
  let! _ := default_rule d in
  let! returned :=
    if decide (d_kind d = Class_) then
      let! r := class_rule d in
      if r then ret true else let! _ := class_table d in ret false
    else ret false in
  if returned then ret tt
  else if decide (d_kind d = FreeFunction /\ d_name d = "PeekPointer") then annotate "ignore" NoValue
  else if has_table_entry (d_kind d) then
    function_table (match py with Python2 => true | Python3 => false end) d
  else ret tt.

(** The modular scanner: the header of the definition decides its module. *)
Section Modular.
(** [find_declaration_from_name]: the file of the declaration of a template argument,
    when it has a location. *)
Context (declaration_file : string -> option string).
Context (headers_map : gmap string string) (module : string).

Definition module_of (h : option string) : M string :=
  match h with
  | None => raise (KeyError "None")
  | Some h => match headers_map !! h with Some m => ret m | None => raise (KeyError h) end
  end.
(** The modules of the template arguments that have a place below [ns3]. *)
Fixpoint argument_modules (l : list string) : M (list string) :=
  match l with
  | [] => ret []
  | x :: l =>
      match declaration_file x with
      | None => argument_modules l
      | Some file =>
          match get_ns3_relative_path_modular file with
          | Raise ValueError => argument_modules l
          | h => let! h := lift h in
                 let! m := module_of h in
                 let! ms := argument_modules l in ret (m :: ms)
          end
      end
  end.
Definition instance_module (d : definition) (definition_module : string) : M string :=
  if is_instantiation (d_decl d) then
    let! ms := argument_modules (snd (template_split (d_name d))) in
    ret (if bool_decide (module ∈ ms) then module else definition_module)
  else ret definition_module.
Definition dashes (s : string) : string := replace_char "-"%char "_"%char s.

(** [PreScanHook.__call__]: what it does with a definition of a module, and all of it. *)
Definition annotate_in_module (d : definition) (h : option string) : M unit :=
  let! definition_module := module_of h in
  let! _ := annotate "pygen_comment" (Text (default "" h +:+ " (module " +:+
    py_repr definition_module +:+ "): " +:+ d_text d)) in
  let! _ := get_object_rule d (d_text d) in
  let! _ := simulator_rules d in
  let! _ := default_rule d in
  let! (returned, definition_module) :=
    if decide (d_kind d = Class_) then
      let! m := instance_module d definition_module in
      let! _ := if decide (m <> module) then
          annotate "import_from_module" (Text ("ns." +:+ dashes m)) else ret tt in
      let! r := class_rule d in
      if r then ret (true, m) else let! _ := class_table d in ret (false, m)
    else ret (false, definition_module) in
  if returned : bool then ret tt
  else
    let! _ :=
      if decide (d_kind d = Enumeration /\ definition_module <> module) then
        annotate "import_from_module" (Text ("ns." +:+ definition_module)) else ret tt in
    if decide (d_kind d = FreeFunction /\ (definition_module <> module \/ d_name d = "PeekPointer"))
    then annotate "ignore" NoValue
    else if has_table_entry (d_kind d) then function_table true d
    else ret tt.
Definition pre_scan_hook_modular (d : definition) : M unit :=
  match get_ns3_relative_path_modular (d_file d) with
  | Raise ValueError => ret tt
  | Ok None => ret tt
  | Ok (Some "") => ret tt
  | h => let! h := lift h in annotate_in_module d h
  end.
End Modular.

(** [scan_callback_classes]: the text of the file, also when the assertion stops it. *)
Definition py_repr_list (l : list string) : string := "[" +:+ str_join ", " (map py_repr l) +:+ "]".
Fixpoint callback_lines (classes : list (string * string)) : res scan_exn unit * string :=
  match classes with
  | [] => (Ok tt, "]" +:+ String newline "")
  | (name, decl_string) :: classes =>
      if negb (starts_with "Callback<" name) then callback_lines classes
      else if negb (is_instantiation decl_string) then (Raise AssertionError, "")
      else let '(r, s) := callback_lines classes in
           (r, "    " +:+ py_repr_list (snd (template_split decl_string)) +:+ "," +:+
               String newline s)
  end.
Definition scan_callback_classes (classes : list (string * string)) : res scan_exn unit * string :=
  let '(r, s) := callback_lines classes in (r, "callback_classes = [" +:+ String newline s).
End Hooks.

(** ** Sections *)

(** [MyPygenClassifier] *)
Definition classify (headers_map : gmap string string) (file : string) : string :=
  default "__main__" (headers_map !! basename file).
Definition get_section_precedence (section_precendences : gmap string Z) (name : string)
    : res scan_exn Z :=
  if decide (name = "__main__") then Ok (-1)%Z
  else dict_get (KeyError name) section_precendences name.

(** What [ns3_module_scan] computes: the modules in their order, the sections with their
    files, and the two maps of the classifier. *)
Record sections := {
  section_list : list (string * string); headers_map : gmap string string;
  section_precendences : gmap string Z }.
(** The modules with their dependencies and headers. *)
Abbreviation modules := (gmap string (list string * list string)).
Definition module_graph `{!DictOrder string} (ns3_modules : modules) : list (string * string) :=
  concat (map (fun name =>
      map (fun dep => (dep, name))
        (merge_sort String.le (from_option fst [] (ns3_modules !! name))))
    (merge_sort String.le (dict_keys ns3_modules))).
Definition section_name (m : string) : string := "ns3_module_" +:+ replace_char "-"%char "_"%char m.
Definition add_section (pygen_file_name : string) (ns3_modules : modules) (s : sections)
    (x : Z * string) : res scan_exn sections :=
  let '(prec, ns3_module) := x in
  let name := section_name ns3_module in
  let file_name := path_join (dirname pygen_file_name) (name +:+ ".py") in
  let* m := dict_get (KeyError ns3_module) ns3_modules ns3_module in
  Ok {| section_list := section_list s ++ [(name, file_name)];
        headers_map := foldl (fun h header => <[header := name]> h) (headers_map s) m.2;
        section_precendences := <[name := prec]> (section_precendences s) |}.
Definition enumerate (l : list string) : list (Z * string) := imap (fun i x => (Z.of_nat i, x)) l.
Definition ns3_module_scan `{!DictOrder string} (py : python) (pygen_file_name : string)
    (ns3_modules : modules) : res scan_exn sections :=
  match py with
  | Python3 => Raise AttributeError
  | Python2 =>
      match topsort (module_graph ns3_modules) with
      | Ok sorted_ns3_modules =>
          for_each (add_section pygen_file_name ns3_modules) (enumerate sorted_ns3_modules)
            {| section_list := [("__main__", pygen_file_name)]; headers_map := ∅;
               section_precendences := ∅ |}
      | Raise e => Raise (TopsortError e)
      | OutOfFuel => OutOfFuel
      end
  end.

(** ** Where a header lies below [ns3] *)

Lemma plain_regular n : plain n -> regular n.
Proof.
  intros [Hs Hne]. split; [done|]. apply bool_decide_eq_false. intros Hl. apply Hs.
  by apply last_Some_elem_of in Hl.
Qed.
Lemma join_names a l : regular a -> Forall plain l -> foldl path_join a l = str_join "/" (a :: l).
Proof.
  revert a. induction l as [|y l IH]; intros a Ha Hl; [done|]. apply Forall_cons in Hl as [Hy Hl].
  destruct Ha as [H1 H2]. cbn [foldl]. rewrite IH; [|by apply join_no_slash|done].
  rewrite join_plain by done. destruct l as [|z l]; [done|].
  cbn [str_join]. by rewrite !str_append_assoc.
Qed.
Lemma join_all_names names : Forall plain names -> names <> [] -> join_all names = Ok (str_join "/" names).
Proof.
  destruct names as [|x l]; [done|]. intros [Hx Hl]%Forall_cons _. cbn.
  f_equal. apply join_names; [by apply plain_regular|done].
Qed.

Section Below.
Context (base : string) (Hbase : regular base) (Hns3 : basename base = "ns3").

Lemma base_not_root : dirname base <> base.
Proof.
  intros Hd. destruct Hbase as [Hne Hs]. unfold dirname in Hd.
  destruct (to_last_slash_split (list_ascii_of_string base)) as (n & Hp & Hn & Hh).
  set (head := to_last_slash _) in *.
  assert (Hhead : head = list_ascii_of_string base).
  { destruct (strip_slashes head) as [|c h] eqn:E.
    - by rewrite <- Hd, list_ascii_of_string_of_list_ascii.
    - destruct (strip_slashes_split head) as [k Hk]. rewrite E in Hk.
      apply (f_equal list_ascii_of_string) in Hd. rewrite list_ascii_of_string_of_list_ascii in Hd.
      rewrite <- Hd in Hp. rewrite Hk in Hp. apply (f_equal length) in Hp.
      rewrite !length_app in Hp. assert (k = 0) as -> by (rewrite length_replicate in Hp; lia).
      by rewrite Hk, <- Hd, app_nil_r. }
  apply bool_decide_eq_false in Hs. apply Hs. destruct Hh as [Hh|[h Hh]].
  - rewrite Hhead in Hh. destruct base; done.
  - by rewrite <- Hhead, Hh, last_snoc.
Qed.

Lemma path_not_root names : Forall plain names -> dirname (path_at base names) <> path_at base names.
Proof.
  intros Hp. destruct names as [|n names _] using rev_ind; [apply base_not_root|].
  apply Forall_app in Hp as [Hp [Hn _]%Forall_cons]. rewrite path_at_dirname by done.
  intros Heq. apply (path_at_inj base Hbase) in Heq; [|done|].
  - apply (f_equal length) in Heq. rewrite length_app in Heq. cbn in Heq. lia.
  - apply Forall_app. split; [done|]. by apply Forall_singleton.
Qed.
Lemma path_at_length_parts names : Forall plain names ->
  length names < String.length (path_at base names).
Proof.
  induction names as [|n names IH] using rev_ind.
  - intros _. destruct Hbase as [Hne _]. unfold path_at. cbn. destruct base; [done|]. cbn. lia.
  - intros [Hp [Hn _]%Forall_cons]%Forall_app. unfold path_at in *. rewrite foldl_app. cbn.
    destruct (path_at_regular base Hbase names Hp) as [H1 H2]. rewrite join_plain by done.
    rewrite length_app, !str_length_append. cbn. specialize (IH Hp). lia.
Qed.

Lemma relative_loops names l fuel : Forall plain names -> "ns3" ∉ names -> length names < fuel ->
  relative_loop fuel l (path_at base names) = join_all (names ++ l) /\
  relative_loop_modular fuel l (path_at base names) = join_all (names ++ l).
Proof.
  revert names l. induction fuel as [|fuel IH]; intros names l Hp Hn Hf; [lia|].
  pose proof (path_not_root names Hp) as Hroot.
  destruct (path_at_regular base Hbase names Hp) as [Hne _].
  cbn. rewrite !(decide_False (P := path_at base names = "")) by done.
  rewrite (decide_False (P := dirname _ = _)) by done.
  destruct names as [|n names _] using rev_ind.
  - change (path_at base []) with base. rewrite Hns3. by rewrite !decide_True by done.
  - apply Forall_app in Hp as [Hp [Hn' _]%Forall_cons].
    rewrite path_at_dirname by done.
    assert (Hb : basename (path_at base (names ++ [n])) = n).
    { unfold path_at. rewrite foldl_app. cbn. apply basename_join; [|done]. by apply path_at_regular. }
    rewrite Hb. rewrite !(decide_False (P := n = "ns3")) by set_solver.
    rewrite length_app in Hf. cbn in Hf. rewrite <- app_assoc. cbn. apply IH; [done|set_solver|lia].
Qed.
End Below.

(** Below a directory [ns3], both programs return the rest of the path. *)
Theorem relative_path_found (base : string) (names : list string) (fuel : nat)
    (Hbase : regular base) (Hns3 : basename base = "ns3")
    (Hnames : Forall plain names) (Hne : names <> []) (Hno : "ns3" ∉ names)
    (Hfuel : length names < fuel) :
  get_ns3_relative_path_modular (path_at base names) = Ok (Some (str_join "/" names)) /\
  get_ns3_relative_path fuel (path_at base names) = Ok (str_join "/" names).
Proof.
  unfold get_ns3_relative_path_modular, get_ns3_relative_path.
  rewrite decide_False by (by apply path_at_regular). split.
  - destruct (relative_loops base Hbase Hns3 names [] (String.length (path_at base names))) as [_ ->];
      [done|done|by apply path_at_length_parts|].
    by rewrite app_nil_r, join_all_names.
  - destruct (relative_loops base Hbase Hns3 names [] fuel) as [-> _]; [done..|].
    by rewrite app_nil_r, join_all_names.
Qed.

Lemma absolute_nonempty p : absolute p -> p <> "".
Proof. by intros [r ->]. Qed.

(** The later program always ends.  On an absolute path without a directory [ns3],
    the path of a header that is not of the project, it raises the [ValueError] that its
    caller expects, while the older program never ends. *)
Theorem relative_path_outside (path : string) :
  get_ns3_relative_path_modular path <> OutOfFuel /\
  (absolute path -> "ns3" ∉ split_on "/" path ->
     get_ns3_relative_path_modular path = Raise ValueError /\
     forall fuel, get_ns3_relative_path fuel path = OutOfFuel).
Proof.
  assert (Hstep : forall p, absolute p -> "ns3" ∉ split_on "/" p ->
    absolute (dirname p) /\ ("ns3" ∉ split_on "/" (dirname p)) /\ basename p <> "ns3" /\ p <> "").
  { intros p Ha Hn. split_and!; [by apply dirname_absolute| | |by apply absolute_nonempty].
    - by intros [?|?]%dirname_components.
    - intros Hb. apply Hn. rewrite <- Hb. apply basename_component. }
  unfold get_ns3_relative_path_modular, get_ns3_relative_path. split.
  - case_decide; [done|]. assert (Hend : forall fuel l p, String.length p <= fuel ->
      relative_loop_modular fuel l p <> OutOfFuel).
    { induction fuel as [|fuel IH]; intros l p Hf; cbn.
      - destruct p; [done|cbn in Hf; lia].
      - case_decide; [done|]. case_decide as Hd; [done|]. case_decide.
        + by destruct l.
        + apply IH. destruct (dirname_shorter p) as [?|?]; [done|lia]. }
    specialize (Hend (String.length path) [] path (le_n _)).
    by destruct (relative_loop_modular _ _ _).
  - intros Ha Hn. split.
    + rewrite decide_False by (by apply absolute_nonempty).
      assert (Hend : forall fuel l p, absolute p -> "ns3" ∉ split_on "/" p -> String.length p <= fuel ->
        relative_loop_modular fuel l p = Raise ValueError).
      { induction fuel as [|fuel IH]; intros l p Hp Hc Hf.
        - destruct Hp as [r ->]. cbn in Hf. lia.
        - destruct (Hstep p Hp Hc) as (H1 & H2 & H3 & H4). cbn. rewrite decide_False by done.
          case_decide; [done|]. rewrite decide_False by done. apply IH; [done..|].
          destruct (dirname_shorter p) as [?|?]; [done|lia]. }
      by rewrite Hend.
    + intros fuel. generalize (@nil string). revert path Ha Hn.
      induction fuel as [|fuel IH]; intros p Hp Hc l; destruct (Hstep p Hp Hc) as (H1 & H2 & H3 & H4); cbn;
        rewrite decide_False by done; [done|]. rewrite decide_False by done. by apply IH.
Qed.

(** ** The types of annotations *)

Definition is_params (v : annotation) : bool := match v with Params _ => true | _ => false end.
(** In an entry of the table, exactly ["params"] has parameters; the entries of classes,
    whose keys are absolute names, have none. *)
Definition wf_entry (key : string) (a : annotations) : Prop :=
  map_Forall (fun k v => is_params v = bool_decide (k = "params")) a /\
  (starts_with "::" key = true -> a !! "params" = None).
Definition wf_table (t : table) : Prop := map_Forall wf_entry t.
(** What pybindgen gets for a definition is texts, [None] and [True]. *)
Definition wf_globals (g : annotations) : Prop := map_Forall (fun _ v => is_params v = false) g.
Definition wf_scan (w : scan) : Prop := wf_table (s_table w) /\ wf_globals (globals w).

Definition keeps {A} (m : M A) : Prop := forall w, wf_scan w -> wf_scan (m w).2.
Lemma keeps_ret {A} (a : A) : keeps (ret a). Proof. by intros w. Qed.
Lemma keeps_raise {A} e : keeps (raise (A := A) e). Proof. by intros w. Qed.
Lemma keeps_lift {A} (r : res scan_exn A) : keeps (lift r). Proof. by intros w. Qed.
Lemma keeps_bind {A B} (m : M A) (k : A -> M B) : keeps m -> (forall a, keeps (k a)) -> keeps (bind m k).
Proof. intros Hm Hk w Hw. apply (bind_inv wf_scan); [by apply Hm|]. intros a w'. apply Hk. Qed.
Lemma keeps_reads {A B} (f : scan -> A) (k : A -> M B) : (forall w, wf_scan w -> wf_scan (k (f w) w).2) ->
  keeps (bind (reads f) k).
Proof. intros Hk w Hw. by apply Hk. Qed.
Lemma keeps_annotate k v : is_params v = false -> keeps (annotate k v).
Proof. intros Hv w [H1 H2]. split; [done|]. by apply map_Forall_insert_2. Qed.
Lemma keeps_defaults f : keeps (modify (fun w => mkScan (s_table w) (globals w) (params w) (f (defaults w)))).
Proof. by intros w. Qed.

Create HintDb scan.
#[export] Hint Resolve keeps_ret keeps_raise keeps_lift keeps_annotate keeps_defaults : scan.
(** Go through the steps of a hook. *)
Ltac keep := repeat first
  [ progress (auto with scan) | apply keeps_bind; [|intros ?] | case_decide | case_match ].

Lemma wf_update w a : wf_scan w -> wf_globals a -> wf_scan (update_globals a w).2.
Proof.
  intros [H1 H2] Ha. split; [done|]. cbn. intros k v [Hk|[_ Hk]]%lookup_union_Some_raw;
    [by apply (Ha k)|by apply (H2 k)].
Qed.
Lemma wf_entry_globals key a : wf_entry key a -> a !! "params" = None -> wf_globals a.
Proof.
  intros [Ha _] Hn k v Hk. rewrite (Ha k v Hk). apply bool_decide_eq_false. intros ->. congruence.
Qed.
Lemma wf_entry_delete key a : wf_entry key a -> wf_entry key (delete "params" a).
Proof. intros [H1 H2]. split; [by apply map_Forall_delete|]. intros _. apply lookup_delete_eq. Qed.

Section Types.
Context (template_args : string -> list string).
Context (is_instantiation : string -> bool) (template_split : string -> string * list string).

Lemma keeps_get_object d name : keeps (get_object_rule template_args d name).
Proof. unfold get_object_rule. keep. Qed.
Lemma keeps_simulator d : keeps (simulator_rules d).
Proof. unfold simulator_rules. keep. Qed.
Lemma keeps_default d : keeps (default_rule d).
Proof. unfold default_rule. keep. Qed.
Lemma keeps_class d : keeps (class_rule d).
Proof. unfold class_rule. keep. Qed.
Lemma keeps_class_table d : starts_with "::" (d_decl d) = true -> keeps (class_table d).
Proof.
  intros Hd. apply keeps_reads. intros w Hw. destruct (s_table w !! d_decl d) as [a|] eqn:E; [|done].
  apply wf_update; [done|]. destruct Hw as [Hw _]. pose proof (Hw _ _ E) as Ha.
  eapply wf_entry_globals; [done|]. by apply Ha.
Qed.
Lemma keeps_function_table b d : keeps (function_table b d).
Proof.
  apply keeps_reads. intros w Hw. destruct (s_table w !! d_text d) as [a|] eqn:E; [|done].
  destruct Hw as [Hw Hg]. pose proof (Hw _ _ E) as Ha.
  destruct (a !! "params") as [[| | |p]|] eqn:Ep; [done..| |].
  - assert (Hw' : wf_scan (mkScan (<[d_text d := delete "params" a]> (s_table w)) (globals w)
      (p ∪ params w) (defaults w))).
    { split; [|done]. apply map_Forall_insert_2; [by apply wf_entry_delete|done]. }
    unfold bind, modify. destruct b; [|done]. apply wf_update; [done|].
    apply (wf_entry_globals (d_text d)); [by apply wf_entry_delete|apply lookup_delete_eq].
  - apply wf_update; [done|]. by eapply wf_entry_globals.
Qed.

Section TypesModular.
Context (declaration_file : string -> option string) (headers_map : gmap string string) (module : string).
Lemma keeps_module_of h : keeps (module_of headers_map h).
Proof. unfold module_of. keep. Qed.
Lemma keeps_argument_modules l : keeps (argument_modules declaration_file headers_map l).
Proof.
  induction l as [|x l IH]; cbn; [apply keeps_ret|].
  destruct (declaration_file x); [|done].
  destruct (get_ns3_relative_path_modular _) as [|[]|]; try done;
    repeat (apply keeps_bind; [auto using keeps_module_of with scan|intros ?]); auto with scan.
Qed.
Lemma keeps_instance_module d m :
  keeps (instance_module is_instantiation template_split declaration_file headers_map module d m).
Proof.
  unfold instance_module. destruct (is_instantiation _); [|apply keeps_ret].
  apply keeps_bind; [apply keeps_argument_modules|]. intros ?. apply keeps_ret.
Qed.
End TypesModular.

#[local] Hint Resolve keeps_get_object keeps_simulator keeps_default keeps_class keeps_class_table
  keeps_function_table keeps_module_of keeps_instance_module : scan.

(** C28: the table is well-typed, and whatever definition a hook is called on, also when
    it raises, the table stays so and the annotations of the definition hold only values
    that pybindgen knows. *)
Theorem hook_types :
  wf_table type_annotations /\
  forall (d : definition) (w : scan),
    (d_kind d = Class_ -> starts_with "::" (d_decl d) = true) -> wf_scan w ->
    (forall fuel py, wf_scan (pre_scan_hook template_args fuel py d w).2) /\
    (forall declaration_file headers_map module,
       wf_scan (pre_scan_hook_modular template_args is_instantiation template_split
                  declaration_file headers_map module d w).2).
Proof.
  split; [by apply (bool_decide_unpack _); vm_compute|].
  intros d w Hd Hw. split.
  - intros fuel py. revert w Hw. change (keeps (pre_scan_hook template_args fuel py d)).
    unfold pre_scan_hook. apply keeps_bind; [auto with scan|intros ns3_header].
    repeat (apply keeps_bind; [auto with scan|intros ?]).
    + case_decide; keep.
    + keep.
  - intros df hm md. revert w Hw.
    change (keeps (pre_scan_hook_modular template_args is_instantiation template_split df hm md d)).
    assert (Hbody : forall h, keeps (annotate_in_module template_args is_instantiation template_split
      df hm md d h)).
    { intros h. unfold annotate_in_module. repeat (apply keeps_bind; [auto with scan|intros ?]).
      - case_decide; keep.
      - keep. }
    unfold pre_scan_hook_modular.
    destruct (get_ns3_relative_path_modular (d_file d)) as [[[]|]|[]|]; try apply keeps_ret;
      (apply keeps_bind; [apply keeps_lift|apply Hbody]).
Qed.
End Types.

(** ** Parameters move out of the table *)

(** A step that always goes on, and leaves the table and the parameters. *)
Definition silent {A} (m : M A) : Prop := forall w, exists a w',
  m w = (Ok a, w') /\ s_table w' = s_table w /\ params w' = params w.
Lemma silent_bind {A B} (m : M A) (k : A -> M B) : silent m -> (forall a, silent (k a)) -> silent (bind m k).
Proof.
  intros Hm Hk w. destruct (Hm w) as (a & w1 & E & H1 & H2). destruct (Hk a w1) as (b & w2 & E2 & H3 & H4).
  exists b, w2. rewrite (bind_ok _ _ _ _ _ E). split_and!; [done|congruence..].
Qed.
Lemma silent_ret {A} (a : A) : silent (ret a).
Proof. intros w. by exists a, w. Qed.
Lemma silent_annotate k v : silent (annotate k v).
Proof. intros w. by eexists _, _. Qed.
#[export] Hint Resolve silent_ret silent_annotate : scan.

Section Parameters.
Context (template_args : string -> list string).
Context (is_instantiation : string -> bool) (template_split : string -> string * list string).

Lemma silent_rules d name :
  silent (get_object_rule template_args d name) /\ silent (simulator_rules d) /\ silent (default_rule d).
Proof.
  unfold get_object_rule, simulator_rules, default_rule. split_and!.
  - repeat case_decide; auto with scan.
  - apply silent_bind; [|intros _]; case_decide; auto with scan.
  - destruct (is_calldef _); [intros w; by eexists _, _|auto with scan].
Qed.

(** What the table does for a function with parameters in its entry. *)
Definition parameters_moved (d : definition) (a : annotations) (p : gmap string options)
    (copied : bool) (w : scan) (r : res scan_exn unit * scan) : Prop :=
  s_table r.2 = <[d_text d := delete "params" a]> (s_table w) /\ params r.2 = p ∪ params w /\
  if copied then r.1 = Ok tt /\ forall k v, k <> "params" -> a !! k = Some v -> globals r.2 !! k = Some v
  else r.1 = Raise RuntimeError.

Lemma function_table_moves copied d a p w w' : s_table w' = s_table w -> params w' = params w ->
  s_table w !! d_text d = Some a -> a !! "params" = Some (Params p) ->
  parameters_moved d a p copied w (function_table copied d w').
Proof.
  intros Ht Hp Ha Hap. unfold function_table, bind, reads, modify. rewrite Ht, Ha, Hap.
  unfold parameters_moved. destruct copied; cbn [fst snd s_table params globals update_globals modify];
    rewrite Ht, Hp; split_and!; try done.
  intros k v Hk Hv. apply lookup_union_Some_l.
  by rewrite lookup_delete_ne.
Qed.

(** The parameters that the table has for a function go to the parameters of the
    definition and out of the table, which is shared, so that a second scan of the function
    does not get them.  The later program then adds the entry's other annotations, and so
    does the older one in Python 2; in Python 3 it raises. *)
Theorem parameters_of_function (d : definition) (w : scan) (a : annotations) (p : gmap string options)
    (fuel : nat) (header module : string) (headers_map : gmap string string)
    (declaration_file : string -> option string)
    (Hkind : has_table_entry (d_kind d) = true) (Hname : d_name d <> "PeekPointer")
    (Hentry : s_table w !! d_text d = Some a) (Hparams : a !! "params" = Some (Params p))
    (Hfile : get_ns3_relative_path fuel (d_file d) = Ok header)
    (Hfile' : get_ns3_relative_path_modular (d_file d) = Ok (Some header))
    (Hheader : header <> "") (Hmodule : headers_map !! header = Some module) :
  parameters_moved d a p true w (pre_scan_hook template_args fuel Python2 d w) /\
  parameters_moved d a p false w (pre_scan_hook template_args fuel Python3 d w) /\
  parameters_moved d a p true w (pre_scan_hook_modular template_args is_instantiation template_split
    declaration_file headers_map module d w).
Proof.
  assert (Hclass : d_kind d <> Class_) by (by intros E; rewrite E in Hkind).
  assert (Henum : d_kind d <> Enumeration) by (by intros E; rewrite E in Hkind).
  assert (Hold : forall py, parameters_moved d a p (match py with Python2 => true | Python3 => false end) w
    (pre_scan_hook template_args fuel py d w)).
  { intros py. unfold pre_scan_hook. unfold bind at 1, lift. rewrite Hfile.
    destruct (silent_rules d (d_demangled d)) as (S1 & S2 & S3).
    destruct (silent_annotate "pygen_comment" (Text (header +:+ ": " +:+ d_text d)) w) as (? & w1 & E1 & T1 & P1).
    destruct (S1 w1) as (? & w2 & E2 & T2 & P2), (S2 w2) as (? & w3 & E3 & T3 & P3), (S3 w3) as (? & w4 & E4 & T4 & P4).
    rewrite (bind_ok _ _ _ _ _ E1), (bind_ok _ _ _ _ _ E2), (bind_ok _ _ _ _ _ E3), (bind_ok _ _ _ _ _ E4).
    rewrite decide_False by done. unfold bind at 1, ret at 1.
    rewrite decide_False by tauto. rewrite Hkind. apply function_table_moves; congruence. }
  split; [exact (Hold Python2)|]. split; [exact (Hold Python3)|].
  unfold pre_scan_hook_modular. rewrite Hfile'. destruct header as [|c header]; [done|].
  unfold bind at 1, lift. unfold annotate_in_module, module_of. rewrite Hmodule.
  unfold bind at 1, ret at 1.
  destruct (silent_rules d (d_text d)) as (S1 & S2 & S3).
  destruct (silent_annotate "pygen_comment" (Text (default "" (Some (String c header)) +:+ " (module " +:+
    py_repr module +:+ "): " +:+ d_text d)) w) as (? & w1 & E1 & T1 & P1).
  destruct (S1 w1) as (? & w2 & E2 & T2 & P2), (S2 w2) as (? & w3 & E3 & T3 & P3), (S3 w3) as (? & w4 & E4 & T4 & P4).
  rewrite (bind_ok _ _ _ _ _ E1), (bind_ok _ _ _ _ _ E2), (bind_ok _ _ _ _ _ E3), (bind_ok _ _ _ _ _ E4).
  rewrite decide_False by done. unfold bind at 1, ret at 1. cbv beta iota.
  rewrite decide_False by tauto. unfold bind at 1, ret at 1.
  rewrite decide_False by tauto. rewrite Hkind. apply function_table_moves; congruence.
Qed.
End Parameters.

(** ** The order of the sections *)

Section Order.
Context `{!DictOrder string}.
Implicit Types (mods : modules).

Lemma elem_of_module_graph mods dep m : (dep, m) ∈ module_graph mods <->
  exists deps hs, mods !! m = Some (deps, hs) /\ dep ∈ deps.
Proof.
  unfold module_graph. rewrite list_elem_of_In, in_concat. setoid_rewrite <- list_elem_of_In.
  setoid_rewrite list_elem_of_fmap. split.
  - intros (l & (name & -> & Hname) & (x & [= -> ->] & Hx)%list_elem_of_fmap).
    rewrite merge_sort_Permutation in Hname, Hx. apply elem_of_dict_keys in Hname.
    assert (Hs : is_Some (mods !! name)) by (by apply elem_of_dom). destruct Hs as [[deps hs] E].
    rewrite E in Hx. by exists deps, hs.
  - intros (deps & hs & E & Hdep). eexists. split.
    + exists m. split; [done|]. rewrite merge_sort_Permutation. apply elem_of_dict_keys, elem_of_dom. by eexists.
    + apply list_elem_of_fmap. exists dep. split; [done|]. rewrite merge_sort_Permutation. by rewrite E.
Qed.

(** [m] lists the header [h]. *)
Definition lists mods (m h : string) : Prop := exists deps hs, mods !! m = Some (deps, hs) /\ h ∈ hs.

Lemma lists_check mods m h : bool_decide (h ∈ from_option snd [] (mods !! m)) = true -> lists mods m h.
Proof.
  intros Hb%bool_decide_eq_true. destruct (mods !! m) as [[d hs]|] eqn:E; [by exists d, hs|].
  by apply elem_of_nil in Hb.
Qed.
Lemma only_check mods m h :
  forallb (fun m' => negb (bool_decide (h ∈ from_option snd [] (mods !! m'))) || bool_decide (m' = m))
    (elements (dom mods)) = true -> forall m', lists mods m' h -> m' = m.
Proof.
  rewrite forallb_forall. intros Hb m' (d & hs & E & Hin). specialize (Hb m').
  rewrite E in Hb. cbn in Hb. rewrite (bool_decide_eq_true_2 _ Hin) in Hb. cbn in Hb.
  apply (bool_decide_eq_true (m' = m)), Hb, list_elem_of_In, elem_of_elements, elem_of_dom. by exists (d, hs).
Qed.

Lemma foldl_headers (hs : list string) name (m : gmap string string) h :
  foldl (fun hm header => <[header := name]> hm) m hs !! h
  = if decide (h ∈ hs) then Some name else m !! h.
Proof.
  revert m. induction hs as [|x hs IH]; intros m; cbn.
  - rewrite decide_False by apply not_elem_of_nil. done.
  - rewrite IH. destruct (decide (h ∈ hs)); [by rewrite decide_True by by right|].
    destruct (decide (h = x)) as [->|Hne].
    + rewrite lookup_insert_eq, decide_True; [done|by left].
    + rewrite lookup_insert_ne, decide_False; [done| |done]. set_solver.
Qed.

(** After the modules [done], which are the first ones. *)
Record added mods (done : list string) (s : sections) : Prop := {
  added_prec : forall i m, done !! i = Some m ->
    section_precendences s !! section_name m = Some (Z.of_nat i);
  added_section : forall h name, headers_map s !! h = Some name ->
    exists m, m ∈ done /\ lists mods m h /\ name = section_name m;
  added_header : forall m h, m ∈ done -> lists mods m h -> is_Some (headers_map s !! h);
  added_list : map fst (section_list s) = "__main__" :: map section_name done }.

Lemma add_section_ok file mods done m s :
  NoDup (done ++ [m]) -> (forall x, x ∈ done ++ [m] -> x ∈ dom mods) ->
  (forall m1 m2, m1 ∈ dom mods -> m2 ∈ dom mods -> section_name m1 = section_name m2 -> m1 = m2) ->
  added mods done s ->
  exists s', add_section file mods s (Z.of_nat (length done), m) = Ok s' /\ added mods (done ++ [m]) s'.
Proof.
  intros Hnd Hin Hinj [H1 H2 H3 H4].
  assert (Hm : m ∈ dom mods) by (apply Hin, elem_of_app; right; by left).
  assert (Hs : is_Some (mods !! m)) by (by apply elem_of_dom). destruct Hs as [[deps hs] E]. unfold add_section, dict_get. rewrite E.
  eexists. split; [reflexivity|].
  assert (Hlists : forall h, lists mods m h <-> h ∈ hs).
  { intros h. unfold lists. rewrite E. naive_solver. }
  split; cbn [section_list headers_map section_precendences snd].
  - intros i x [Hx|[Hi Hx]]%lookup_app_Some.
    + rewrite lookup_insert_ne; [by apply H1|]. intros Hs.
      apply NoDup_app in Hnd as (_ & Hno & _). apply (Hno x); [by eapply list_elem_of_lookup_2|].
      apply elem_of_cons. left. symmetry. apply Hinj; [done| |done].
      apply Hin, elem_of_app. left. by eapply list_elem_of_lookup_2.
    + apply list_lookup_singleton_Some in Hx as [Hz <-]. assert (i = length done) as -> by lia.
      by rewrite lookup_insert_eq.
  - intros h name. rewrite foldl_headers. case_decide as Hh.
    + intros [= <-]. exists m. rewrite elem_of_app, Hlists. split_and!; [right; by left|done|done].
    + intros (x & Hx & Hl & ->)%H2. exists x. rewrite elem_of_app. by split_and!; [left|..].
  - intros x h. rewrite foldl_headers. case_decide as Hh; [by eexists|].
    rewrite elem_of_app, list_elem_of_singleton. intros [Hx| ->] Hl; [by apply (H3 x)|].
    by apply Hlists in Hl.
  - by rewrite !map_app, H4.
Qed.

Lemma enumerate_lookup l i x : enumerate l !! i = Some x -> exists m, x = (Z.of_nat i, m) /\ l !! i = Some m.
Proof.
  unfold enumerate. rewrite list_lookup_imap. destruct (l !! i) as [m|]; [|done]. intros [= <-]. by exists m.
Qed.
Lemma enumerate_snd l : (enumerate l).*2 = l.
Proof.
  unfold enumerate. apply list_eq. intros i. rewrite list_lookup_fmap, list_lookup_imap.
  by destruct (l !! i).
Qed.

Lemma sections_added pygen_file_name mods order : NoDup order ->
  (forall m, m ∈ order -> m ∈ dom mods) ->
  (forall m1 m2, m1 ∈ dom mods -> m2 ∈ dom mods -> section_name m1 = section_name m2 -> m1 = m2) ->
  exists s, for_each (add_section pygen_file_name mods) (enumerate order)
    {| section_list := [("__main__", pygen_file_name)]; headers_map := ∅; section_precendences := ∅ |} = Ok s /\
    added mods order s.
Proof.
  intros Hnd Hdom Hnames.
  destruct (for_each_ok (add_section pygen_file_name mods)
    (fun dn rest s => dn ++ rest = enumerate order /\ added mods dn.*2 s) (enumerate order)
    {| section_list := [("__main__", pygen_file_name)]; headers_map := ∅; section_precendences := ∅ |})
    as (s & Hrun & _ & Hadded).
  { split; [done|]. split; cbn; [by intros i m|by intros h name|by intros m h ?%elem_of_nil|done]. }
  { intros dn x rest s [Heq Ha].
    assert (Hx : enumerate order !! length dn = Some x).
    { by rewrite <- Heq, lookup_app_r, Nat.sub_diag. }
    apply enumerate_lookup in Hx as (m & -> & Hm).
    assert (Hpre : order = dn.*2 ++ [m] ++ rest.*2).
    { rewrite <- (enumerate_snd order), <- Heq. by rewrite fmap_app. }
    rewrite <- (length_fmap snd dn).
    destruct (add_section_ok pygen_file_name mods dn.*2 m s) as (s' & -> & Ha'); [| |done|done|].
    - rewrite Hpre, app_assoc in Hnd. by apply NoDup_app in Hnd as [? _].
    - intros y Hy. apply Hdom. rewrite Hpre, app_assoc. apply elem_of_app. by left.
    - exists s'. split; [done|]. split; [|by rewrite fmap_app].
      by rewrite <- app_assoc, length_fmap. }
  rewrite enumerate_snd in Hadded. by exists s.
Qed.

(** When the dependencies are modules and have no cycle, and no two modules get the
    same section, the older scanner (in Python 2) has a section for each module that
    depends on another or is depended on, the dependency's section comes before the
    dependent's, and a header that one such module lists is put into its section, while
    the headers of the other modules go to the main section. *)
Theorem section_order (pygen_file_name : string) mods
    (Hacyclic : acyclic (module_graph mods))
    (Hclosed : forall dep m, (dep, m) ∈ module_graph mods -> dep ∈ dom mods)
    (Hnames : forall m1 m2, m1 ∈ dom mods -> m2 ∈ dom mods -> section_name m1 = section_name m2 -> m1 = m2) :
  exists s, ns3_module_scan Python2 pygen_file_name mods = Ok s /\
    (forall dep m, (dep, m) ∈ module_graph mods -> exists i j,
       get_section_precedence (section_precendences s) (section_name dep) = Ok i /\
       get_section_precedence (section_precendences s) (section_name m) = Ok j /\
       (get_section_precedence (section_precendences s) "__main__" = Ok (-1)%Z) /\ (-1 < i < j)%Z) /\
    (forall m h file, lists mods m h -> (forall m', lists mods m' h -> m' = m) -> basename file = h ->
       classify (headers_map s) file
       = if decide (m ∈ nodes (module_graph mods)) then section_name m else "__main__").
Proof.
  destruct (topsort_acyclic (module_graph mods) Hacyclic) as (order & Hsort & [Hnd Hnodes Hord]).
  unfold ns3_module_scan. rewrite Hsort.
  assert (Hdom : forall m, m ∈ order -> m ∈ dom mods).
  { intros m Hm%Hnodes. unfold nodes in Hm. apply elem_of_app in Hm.
    rewrite !list_elem_of_fmap in Hm. destruct Hm as [([dep x] & -> & Hin)|([dep x] & -> & Hin)].
    - by eapply Hclosed.
    - apply elem_of_module_graph in Hin as (deps & hs & E & _). apply elem_of_dom. by eexists. }
  destruct (sections_added pygen_file_name mods order Hnd Hdom Hnames) as (s & Hrun & [H1 H2 H3 H4]).
  assert (Hprec : forall i m, order !! i = Some m ->
    get_section_precedence (section_precendences s) (section_name m) = Ok (Z.of_nat i)).
  { intros i m Hi. unfold get_section_precedence. rewrite decide_False by done.
    unfold dict_get. by rewrite (H1 i m Hi). }
  exists s. split; [done|]. split.
  - intros dep m Hin. assert (Hm : m ∈ order).
    { apply Hnodes. apply elem_of_app. right. apply list_elem_of_fmap. by exists (dep, m). }
    apply list_elem_of_lookup in Hm as [j Hj]. destruct (Hord dep m j Hin Hj) as (i & Hij & Hi).
    exists (Z.of_nat i), (Z.of_nat j). rewrite (Hprec i), (Hprec j) by done. split_and!; try done; lia.
  - intros m h file Hl Honly Hfile. unfold classify. rewrite Hfile. case_decide as Hm.
    + destruct (H3 m h) as [name E]; [by apply Hnodes|done|]. rewrite E.
      destruct (H2 h name E) as (m' & _ & Hl' & ->). by rewrite (Honly m').
    + destruct (headers_map s !! h) as [name|] eqn:E; [|done].
      destruct (H2 h name E) as (m' & Hm' & Hl' & ->). apply Honly in Hl' as ->. by apply Hnodes in Hm'.
Qed.
End Order.

(** ** On concrete definitions *)

Lemma relative_path_found_witness :
  (regular "/build/ns3" /\ basename "/build/ns3" = "ns3" /\ 2 < 3) /\
  get_ns3_relative_path_modular "/build/ns3/sub/a.h" = Ok (Some "sub/a.h") /\
  get_ns3_relative_path 3 "/build/ns3/sub/a.h" = Ok "sub/a.h".
Proof.
  assert (Hr : regular "/build/ns3") by (split; [done|by vm_compute]).
  assert (Hp : Forall plain ["sub"; "a.h"]) by (repeat constructor; by apply plain_literal).
  split; [split; [exact Hr|split; [reflexivity|lia]]|].
  apply (relative_path_found "/build/ns3" ["sub"; "a.h"] 3 Hr eq_refl Hp); [done| |cbn; lia].
  by apply (bool_decide_unpack _); vm_compute.
Defined.

Lemma relative_path_outside_witness :
  (absolute "/usr/include/math.h" /\ "ns3" ∉ split_on "/" "/usr/include/math.h") /\
  get_ns3_relative_path_modular "/usr/include/math.h" = Raise ValueError /\
  forall fuel, get_ns3_relative_path fuel "/usr/include/math.h" = OutOfFuel.
Proof.
  assert (Ha : absolute "/usr/include/math.h") by (by eexists).
  assert (Hn : "ns3" ∉ split_on "/" "/usr/include/math.h") by (by apply (bool_decide_unpack _); vm_compute).
  split; [by split|]. exact (proj2 (relative_path_outside "/usr/include/math.h") Ha Hn).
Defined.

(** A function with an entry in the table, and a class. *)
Definition get_seed : definition :=
  {| d_kind := MemberFunction; d_name := "GetSeed"; d_parent := "RandomVariable";
     d_text := "void ns3::RandomVariable::GetSeed(uint32_t * seed) const [member function]";
     d_decl := "::ns3::RandomVariable::GetSeed"; d_demangled := "ns3::RandomVariable::GetSeed";
     d_file := "/build/ns3/random-variable.h" |}.
Definition command_line : definition :=
  {| d_kind := Class_; d_name := "CommandLine"; d_parent := "ns3"; d_text := "ns3::CommandLine [class]";
     d_decl := "::ns3::CommandLine"; d_demangled := ""; d_file := "/build/ns3/command-line.h" |}.
Definition no_args (s : string) : list string := [].
Definition no_template (s : string) : bool := false.
Definition no_split (s : string) : string * list string := (s, []).
Definition start_scan (t : table) : scan := mkScan t ∅ ∅ [].

Lemma hook_types_witness :
  wf_scan (pre_scan_hook no_args 9 Python3 command_line (start_scan type_annotations)).2 /\
  globals (pre_scan_hook no_args 9 Python3 command_line (start_scan type_annotations)).2
    !! "allow_subclassing" = Some (Text "true").
Proof.
  destruct (hook_types no_args no_template no_split) as [Ht Hh].
  assert (Hw : wf_scan (start_scan type_annotations)) by (split; [exact Ht|apply map_Forall_empty]).
  split; [exact (proj1 (Hh command_line (start_scan type_annotations) (fun _ => eq_refl) Hw) 9 Python3)|].
  vm_compute. reflexivity.
Defined.

Lemma parameters_of_function_witness :
  let a := {["params" := Params {["seed" := <["direction" := "out"]> {["array_length" := "6"]}]}]} in
  (type_annotations !! d_text get_seed = Some a) /\
  parameters_moved get_seed a {["seed" := <["direction" := "out"]> {["array_length" := "6"]}]} false
    (start_scan type_annotations) (pre_scan_hook no_args 9 Python3 get_seed (start_scan type_annotations)).
Proof.
  intros a. assert (Ha : type_annotations !! d_text get_seed = Some a) by (vm_compute; reflexivity).
  split; [exact Ha|].
  assert (Hp : a !! "params" = Some (Params {["seed" := <["direction" := "out"]> {["array_length" := "6"]}]}))
    by (vm_compute; reflexivity).
  assert (Hf : get_ns3_relative_path 9 (d_file get_seed) = Ok "random-variable.h") by (vm_compute; reflexivity).
  assert (Hf' : get_ns3_relative_path_modular (d_file get_seed) = Ok (Some "random-variable.h"))
    by (vm_compute; reflexivity).
  exact (proj1 (proj2 (parameters_of_function no_args no_template no_split get_seed
    (start_scan type_annotations) a _ 9 "random-variable.h" "core" {["random-variable.h" := "core"]}
    (fun _ => None) eq_refl ltac:(discriminate) Ha Hp Hf Hf' ltac:(discriminate) eq_refl))).
Defined.

Definition demo_modules : modules :=
  list_to_map [("core", ([], ["object.h"])); ("network", (["core"], ["node.h"]));
               ("point-to-point", (["network"; "core"], ["p2p.h"])); ("tools", ([], ["tools.h"]))].
Lemma demo_names m1 m2 : m1 ∈ dom demo_modules -> m2 ∈ dom demo_modules ->
  section_name m1 = section_name m2 -> m1 = m2.
Proof.
  assert (Hb : forallb (fun m1 => forallb (fun m2 =>
      negb (bool_decide (section_name m1 = section_name m2)) || bool_decide (m1 = m2))
    (elements (dom demo_modules))) (elements (dom demo_modules)) = true) by (vm_compute; reflexivity).
  rewrite <- !elem_of_elements. revert Hb. generalize (elements (dom demo_modules)). intros l Hb H1 H2 Heq.
  rewrite forallb_forall in Hb. apply list_elem_of_In in H1, H2. specialize (Hb _ H1). cbn in Hb.
  rewrite forallb_forall in Hb. specialize (Hb _ H2). rewrite (bool_decide_eq_true_2 _ Heq) in Hb.
  by apply bool_decide_eq_true in Hb.
Qed.
Lemma section_order_witness :
  acyclic (module_graph demo_modules) /\
  exists s, ns3_module_scan Python2 "out/ns3.py" demo_modules = Ok s /\
    classify (headers_map s) "/build/ns3/p2p.h" = "ns3_module_point_to_point" /\
    classify (headers_map s) "/build/ns3/tools.h" = "__main__".
Proof.
  assert (Hac : acyclic (module_graph demo_modules)).
  { apply (topsort_ok_acyclic _ ["core"; "network"; "point-to-point"]). vm_compute. reflexivity. }
  split; [exact Hac|].
  destruct (section_order "out/ns3.py" demo_modules Hac) as (s & Hrun & _ & Hcls).
  - assert (Hb : forallb (fun x => bool_decide (x.1 ∈ dom demo_modules)) (module_graph demo_modules) = true)
      by (vm_compute; reflexivity).
    intros dep m Hin. rewrite forallb_forall in Hb. apply list_elem_of_In in Hin.
    specialize (Hb _ Hin). by apply bool_decide_eq_true in Hb.
  - exact demo_names.
  - exists s. split; [exact Hrun|].
    split.
    + exact (Hcls "point-to-point" "p2p.h" "/build/ns3/p2p.h" (lists_check demo_modules "point-to-point" "p2p.h" eq_refl)
        (only_check demo_modules "point-to-point" "p2p.h" eq_refl) eq_refl).
    + exact (Hcls "tools" "tools.h" "/build/ns3/tools.h" (lists_check demo_modules "tools" "tools.h" eq_refl)
        (only_check demo_modules "tools" "tools.h" eq_refl) eq_refl).
Defined.

(** The module of an enumeration is imported by its name with dashes, which is no name of
    a Python module; that of a class is not. *)
Lemma enum_import_dashes :
  let e := {| d_kind := Enumeration; d_name := "Mode"; d_parent := "ns3"; d_text := "Mode [enumeration]";
              d_decl := "::ns3::Mode"; d_demangled := ""; d_file := "/build/ns3/p2p.h" |} in
  globals (pre_scan_hook_modular no_args no_template no_split (fun _ => None)
             {["p2p.h" := "point-to-point"]} "core" e (start_scan type_annotations)).2 !! "import_from_module"
  = Some (Text "ns.point-to-point").
Proof. intros e. vm_compute. reflexivity. Qed.
