(* ===== verification/Bindings.v ===== *)
(** * Customizing the bindings: [ns3modulegen_core_customizations.py], [ns3modulegen.py]

    The programs of [src/bindings/python] that drive pybindgen: the transformation of smart
    pointers on C++ types as texts, the handlers and the classes of callbacks, the
    customizations of objects and attributes, and the classes that are left out without
    a feature.  pybindgen's tables of types are arguments, its module a record. *)

From S2P Require Import Prelude PyLib Format.
From Stdlib Require Import Ascii String.
From stdpp Require Import strings gmap.
Open Scope string_scope.
Open Scope nat_scope.
Open Scope list_scope.

Inductive gen_exn := GenTypeError | GenAssertionError | GenKeyError | GenValueError | GenIndexError
  | CodeGenerationError (msg : string) | NotSupportedError (msg : string).

(** ** Smart pointers *)

Definition str_take_last (n : nat) (s : string) : string :=
  string_of_list_ascii (drop (String.length s - n) (list_ascii_of_string s)).
Definition ends_with (p s : string) : bool := bool_decide (str_take_last (String.length p) s = p).
(** [s[:-n]] *)
Definition str_drop_last (n : nat) (s : string) : string :=
  string_of_list_ascii (take (String.length s - n) (list_ascii_of_string s)).
(** [re.compile(r'(ns3::|::ns3::|)Ptr<([^>]+)>\s*$').match(name)]: the second group. *)
Fixpoint until_close (s : string) : option (string * string) :=
  match s with
  | EmptyString => None
  | String c s => if decide (c = ">"%char) then Some ("", s)
                  else match until_close s with Some (a, b) => Some (String c a, b) | None => None end
  end.
Definition after_prefix (name : string) : option string :=
  if starts_with "ns3::Ptr<" name then Some (str_drop 9 name)
  else if starts_with "::ns3::Ptr<" name then Some (str_drop 11 name)
  else if starts_with "Ptr<" name then Some (str_drop 4 name)
  else None.
Definition match_ptr (name : string) : option string :=
  match after_prefix name ≫= until_close with
  | Some (String c group, rest) => if str_all is_space rest then Some (String c group) else None
  | _ => None
  end.
(** [_get_untransformed_type_traits]: the type without the pointer, and whether it is constant. *)
Definition take_const (name1 : string) : string * bool :=
  let '(name1, is_const) :=
    if starts_with "const " name1 then (str_drop 6 name1, true) else (name1, false) in
  if ends_with " const" name1 then (str_drop_last 6 name1, true) else (name1, is_const).
Definition get_untransformed_type_traits (name : string) : option (string * bool) :=
  match match_ptr name with
  | None => None
  | Some group =>
      let '(name1, is_const) := take_const (strip group) in
      let new_name := name1 +:+ " *" in
      Some (if starts_with "::" new_name then str_drop 2 new_name else new_name, is_const)
  end.
Definition get_untransformed_name (name : string) : option string :=
  fst <$> get_untransformed_type_traits name.
(** [create_type_handler] for a parameter or a return value: the type it is made for, the
    type it is transformed to, and the option that is turned off. *)
Inductive handler_kind := ParameterHandler | ReturnValueHandler | OtherHandler.
Definition create_type_handler (k : handler_kind) (ctype : string)
    : res gen_exn (string * string * string) :=
  let* option_ :=
    match k with
    | ParameterHandler => Ok "transfer_ownership"
    | ReturnValueHandler => Ok "caller_owns_return"
    | OtherHandler => Raise GenAssertionError
    end in
  match get_untransformed_type_traits ctype with
  | None => Raise GenTypeError
  | Some (orig_ctype, is_const) =>
      let correct_ctype :=
        if is_const : bool then "ns3::Ptr< " +:+ str_drop_last 2 orig_ctype +:+ " const >"
        else "ns3::Ptr< " +:+ str_drop_last 2 orig_ctype +:+ " >" in
      Ok (correct_ctype, orig_ctype, option_)
  end.
Definition untransform (untransformed_ctype expression : string) : string :=
  "const_cast<" +:+ untransformed_ctype +:+ "> (ns3::PeekPointer (" +:+ expression +:+ "))".
Definition transform (untransformed_ctype expression : string) : res gen_exn string :=
  if decide (untransformed_ctype = "") then Raise GenIndexError
  else if ends_with "*" untransformed_ctype then
    Ok ("ns3::Ptr< " +:+ str_drop_last 1 untransformed_ctype +:+ " > (" +:+ expression +:+ ")")
  else Raise GenAssertionError.

(** ** Callbacks *)

(** A handler that [register_callback_classes] makes: the C++ class it is for, the class
    of the implementation, the arguments of the template. *)
Record callback := { cls_name : string; impl_name : string; template_args : list string }.
Definition callback_cls_name (args : list string) : string :=
  "ns3::Callback< " +:+ str_join ", " args +:+ " >".
Definition callback_impl_name (n : nat) : string := "PythonCallbackImpl" +:+ show_number (N.of_nat n).
Definition register_callback_classes (callbacks : list (list string)) : list callback :=
  imap (fun i args => {| cls_name := callback_cls_name args; impl_name := callback_impl_name i;
                         template_args := args |}) callbacks.

(** The text of an implementation, up to the operator that pybindgen writes. *)
Definition callback_class_text (class_name : string) (template_parameters : list string) : string :=
  "
class " +:+ class_name +:+ " : public ns3::CallbackImpl<" +:+ str_join ", " template_parameters +:+ ">
{
public:
    PyObject *m_callback;
    " +:+ class_name +:+ "(PyObject *callback)
    {
        Py_INCREF(callback);
        m_callback = callback;
    }
    virtual ~" +:+ class_name +:+ "()
    {
        PyGILState_STATE __py_gil_state;
        __py_gil_state = (PyEval_ThreadsInitialized() ? PyGILState_Ensure() : (PyGILState_STATE) 0);
        Py_DECREF(m_callback);
        m_callback = NULL;
        PyGILState_Release(__py_gil_state);
    }

    virtual bool IsEqual(ns3::Ptr<const ns3::CallbackImplBase> other_base) const
    {
        const " +:+ class_name +:+ " *other = dynamic_cast<const " +:+ class_name +:+ "*> (ns3::PeekPointer (other_base));
        if (other != NULL)
            return (other->m_callback == m_callback);
        else
            return false;
    }

".

(** What [generate_callback_classes] changes: the implementations it writes, the classes whose
    handlers it disables, and the C++ classes whose helper it takes away. *)
Record generated_callbacks := {
  written : list (string * list string);
  disabled : list string;
  helpers : list string;
  helper_class_disabled : list string }.

Section Callbacks.
(** The types that pybindgen can return and take (all are types that it can parse; for the others it raises one of the two
    exceptions that are caught), the C++ class of a parameter, and
    whether the helper of a class can be constructed.  [operator_error] is the exception, if any, with which pybindgen fails
    to write the [operator()] of a callback; the source does not catch it. *)
Context (return_known parameter_known : string -> bool).
Context (class_of : string -> option string) (helper_constructible : string -> bool).
Context (operator_error : list string -> option gen_exn).

Definition callback_parameters (args : list string) : list string :=
  List.filter (fun a => negb (bool_decide (a = "ns3::empty"))) (drop 1 args).
(** The loop over the parameters: the helpers it takes away, and [ok]. *)
Definition check_parameter (gk : generated_callbacks * bool) (arg_type : string)
    : generated_callbacks * bool :=
  let '(g, ok) := gk in
  if parameter_known arg_type then
    (match class_of arg_type with
     | Some c =>
         if (bool_decide (c ∈ helpers g) && negb (helper_constructible c))%bool then
           {| written := written g; disabled := disabled g; helpers := list_remove c (helpers g);
              helper_class_disabled := helper_class_disabled g ++ [c] |}
         else g
     | None => g
     end, ok)
  else (g, false).
Definition check_parameters (g : generated_callbacks) (args : list string)
    : generated_callbacks * bool :=
  fold_left check_parameter (callback_parameters args) (g, true).
Definition generate_callback (g : generated_callbacks) (x : nat * list string)
    : res gen_exn generated_callbacks :=
  let '(n, args) := x in
  match args with
  | [] => Raise GenIndexError
  | callback_return :: _ =>
      if negb (return_known callback_return) then Ok g
      else
        let '(g, ok) := check_parameters g args in
        if ok : bool then
          match operator_error args with
          | Some e => Raise e
          | None =>
          Ok {| written := written g ++ [(callback_impl_name n, args)]; disabled := disabled g;
                helpers := helpers g; helper_class_disabled := helper_class_disabled g |}
          end
        else
          Ok {| written := written g; disabled := disabled g ++ [callback_cls_name args];
                helpers := helpers g; helper_class_disabled := helper_class_disabled g |}
  end.
Definition generate_callback_classes (callbacks : list (list string)) (helpers : list string)
    : res gen_exn generated_callbacks :=
  for_each generate_callback (imap (fun i a => (i, a)) callbacks)
    {| written := []; disabled := []; helpers := helpers; helper_class_disabled := [] |}.
End Callbacks.

(** *** The conversion of an argument *)

(** The calls a handler makes on the wrapper that pybindgen writes for a C++ method: variables
    with a type and an initial value, formats of arguments, code before the call, and the
    arguments of the call. *)
Inductive wrapper_call :=
  | DeclareVariable (type_ name : string) (initializer : option string)
  | AddParameter (template : string) (values : list string) (name : string) (optional : bool)
  | WriteErrorCheck (condition code : string)
  | WriteCode (code : string)
  | Indent | Unindent
  | AppendCallParam (value : string).
Abbreviation writer A := (list wrapper_call -> res gen_exn (A * list wrapper_call)).
Definition bind {A B} (m : writer A) (k : A -> writer B) : writer B :=
  fun w => let* (a, w) := m w in k a w.
Notation "'do*' x := m 'in' k" := (bind m (fun x => k))
  (at level 10, x pattern at level 200, m at level 100, k at level 200) : py_scope.
Definition issue (c : wrapper_call) : writer unit := fun w => Ok (tt, w ++ [c]).

Section Conversion.
(** The name that pybindgen gives to the variable of the last of these calls. *)
Context (variable : list wrapper_call -> string).

Definition declare_variable (type_ name : string) (initializer : option string) : writer string :=
  fun w => let w := w ++ [DeclareVariable type_ name initializer] in Ok (variable w, w).
Definition not_callable (name : string) : string :=
  "PyErr_SetString(PyExc_TypeError, " +:+ String quote "parameter '" +:+ name +:+ "' must be callbale"
    +:+ String quote ");".

(** [PythonCallbackParameter.convert_python_to_c] for a parameter with this name and this
    default value. *)
Definition convert_python_to_c (g : generated_callbacks) (c : callback) (name : string)
    (default_value : option string) : writer unit :=
  let callback_type := "ns3::Callback<" +:+ str_join ", " (template_args c) +:+ ">" in
  let not_callable_check (py_callback : string) :=
    issue (WriteErrorCheck ("!PyCallable_Check(" +:+ py_callback +:+ ")") (not_callable name)) in
  if bool_decide (cls_name c ∈ disabled g) then
    fun _ => Raise (CodeGenerationError "wrapper could not be generated")
  else
    match default_value with
    | None =>
        do* py_callback := declare_variable "PyObject*" name None in
        do* _ := issue (AddParameter "O" ["&" +:+ py_callback] name false) in
        do* _ := not_callable_check py_callback in
        do* callback_impl :=
          declare_variable ("ns3::Ptr<" +:+ impl_name c +:+ ">") (name +:+ "_cb_impl") None in
        do* _ := issue (WriteCode (callback_impl +:+ " = ns3::Create<" +:+ impl_name c +:+ "> ("
                                   +:+ py_callback +:+ ");")) in
        issue (AppendCallParam (callback_type +:+ " (" +:+ callback_impl +:+ ")"))
    | Some d =>
        do* py_callback := declare_variable "PyObject*" name (Some "NULL") in
        do* _ := issue (AddParameter "O" ["&" +:+ py_callback] name true) in
        do* value := declare_variable callback_type (name +:+ "_value") (Some d) in
        do* _ := issue (WriteCode ("if (" +:+ py_callback +:+ ") {")) in
        do* _ := issue Indent in
        do* _ := not_callable_check py_callback in
        do* _ := issue (WriteCode (value +:+ " = " +:+ callback_type +:+ " (ns3::Create<"
                                   +:+ impl_name c +:+ "> (" +:+ py_callback +:+ "));")) in
        do* _ := issue Unindent in
        do* _ := issue (WriteCode "}") in
        issue (AppendCallParam value)
    end.
Definition convert_c_to_python : writer unit := fun _ =>
  Raise (NotSupportedError ("Reverse wrappers for ns3::Callback<...> types "
    +:+ "(python using callbacks defined in C++) not implemented.")).
(** [IosOpenmodeParam.convert_python_to_c] *)
Definition ios_openmode_to_c (name : string) (default_value : option string) : writer unit :=
  do* v := declare_variable "std::ios_base::openmode" name default_value in
  do* _ := issue (AddParameter "i" ["&" +:+ v] name (bool_decide (default_value ∉ [None; Some ""]))) in
  issue (AppendCallParam v).
End Conversion.

(** [add_std_ios_openmode]: the lines it writes after the initialization of a module. *)
Definition add_std_ios_openmode : list string :=
  map (fun flag => "PyModule_AddIntConstant(m, (char *) " +:+ String quote "STD_IOS_" +:+ upper flag
                   +:+ String quote ", std::ios::" +:+ flag +:+ ");")
      ["in"; "out"; "ate"; "app"; "trunc"; "binary"].

(** ** Objects and attributes *)

(** [ns3_object_instance_creation_function]: its two messages; the first one has two places
    and one value, so that formatting it raises. *)
Record cpp_class := { full_name : string; cannot_be_constructed : bool; incomplete_type : bool }.
Definition ns3_object_instance_creation_function (c : cpp_class)
    (lvalue parameters construct_type_name : string) : res gen_exn (list string) :=
  if decide (lvalue = "") then Raise GenAssertionError
  else if starts_with "None" lvalue then Raise GenAssertionError
  else if cannot_be_constructed c then Raise GenTypeError
  else if incomplete_type c then
    Raise (CodeGenerationError (full_name c +:+ " cannot be constructed (incomplete type)"))
  else Ok [lvalue +:+ " = new " +:+ construct_type_name +:+ "(" +:+ parameters +:+ ");";
           lvalue +:+ "->Ref ();"].
Definition ns3_object_post_instance_creation_function (lvalue : string) : list string :=
  ["ns3::CompleteConstruct(" +:+ lvalue +:+ ");"].

(** [Attribute_customizations] on the parameters of the methods of the classes. *)
Record parameter := {
  is_class_ref : bool; p_class : string; default_value : option string;
  default_value_type : option string }.
Definition fix_parameter (p : parameter) : parameter :=
  if (is_class_ref p && bool_decide (p_class p = "AttributeValue") &&
      bool_decide (is_Some (default_value p)) && bool_decide (default_value_type p = None))%bool then
    {| is_class_ref := is_class_ref p; p_class := p_class p; default_value := default_value p;
       default_value_type := Some "ns3::EmptyAttributeValue" |}
  else p.
Definition Attribute_customizations (classes : list (list (list parameter))) : list (list (list parameter)) :=
  map (map (map fix_parameter)) classes.

(** The method and the registration that the hook adds to a helper class. *)
Definition helper_class_hook (name full_name : string) : string * string :=
  ("
static ns3::TypeId GetTypeId (void)
{
  static ns3::TypeId tid = ns3::TypeId (" +:+ String quote name +:+ String quote ")
    .SetParent< " +:+ full_name +:+ " > ()
    ;
  return tid;
}", "NS_OBJECT_ENSURE_REGISTERED (" +:+ name +:+ ");").

(** ** Features *)

(** pybindgen's module: the full names of its classes and of its enumerations. *)
Record root_module := { classes : list string; enums : list string }.

Section Features.
(** What [root_module[name]] finds; removing a class from the list does not change it. *)
Context (known : string -> bool).
(** [root_module.classes.remove(root_module[name])] *)
Definition remove_class (name : string) (m : root_module) : res gen_exn root_module :=
  if negb (known name) then Raise GenKeyError
  else if decide (name ∈ classes m) then
    Ok {| classes := list_remove name (classes m); enums := enums m |}
  else Raise GenValueError.
Definition remove_enum (name : string) (m : root_module) : res gen_exn root_module :=
  if negb (known name) then Raise GenKeyError
  else if decide (name ∈ enums m) then
    Ok {| classes := classes m; enums := list_remove name (enums m) |}
  else Raise GenValueError.
(** The [try] with [except KeyError: pass]. *)
Definition remove_if_known (name : string) (m : root_module) : res gen_exn root_module :=
  match remove_class name m with Raise GenKeyError => Ok m | r => r end.
Definition remove_classes (names : list string) (m : root_module) : res gen_exn root_module :=
  for_each (fun m n => remove_class ("ns3::" +:+ n) m) names m.
(** [main]: what is left of the module for the features that are enabled. *)
Definition without (enabled_features : list string) (f : string)
    (k : root_module -> res gen_exn root_module) (m : root_module) : res gen_exn root_module :=
  if decide (f ∈ enabled_features) then Ok m else k m.
Definition remove_disabled (enabled_features : list string) (m : root_module) : res gen_exn root_module :=
  let without := without enabled_features in
  let* m := without "GtkConfigStore" (remove_if_known "ns3::GtkConfigStore") m in
  let* m := without "SqliteDataOutput" (remove_if_known "ns3::SqliteDataOutput") m in
  let* m := without "Threading" (remove_classes
    ["SystemThread"; "SystemMutex"; "SystemCondition"; "CriticalSection";
     "SimpleRefCount< ns3::SystemThread, ns3::empty, ns3::DefaultDeleter<ns3::SystemThread> >"]) m in
  let* m := without "EmuNetDevice" (fun m =>
    let* m := remove_classes ["EmuNetDevice"; "EmuHelper"] m in
    remove_enum "ns3::EmuNetDevice::EncapsulationMode" m) m in
  let* m := without "RealTime" (fun m =>
    let* m := remove_classes ["WallClockSynchronizer"; "RealtimeSimulatorImpl"] m in
    remove_enum "ns3::RealtimeSimulatorImpl::SynchronizationMode" m) m in
  without "TapBridge" (fun m =>
    let* m := remove_classes ["TapBridge"; "TapBridgeHelper"; "TapBridgeFdReader"] m in
    remove_enum "ns3::TapBridge::Mode" m) m.
End Features.

(** [MyMultiSectionFactory]: the name and the file of the section of a module. *)
Definition section_file (dir module : string) : string * string :=
  let section_name := "ns3_module_" +:+ replace_char "-"%char "_"%char module in
  (section_name, path_join dir (section_name +:+ ".cc")).

(** [ErrorHandler.handle_error] of [ns3modulegen-modular.py]: the place the warning is
    about, and the stack of the wrapper, which is reversed where it is. *)
Definition location : Type := string * Z * string * string.
Fixpoint location_in (file : string) (stack : list location) : option (string * Z) :=
  match stack with
  | [] => None
  | (f, line, _, _) :: stack => if decide (f = file) then Some (f, line) else location_in file stack
  end.
Definition handle_error (apidefs_file : string) (stack_where_defined : list location)
    : option (string * Z) * list location :=
  let stack := rev stack_where_defined in (location_in apidefs_file stack, stack).

(** ** Smart pointers: spellings of one type *)

(** The characters of the qualified name of a class. *)
Definition name_char (c : ascii) : bool := is_word c || bool_decide (c = ":"%char).
Definition cpp_name (t : string) : bool :=
  str_all name_char t && negb (starts_with "::" t) && negb (bool_decide (t = "")).
Definition blank (s : string) : bool := str_all is_space s.
(** The ways to write a pointer to a class, and its constness. *)
Inductive constness := Plain | ConstBefore | ConstAfter | ConstBoth.
Definition qualified (q : constness) (t : string) : string :=
  match q with
  | Plain => t
  | ConstBefore => "const " +:+ t
  | ConstAfter => t +:+ " const"
  | ConstBoth => "const " +:+ t +:+ " const"
  end.
Definition is_const (q : constness) : bool := match q with Plain => false | _ => true end.
Definition spelling (pre b1 : string) (q : constness) (colons : bool) (t b2 b3 : string) : string :=
  pre +:+ "Ptr<" +:+ b1 +:+ qualified q ((if colons then "::" else "") +:+ t) +:+ b2 +:+ ">" +:+ b3.
(** The spelling that [create_type_handler] gives to pybindgen. *)
Definition canonical (const : bool) (t : string) : string :=
  if const then "ns3::Ptr< " +:+ t +:+ " const >" else "ns3::Ptr< " +:+ t +:+ " >".

Lemma str_all_imp P Q s : (forall c, P c = true -> Q c = true) -> str_all P s = true -> str_all Q s = true.
Proof.
  intros HPQ. induction s as [|c s IH]; cbn; [done|]. intros [Hc Hs]%andb_true_iff.
  by rewrite (HPQ _ Hc), IH.
Qed.
Lemma append_String c s t : String c s +:+ t = String c (s +:+ t).
Proof. done. Qed.
Lemma ends_with_append s p : ends_with p (s +:+ p) = true.
Proof.
  apply bool_decide_eq_true. unfold str_take_last.
  rewrite list_ascii_append, str_length_append, drop_app_ge; rewrite list_ascii_length; [|lia].
  replace (_ - _ - _) with 0 by lia. cbn. apply string_of_list_ascii_of_string.
Qed.
Lemma str_drop_last_append s p : str_drop_last (String.length p) (s +:+ p) = s.
Proof.
  unfold str_drop_last. rewrite list_ascii_append, str_length_append.
  replace (String.length s + String.length p - String.length p)
    with (length (list_ascii_of_string s)) by (rewrite list_ascii_length; lia).
  rewrite take_app_length. apply string_of_list_ascii_of_string.
Qed.
(** A text has no suffix with a character that it does not have. *)
Lemma ends_with_chars P p s : str_all P s = true -> str_all P p = false -> ends_with p s = false.
Proof.
  intros Hs Hp. apply bool_decide_eq_false. intros Heq.
  assert (str_all P p = true); [|congruence]. rewrite <- Heq. unfold str_take_last.
  assert (Hl : forall l, str_all P (string_of_list_ascii l) = forallb P l)
    by (induction l; cbn; congruence).
  rewrite <- (string_of_list_ascii_of_string s), Hl in Hs. rewrite Hl.
  rewrite <- (take_drop (String.length s - String.length p) (list_ascii_of_string s)), forallb_app in Hs.
  by apply andb_true_iff in Hs as [_ ?].
Qed.
(** The first word of a text. *)
Lemma starts_with_no_blank P a t : str_all P t = true -> P " "%char = false ->
  starts_with (a +:+ " ") t = false.
Proof.
  intros Ht Hb. revert a. induction t as [|c t IH]; intros a; [by destruct a|].
  cbn in Ht. apply andb_true_iff in Ht as [Hc Ht]. destruct a as [|d a]; rewrite ?append_String;
    change ("" +:+ " ") with " "; cbn [starts_with].
  - rewrite bool_decide_eq_false_2; [done|]. intros <-. congruence.
  - by rewrite IH, andb_false_r.
Qed.
Lemma starts_with_word P a t r : str_all P a = true -> str_all P t = true -> P " "%char = false ->
  starts_with (a +:+ " ") (t +:+ String " " r) = true -> t = a.
Proof.
  intros Ha Ht Hb. revert a Ha. induction t as [|c t IH]; intros [|d a] Ha Hst; [done|..];
    rewrite ?append_String in Hst; cbn [str_all starts_with append] in *; apply andb_true_iff in Hst as [Hc%bool_decide_eq_true Hst];
    try apply andb_true_iff in Ha as [? Ha]; try apply andb_true_iff in Ht as [? Ht]; subst; [congruence..|].
  by rewrite (IH Ht a Ha Hst).
Qed.

(** Blanks around a text without blanks at its ends. *)
Lemma lstrip_blank b s : blank b = true -> lstrip (b +:+ s) = lstrip s.
Proof. induction b as [|c b IH]; [done|]. intros [Hc Hb]%andb_true_iff. rewrite append_String. cbn [lstrip].
  by rewrite Hc, IH.
Qed.
Lemma rstrip_blank b : blank b = true -> rstrip b = "".
Proof. induction b as [|c b IH]; [done|]. intros [Hc Hb]%andb_true_iff. cbn [rstrip]. by rewrite IH, Hc. Qed.
Lemma rstrip_append_blank s b : blank b = true -> rstrip (s +:+ b) = rstrip s.
Proof.
  intros Hb. induction s as [|c s IH]; [by apply rstrip_blank|]. rewrite append_String. cbn [rstrip]. by rewrite IH.
Qed.
Lemma rstrip_last s c : is_space c = false -> rstrip (s +:+ String c "") = s +:+ String c "".
Proof.
  intros Hc. induction s as [|d s IH]; [change ("" +:+ String c "") with (String c ""); cbn [rstrip]; by rewrite Hc|].
  rewrite append_String. cbn [rstrip]. rewrite IH.
  by destruct s.
Qed.
Lemma strip_around b1 s b2 : blank b1 = true -> blank b2 = true ->
  (forall c r, s = String c r -> is_space c = false) ->
  (forall r c, s = r +:+ String c "" -> is_space c = false) ->
  strip (b1 +:+ s +:+ b2) = s.
Proof.
  intros H1 H2 Hc Hd. unfold strip. rewrite lstrip_blank by done.
  destruct s as [|c s]; [|]. 
  { change ("" +:+ b2) with b2. rewrite <- (str_append_nil_r b2), lstrip_blank by done. done. }
  rewrite append_String. cbn [lstrip]. rewrite (Hc c s) by done.
  rewrite <- append_String, rstrip_append_blank by done.
  destruct (exists_last (l := list_ascii_of_string (String c s))) as (l & d & Hl); [done|].
  assert (Hs : String c s = string_of_list_ascii l +:+ String d "").
  { rewrite <- (string_of_list_ascii_of_string (String c s)), Hl. by rewrite string_of_list_ascii_app. }
  rewrite Hs in *. apply rstrip_last. by eapply Hd.
Qed.

(** A name has neither blanks nor the end of a template. *)
Lemma name_char_not_space c : name_char c = true -> is_space c = false.
Proof. destruct c as [[] [] [] [] [] [] [] []]; vm_compute; congruence. Qed.
Lemma name_char_open c : name_char c = true -> c <> ">"%char.
Proof. by intros ? ->. Qed.
Lemma space_open c : is_space c = true -> c <> ">"%char.
Proof. by intros ? ->. Qed.
Definition inner_char (c : ascii) : bool := name_char c || is_space c.
Lemma until_close_app a b : str_all inner_char a = true -> until_close (a +:+ ">" +:+ b) = Some (a, b).
Proof.
  induction a as [|c a IH]; [done|]. intros [Hc Ha]%andb_true_iff. rewrite append_String. cbn [until_close].
  rewrite decide_False; [by rewrite IH|]. by intros ->.
Qed.

Lemma str_snoc_inj r1 r2 c1 c2 : r1 +:+ String c1 "" = r2 +:+ String c2 "" -> c1 = c2.
Proof.
  intros H%(f_equal list_ascii_of_string). rewrite !list_ascii_append in H. by apply app_inj_tail in H as [_ H].
Qed.
Section Spelling.
Context (q : constness) (x : string) (Hx : str_all name_char x = true) (Hne : x <> "").
Lemma name_no_blank : str_all (fun c => negb (is_space c)) x = true.
Proof. eapply str_all_imp, Hx. intros c Hc. by rewrite (name_char_not_space c Hc). Qed.
Lemma qualified_inner : str_all inner_char (qualified q x) = true.
Proof.
  assert (H : str_all inner_char x = true) by (eapply str_all_imp, Hx; intros c Hc; unfold inner_char; by rewrite Hc).
  destruct q; cbn [qualified]; rewrite ?str_all_append, H; done.
Qed.
Lemma qualified_first c r : qualified q x = String c r -> is_space c = false.
Proof.
  destruct x as [|d y]; [done|]. cbn in Hx. apply andb_true_iff in Hx as [Hd _].
  apply name_char_not_space in Hd.
  destruct q; cbn [qualified]; rewrite ?append_String; by intros [= <- _].
Qed.
Lemma qualified_last r c : qualified q x = r +:+ String c "" -> is_space c = false.
Proof.
  destruct (exists_last (l := list_ascii_of_string x)) as (l & d & Hl); [by destruct x|].
  assert (Hs : x = string_of_list_ascii l +:+ String d "").
  { rewrite <- (string_of_list_ascii_of_string x), Hl. by rewrite string_of_list_ascii_app. }
  assert (Hd : is_space d = false).
  { rewrite Hs, str_all_append in Hx. apply andb_true_iff in Hx as [_ Hd]. cbn in Hd.
    apply andb_true_iff in Hd as [Hd _]. by apply name_char_not_space. }
  destruct q; cbn [qualified].
  1, 2: rewrite Hs, <- ?str_append_assoc; by intros <-%str_snoc_inj.
  all: change " const" with (" cons" +:+ "t"); rewrite <- ?str_append_assoc; by intros <-%str_snoc_inj.
Qed.

Lemma match_ptr_spelling pre b1 b2 b3 : pre ∈ [""; "ns3::"; "::ns3::"] ->
  blank b1 = true -> blank b2 = true -> blank b3 = true ->
  match_ptr (pre +:+ "Ptr<" +:+ b1 +:+ qualified q x +:+ b2 +:+ ">" +:+ b3)
    = Some (b1 +:+ qualified q x +:+ b2).
Proof.
  intros Hpre H1 H2 H3. unfold match_ptr.
  assert (Hap : forall r, after_prefix (pre +:+ "Ptr<" +:+ r) = Some r).
  { intros r. set_unfold. by destruct Hpre as [->|[->|[->|[]]]]. }
  rewrite Hap. cbn [mbind option_bind].
  assert (Hb : forall b, blank b = true -> str_all inner_char b = true).
  { intros b. apply str_all_imp. intros c Hc. unfold inner_char. by rewrite Hc, orb_true_r. }
  replace (b1 +:+ qualified q x +:+ b2 +:+ ">" +:+ b3)
    with ((b1 +:+ qualified q x +:+ b2) +:+ ">" +:+ b3) by by rewrite !str_append_assoc.
  rewrite until_close_app by by rewrite !str_all_append, qualified_inner, !Hb.
  destruct (b1 +:+ qualified q x +:+ b2) as [|c g] eqn:Hg; [|by unfold blank in H3; rewrite H3].
  apply (f_equal String.length) in Hg. rewrite !str_length_append in Hg. exfalso.
  enough (0 < String.length (qualified q x)) by (cbn in Hg; lia).
  destruct x; [done|]. destruct q; cbn [qualified]; rewrite ?str_length_append; cbn; lia.
Qed.

(** The word [const] is taken off once on either side. *)
Lemma take_const_qualified : x <> "const" -> take_const (qualified q x) = (x, is_const q).
Proof.
  intros Hc.
  assert (Hs1 : starts_with "const " x = false) by by apply (starts_with_no_blank name_char "const").
  assert (Hs2 : starts_with "const " (x +:+ " const") = false).
  { destruct (starts_with _ (x +:+ _)) eqn:Hst; [|done]. exfalso.
    apply (starts_with_word name_char "const" x "const") in Hst; done. }
  assert (He : ends_with " const" x = false) by by apply (ends_with_chars name_char).
  assert (He2 : ends_with " const" (x +:+ " const") = true) by apply ends_with_append.
  assert (Hdrop : forall s, str_drop 6 ("const " +:+ s) = s) by exact (str_drop_append "const ").
  assert (Hd : str_drop_last 6 (x +:+ " const") = x) by apply (str_drop_last_append x " const").
  unfold take_const. destruct q; cbn [qualified].
  - by rewrite Hs1, He.
  - rewrite starts_with_append, Hdrop, He. done.
  - by rewrite Hs2, He2, Hd.
  - by rewrite starts_with_append, Hdrop, He2, Hd.
Qed.
End Spelling.

Lemma traits_spelling pre b1 b2 b3 q (colons : bool) t : pre ∈ [""; "ns3::"; "::ns3::"] ->
  blank b1 = true -> blank b2 = true -> blank b3 = true -> cpp_name t = true -> t <> "const" ->
  get_untransformed_type_traits (spelling pre b1 q colons t b2 b3) = Some (t +:+ " *", is_const q).
Proof.
  intros Hpre H1 H2 H3 [[Ht Hc]%andb_true_iff Hne]%andb_true_iff Hconst.
  apply negb_true_iff in Hc, Hne. apply bool_decide_eq_false in Hne.
  set (x := (if colons then "::" else "") +:+ t).
  assert (Hx : str_all name_char x = true) by (unfold x; rewrite str_all_append, Ht; by destruct colons).
  assert (Hxne : x <> "") by (unfold x; destruct colons; [done|exact Hne]).
  assert (Hxc : x <> "const") by (unfold x; destruct colons; [done|exact Hconst]).
  unfold get_untransformed_type_traits, spelling. fold x.
  rewrite match_ptr_spelling by done. cbv zeta.
  rewrite strip_around; [|done|done|by apply qualified_first|by apply qualified_last].
  rewrite take_const_qualified by done. do 2 f_equal. unfold x.
  destruct colons; [by rewrite str_append_assoc, starts_with_append; exact (str_drop_append "::" _)|].
  change ("" +:+ t) with t. replace (starts_with "::" (t +:+ " *")) with false; [done|].
  destruct t as [|c [|d t]]; [done| |]; rewrite !append_String; cbn in *;
    repeat case_bool_decide; subst; done.
Qed.

Definition handler_option (k : handler_kind) : string :=
  match k with ReturnValueHandler => "caller_owns_return" | _ => "transfer_ownership" end.
Lemma create_type_handler_traits k ctype t c : k <> OtherHandler ->
  get_untransformed_type_traits ctype = Some (t +:+ " *", c) ->
  create_type_handler k ctype = Ok (canonical c t, t +:+ " *", handler_option k).
Proof.
  intros Hk Ht. unfold create_type_handler. rewrite Ht.
  replace (str_drop_last 2 (t +:+ " *")) with t by (symmetry; apply (str_drop_last_append t " *")).
  by destruct k, c.
Qed.
Lemma canonical_spelling c t :
  canonical c t = spelling "ns3::" " " (if c then ConstAfter else Plain) false t " " "".
Proof.
  unfold spelling. change ((if false then "::" else "") +:+ t) with t.
  destruct c; cbn [canonical qualified]; [rewrite (str_append_assoc t " const")|]; reflexivity.
Qed.

(** C29: for a class whose name is a plain C++ name, qualified or not (no template), the following ways to write a smart
    pointer to it all yield the same handler: [Ptr], [ns3::Ptr] or [::ns3::Ptr]; leading colons before the class; [const]
    before or after it or both, set off by exactly one blank; and any blanks after [<], before [>] and at
    the end.  The handler has the class with a [*] as the plain type, and one spelling of the pointer for
    pybindgen; and this spelling is read back to the same handler. *)
Theorem smart_pointer_handler k pre b1 b2 b3 q colons t :
  k <> OtherHandler -> pre ∈ [""; "ns3::"; "::ns3::"] ->
  blank b1 = true -> blank b2 = true -> blank b3 = true -> cpp_name t = true -> t <> "const" ->
  let ctype := canonical (is_const q) t in
  let handler := Ok (ctype, t +:+ " *", handler_option k) in
  create_type_handler k (spelling pre b1 q colons t b2 b3) = handler /\
  create_type_handler k ctype = handler /\
  get_untransformed_name ctype = Some (t +:+ " *").
Proof.
  intros Hk Hpre H1 H2 H3 Ht Hc. cbv zeta.
  assert (Hcan : get_untransformed_type_traits (canonical (is_const q) t) = Some (t +:+ " *", is_const q)).
  { rewrite canonical_spelling, traits_spelling; [by destruct q|by right; left|done..]. }
  split; [|split].
  - apply create_type_handler_traits; [done|]. by apply traits_spelling.
  - by apply create_type_handler_traits.
  - unfold get_untransformed_name. by rewrite Hcan.
Qed.
Lemma smart_pointer_handler_witness :
  create_type_handler ReturnValueHandler "::ns3::Ptr<const ::ns3::Packet const> " =
    Ok ("ns3::Ptr< ns3::Packet const >", "ns3::Packet *", "caller_owns_return").
Proof.
  exact (proj1 (smart_pointer_handler ReturnValueHandler "::ns3::" "" "" " " ConstBoth true "ns3::Packet"
    ltac:(done) ltac:(by right; right; left) eq_refl eq_refl eq_refl eq_refl ltac:(done))).
Defined.

(** A pointer to a class that is itself a template is not read: its handler cannot be made. *)
Lemma nested_template : create_type_handler ParameterHandler "ns3::Ptr<Foo<Bar> >" = Raise GenTypeError.
Proof. reflexivity. Qed.

(** ** Callbacks: what is written and what is disabled *)

Lemma show_number_inj n m : show_number n = show_number m -> n = m.
Proof.
  intros H. assert (Hn := match_show_number n []). assert (Hm := match_show_number m []).
  rewrite !app_nil_r in *. rewrite H, Hm in Hn by done. specialize (Hn ltac:(done)). injection Hn. lia.
Qed.

Section CallbackFacts.
Context (return_known parameter_known : string -> bool).
Context (class_of : string -> option string) (helper_constructible : string -> bool).
Context (operator_error : list string -> option gen_exn).
Abbreviation generate := (generate_callback return_known parameter_known class_of helper_constructible operator_error).

(** The return type of a callback is known; its parameters are. *)
Definition returns (args : list string) : bool :=
  match args with [] => false | r :: _ => return_known r end.
Definition takes (args : list string) : bool := forallb parameter_known (callback_parameters args).

Lemma check_parameters_frame g args g' ok :
  check_parameters parameter_known class_of helper_constructible g args = (g', ok) ->
  written g' = written g /\ disabled g' = disabled g /\ ok = takes args.
Proof.
  unfold check_parameters, takes. change (forallb _ _) with (true && forallb parameter_known (callback_parameters args)).
  generalize true. revert g. induction (callback_parameters args) as [|a l IH]; intros g b H; cbn in H.
  - injection H as <- <-. by rewrite andb_true_r.
  - cbn [forallb]. destruct (parameter_known a).
    + apply IH in H as (Hw & Hd & ->). by repeat case_match; cbn in *.
    + apply IH in H as (Hw & Hd & ->). by rewrite andb_false_r.
Qed.

(** A callback whose types are known, and of which pybindgen can write the [operator()]. *)
Definition ready (args : list string) : bool := returns args && takes args.
Lemma generate_written l g : Forall (fun x => x.2 <> []) l ->
  match for_each generate l g with
  | Ok g' =>
      written g' = written g ++ ((fun x => (callback_impl_name x.1, x.2)) <$> filter (fun x => ready x.2) l) /\
      disabled g' = disabled g ++ ((fun x => callback_cls_name x.2) <$>
                                    filter (fun x => returns x.2 && negb (takes x.2)) l) /\
      Forall (fun x => ready x.2 = true -> operator_error x.2 = None) l
  | Raise e => Exists (fun x => ready x.2 = true /\ operator_error x.2 = Some e) l
  | OutOfFuel => False
  end.
Proof.
  intros Hl. revert g. induction Hl as [|[n args] l Hne Hl IH]; intros g; cbn [for_each].
  - by rewrite !app_nil_r.
  - destruct args as [|r args]; [done|]. rewrite !filter_cons. unfold ready in *. cbn [generate_callback snd returns] in *.
    destruct (return_known r) eqn:Er; cbn [negb andb res_bind].
    2:{ rewrite !decide_False by (by intros []). specialize (IH g).
        destruct (for_each generate l g) as [g'|e|]; [|by right|done].
        destruct IH as (? & ? & ?). split_and!; [done..|]. constructor; [|done]. cbn [snd returns]. by rewrite Er. }
    destruct (check_parameters _ _ _ g (r :: args)) as [g1 ok] eqn:Hg1.
    apply check_parameters_frame in Hg1 as (Hw & Hd & ->).
    destruct (takes (r :: args)) eqn:Et; cbn [res_bind negb].
    + rewrite decide_True, decide_False by (done || by intros []).
      destruct (operator_error (r :: args)) as [e|] eqn:Eo; cbn [res_bind].
      { left. cbn [snd returns]. by rewrite Er, Et. }
      match goal with |- context [for_each generate l ?g] => specialize (IH g) end.
      destruct (for_each generate l _) as [g'|e|]; [|by right|done].
      destruct IH as (Hw' & Hd' & Ho). cbn [written disabled] in *.
      rewrite Hw', Hd', Hw, Hd, fmap_cons, <- app_assoc. by split_and!; [..|constructor].
    + rewrite decide_False, decide_True by (done || by intros []).
      match goal with |- context [for_each generate l ?g] => specialize (IH g) end.
      destruct (for_each generate l _) as [g'|e|]; [|by right|done].
      destruct IH as (Hw' & Hd' & Ho). cbn [written disabled] in *.
      rewrite Hw', Hd', Hw, Hd, fmap_cons, <- app_assoc. split_and!; [done..|]. constructor; [|done].
      cbn [snd returns]. by rewrite Et, andb_false_r.
Qed.

(** The helpers that are left can be constructed, if a callback uses them. *)
Definition uses (l : list string) (c : string) : Prop :=
  exists a, a ∈ l /\ parameter_known a = true /\ class_of a = Some c.
Definition helpers_left (before after : list string) (used : string -> Prop) : Prop :=
  NoDup after /\
  forall c, c ∈ after <-> c ∈ before /\ (helper_constructible c = true \/ ~ used c).
Lemma helpers_left_trans l1 l2 l3 (u1 u2 u : string -> Prop) :
  helpers_left l1 l2 u1 -> helpers_left l2 l3 u2 -> (forall c, u c <-> u1 c \/ u2 c) ->
  helpers_left l1 l3 u.
Proof.
  intros [_ H1] [Hnd H2] Hu. split; [done|]. intros c. rewrite H2, H1, Hu.
  destruct (helper_constructible c); naive_solver.
Qed.
Lemma helpers_left_none l (u : string -> Prop) : NoDup l -> (forall c, ~ u c) -> helpers_left l l u.
Proof. intros Hl Hu. split; [done|]. intros c. specialize (Hu c). tauto. Qed.

Lemma uses_cons a l c : uses (a :: l) c <-> uses [a] c \/ uses l c.
Proof. unfold uses. setoid_rewrite elem_of_cons. setoid_rewrite elem_of_nil. firstorder (subst; eauto). Qed.
Lemma check_parameter_helpers g b a : NoDup (helpers g) ->
  helpers_left (helpers g)
    (helpers (check_parameter parameter_known class_of helper_constructible (g, b) a).1) (uses [a]).
Proof.
  intros Hnd.
  assert (Hu : forall c, uses [a] c <-> parameter_known a = true /\ class_of a = Some c).
  { intros c. unfold uses. setoid_rewrite list_elem_of_singleton. naive_solver. }
  cbn [check_parameter]. destruct (parameter_known a) eqn:Hk; cbn [fst].
  2:{ apply helpers_left_none; [done|]. intros c [? _]%Hu. done. }
  destruct (class_of a) as [c|] eqn:Hc.
  2:{ apply helpers_left_none; [done|]. intros c [_ ?]%Hu. done. }
  destruct (_ && _)%bool eqn:Hr; cbn [helpers].
  - apply andb_true_iff in Hr as [Hin%bool_decide_eq_true Hh%negb_true_iff].
    split; [by apply list_remove_NoDup|]. intros c'. rewrite Hu. destruct (decide (c = c')) as [<-|Hne].
    + split; [by intros []%list_remove_self|]. intros [_ [?|[]]]; [congruence|done].
    + rewrite elem_of_list_remove by done. naive_solver.
  - split; [done|]. intros c'. rewrite Hu. split; [|by intros []]. intros Hin. split; [done|].
    destruct (decide (c = c')) as [<-|Hne]; [left|right; naive_solver].
    rewrite bool_decide_true in Hr by done. by apply negb_false_iff in Hr.
Qed.
Lemma check_parameters_helpers g args : NoDup (helpers g) ->
  helpers_left (helpers g) (helpers (check_parameters parameter_known class_of helper_constructible g args).1)
    (uses (callback_parameters args)).
Proof.
  unfold check_parameters. generalize true. revert g.
  induction (callback_parameters args) as [|a l IH]; intros g b Hnd; cbn [fold_left].
  { apply helpers_left_none; [done|]. intros c (a & Ha & _). by apply elem_of_nil in Ha. }
  assert (Hstep := check_parameter_helpers g b a Hnd).
  destruct (check_parameter _ _ _ _ _) as [g1 b1].
  eapply helpers_left_trans; [exact Hstep|apply IH, Hstep|]. apply uses_cons.
Qed.
Definition callback_uses (args : list string) (c : string) : Prop :=
  returns args = true /\ uses (callback_parameters args) c.
Lemma generate_helpers l g g' : NoDup (helpers g) -> for_each generate l g = Ok g' ->
  helpers_left (helpers g) (helpers g') (fun c => exists x, x ∈ l /\ callback_uses x.2 c).
Proof.
  revert g. induction l as [|[n args] l IH]; intros g Hnd H; cbn [for_each] in H.
  { injection H as <-. apply helpers_left_none; [done|]. by intros c (x & []%elem_of_nil & _). }
  apply res_bind_ok in H as (g1 & H1 & H).
  assert (Hstep : helpers_left (helpers g) (helpers g1) (callback_uses args)).
  { destruct args as [|r args]; [done|]. cbn [generate_callback] in H1. unfold callback_uses. cbn [returns].
    destruct (return_known r); cbn [negb] in H1.
    - assert (Hs := check_parameters_helpers g (r :: args) Hnd).
      destruct (check_parameters _ _ _ g _) as [g2 ok].
      assert (helpers g1 = helpers g2) as ->.
      { destruct ok; [destruct (operator_error (r :: args)); [done|]|]; by injection H1 as <-. }
      destruct Hs as [? Hs]. split; [done|]. intros c. rewrite Hs. naive_solver.
    - injection H1 as <-. apply helpers_left_none; [done|]. by intros c []. }
  eapply helpers_left_trans; [exact Hstep|apply (IH g1); [apply Hstep|done]|].
  intros c. setoid_rewrite elem_of_cons. naive_solver.
Qed.
End CallbackFacts.

#[export] Instance callback_impl_name_inj : Inj (=) (=) callback_impl_name.
Proof. intros n m [=H]. by apply show_number_inj, Nat2N.inj in H. Qed.
(** The callbacks with their numbers. *)
Lemma indexed_callbacks (callbacks : list (list string)) : exists l, imap (fun i a => (i, a)) callbacks = l /\
  (forall n args, (n, args) ∈ l <-> callbacks !! n = Some args) /\ NoDup l.*1.
Proof.
  eexists. split; [done|split].
  - intros n args. rewrite elem_of_lookup_imap. naive_solver.
  - apply NoDup_alt. intros i j x. rewrite !list_lookup_fmap, !list_lookup_imap.
    destruct (callbacks !! i), (callbacks !! j); cbn; congruence.
Qed.

(** C30: for callbacks with at least a return type, all of types that pybindgen can parse, the generator ends.  It ends with an exception only if
    pybindgen fails to write the [operator()] of a callback whose return type and parameters are all known, with
    the exception of such a failure.  Otherwise there is no such failure, it writes exactly the
    implementations of those whose return type and parameters are all known to pybindgen, in
    their order and under distinct names; it disables exactly the handlers of those with a
    known return type and a parameter that is not; and a helper class that a callback uses
    is left only if it can be constructed. *)
Theorem generate_callback_classes_spec return_known parameter_known class_of helper_constructible operator_error
    callbacks helpers0 :
  Forall (fun args => args <> []) callbacks -> NoDup helpers0 ->
  let returns := returns return_known in
  let takes := takes parameter_known in
  match generate_callback_classes return_known parameter_known class_of helper_constructible operator_error
      callbacks helpers0 with
  | Raise e => exists args, args ∈ callbacks /\ returns args = true /\ takes args = true /\ operator_error args = Some e
  | OutOfFuel => False
  | Ok g =>
    (forall args, args ∈ callbacks -> returns args = true -> takes args = true -> operator_error args = None) /\
    written g = (fun x => (callback_impl_name x.1, x.2)) <$>
      filter (fun x => returns x.2 && takes x.2) (imap (fun n args => (n, args)) callbacks) /\
    NoDup (fst <$> written g) /\
    (forall cls, cls ∈ disabled g <->
       exists args, args ∈ callbacks /\ cls = callback_cls_name args /\
                    returns args = true /\ takes args = false) /\
    (forall c, c ∈ helpers g <-> c ∈ helpers0 /\
       (helper_constructible c = true \/
        ~ exists args, args ∈ callbacks /\ callback_uses return_known parameter_known class_of args c))
  end.
Proof.
  intros Hne Hnd returns takes. unfold generate_callback_classes.
  destruct (indexed_callbacks callbacks) as (l & -> & Hl & Hkeys).
  assert (Hargs : forall args, args ∈ callbacks <-> exists n, (n, args) ∈ l).
  { intros args. rewrite list_elem_of_lookup. by setoid_rewrite Hl. }
  pose proof (generate_written return_known parameter_known class_of helper_constructible operator_error l
    {| written := []; disabled := []; helpers := helpers0; helper_class_disabled := [] |}) as H.
  destruct (for_each _ l _) as [g|e|] eqn:Hg; [|..|by apply H, Forall_forall; intros [n args] Hin;
    rewrite Forall_forall in Hne; apply Hne, Hargs; exists n].
  all: lapply H; [clear H; intros H|by apply Forall_forall; intros [n args] Hin;
    rewrite Forall_forall in Hne; apply Hne, Hargs; exists n].
  2:{ apply Exists_exists in H as ([n args] & Hin & [Hr Ht]%andb_true_iff & Ho). exists args.
      split_and!; [apply Hargs; by exists n|done..]. }
  destruct H as (Hw & Hd & Ho). cbn [written disabled app] in Hw, Hd.
  apply generate_helpers in Hg as [_ Hh]; [|done]. cbn [helpers] in Hh.
  split_and!; [|exact Hw|..].
  - intros args [n Hin]%Hargs Hr Ht. rewrite Forall_forall in Ho. apply (Ho _ Hin). by apply andb_true_iff.
  - rewrite Hw, <- list_fmap_compose.
    change (fst ∘ _) with (callback_impl_name ∘ (fst : nat * list string -> nat)).
    rewrite list_fmap_compose. apply (NoDup_fmap_2 _).
    eapply sublist_NoDup; [apply Hkeys|]. apply fmap_sublist, sublist_filter.
  - intros cls. rewrite Hd, list_elem_of_fmap. setoid_rewrite list_elem_of_filter.
    setoid_rewrite Hargs. split.
    + intros ([n args] & -> & H & Hin). apply Is_true_true, andb_true_iff in H as [? ?%negb_true_iff].
      exists args. split_and!; [by exists n|done..].
    + intros (args & [n Hin] & -> & Hr & Ht). exists (n, args). split; [done|split; [|done]].
      apply Is_true_true, andb_true_iff. split; [done|by apply negb_true_iff].
  - intros c. rewrite Hh.
    enough (Hiff : (exists x, x ∈ l /\ callback_uses return_known parameter_known class_of x.2 c) <->
      exists args, args ∈ callbacks /\ callback_uses return_known parameter_known class_of args c) by tauto.
    setoid_rewrite Hargs. split.
    + intros ([n args] & Hin & Hu). exists args. split; [by exists n|done].
    + intros (args & [n Hin] & Hu). by exists (n, args).
Qed.
Lemma generate_callback_classes_spec_witness :
  let known s := bool_decide (s ∈ ["void"; "int"; "ns3::Ptr<ns3::Packet>"]) in
  match generate_callback_classes known known (fun _ => None) (fun _ => true) (fun _ => None)
      [["void"; "int"; "ns3::empty"]; ["void"; "Foo"]; ["Foo"; "int"]] [] with
  | Ok g => written g = [("PythonCallbackImpl0", ["void"; "int"; "ns3::empty"])] /\
      "ns3::Callback< void, Foo >" ∈ disabled g
  | _ => False
  end.
Proof.
  intros known.
  pose proof (generate_callback_classes_spec known known (fun _ => None) (fun _ => true) (fun _ => None)
    [["void"; "int"; "ns3::empty"]; ["void"; "Foo"]; ["Foo"; "int"]] [] ltac:(by repeat constructor)
    ltac:(constructor)) as H. cbv zeta in H.
  destruct (generate_callback_classes _ _ _ _ _ _ _) as [g|e|]; [|by destruct H as (args & _ & _ & _ & H)|done].
  destruct H as (_ & Hw & _ & Hd & _). split; [by rewrite Hw|].
  apply Hd. exists ["void"; "Foo"]. split; [by right; left|done].
Defined.
(** A callback that takes another callback: pybindgen cannot write its operator, and the generator fails. *)
Lemma operator_fails :
  let known _ := true in
  let fails args := if decide ("ns3::Callback<void>" ∈ args) then Some (NotSupportedError "") else None in
  generate_callback_classes known known (fun _ => None) (fun _ => true) fails
    [["void"; "ns3::Callback<void>"]; ["void"]] [] = Raise (NotSupportedError "").
Proof. by vm_compute. Qed.

(** A callback whose return type is not known is passed over with its handler enabled: the
    wrapper of a method that takes it names a class that is not written. *)
Lemma unknown_return :
  let known s := bool_decide (s = "int") in
  let callbacks := [["Foo"; "int"]] in
  match generate_callback_classes known known (fun _ => None) (fun _ => true) (fun _ => None) callbacks [],
        register_callback_classes callbacks with
  | Ok g, [c] => written g = [] /\
      match convert_python_to_c (fun _ => "cb") g c "cb" None [] with Ok _ => True | _ => False end
  | _, _ => False
  end.
Proof. by vm_compute. Qed.

(** The calls of the conversion of an argument. *)
Definition argument_parameter (x : wrapper_call) : bool :=
  match x with AddParameter _ _ _ _ | AppendCallParam _ => true | _ => false end.
Fixpoint balanced (depth : nat) (calls : list wrapper_call) : bool :=
  match calls with
  | [] => depth =? 0
  | Indent :: calls => balanced (S depth) calls
  | Unindent :: calls => match depth with O => false | S d => balanced d calls end
  | _ :: calls => balanced depth calls
  end.
Definition creates (c : callback) (x : wrapper_call) : Prop :=
  match x with WriteCode s => contains ("ns3::Create<" +:+ impl_name c +:+ ">") s | _ => False end.

Lemma convert_python_to_c_calls variable g c name default_value w :
  cls_name c ∉ disabled g ->
  exists py value calls,
    convert_python_to_c variable g c name default_value w = Ok (tt, w ++ calls) /\
    List.filter argument_parameter calls =
      [AddParameter "O" ["&" +:+ py] name (bool_decide (is_Some default_value)); AppendCallParam value] /\
    last calls = Some (AppendCallParam value) /\ balanced 0 calls = true /\ Exists (creates c) calls.
Proof.
  intros Hd. unfold convert_python_to_c. rewrite bool_decide_false by done.
  assert (Hcont : forall a b, contains ("ns3::Create<" +:+ impl_name c +:+ ">")
    (a +:+ " = ns3::Create<" +:+ impl_name c +:+ "> (" +:+ b)).
  { intros a b. exists (a +:+ " = "), (" (" +:+ b). by rewrite !str_append_assoc. }
  assert (Hcont2 : forall v t b, contains ("ns3::Create<" +:+ impl_name c +:+ ">")
    (v +:+ " = " +:+ t +:+ " (ns3::Create<" +:+ impl_name c +:+ "> (" +:+ b)).
  { intros v t b. exists (v +:+ " = " +:+ t +:+ " ("), (" (" +:+ b). by rewrite !str_append_assoc. }
  destruct default_value as [d|]; unfold bind, issue, declare_variable; cbn [res_bind].
  all: rewrite <- !app_assoc; cbn [app]; do 3 eexists.
  all: split; [reflexivity|]; split; [reflexivity|]; split; [reflexivity|]; split; [reflexivity|].
  - do 6 apply Exists_cons_tl. apply Exists_cons_hd. cbn. apply Hcont2.
  - do 4 apply Exists_cons_tl. apply Exists_cons_hd. apply Hcont.
Qed.

(** When the return types of the callbacks are known, the conversion of an argument
    for any registered handler either raises [CodeGenerationError], because a callback of
    this class has a parameter that is not known, or issues calls that add one parameter to
    the wrapper, which is optional exactly when the argument has a default value, that keep
    the indentation of the code, create the implementation of the callback, and end by adding one
    argument to the call; and the class of this implementation is among those written. *)
Theorem callback_argument return_known parameter_known class_of helper_constructible operator_error callbacks helpers0 g
    variable c name default_value w :
  generate_callback_classes return_known parameter_known class_of helper_constructible operator_error callbacks helpers0
    = Ok g ->
  Forall (fun args => returns return_known args = true) callbacks ->
  c ∈ register_callback_classes callbacks ->
  match convert_python_to_c variable g c name default_value w with
  | Raise e => e = CodeGenerationError "wrapper could not be generated" /\
      exists args, args ∈ callbacks /\ cls_name c = callback_cls_name args /\
                   takes parameter_known args = false
  | Ok (_, w') =>
      (impl_name c, template_args c) ∈ written g /\
      exists py value calls, w' = w ++ calls /\
        List.filter argument_parameter calls =
          [AddParameter "O" ["&" +:+ py] name (bool_decide (is_Some default_value)); AppendCallParam value] /\
        last calls = Some (AppendCallParam value) /\ balanced 0 calls = true /\ Exists (creates c) calls
  | OutOfFuel => False
  end.
Proof.
  intros Hg Hr [n [args [-> Hn]]]%elem_of_lookup_imap. unfold generate_callback_classes in Hg.
  destruct (indexed_callbacks callbacks) as (l & Hl & Hin & _). rewrite Hl in Hg. clear Hl.
  rewrite Forall_forall in Hr.
  assert (Hargs : forall m a, (m, a) ∈ l -> a ∈ callbacks /\ returns return_known a = true).
  { intros m a ?%Hin%list_elem_of_lookup_2. auto. }
  pose proof (generate_written return_known parameter_known class_of helper_constructible operator_error l
    {| written := []; disabled := []; helpers := helpers0; helper_class_disabled := [] |}) as Hgw. rewrite Hg in Hgw.
  destruct Hgw as (Hw & Hd & _).
  { apply Forall_forall. intros [m a] [_ Ha]%Hargs Hnil. cbn in Hnil. by rewrite Hnil in Ha. }
  cbn [written disabled app] in Hw, Hd.
  destruct (decide (callback_cls_name args ∈ disabled g)) as [Hdis|Hen].
  - unfold convert_python_to_c. cbn [cls_name]. rewrite bool_decide_true by done. split; [done|].
    rewrite Hd in Hdis. apply list_elem_of_fmap in Hdis as ([m a] & Heq & [Ha Hml]%list_elem_of_filter).
    apply Is_true_true, andb_true_iff in Ha as [_ Ha%negb_true_iff].
    exists a. split; [by eapply Hargs|done].
  - destruct (convert_python_to_c_calls variable g {| cls_name := callback_cls_name args;
      impl_name := callback_impl_name n; template_args := args |} name default_value w Hen)
      as (py & value & calls & -> & Hcalls).
    split; [|by exists py, value, calls]. cbn [impl_name template_args].
    rewrite Hw. apply list_elem_of_fmap. exists (n, args). split; [done|].
    apply Hin in Hn. destruct (Hargs _ _ Hn) as [_ Hra].
    apply list_elem_of_filter. split; [|done]. apply Is_true_true, andb_true_iff. split; [done|].
    apply not_false_iff_true. intros Ht. apply Hen. rewrite Hd. apply list_elem_of_fmap.
    exists (n, args). split; [done|]. apply list_elem_of_filter. split; [|done].
    apply Is_true_true, andb_true_iff. split; [done|]. by apply negb_true_iff.
Qed.
Lemma callback_argument_witness :
  let known s := bool_decide (s ∈ ["void"; "int"]) in
  exists g, generate_callback_classes known known (fun _ => None) (fun _ => true) (fun _ => None) [["void"; "int"]] [] = Ok g /\
    exists w', convert_python_to_c (fun _ => "cb") g
      {| cls_name := "ns3::Callback< void, int >"; impl_name := "PythonCallbackImpl0";
         template_args := ["void"; "int"] |} "cb" None [] = Ok (tt, w') /\
    ("PythonCallbackImpl0", ["void"; "int"]) ∈ written g.
Proof.
  intros known. eexists. split; [reflexivity|]. eexists. split; [reflexivity|].
  exact (proj1 (callback_argument known known (fun _ => None) (fun _ => true) (fun _ => None) [["void"; "int"]] [] _
    (fun _ => "cb") {| cls_name := "ns3::Callback< void, int >"; impl_name := "PythonCallbackImpl0";
         template_args := ["void"; "int"] |} "cb" None [] eq_refl
    ltac:(by repeat constructor) ltac:(by left))).
Defined.

(** ** Features: what is left *)

(** The classes and the enumerations that a feature brings; a module may lack those of an
    optional one. *)
Record feature := { f_name : string; optional : bool; f_classes : list string; f_enums : list string }.
Definition gtk_config_store :=
  {| f_name := "GtkConfigStore"; optional := true; f_classes := ["ns3::GtkConfigStore"]; f_enums := [] |}.
Definition sqlite_data_output :=
  {| f_name := "SqliteDataOutput"; optional := true; f_classes := ["ns3::SqliteDataOutput"]; f_enums := [] |}.
Definition threading :=
  {| f_name := "Threading"; optional := false;
     f_classes := ["ns3::SystemThread"; "ns3::SystemMutex"; "ns3::SystemCondition"; "ns3::CriticalSection";
       "ns3::SimpleRefCount< ns3::SystemThread, ns3::empty, ns3::DefaultDeleter<ns3::SystemThread> >"];
     f_enums := [] |}.
Definition emu_net_device :=
  {| f_name := "EmuNetDevice"; optional := false; f_classes := ["ns3::EmuNetDevice"; "ns3::EmuHelper"];
     f_enums := ["ns3::EmuNetDevice::EncapsulationMode"] |}.
Definition real_time :=
  {| f_name := "RealTime"; optional := false;
     f_classes := ["ns3::WallClockSynchronizer"; "ns3::RealtimeSimulatorImpl"];
     f_enums := ["ns3::RealtimeSimulatorImpl::SynchronizationMode"] |}.
Definition tap_bridge :=
  {| f_name := "TapBridge"; optional := false;
     f_classes := ["ns3::TapBridge"; "ns3::TapBridgeHelper"; "ns3::TapBridgeFdReader"];
     f_enums := ["ns3::TapBridge::Mode"] |}.
Definition features : list feature :=
  [gtk_config_store; sqlite_data_output; threading; emu_net_device; real_time; tap_bridge].
Definition off (enabled : list string) (of_feature : feature -> list string) : list string :=
  concat (map (fun f => if decide (f_name f ∈ enabled) then [] else of_feature f) features).
Definition dropped (cs es : list string) (m : root_module) : root_module :=
  {| classes := filter (fun c => c ∉ cs) (classes m); enums := filter (fun e => e ∉ es) (enums m) |}.

Lemma filter_all (P : string -> Prop) `{!forall x, Decision (P x)} (l : list string) :
  (forall x, x ∈ l -> P x) -> filter P l = l.
Proof.
  induction l as [|x l IH]; intros HP; [done|]. rewrite filter_cons_True by (apply HP; by left).
  rewrite IH; [done|]. intros y Hy. apply HP. by right.
Qed.
Lemma dropped_nil m : dropped [] [] m = m.
Proof.
  destruct m as [c e]. unfold dropped. cbn.
  f_equal; apply filter_all; by intros ? ? ?%elem_of_nil.
Qed.
Lemma dropped_dropped cs1 es1 cs2 es2 m :
  dropped cs2 es2 (dropped cs1 es1 m) = dropped (cs1 ++ cs2) (es1 ++ es2) m.
Proof.
  unfold dropped. cbn. rewrite !list_filter_filter.
  f_equal; apply list_filter_iff; intros x; rewrite elem_of_app; tauto.
Qed.
Lemma list_remove_filter (x : string) l : NoDup l -> list_remove x l = filter (fun y => y ∉ [x]) l.
Proof.
  induction 1 as [|y l Hy Hl IH]; [done|]. cbn [list_remove]. rewrite filter_cons.
  case_decide as H1; case_decide as H2; subst.
  - destruct H2. by left.
  - symmetry. apply filter_all. by intros z Hz ->%list_elem_of_singleton.
  - by rewrite IH.
  - apply list_elem_of_singleton in H2. congruence.
Qed.

Section FeatureFacts.
Context (known : string -> bool) (enabled : list string).
(** The lists hold each name once, and pybindgen finds every name that is in them. *)
Definition well_formed (m : root_module) : Prop :=
  NoDup (classes m) /\ NoDup (enums m) /\
  (forall c, c ∈ classes m -> known c = true) /\ (forall e, e ∈ enums m -> known e = true).
(** The module has what a feature brings. *)
Definition has_feature (f : feature) (m : root_module) : Prop :=
  (optional f = false -> forall c, c ∈ f_classes f -> c ∈ classes m) /\
  (optional f = true -> forall c, c ∈ f_classes f -> known c = true -> c ∈ classes m) /\
  (forall e, e ∈ f_enums f -> e ∈ enums m).

Lemma well_formed_dropped cs es m : well_formed m -> well_formed (dropped cs es m).
Proof.
  intros (H1 & H2 & H3 & H4). split_and!; cbn; [by apply NoDup_filter..| |];
    intros x [_ Hx]%list_elem_of_filter; auto.
Qed.
Lemma has_feature_dropped f cs es m : has_feature f m ->
  (forall c, c ∈ f_classes f -> c ∉ cs) -> (forall e, e ∈ f_enums f -> e ∉ es) ->
  has_feature f (dropped cs es m).
Proof.
  intros (H1 & H2 & H3) Hc He. split_and!; cbn; intros; apply list_elem_of_filter; auto.
Qed.

Lemma remove_class_dropped c m : well_formed m -> c ∈ classes m ->
  remove_class known c m = Ok (dropped [c] [] m).
Proof.
  intros (H1 & _ & H3 & _) Hc. unfold remove_class. rewrite H3 by done. cbn [negb].
  rewrite decide_True, list_remove_filter by done. unfold dropped. do 2 f_equal.
  symmetry. apply filter_all. by intros ? _ ?%elem_of_nil.
Qed.
Lemma remove_enum_dropped e m : well_formed m -> e ∈ enums m ->
  remove_enum known e m = Ok (dropped [] [e] m).
Proof.
  intros (_ & H2 & _ & H4) He. unfold remove_enum. rewrite H4 by done. cbn [negb].
  rewrite decide_True, list_remove_filter by done. unfold dropped. do 2 f_equal.
  symmetry. apply filter_all. by intros ? _ ?%elem_of_nil.
Qed.
Lemma remove_if_known_dropped c m : well_formed m -> (known c = true -> c ∈ classes m) ->
  remove_if_known known c m = Ok (dropped [c] [] m).
Proof.
  intros Hm Hc. unfold remove_if_known. destruct (known c) eqn:Hk.
  - by rewrite remove_class_dropped by auto.
  - unfold remove_class. rewrite Hk. cbn. f_equal. destruct m as [cs es], Hm as (_ & _ & Hall & _).
    unfold dropped. cbn. f_equal; symmetry; apply filter_all; [|by intros ? _ ?%elem_of_nil].
    intros x Hx%Hall ->%list_elem_of_singleton. congruence.
Qed.
Lemma remove_classes_dropped names m : well_formed m -> NoDup names ->
  (forall n, n ∈ names -> "ns3::" +:+ n ∈ classes m) ->
  remove_classes known names m = Ok (dropped (map (fun n => "ns3::" +:+ n) names) [] m).
Proof.
  intros Hm Hnd. revert m Hm. induction Hnd as [|n names Hn Hnd IH]; intros m Hm Hin.
  { cbn. by rewrite dropped_nil. }
  unfold remove_classes. cbn [for_each map]. rewrite remove_class_dropped; [|done|apply Hin; by left].
  cbn [res_bind]. fold (remove_classes known names (dropped ["ns3::" +:+ n] [] m)).
  rewrite IH; [by rewrite dropped_dropped|by apply well_formed_dropped|].
  intros n' Hn'. cbn. apply list_elem_of_filter. split; [|apply Hin; by right].
  intros [= Heq]%list_elem_of_singleton. change (n' = n) in Heq. by subst.
Qed.
Lemma remove_all_dropped names e m : well_formed m -> NoDup names ->
  (forall n, n ∈ names -> "ns3::" +:+ n ∈ classes m) -> e ∈ enums m ->
  (let* m := remove_classes known names m in remove_enum known e m) =
    Ok (dropped (map (fun n => "ns3::" +:+ n) names) [e] m).
Proof.
  intros Hm Hnd Hn He. rewrite remove_classes_dropped by done. cbn [res_bind].
  rewrite remove_enum_dropped; [by rewrite dropped_dropped, app_nil_r|by apply well_formed_dropped|].
  apply list_elem_of_filter. by split; [apply not_elem_of_nil|].
Qed.
Lemma has_names f names m : optional f = false -> f_classes f = map (fun n => "ns3::" +:+ n) names ->
  has_feature f m -> forall n, n ∈ names -> "ns3::" +:+ n ∈ classes m.
Proof.
  intros Ho Hc (Hin & _) n Hn. apply Hin; [done|]. rewrite Hc. by apply (list_elem_of_fmap_2 (fun n => "ns3::" +:+ n)).
Qed.
Definition off_classes (f : feature) : list string := if decide (f_name f ∈ enabled) then [] else f_classes f.
Definition off_enums (f : feature) : list string := if decide (f_name f ∈ enabled) then [] else f_enums f.
Lemma without_dropped f k cs es m : well_formed m ->
  (f_name f ∉ enabled -> has_feature f m) ->
  (forall m, well_formed m -> has_feature f m -> k m = Ok (dropped (f_classes f) (f_enums f) m)) ->
  (forall c, c ∈ f_classes f -> c ∉ cs) -> (forall e, e ∈ f_enums f -> e ∉ es) ->
  without enabled (f_name f) k (dropped cs es m) =
    Ok (dropped (cs ++ off_classes f) (es ++ off_enums f) m).
Proof.
  intros Hm Hf Hk Hc He. unfold without, off_classes, off_enums. case_decide; [by rewrite !app_nil_r|].
  rewrite Hk, dropped_dropped; [done|by apply well_formed_dropped|].
  apply has_feature_dropped; auto.
Qed.
(** The names of two features are different. *)
Lemma off_classes_other f g : forallb (fun x => negb (bool_decide (x ∈ f_classes g))) (f_classes f) = true ->
  forall c, c ∈ f_classes f -> c ∉ off_classes g.
Proof.
  intros Hd c Hc. unfold off_classes. case_decide; [by intros ?%elem_of_nil|].
  rewrite forallb_forall in Hd. by apply list_elem_of_In, Hd, negb_true_iff, bool_decide_eq_false in Hc.
Qed.
Lemma off_enums_other f g : forallb (fun x => negb (bool_decide (x ∈ f_enums g))) (f_enums f) = true ->
  forall c, c ∈ f_enums f -> c ∉ off_enums g.
Proof.
  intros Hd c Hc. unfold off_enums. case_decide; [by intros ?%elem_of_nil|].
  rewrite forallb_forall in Hd. by apply list_elem_of_In, Hd, negb_true_iff, bool_decide_eq_false in Hc.
Qed.
End FeatureFacts.
Lemma bind_step {E A B} (m : res E A) (k : A -> res E B) a r : m = Ok a -> k a = r -> res_bind m k = r.
Proof. by intros ->. Qed.

Ltac find := repeat first [by left | right].
Ltac distinct := apply (bool_decide_unpack _); reflexivity.
Ltac apart := intros ? ?; rewrite ?not_elem_of_app; split_and?;
  first [by intros ?%elem_of_nil | eapply off_classes_other; [|eassumption]; reflexivity
       | eapply off_enums_other; [|eassumption]; reflexivity].

(** When the module has the classes and enumerations of the features that are not
    enabled (it may lack those of [GtkConfigStore] and [SqliteDataOutput]), the generator
    takes away exactly those, and keeps the others in their order. *)
Theorem remove_disabled_spec known enabled m :
  well_formed known m ->
  (forall f, f ∈ features -> f_name f ∉ enabled -> has_feature known f m) ->
  remove_disabled known enabled m = Ok (dropped (off enabled f_classes) (off enabled f_enums) m).
Proof.
  intros Hm Hf. unfold remove_disabled. rewrite <- (dropped_nil m) at 1.
  eapply bind_step; [apply (without_dropped known enabled gtk_config_store); [done|apply Hf; find| |apart|apart]|].
  { intros m' Hm' (_ & Ho & _). apply remove_if_known_dropped; [done|]. apply Ho; [done|by left]. }
  eapply bind_step; [apply (without_dropped known enabled sqlite_data_output); [done|apply Hf; find| |apart|apart]|].
  { intros m' Hm' (_ & Ho & _). apply remove_if_known_dropped; [done|]. apply Ho; [done|by left]. }
  eapply bind_step; [apply (without_dropped known enabled threading); [done|apply Hf; find| |apart|apart]|].
  { intros m' Hm' Hc. apply (remove_classes_dropped known); [done|distinct|].
    by apply (has_names known threading). }
  eapply bind_step; [apply (without_dropped known enabled emu_net_device); [done|apply Hf; find| |apart|apart]|].
  { intros m' Hm' Hc. apply (remove_all_dropped known); [done|distinct| |by apply Hc; left].
    by apply (has_names known emu_net_device). }
  eapply bind_step; [apply (without_dropped known enabled real_time); [done|apply Hf; find| |apart|apart]|].
  { intros m' Hm' Hc. apply (remove_all_dropped known); [done|distinct| |by apply Hc; left].
    by apply (has_names known real_time). }
  etransitivity; [apply (without_dropped known enabled tap_bridge); [done|apply Hf; find| |apart|apart]|].
  { intros m' Hm' Hc. apply (remove_all_dropped known); [done|distinct| |by apply Hc; left].
    by apply (has_names known tap_bridge). }
  unfold off. cbn [map features concat]. by rewrite <- !app_assoc, !app_nil_r.
Qed.
Lemma remove_disabled_spec_witness :
  let m := {| classes := ["ns3::Node"; "ns3::TapBridge"; "ns3::TapBridgeHelper"; "ns3::TapBridgeFdReader"];
              enums := ["ns3::TapBridge::Mode"] |} in
  let known c := bool_decide (c ∈ classes m ++ enums m) in
  remove_disabled known ["Threading"; "EmuNetDevice"; "RealTime"] m =
    Ok {| classes := ["ns3::Node"]; enums := [] |}.
Proof.
  intros m known.
  refine (remove_disabled_spec known ["Threading"; "EmuNetDevice"; "RealTime"] m _ _).
  - split_and!; [distinct|distinct|..]; intros c Hc; apply bool_decide_eq_true, elem_of_app; auto.
  - intros f Hf Hn. unfold features in Hf. rewrite !elem_of_cons, elem_of_nil in Hf.
    destruct Hf as [->|[->|[->|[->|[->|[->|[]]]]]]]; try (by destruct Hn; cbn; find).
    + split_and!; [done|intros _ c [->|[]%elem_of_nil]%elem_of_cons; done|by intros e ?%elem_of_nil].
    + split_and!; [done|intros _ c [->|[]%elem_of_nil]%elem_of_cons; done|by intros e ?%elem_of_nil].
    + split_and!; [intros _ c Hc; by right|done|done].
Defined.

(** A module without one of the classes of [Threading] cannot be generated. *)
Lemma missing_class : remove_disabled (fun _ => false) ["EmuNetDevice"; "RealTime"; "TapBridge"]
  {| classes := []; enums := [] |} = Raise GenKeyError.
Proof. reflexivity. Qed.

(** ** Attributes and errors *)

(** The customization marks a parameter once, and leaves what it does not mark. *)
Lemma fix_parameter_idempotent p : fix_parameter (fix_parameter p) = fix_parameter p.
Proof.
  unfold fix_parameter at 2 3. destruct (_ && _)%bool eqn:H; [|unfold fix_parameter; by rewrite H].
  unfold fix_parameter. cbn. by rewrite andb_false_r.
Qed.
(** With a class that cannot be constructed the message itself cannot be made. *)
Lemma not_constructible_is_type_error c lvalue ps t :
  cannot_be_constructed c = true -> lvalue <> "" -> starts_with "None" lvalue = false ->
  ns3_object_instance_creation_function c lvalue ps t = Raise GenTypeError.
Proof.
  intros Hc Hl Hn. unfold ns3_object_instance_creation_function. by rewrite decide_False, Hn, Hc.
Qed.
(** Each error about a wrapper reverses its stack: the first one is reported at the last
    entry of the definitions' file, the second one at the first entry. *)
Lemma handle_error_twice file stack :
  let '(_, stack') := handle_error file stack in
  handle_error file stack' = (location_in file stack, stack).
Proof. cbn. unfold handle_error. by rewrite rev_involutive. Qed.
