(* ===== verification/CheckStyle.v ===== *)
(** * utils/check-style.py: the indentation checker

    The script runs [uncrustify] over a file, takes the difference between the
    file and the result, removes from it the changes that only strip white space
    at the end of a line, and applies what is left with [patch].

    [PatchChunkLine] to [Patch] are its data, [parse_patchset] and the [write]
    operations its reader and printer of unified diffs,
    [remove_trailing_whitespace_changes] the filter, [indent], [indent_files] and
    [run_as_main] the driver.

    The lines of a chunk are shared objects: [src()] and [dst()] return lists of
    references to them, so that a context line is in both.  Here a reference is
    the position of the line in the chunk.  [uncrustify] and [patch] are
    other programs and [difflib] is a library the script only calls: they are
    parameters.  The file system is a map from names to bytes with [\n] ends of
    line, and which of them decode in the encoding of the locale is a parameter; the order in which temporary files get their names is an interface. *)

From S2P Require Import Prelude State PyLib.
From Stdlib Require Import Ascii String.
From stdpp Require Import strings.
Open Scope string_scope.
Open Scope nat_scope.
Open Scope list_scope.

(** ** The configuration of uncrustify *)

Definition nl : string := String newline "".
Definition unlines (l : list string) : string := str_join "" (map (fun s => s +:+ nl) l).

Definition level0 : string := unlines [
  ""; "sp_func_proto_paren=Add"; "sp_func_def_paren=Add"; "sp_func_call_paren=Add";
  "sp_after_semi_for=Ignore"; "sp_before_sparen=Ignore"; "sp_type_func=Ignore";
  "sp_after_type=Ignore"; "nl_class_leave_one_liners=True"; "nl_enum_leave_one_liners=True";
  "nl_func_leave_one_liners=True"; "nl_assign_leave_one_liners=True";
  "#nl_collapse_empty_body=False"; "nl_getset_leave_one_liners=True";
  "nl_if_leave_one_liners=True"; "nl_fdef_brace=Ignore";
  "# finally, indentation configuration"; "indent_with_tabs=0"; "indent_namespace=false";
  "indent_columns=2"; "indent_brace=2"; "indent_case_brace=2"; "indent_class=true";
  "indent_class_colon=True"; "# alignment"; "indent_align_assign=False";
  "align_left_shift=True"; "# comment reformating disabled";
  "cmt_reflow_mode=1 # do not touch comments at all";
  "cmt_indent_multi=False # really, do not touch them"].

Definition level1 : string := unlines [
  ""; "# extra spaces here and there"; "sp_brace_typedef=Add"; "sp_enum_assign=Add";
  "sp_before_sparen=Add"; "sp_after_semi_for=Add"; "sp_arith=Add"; "sp_assign=Add";
  "sp_compare=Add"; "sp_func_class_paren=Add"; "sp_after_type=Add"; "sp_type_func=Add";
  "sp_angle_paren=Add"].

Definition level2 : string := unlines [
  ""; "nl_collapse_empty_body=False"; "nl_if_brace=Add"; "nl_brace_else=Add";
  "nl_elseif_brace=Add"; "nl_else_brace=Add"; "nl_while_brace=Add"; "nl_do_brace=Add";
  "nl_for_brace=Add"; "nl_brace_while=Add"; "nl_switch_brace=Add"; "nl_after_case=True";
  "nl_namespace_brace=Remove"; "nl_after_brace_open=True"; "nl_class_leave_one_liners=False";
  "nl_enum_leave_one_liners=False"; "nl_func_leave_one_liners=False";
  "nl_if_leave_one_liners=False"; "nl_class_colon=Ignore"; "nl_after_access_spec=1";
  "nl_after_semicolon=True"; "pos_class_colon=Lead"; "pos_class_comma=Trail"; "pos_bool=Lead";
  "nl_class_init_args=Add"; "nl_template_class=Add"; "nl_class_brace=Add";
  "# does not work very well"; "nl_func_type_name=Ignore"; "nl_func_scope_name=Ignore";
  "nl_func_type_name_class=Ignore"; "nl_func_proto_type_name=Ignore"; "# function\n(";
  "nl_func_paren=Remove"; "nl_fdef_brace=Add"; "nl_struct_brace=Add"; "nl_enum_brace=Add";
  "nl_union_brace=Add"; "mod_full_brace_do=Add"; "mod_full_brace_for=Add";
  "mod_full_brace_if=Add"; "mod_full_brace_while=Add"; "mod_full_brace_for=Add";
  "mod_remove_extra_semicolon=True"; "# max code width"; "#code_width=128";
  "#ls_for_split_full=True"; "#ls_func_split_full=True"].

(** What [uncrustify_config_file] writes to the file it returns. *)
Definition uncrustify_config (level : Z) : string :=
  level0 +:+ (if decide (1 <= level)%Z then level1 else "")
         +:+ (if decide (2 <= level)%Z then level2 else "").

(** ** Patches *)

Inductive exn := AttributeError | UnboundLocalError | TypeError | IOError
  | BadLine | InvalidPatch | NotInstalled | UnicodeDecodeError.

Inductive line_type := UNSET | SRC | DST | BOTH.
#[export] Instance line_type_eq_dec : EqDecision line_type.
Proof. solve_decision. Defined.

Record PatchChunkLine := { type : line_type; line : string }.
Definition new_line : PatchChunkLine := {| type := UNSET; line := "" |}.
Definition set_src (text : string) (l : PatchChunkLine) : PatchChunkLine :=
  {| type := SRC; line := text |}.
Definition set_dst (text : string) (l : PatchChunkLine) : PatchChunkLine :=
  {| type := DST; line := text |}.
Definition set_both (text : string) (l : PatchChunkLine) : PatchChunkLine :=
  {| type := BOTH; line := text |}.
Definition append_to_line (s : string) (l : PatchChunkLine) : PatchChunkLine :=
  {| type := type l; line := line l +:+ s |}.
Definition is_src (l : PatchChunkLine) : bool :=
  bool_decide (type l = SRC \/ type l = BOTH).
Definition is_dst (l : PatchChunkLine) : bool :=
  bool_decide (type l = DST \/ type l = BOTH).
(** [write] returns the strings it writes to the file. *)
Definition write_line (l : PatchChunkLine) : res exn (list string) :=
  match type l with
  | SRC => Ok ["-" +:+ line l +:+ nl]
  | DST => Ok ["+" +:+ line l +:+ nl]
  | BOTH => Ok [" " +:+ line l +:+ nl]
  | UNSET => Raise InvalidPatch
  end.

Record PatchChunk := { lines : list PatchChunkLine; src_pos : N; dst_pos : N }.
Definition new_chunk (a b : N) : PatchChunk := {| lines := []; src_pos := a; dst_pos := b |}.
Definition set_lines (f : list PatchChunkLine -> list PatchChunkLine) (c : PatchChunk)
    : PatchChunk :=
  {| lines := f (lines c); src_pos := src_pos c; dst_pos := dst_pos c |}.
Definition add_line (l : PatchChunkLine) : PatchChunk -> PatchChunk :=
  set_lines (fun ls => ls ++ [l]).
(** The positions from [n] on of the lines that satisfy [f]. *)
Fixpoint positions (f : PatchChunkLine -> bool) (n : nat) (ls : list PatchChunkLine) : list nat :=
  match ls with
  | [] => []
  | l :: ls => if f l then n :: positions f (S n) ls else positions f (S n) ls
  end.
Definition src (c : PatchChunk) : list nat := positions is_src 0 (lines c).
Definition dst (c : PatchChunk) : list nat := positions is_dst 0 (lines c).
Definition src_len (c : PatchChunk) : nat := length (src c).
Definition dst_len (c : PatchChunk) : nat := length (dst c).
Definition write_lines (ls : list PatchChunkLine) (out : list string) : res exn (list string) :=
  for_each (fun out l => let* w := write_line l in Ok (out ++ w)) ls out.
Definition chunk_header (a : N) (m : nat) (b : N) (n : nat) : string :=
  "@@ -" +:+ show_number a +:+ "," +:+ show_number (N.of_nat m)
  +:+ " +" +:+ show_number b +:+ "," +:+ show_number (N.of_nat n) +:+ " @@" +:+ nl.
Definition write_chunk (c : PatchChunk) (out : list string) : res exn (list string) :=
  write_lines (lines c)
    (out ++ [chunk_header (src_pos c) (src_len c) (dst_pos c) (dst_len c)]).

Record Patch := { p_src : string; p_dst : string; chunks : list PatchChunk }.
Definition new_patch : Patch := {| p_src := ""; p_dst := ""; chunks := [] |}.
Definition set_chunks (f : list PatchChunk -> list PatchChunk) (p : Patch) : Patch :=
  {| p_src := p_src p; p_dst := p_dst p; chunks := f (chunks p) |}.
Definition add_chunk (c : PatchChunk) : Patch -> Patch := set_chunks (fun cs => cs ++ [c]).
Definition patch_set_src (s : string) (p : Patch) : Patch :=
  {| p_src := s; p_dst := p_dst p; chunks := chunks p |}.
Definition patch_set_dst (s : string) (p : Patch) : Patch :=
  {| p_src := p_src p; p_dst := s; chunks := chunks p |}.
Definition write_patch (p : Patch) : res exn (list string) :=
  for_each (fun out c => write_chunk c out) (chunks p)
    ["--- " +:+ p_src p +:+ nl; "+++ " +:+ p_dst p +:+ nl].

(** ** Reading a patch *)

(** A line without the newline that [$] can match before. *)
Fixpoint chomp (s : string) : string :=
  match s with
  | EmptyString => ""
  | String c EmptyString => if decide (c = newline) then "" else s
  | String c t => String c (chomp t)
  end.
Definition one_line (s : string) : bool :=
  bool_decide (newline ∉ list_ascii_of_string s).
(** The pattern that starts with [p] and whose group is the rest of the line. *)
Definition prefixed (p : string) (s : string) : option string :=
  let s := chomp s in
  if starts_with p s then
    let g := str_drop (String.length p) s in
    if one_line g then Some g else None
  else None.
(** Groups 1 and 3 of [^@@ -([0-9]+),([0-9]+) \+([0-9]+),([0-9]+) @@]. *)
Definition chunk_start (s : string) : option (N * N) :=
  s ← literal "@@ -" (list_ascii_of_string s); '(a, s) ← match_number s;
  s ← literal "," s; '(_, s) ← match_number s;
  s ← literal " +" s; '(b, s) ← match_number s;
  s ← literal "," s; '(_, s) ← match_number s;
  _ ← literal " @@" s; Some (Z.to_N a, Z.to_N b).

(** [current_patch] is the last element of [patchset]; [current_chunk] is a
    reference to a chunk of one of them. *)
Record parse_state := { patchset : list Patch; current_chunk : option (nat * nat) }.
Definition alter_last {A} (f : A -> A) (l : list A) : list A := alter f (pred (length l)) l.
Definition add_to_chunk (l : PatchChunkLine) (st : parse_state) : res exn parse_state :=
  match current_chunk st with
  | None => Raise UnboundLocalError
  | Some (i, j) =>
      Ok {| patchset := alter (set_chunks (alter (add_line l) j)) i (patchset st);
            current_chunk := Some (i, j) |}
  end.
Definition parse_line (st : parse_state) (l : string) : res exn parse_state :=
  match prefixed "--- " l with
  | Some s => Ok {| patchset := patchset st ++ [patch_set_src s new_patch];
                    current_chunk := current_chunk st |}
  | None =>
  match prefixed "+++ " l with
  | Some s =>
      if decide (patchset st = []) then Raise AttributeError
      else Ok {| patchset := alter_last (patch_set_dst s) (patchset st);
                 current_chunk := current_chunk st |}
  | None =>
  match chunk_start l with
  | Some (a, b) =>
      match last (patchset st) with
      | None => Raise AttributeError
      | Some p =>
          Ok {| patchset := alter_last (add_chunk (new_chunk a b)) (patchset st);
                current_chunk := Some (pred (length (patchset st)), length (chunks p)) |}
      end
  | None =>
  match prefixed "-" l with
  | Some s => add_to_chunk (set_src s new_line) st
  | None =>
  match prefixed "+" l with
  | Some s => add_to_chunk (set_dst s new_line) st
  | None =>
  match prefixed " " l with
  | Some s => add_to_chunk (set_both s new_line) st
  | None => Raise BadLine
  end end end end end end.
Definition parse_patchset (generator : list string) : res exn (list Patch) :=
  let* st := for_each parse_line generator {| patchset := []; current_chunk := None |} in
  Ok (patchset st).

(** ** Removing the changes of trailing white space *)

(** The groups of the pattern [whitespace]: its first group is greedy, which
    leaves one character to the second. *)
Definition is_blank (c : ascii) : bool := bool_decide (c = " "%char \/ c = ascii_of_nat 9).
Fixpoint split_last (s : string) : option (string * ascii) :=
  match s with
  | EmptyString => None
  | String c t =>
      match split_last t with Some (x, d) => Some (String c x, d) | None => Some ("", c) end
  end.
Definition whitespace (s : string) : option (string * string) :=
  '(x, c) ← split_last (chomp s);
  if is_blank c && one_line x then Some (x, String c "") else None.

Definition restore_pair (s d : nat) (ls : list PatchChunkLine) : list PatchChunkLine :=
  match ls !! s, ls !! d with
  | Some ls_s, Some ls_d =>
      match whitespace (line ls_s) with
      | Some (x, w) => if decide (x = line ls_d) then alter (append_to_line w) d ls else ls
      | None => ls
      end
  | _, _ => ls
  end.
(** The loop over the positions [i] of [src], with [src[i]] and [dst[i]]; the
    flag says that [dst[i]] raised. *)
Fixpoint restore_loop (src dst : list nat) (ls : list PatchChunkLine)
    : list PatchChunkLine * bool :=
  match src, dst with
  | [], _ => (ls, false)
  | _ :: _, [] => (ls, true)
  | s :: src, d :: dst => restore_loop src dst (restore_pair s d ls)
  end.
Definition restore_chunk (c : PatchChunk) : PatchChunk * bool :=
  let '(ls, stop) := restore_loop (src c) (dst c) (lines c) in (set_lines (fun _ => ls) c, stop).
Fixpoint restore_chunks (cs : list PatchChunk) : list PatchChunk * bool :=
  match cs with
  | [] => ([], false)
  | c :: cs =>
      let '(c, stop) := restore_chunk c in
      if stop then (c :: cs, true)
      else let '(cs, stop) := restore_chunks cs in (c :: cs, stop)
  end.
Fixpoint restore_patches (ps : list Patch) : list Patch :=
  match ps with
  | [] => []
  | p :: ps =>
      let '(cs, stop) := restore_chunks (chunks p) in
      let p := set_chunks (fun _ => cs) p in
      if stop then p :: ps else p :: restore_patches ps
  end.
Definition remove_trailing_whitespace_changes (patch_generator : list string)
    : res exn (list Patch) :=
  let* ps := parse_patchset patch_generator in Ok (restore_patches ps).

Example parse_hunk :
  parse_patchset ["--- a" +:+ nl; "+++ b" +:+ nl; "@@ -1,2 +1,2 @@" +:+ nl;
                  "-x " +:+ nl; "+x" +:+ nl; " y" +:+ nl]
  = Ok [{| p_src := "a"; p_dst := "b"; chunks :=
      [{| lines := [{| type := SRC; line := "x " |}; {| type := DST; line := "x" |};
                    {| type := BOTH; line := "y" |}]; src_pos := 1; dst_pos := 1 |}] |}].
Proof. vm_compute. reflexivity. Qed.

(** ** The driver *)

(** [tempfile.mkstemp] returns a name that no file has. *)
Class TempNames := {
  temp_name : gset string -> string;
  temp_name_fresh X : temp_name X ∉ X }.
#[export] Instance default_temp_names : TempNames :=
  {| temp_name := fresh; temp_name_fresh := is_fresh |}.

(** The bytes of every file, and what was printed. *)
Record world := { files : gmap string string; stdout : list string }.
Abbreviation M := (st world exn).

Definition read_file (name : string) : M string := fun w =>
  match files w !! name with Some t => (Ok t, w) | None => (Raise IOError, w) end.
Definition write_file (name text : string) : M unit := fun w =>
  (Ok tt, {| files := <[name := text]> (files w); stdout := stdout w |}).
Definition print_text (s : string) : M unit := fun w =>
  (Ok tt, {| files := files w; stdout := stdout w ++ [s] |}).
Definition copyfile (src dst : string) : M unit :=
  let! t := read_file src in write_file dst t.
(** [file.readlines()] *)
Fixpoint readlines (s : string) : list string :=
  match s with
  | EmptyString => []
  | String c t =>
      if decide (c = newline) then String c "" :: readlines t
      else match readlines t with x :: l => String c x :: l | [] => [String c ""] end
  end.

Section Driver.
Context `{TempNames}.
(** The program [uncrustify]: what its output file holds, given the configuration
    and the text of its input if there is such a file; [None] when it is not installed. *)
Variable uncrustify : option (string -> option string -> string).
(** [difflib.unified_diff(a, b, fromfile, tofile)] *)
Variable unified_diff : list string -> list string -> string -> string -> list string.
(** The program [patch]: the file it leaves, given a difference and a file; [None] when it is not installed. *)
Variable patch_file : option (string -> string -> string).
(** Whether bytes are text in the encoding of the locale. *)
Variable decodes : string -> bool.
(** [open(name, 'r').readlines()] decodes the file; [shutil.copyfile] and [filecmp.cmp] do not. *)
Definition read_text (name : string) : M string :=
  let! t := read_file name in if decodes t then ret t else raise UnicodeDecodeError.

Definition mkstemp : M string := fun w =>
  let n := temp_name (dom (files w)) in
  (Ok n, {| files := <[n := ""]> (files w); stdout := stdout w |}).

(** The temporary configuration file. *)
Definition uncrustify_config_file (level : Z) : M string :=
  let! pathname := mkstemp in
  let! _ := write_file pathname (uncrustify_config level) in ret pathname.

(** The file with the difference that is applied. *)
Definition final_diff (level : Z) (diff : list string) : res exn string :=
  if decide (level < 3)%Z then
    let* patchset := remove_trailing_whitespace_changes diff in
    match patchset with
    | [] => Ok ""
    | p :: _ => let* out := write_patch p in Ok (str_join "" out)
    end
  else Ok (str_join "" diff).

(** With [debug] the text that [uncrustify] printed, a [bytes] object, is written
    to [sys.stderr], a text file: [TypeError].  Where [patch] is not installed, [Popen] raises [OSError], which is
    [IOError]. *)
Definition indent (source : string) (debug : bool) (level : Z) : M string :=
  let! output := mkstemp in
  let! cfg := uncrustify_config_file level in
  match uncrustify with
  | None => raise NotInstalled
  | Some run =>
      let! config := read_file cfg in
      let! _ := (fun w => write_file output (run config (files w !! source)) w) in
      if debug then raise TypeError else
      let! s := read_text source in
      let! d := read_text output in
      let diff := unified_diff (readlines s) (readlines d) source output in
      let! final := mkstemp in
      let! text := lift (final_diff level diff) in
      let! _ := write_file final text in
      let! _ := copyfile source output in
      let! text := read_file final in
      let! t := read_file output in
      match patch_file with
      | None => raise IOError
      | Some run_patch => let! _ := write_file output (run_patch text t) in ret output
      end
  end.

(** [filecmp.cmp] of the two texts. *)
Definition same_files (src dst : string) (w : world) : bool :=
  bool_decide (files w !! src = files w !! dst).
Definition print_diff (pair : string * string) : M unit :=
  let! s := read_text (fst pair) in
  let! d := read_text (snd pair) in
  iter_m print_text (unified_diff (readlines s) (readlines d) (fst pair) (snd pair)).
(** The comparison at the end of [indent_files]. *)
Definition compare_files (output : list (string * string)) (diff : bool) : M bool := fun w =>
  let failed := List.filter (fun '(src, dst) => negb (same_files src dst w)) output in
  match failed with
  | [] => ret true w
  | _ =>
      (let! _ :=
         if negb diff then
           let! _ := print_text ("Found " +:+ show_number (N.of_nat (length failed))
                                 +:+ " badly indented files:" +:+ nl) in
           iter_m (fun pair => print_text ("  " +:+ fst pair +:+ nl)) failed
         else iter_m print_diff failed in
       ret false) w
  end.
Definition indent_files (fs : list string) (diff debug : bool) (level : Z) (inplace : bool)
    : M bool :=
  let! output := map_m (fun f => let! dst := indent f debug level in ret (f, dst)) fs in
  if inplace then
    let! _ := iter_m (fun '(src, dst) => copyfile dst src) output in ret true
  else compare_files output diff.

(** The lines that [hg st -nma] prints. *)
Variable hg_status : list string.
Definition hg_modified_files : list string := map strip hg_status.
Definition run_as_hg_hook : M bool :=
  let! ok := indent_files hg_modified_files false false 0 false in ret (negb ok).

Record options := { o_debug : bool; o_level : Z; o_hg_hook : bool; o_hg : bool;
  o_file : string; o_diff : bool; o_in_place : bool }.
(** The exit status. *)
Definition run_as_main (o : options) : M Z :=
  if o_hg_hook o then
    let! ok := indent_files hg_modified_files false (o_debug o) (o_level o) false in
    ret (if ok then 0 else 1)%Z
  else if o_hg o then
    let! _ := indent_files hg_modified_files (o_diff o) (o_debug o) (o_level o) (o_in_place o) in
    ret 0%Z
  else if decide (o_file o <> "") then
    fun w =>
      match files w !! o_file o with
      | None =>
          (let! _ := print_text ("file " +:+ o_file o +:+ " does not exist" +:+ nl) in ret 1%Z) w
      | Some _ =>
          (let! _ := indent_files [o_file o] (o_diff o) (o_debug o) (o_level o) (o_in_place o) in
           ret 0%Z) w
      end
  else ret 0%Z.
End Driver.

(** ** What is written is read back *)

Definition wf_line (l : PatchChunkLine) : bool :=
  one_line (line l) &&
  match type l with
  | SRC => negb (starts_with "-- " (line l))
  | DST => negb (starts_with "++ " (line l))
  | BOTH => true
  | UNSET => false
  end.
Definition wf_chunk (c : PatchChunk) : bool := forallb wf_line (lines c).
Definition wf_patch (p : Patch) : bool :=
  one_line (p_src p) && one_line (p_dst p) && forallb wf_chunk (chunks p).
(** [for p in ps: p.write(f)] *)
Definition write_patches (ps : list Patch) : res exn (list string) :=
  for_each (fun out p => let* w := write_patch p in Ok (out ++ w)) ps [].

(** The strings that [write] produces. *)
Definition line_text (l : PatchChunkLine) : string :=
  match type l with SRC => "-" | DST => "+" | _ => " " end +:+ line l +:+ nl.
Definition chunk_text (c : PatchChunk) : list string :=
  chunk_header (src_pos c) (src_len c) (dst_pos c) (dst_len c) :: map line_text (lines c).
Definition patch_text (p : Patch) : list string :=
  ["--- " +:+ p_src p +:+ nl; "+++ " +:+ p_dst p +:+ nl] ++ mjoin (map chunk_text (chunks p)).

Lemma one_line_cons c s :
  one_line (String c s) = negb (bool_decide (c = newline)) && one_line s.
Proof.
  unfold one_line. cbn. rewrite <- bool_decide_not, <- bool_decide_and.
  apply bool_decide_ext. rewrite not_elem_of_cons. naive_solver.
Qed.

Lemma one_line_app s t : one_line (s +:+ t) = one_line s && one_line t.
Proof.
  unfold one_line. rewrite list_ascii_append, <- bool_decide_and.
  apply bool_decide_ext. rewrite not_elem_of_app. done.
Qed.

Lemma chomp_cons c t : t <> "" -> chomp (String c t) = String c (chomp t).
Proof. by destruct t. Qed.

Lemma chomp_nl s : one_line s = true -> chomp (s +:+ nl) = s.
Proof.
  induction s as [|c s IH]; intros Hs; [done|].
  rewrite one_line_cons in Hs. apply andb_true_iff in Hs as [_ Hs].
  change (String c s +:+ nl) with (String c (s +:+ nl)).
  rewrite chomp_cons by (by destruct s). by rewrite IH.
Qed.

Lemma prefixed_nl p s : one_line p = true -> one_line s = true ->
  prefixed p (p +:+ s +:+ nl) = Some s.
Proof.
  intros Hp Hs. unfold prefixed.
  rewrite <- str_append_assoc, chomp_nl by (rewrite one_line_app; by rewrite Hp, Hs).
  by rewrite starts_with_append, str_drop_append, Hs.
Qed.

Lemma prefixed_none p s : one_line s = true -> starts_with p s = false ->
  prefixed p (s +:+ nl) = None.
Proof. intros Hs Hp. unfold prefixed. by rewrite chomp_nl, Hp. Qed.

Lemma prefixed_neq c p d t : c <> d -> prefixed (String c p) (String d t) = None.
Proof.
  intros Hc. unfold prefixed. destruct (decide (t = "")) as [->|Ht].
  - cbn. case_decide; [done|]. cbn. by rewrite bool_decide_eq_false_2.
  - rewrite chomp_cons by done. cbn. by rewrite bool_decide_eq_false_2.
Qed.

(** A written line is recognised as what it is. *)
Lemma parse_written_line st l : wf_line l = true ->
  parse_line st (line_text l) = add_to_chunk l st.
Proof.
  unfold wf_line. intros [Hone Ht]%andb_true_iff.
  assert (Hall : forall c, c <> newline -> one_line (String c (line l)) = true).
  { intros c Hc. rewrite one_line_cons, Hone. by rewrite bool_decide_eq_false_2. }
  unfold parse_line, line_text. destruct l as [[] t]; cbn [type line] in *; [done|..];
    [apply negb_true_iff in Ht..|clear Ht].
  - change ("-" +:+ t +:+ nl) with (String "-" t +:+ nl).
    rewrite (prefixed_none "--- "), (prefixed_none "+++ ") by (by try apply Hall).
    change (String "-" t +:+ nl) with ("-" +:+ t +:+ nl). by rewrite prefixed_nl.
  - change ("+" +:+ t +:+ nl) with (String "+" t +:+ nl).
    rewrite (prefixed_none "--- "), (prefixed_none "+++ "), (prefixed_none "-")
      by (by try apply Hall).
    change (String "+" t +:+ nl) with ("+" +:+ t +:+ nl). by rewrite prefixed_nl.
  - change (" " +:+ t +:+ nl) with (String " " t +:+ nl).
    rewrite (prefixed_none "--- "), (prefixed_none "+++ "), (prefixed_none "-"),
      (prefixed_none "+") by (by try apply Hall).
    change (String " " t +:+ nl) with (" " +:+ t +:+ nl). by rewrite prefixed_nl.
Qed.

Lemma chunk_start_header a m b n : chunk_start (chunk_header a m b n) = Some (a, b).
Proof.
  unfold chunk_start, chunk_header, literal. rewrite !list_ascii_append.
  rewrite match_literal_app. cbn [mbind option_bind].
  rewrite match_show_number by (intros c t [=<-]; reflexivity). cbn [mbind option_bind].
  rewrite match_literal_app. cbn [mbind option_bind].
  rewrite match_show_number by (intros c t [=<-]; reflexivity). cbn [mbind option_bind].
  rewrite match_literal_app. cbn [mbind option_bind].
  rewrite match_show_number by (intros c t [=<-]; reflexivity). cbn [mbind option_bind].
  rewrite match_literal_app. cbn [mbind option_bind].
  rewrite match_show_number by (intros c t [=<-]; reflexivity). cbn [mbind option_bind].
  rewrite match_literal_app. cbn [mbind option_bind]. by rewrite !N2Z.id.
Qed.

Lemma parse_written_header st p a m b n : last (patchset st) = Some p ->
  parse_line st (chunk_header a m b n) =
  Ok {| patchset := alter_last (add_chunk (new_chunk a b)) (patchset st);
        current_chunk := Some (pred (length (patchset st)), length (chunks p)) |}.
Proof.
  intros Hp. unfold parse_line. rewrite chunk_start_header, Hp. unfold chunk_header.
  unfold String.append at 1. by rewrite !prefixed_neq by done.
Qed.

Lemma alter_last_snoc {A} (f : A -> A) l x : alter_last f (l ++ [x]) = l ++ [f x].
Proof.
  unfold alter_last. rewrite length_app. cbn. replace (pred (length l + 1)) with (length l + 0) by lia.
  by rewrite alter_app_r.
Qed.

Lemma alter_snoc {A} (f : A -> A) l x : alter f (length l) (l ++ [x]) = l ++ [f x].
Proof. replace (length l) with (length l + 0) by lia. by rewrite alter_app_r. Qed.

Lemma add_to_last ps p cs c l :
  add_to_chunk l {| patchset := ps ++ [set_chunks (fun _ => cs ++ [c]) p];
                    current_chunk := Some (length ps, length cs) |}
  = Ok {| patchset := ps ++ [set_chunks (fun _ => cs ++ [add_line l c]) p];
          current_chunk := Some (length ps, length cs) |}.
Proof.
  unfold add_to_chunk. cbn. do 2 f_equal. rewrite alter_snoc. do 2 f_equal.
  unfold set_chunks. cbn. by rewrite alter_snoc.
Qed.

Lemma parse_written_lines ps p cs c ls : forallb wf_line ls = true ->
  for_each parse_line (map line_text ls)
    {| patchset := ps ++ [set_chunks (fun _ => cs ++ [c]) p];
       current_chunk := Some (length ps, length cs) |}
  = Ok {| patchset := ps ++ [set_chunks (fun _ => cs ++ [set_lines (fun l => l ++ ls) c]) p];
          current_chunk := Some (length ps, length cs) |}.
Proof.
  revert c. induction ls as [|l ls IH]; intros c Hwf; cbn.
  - do 3 f_equal. unfold set_lines. rewrite app_nil_r. by destruct c.
  - apply andb_true_iff in Hwf as [Hl Hls].
    rewrite parse_written_line, add_to_last by done. cbn. rewrite IH by done.
    unfold add_line, set_lines. cbn. by rewrite <- app_assoc.
Qed.

Lemma parse_written_chunks ps p cs cur cs' : forallb wf_chunk cs' = true ->
  exists cur',
  for_each parse_line (mjoin (map chunk_text cs'))
    {| patchset := ps ++ [set_chunks (fun _ => cs) p]; current_chunk := cur |}
  = Ok {| patchset := ps ++ [set_chunks (fun _ => cs ++ cs') p]; current_chunk := cur' |}.
Proof.
  revert cs cur. induction cs' as [|c cs' IH]; intros cs cur Hwf.
  - exists cur. by rewrite app_nil_r.
  - cbn in Hwf. apply andb_true_iff in Hwf as [Hc Hcs].
    destruct (IH (cs ++ [c]) (Some (length ps, length cs)) Hcs) as [cur' IH'].
    exists cur'. cbn [map mjoin list_join]. rewrite for_each_app. unfold chunk_text at 1.
    cbn [for_each]. erewrite parse_written_header by (cbn; apply last_snoc). cbn.
    rewrite alter_last_snoc, length_app. cbn.
    replace (pred (length ps + 1)) with (length ps) by lia.
    unfold add_chunk, set_chunks at 1. cbn.
    change {| p_src := p_src p; p_dst := p_dst p; chunks := cs ++ [new_chunk (src_pos c) (dst_pos c)] |}
      with (set_chunks (fun _ => cs ++ [new_chunk (src_pos c) (dst_pos c)]) p).
    rewrite parse_written_lines by done. cbn.
    replace (set_lines (fun l => l ++ lines c) (new_chunk (src_pos c) (dst_pos c))) with c
      by by destruct c.
    etrans; [exact IH'|]. by rewrite <- app_assoc.
Qed.

Lemma parse_written_patches ps cur ps' : forallb wf_patch ps' = true ->
  exists cur',
  for_each parse_line (mjoin (map patch_text ps')) {| patchset := ps; current_chunk := cur |}
  = Ok {| patchset := ps ++ ps'; current_chunk := cur' |}.
Proof.
  revert ps cur. induction ps' as [|p ps' IH]; intros ps cur Hwf.
  - exists cur. by rewrite app_nil_r.
  - cbn in Hwf. apply andb_true_iff in Hwf as [[[Hs Hd]%andb_true_iff Hc]%andb_true_iff Hps].
    destruct (parse_written_chunks ps (set_chunks (fun _ => []) p) [] cur _ Hc) as [cur1 H1].
    destruct (IH (ps ++ [p]) cur1 Hps) as [cur' IH'].
    exists cur'. cbn [map mjoin list_join]. rewrite for_each_app. unfold patch_text at 1.
    cbn [for_each app]. unfold parse_line at 1. rewrite prefixed_nl by done. cbn.
    assert (Hn : prefixed "--- " ("+++ " +:+ p_dst p +:+ nl) = None) by (by apply prefixed_neq).
    unfold parse_line at 1. rewrite Hn, prefixed_nl by done. cbn.
    rewrite decide_False by (by destruct ps). cbn. rewrite alter_last_snoc.
    unfold set_chunks in H1. cbn in H1. unfold patch_set_dst, patch_set_src. cbn.
    rewrite H1. destruct p. etrans; [exact IH'|]. by rewrite <- app_assoc.
Qed.

Lemma write_lines_ok ls out : forallb wf_line ls = true ->
  write_lines ls out = Ok (out ++ map line_text ls).
Proof.
  unfold write_lines. revert out. induction ls as [|l ls IH]; intros out Hwf; cbn.
  - by rewrite app_nil_r.
  - apply andb_true_iff in Hwf as [Hl Hls]. apply andb_true_iff in Hl as [_ Ht].
    assert (Hw : write_line l = Ok [line_text l]) by (by destruct l as [[] t]).
    rewrite Hw. cbn. rewrite IH by done. by rewrite <- app_assoc.
Qed.

Lemma write_patch_ok p : wf_patch p = true -> write_patch p = Ok (patch_text p).
Proof.
  intros [_ Hc]%andb_true_iff. unfold write_patch, patch_text. revert Hc.
  generalize ["--- " +:+ p_src p +:+ nl; "+++ " +:+ p_dst p +:+ nl].
  induction (chunks p) as [|c cs IH]; intros out Hc; cbn; [by rewrite app_nil_r|].
  cbn in Hc. apply andb_true_iff in Hc as [Hc Hcs].
  unfold write_chunk. rewrite write_lines_ok by done. cbn. rewrite IH by done.
  by rewrite <- !app_assoc.
Qed.

Lemma write_patches_ok ps out : forallb wf_patch ps = true ->
  for_each (fun out p => let* w := write_patch p in Ok (out ++ w)) ps out
  = Ok (out ++ mjoin (map patch_text ps)).
Proof.
  revert out. induction ps as [|p ps IH]; intros out Hwf; cbn; [by rewrite app_nil_r|].
  apply andb_true_iff in Hwf as [Hp Hps]. rewrite write_patch_ok by done. cbn.
  rewrite IH by done. by rewrite <- app_assoc.
Qed.

(** C12: A patch set that is written is read back as it was: for patches whose texts
    are single lines and whose removed and added lines do not look like file
    names, [write] raises nothing, and [parse_patchset] of what it writes is the
    patch set, with its lines, their types and the positions of its chunks. *)
Theorem parse_write (ps : list Patch) (Hwf : forallb wf_patch ps = true) :
  exists out, write_patches ps = Ok out /\ parse_patchset out = Ok ps.
Proof.
  exists (mjoin (map patch_text ps)). unfold write_patches. rewrite write_patches_ok by done.
  split; [done|]. unfold parse_patchset.
  destruct (parse_written_patches [] None ps Hwf) as [cur ->]. done.
Qed.

Definition sample_patch : Patch :=
  {| p_src := "a.cc"; p_dst := "/tmp/x"; chunks :=
      [{| lines := [{| type := SRC; line := "int x; " |}; {| type := DST; line := "int x;" |};
                    {| type := BOTH; line := "" |}]; src_pos := 10; dst_pos := 7 |}] |}.
Lemma parse_write_witness :
  exists out, write_patches [sample_patch; sample_patch] = Ok out /\
    parse_patchset out = Ok [sample_patch; sample_patch].
Proof. exact (parse_write [sample_patch; sample_patch] eq_refl). Defined.

(** ** The removal of white space changes *)

Definition all_chunks (ps : list Patch) : list PatchChunk := mjoin (map chunks ps).
Definition fits (c : PatchChunk) : bool := bool_decide (src_len c <= dst_len c).
(** The texts of the second line are those of the first and one blank. *)
Definition one_blank_more (l l' : PatchChunkLine) : Prop :=
  exists b, is_blank b = true /\ line l' = line l +:+ String b "".
(** What can happen to a line: nothing, or a blank is added to its text. *)
Definition line_kept (l l' : PatchChunkLine) : Prop :=
  type l' = type l /\ (type l = SRC -> l' = l) /\ (line l' = line l \/ one_blank_more l l').
Definition chunk_kept (c c' : PatchChunk) : Prop :=
  src_pos c' = src_pos c /\ dst_pos c' = dst_pos c /\ Forall2 line_kept (lines c) (lines c').
(** What happens to a line of [dst()] whose counterpart in [src()] is a removed
    line: it gets that line's text if that is one blank more, else it is unchanged. *)
Definition pairs_restored (c c' : PatchChunk) : Prop :=
  forall i s d ls ld, src c !! i = Some s -> dst c !! i = Some d ->
    lines c !! s = Some ls -> type ls = SRC -> lines c !! d = Some ld ->
    exists ld', lines c' !! d = Some ld' /\
      (one_blank_more ld ls -> line ld' = line ls) /\ (~ one_blank_more ld ls -> ld' = ld).
(** The names of the files and the number of chunks of each patch stay. *)
Definition same_shape (p p' : Patch) : Prop :=
  p_src p' = p_src p /\ p_dst p' = p_dst p /\ length (chunks p') = length (chunks p).
Definition restored_line (ls ld : PatchChunkLine) : PatchChunkLine :=
  match whitespace (line ls) with
  | Some (x, w) => if decide (x = line ld) then append_to_line w ld else ld
  | None => ld
  end.

Lemma split_last_app x c : split_last (x +:+ String c "") = Some (x, c).
Proof.
  induction x as [|d x IH]; [done|]. change (String d x +:+ String c "") with (String d (x +:+ String c "")).
  cbn. by rewrite IH.
Qed.

Lemma split_last_some s x c : split_last s = Some (x, c) -> s = x +:+ String c "".
Proof.
  revert x c. induction s as [|d s IH]; intros x c; cbn; [done|].
  destruct (split_last s) as [[y e]|] eqn:E; intros [= <- <-].
  - by rewrite (IH _ _ eq_refl).
  - destruct s as [|e s]; [done|]. cbn in E. destruct (split_last s) as [[??]|]; done.
Qed.

Lemma chomp_one_line s : one_line s = true -> chomp s = s.
Proof.
  induction s as [|c s IH]; [done|]. rewrite one_line_cons. intros [Hc Hs]%andb_true_iff.
  apply negb_true_iff, bool_decide_eq_false in Hc. destruct (decide (s = "")) as [->|Hn].
  - cbn. by rewrite decide_False.
  - rewrite chomp_cons by done. by rewrite IH.
Qed.

Lemma whitespace_group s x w : whitespace s = Some (x, w) ->
  exists b, is_blank b = true /\ w = String b "".
Proof.
  unfold whitespace. destruct (split_last (chomp s)) as [[y c]|]; cbn; [|done].
  destruct (is_blank c && one_line y) eqn:E; [|done]. intros [= <- <-].
  apply andb_true_iff in E as [E _]. eauto.
Qed.

Lemma whitespace_one_line s x w : one_line s = true ->
  whitespace s = Some (x, w) <-> exists b, is_blank b = true /\ w = String b "" /\ s = x +:+ w.
Proof.
  intros Hs. unfold whitespace. rewrite chomp_one_line by done. split.
  - destruct (split_last s) as [[y c]|] eqn:E; cbn; [|done].
    destruct (is_blank c && one_line y) eqn:Eb; [|done]. intros [= <- <-].
    apply andb_true_iff in Eb as [Eb _]. apply split_last_some in E. eauto.
  - intros (b & Hb & -> & ->). rewrite split_last_app. cbn. rewrite Hb.
    rewrite one_line_app in Hs. apply andb_true_iff in Hs as [-> _]. done.
Qed.

Lemma restored_line_kept ls ld : type ld <> SRC -> line_kept ld (restored_line ls ld).
Proof.
  intros Ht. unfold restored_line, line_kept.
  destruct (whitespace (line ls)) as [[x w]|] eqn:E; [|naive_solver].
  case_decide; [|naive_solver]. cbn. split; [done|]. split; [done|]. right.
  apply whitespace_group in E as (b & Hb & ->). by exists b.
Qed.

Lemma restored_line_spec ls ld : one_line (line ls) = true ->
  (one_blank_more ld ls -> line (restored_line ls ld) = line ls) /\
  (~ one_blank_more ld ls -> restored_line ls ld = ld).
Proof.
  intros H1. unfold restored_line, one_blank_more. split.
  - intros (b & Hb & Heq).
    assert (Hw : whitespace (line ls) = Some (line ld, String b "")).
    { apply whitespace_one_line; [done|]. eauto. }
    by rewrite Hw, decide_True by done.
  - intros Hn. destruct (whitespace (line ls)) as [[x w]|] eqn:E; [|done].
    case_decide as Hx; [|done]. destruct Hn.
    apply whitespace_one_line in E as (b & Hb & -> & Hs); [|done]. subst x. eauto.
Qed.

(** *** One chunk *)

Lemma elem_of_positions f n ls j :
  j ∈ positions f n ls <-> n <= j /\ exists l, ls !! (j - n) = Some l /\ f l = true.
Proof.
  revert n. induction ls as [|l ls IH]; intros n; cbn.
  - split; [by intros ?%elem_of_nil|]. intros (_ & l & Hl & _). done.
  - assert (Hc : j ∈ positions f (S n) ls <->
      S n <= j /\ exists l', (l :: ls) !! (j - n) = Some l' /\ f l' = true).
    { rewrite IH. split; intros (Hj & l' & Hl & Hf); (split; [done|]); exists l';
        (split; [|done]); revert Hl; replace (j - n) with (S (j - S n)) by lia; done. }
    destruct (f l) eqn:Ef; [rewrite elem_of_cons|]; rewrite Hc; split.
    + intros [->|[Hj H]]; [|split; [lia|done]].
      split; [done|]. rewrite Nat.sub_diag. eauto.
    + intros [Hj H]. destruct (decide (j = n)); [by left|right]. split; [lia|done].
    + intros [Hj H]. split; [lia|done].
    + intros [Hj (l' & Hl & Hf)]. split; [|by eauto]. destruct (decide (j = n)) as [->|]; [|lia].
      rewrite Nat.sub_diag in Hl. cbn in Hl. congruence.
Qed.

Lemma NoDup_positions f n ls : NoDup (positions f n ls).
Proof.
  revert n. induction ls as [|l ls IH]; intros n; cbn; [constructor|].
  destruct (f l); [|apply IH]. constructor; [|apply IH]. rewrite elem_of_positions. lia.
Qed.

Lemma restore_pair_ne s d ls j : j <> d -> restore_pair s d ls !! j = ls !! j.
Proof.
  intros Hj. unfold restore_pair. repeat (case_match; try done).
  by rewrite list_lookup_alter_ne.
Qed.

Lemma restore_pair_eq s d ls l_s l_d : ls !! s = Some l_s -> ls !! d = Some l_d ->
  restore_pair s d ls !! d = Some (restored_line l_s l_d).
Proof.
  intros Hs Hd. unfold restore_pair, restored_line. rewrite Hs, Hd.
  destruct (whitespace (line l_s)) as [[x w]|]; [|done].
  case_decide; [|done]. by rewrite list_lookup_alter_eq, Hd.
Qed.

Lemma restore_pair_none s d ls : ls !! s = None -> restore_pair s d ls = ls.
Proof. intros Hs. unfold restore_pair. by rewrite Hs. Qed.

Lemma restore_loop_other ss ds ls j : j ∉ ds -> (restore_loop ss ds ls).1 !! j = ls !! j.
Proof.
  revert ds ls. induction ss as [|s ss IH]; intros [|d ds] ls Hj; cbn; [done..|].
  apply not_elem_of_cons in Hj as [Hj Hds]. rewrite IH by done. by apply restore_pair_ne.
Qed.

Lemma restore_loop_at ss ds ls i s d l_s l_d : NoDup ds -> s ∉ ds ->
  ss !! i = Some s -> ds !! i = Some d -> ls !! s = Some l_s -> ls !! d = Some l_d ->
  (restore_loop ss ds ls).1 !! d = Some (restored_line l_s l_d).
Proof.
  revert ss ds ls. induction i as [|i IH]; intros [|s0 ss] [|d0 ds] ls Hnd Hs Hss Hds Hls Hld;
    try done; cbn in *; apply NoDup_cons in Hnd as [Hd0 Hnd];
    apply not_elem_of_cons in Hs as [Hs0 Hs].
  - injection Hss as ->. injection Hds as ->. rewrite restore_loop_other by done.
    by apply restore_pair_eq.
  - apply IH; [done..| |].
    + by rewrite restore_pair_ne.
    + rewrite restore_pair_ne; [done|]. intros ->. by apply list_elem_of_lookup_2 in Hds.
Qed.

Lemma restore_loop_kept ss ds ls j l : NoDup ds ->
  (forall d l, d ∈ ds -> ls !! d = Some l -> type l <> SRC) -> ls !! j = Some l ->
  exists l', (restore_loop ss ds ls).1 !! j = Some l' /\ line_kept l l'.
Proof.
  assert (Hrefl : line_kept l l) by (split_and!; naive_solver).
  revert ds ls. induction ss as [|s ss IH]; intros [|d ds] ls Hnd Ht Hj; cbn; [by eauto..|].
  apply NoDup_cons in Hnd as [Hd Hnd]. destruct (decide (j = d)) as [->|Hne].
  - rewrite restore_loop_other by done. destruct (ls !! s) as [l_s|] eqn:Es.
    + erewrite restore_pair_eq by done. eexists. split; [done|]. apply restored_line_kept.
      apply (Ht d); [by left|done].
    + rewrite restore_pair_none by done. eauto.
  - apply IH; [done| |by rewrite restore_pair_ne].
    intros d' l' Hd' Hl'. rewrite restore_pair_ne in Hl' by (by intros ->).
    apply (Ht d'); [by right|done].
Qed.

Lemma restore_loop_length ss ds ls : length (restore_loop ss ds ls).1 = length ls.
Proof.
  revert ds ls. induction ss as [|s ss IH]; intros [|d ds] ls; cbn; [done..|].
  rewrite IH. unfold restore_pair. destruct (ls !! s) as [l|]; [|done].
  destruct (ls !! d); [|done]. destruct (whitespace (line l)) as [[x w]|]; [|done].
  case_decide; [apply length_alter|done].
Qed.

Lemma restore_loop_stop ss ds ls :
  (restore_loop ss ds ls).2 = negb (bool_decide (length ss <= length ds)).
Proof.
  revert ds ls. induction ss as [|s ss IH]; intros [|d ds] ls; cbn; [done..|].
  rewrite IH. f_equal. apply bool_decide_ext. lia.
Qed.

Lemma restore_chunk_eq c : restore_chunk c =
  (set_lines (fun _ => (restore_loop (src c) (dst c) (lines c)).1) c, negb (fits c)).
Proof.
  unfold restore_chunk. rewrite (surjective_pairing (restore_loop _ _ _)).
  by rewrite restore_loop_stop.
Qed.

Lemma dst_not_SRC c d l : d ∈ dst c -> lines c !! d = Some l -> type l <> SRC.
Proof.
  intros (_ & l' & Hl & Hf)%elem_of_positions Hd. rewrite Nat.sub_0_r, Hd in Hl.
  injection Hl as <-. unfold is_dst in Hf. apply bool_decide_eq_true in Hf. destruct Hf; congruence.
Qed.

Lemma restore_chunk_kept c : chunk_kept c (restore_chunk c).1.
Proof.
  rewrite restore_chunk_eq. split_and!; [done..|]. cbn. apply Forall2_same_length_lookup.
  split; [by rewrite restore_loop_length|]. intros j l l' Hl Hl'.
  destruct (restore_loop_kept (src c) (dst c) (lines c) j l) as (l'' & Hl'' & Hk); [|..|congruence].
  - apply NoDup_positions.
  - apply dst_not_SRC.
  - done.
Qed.

Lemma restore_chunk_pairs c : Forall (fun l => one_line (line l) = true) (lines c) ->
  pairs_restored c (restore_chunk c).1.
Proof.
  intros H1 i s d ls ld Hs Hd Hls Ht Hld. rewrite restore_chunk_eq. cbn.
  erewrite restore_loop_at; [|apply NoDup_positions| |done..].
  - eexists. split; [done|]. apply restored_line_spec. by eapply Forall_lookup_1 in H1.
  - intros Hin. by eapply dst_not_SRC in Hin.
Qed.

(** *** All chunks *)

Lemma restore_chunks_app cs1 cs2 :
  (restore_chunks (cs1 ++ cs2)) =
  let '(cs, stop) := restore_chunks cs1 in
  if stop then (cs ++ cs2, true)
  else let '(cs', stop) := restore_chunks cs2 in (cs ++ cs', stop).
Proof.
  induction cs1 as [|c cs1 IH]; cbn; [by destruct (restore_chunks cs2)|].
  rewrite IH. destruct (restore_chunk c) as [c' []]; [done|].
  destruct (restore_chunks cs1) as [cs []]; [done|]. by destruct (restore_chunks cs2).
Qed.

Lemma all_chunks_cons p ps : all_chunks (p :: ps) = chunks p ++ all_chunks ps.
Proof. done. Qed.

Lemma restore_patches_chunks ps : all_chunks (restore_patches ps) = (restore_chunks (all_chunks ps)).1.
Proof.
  induction ps as [|p ps IH]; [done|]. cbn [restore_patches].
  rewrite all_chunks_cons, restore_chunks_app.
  destruct (restore_chunks (chunks p)) as [cs []]; [done|].
  rewrite all_chunks_cons, IH. by destruct (restore_chunks (all_chunks ps)).
Qed.

Lemma restore_chunks_length cs : length (restore_chunks cs).1 = length cs.
Proof.
  induction cs as [|c cs IH]; [done|]. cbn. destruct (restore_chunk c) as [c' []]; [done|].
  destruct (restore_chunks cs); cbn in *; lia.
Qed.

Lemma restore_chunks_lookup cs k : (restore_chunks cs).1 !! k =
  (fun c => if forallb fits (take k cs) then (restore_chunk c).1 else c) <$> cs !! k.
Proof.
  revert k. induction cs as [|c cs IH]; intros k; [done|]. cbn.
  destruct (restore_chunk c) as [c' stop] eqn:Ec.
  assert (stop = negb (fits c)) as -> by (rewrite restore_chunk_eq in Ec; congruence).
  destruct (fits c) eqn:Ef; cbn.
  - rewrite (surjective_pairing (restore_chunks cs)). destruct k; cbn; [by rewrite Ec|].
    by rewrite Ef, IH.
  - destruct k; cbn; [by rewrite Ec|]. rewrite Ef. cbn. by rewrite option_fmap_id.
Qed.

Lemma restore_patches_shape ps : Forall2 same_shape ps (restore_patches ps).
Proof.
  assert (Hr : forall ps, Forall2 same_shape ps ps).
  { intros l. apply Forall_Forall2_diag, Forall_true. by intros p. }
  induction ps as [|p ps IH]; [constructor|]. cbn. pose proof (restore_chunks_length (chunks p)) as Hl.
  destruct (restore_chunks (chunks p)) as [cs []]; constructor; done.
Qed.

(** *** The texts that a patch set holds after reading are single lines *)

Definition single_lines (ps : list Patch) : Prop :=
  Forall (fun p => Forall (fun c => Forall (fun l => one_line (line l) = true) (lines c))
    (chunks p)) ps.

Lemma prefixed_one_line p s g : prefixed p s = Some g -> one_line g = true.
Proof.
  unfold prefixed. destruct (starts_with p _); [|done].
  destruct (one_line (str_drop _ _)) eqn:E; [|done]. by intros [= <-].
Qed.

Lemma add_to_chunk_single l st st' : one_line (line l) = true ->
  single_lines (patchset st) -> add_to_chunk l st = Ok st' -> single_lines (patchset st').
Proof.
  intros Hl Hst. unfold add_to_chunk. destruct (current_chunk st) as [[i j]|]; [|done].
  intros [= <-]. cbn. apply Forall_alter; [done|]. intros p _ Hp. cbn.
  apply Forall_alter; [done|]. intros c _ Hc. cbn. apply Forall_app. auto.
Qed.

Lemma parse_line_single st l st' :
  single_lines (patchset st) -> parse_line st l = Ok st' -> single_lines (patchset st').
Proof.
  intros Hst. unfold parse_line.
  destruct (prefixed "--- " l).
  { intros [= <-]. cbn. apply Forall_app. split; [done|]. by repeat constructor. }
  destruct (prefixed "+++ " l).
  { case_decide; [done|]. intros [= <-]. cbn. apply Forall_alter; [done|]. by intros p. }
  destruct (chunk_start l) as [[a b]|].
  { destruct (last (patchset st)); [|done]. intros [= <-]. cbn.
    apply Forall_alter; [done|]. intros q _ Hq. cbn. apply Forall_app. split; [done|].
    by repeat constructor. }
  destruct (prefixed "-" l) eqn:E1.
  { apply add_to_chunk_single; [|done]. by eapply prefixed_one_line. }
  destruct (prefixed "+" l) eqn:E2.
  { apply add_to_chunk_single; [|done]. by eapply prefixed_one_line. }
  destruct (prefixed " " l) eqn:E3; [|done].
  apply add_to_chunk_single; [|done]. by eapply prefixed_one_line.
Qed.

Lemma parse_patchset_single gen ps : parse_patchset gen = Ok ps -> single_lines ps.
Proof.
  unfold parse_patchset. intros (st & Hst & [= <-])%res_bind_ok.
  assert (H0 : single_lines (patchset {| patchset := []; current_chunk := None |})) by constructor.
  revert Hst H0. generalize {| patchset := []; current_chunk := None |}.
  induction gen as [|l gen IH]; intros st0; cbn; [by intros [= <-]|].
  intros (st1 & H1 & H2)%res_bind_ok H0. apply (IH st1); [done|]. by eapply parse_line_single.
Qed.

(** [remove_trailing_whitespace_changes] raises only what reading the patch
    raises, and changes nothing but blanks at the end of lines: files, chunks,
    positions, the types of the lines and the texts of the removed lines stay, and
    any other text stays or gets one blank more.  Up to and including the first chunk
    with more [src()] than [dst()] lines, an added line that lacks just the last
    blank of the removed line it is paired with gets that line's text, and other
    added lines paired with removed lines stay; later chunks are left as they were. *)
Theorem remove_trailing_whitespace_spec (gen : list string) (ps : list Patch)
    (Hps : parse_patchset gen = Ok ps) :
  exists ps', remove_trailing_whitespace_changes gen = Ok ps' /\
    Forall2 same_shape ps ps' /\
    length (all_chunks ps') = length (all_chunks ps) /\
    forall k c c', all_chunks ps !! k = Some c -> all_chunks ps' !! k = Some c' ->
      chunk_kept c c' /\
      if forallb fits (take k (all_chunks ps)) then pairs_restored c c' else c' = c.
Proof.
  exists (restore_patches ps). unfold remove_trailing_whitespace_changes. rewrite Hps.
  split; [done|]. split; [apply restore_patches_shape|]. rewrite restore_patches_chunks.
  split; [apply restore_chunks_length|].
  intros k c c' Hc Hc'. rewrite restore_chunks_lookup, Hc in Hc'. cbn in Hc'. injection Hc' as <-.
  destruct (forallb fits _).
  - split; [apply restore_chunk_kept|]. apply restore_chunk_pairs.
    apply parse_patchset_single in Hps. apply list_elem_of_lookup_2 in Hc.
    unfold all_chunks in Hc. apply list_elem_of_join in Hc as (cs & Hcs & Hin).
    apply list_elem_of_fmap in Hin as (p & -> & Hp).
    unfold single_lines in Hps. rewrite Forall_forall in Hps.
    specialize (Hps p Hp). cbn in Hps. rewrite Forall_forall in Hps. by apply Hps.
  - split; [|done]. split_and!; [done..|]. apply Forall_Forall2_diag, Forall_true.
    intros l. split_and!; naive_solver.
Qed.

Lemma remove_trailing_whitespace_spec_witness :
  let gen := ["--- a" +:+ nl; "+++ b" +:+ nl; "@@ -1,2 +1,2 @@" +:+ nl;
              "-x " +:+ nl; "+x" +:+ nl; " y" +:+ nl] in
  exists ps ps', parse_patchset gen = Ok ps /\
    remove_trailing_whitespace_changes gen = Ok ps' /\ Forall2 same_shape ps ps'.
Proof.
  intros gen. destruct (parse_patchset gen) as [ps| |] eqn:E; [|by vm_compute in E..].
  destruct (remove_trailing_whitespace_spec gen ps E) as (ps' & H1 & H2 & _). by exists ps, ps'.
Defined.


(** *** What the removal does not do *)

(** Only one of several blanks is given back. *)
Lemma two_blanks_lost :
  (restore_chunk {| lines := [{| type := SRC; line := "x  " |}; {| type := DST; line := "x" |}];
                    src_pos := 1; dst_pos := 1 |}).1
  = {| lines := [{| type := SRC; line := "x  " |}; {| type := DST; line := "x" |}];
       src_pos := 1; dst_pos := 1 |}.
Proof. vm_compute. reflexivity. Qed.

(** A context line is changed through [dst()], and the patch no longer applies. *)
Lemma context_changed :
  (restore_chunk {| lines := [{| type := DST; line := "a" |}; {| type := BOTH; line := "b" |};
                              {| type := BOTH; line := "b " |}]; src_pos := 1; dst_pos := 1 |}).1
  = {| lines := [{| type := DST; line := "a" |}; {| type := BOTH; line := "b " |};
                 {| type := BOTH; line := "b " |}]; src_pos := 1; dst_pos := 1 |}.
Proof. vm_compute. reflexivity. Qed.

(** The header of a chunk of one line, which has no length, is not recognised. *)
Lemma short_header_rejected :
  parse_patchset ["--- a" +:+ nl; "+++ b" +:+ nl; "@@ -1 +1 @@" +:+ nl; "-x" +:+ nl; "+y" +:+ nl]
  = Raise BadLine.
Proof. vm_compute. reflexivity. Qed.

(** A removed line [-- x] is taken for the name of a file. *)
Lemma removed_line_misread :
  parse_patchset ["--- a" +:+ nl; "+++ b" +:+ nl; "@@ -1,1 +1,0 @@" +:+ nl; "--- x" +:+ nl]
  = Ok [{| p_src := "a"; p_dst := "b";
           chunks := [{| lines := []; src_pos := 1; dst_pos := 1 |}] |};
        {| p_src := "x"; p_dst := ""; chunks := [] |}].
Proof. vm_compute. reflexivity. Qed.

(** ** The driver *)

Lemma read_file_ok n t w : files w !! n = Some t -> read_file n w = (Ok t, w).
Proof. unfold read_file. by intros ->. Qed.

Lemma bind_text decodes {B} n t w (k : string -> M B) : files w !! n = Some t ->
  bind (read_text decodes n) k w = if decodes t then k t w else (Raise UnicodeDecodeError, w).
Proof.
  intros Hn. unfold bind at 1, read_text, bind at 1. rewrite (read_file_ok n t) by done. by destruct (decodes t).
Qed.
Lemma bind_read {B} n t w (k : string -> M B) :
  files w !! n = Some t -> bind (read_file n) k w = k t w.
Proof. intros Hn. by apply bind_ok, read_file_ok. Qed.

(** Look up a file in a file system that is written out. *)
Ltac look :=
  cbn; repeat first [rewrite lookup_insert_eq | rewrite lookup_insert_ne by congruence];
  done.

Lemma parse_line_fuel st l : parse_line st l <> OutOfFuel.
Proof.
  unfold parse_line, add_to_chunk. repeat (case_match; try done).
Qed.

Lemma final_diff_fuel level diff : final_diff level diff <> OutOfFuel.
Proof.
  unfold final_diff. case_decide; [|done].
  unfold remove_trailing_whitespace_changes, parse_patchset.
  pose proof (for_each_fuel parse_line diff {| patchset := []; current_chunk := None |}
    parse_line_fuel) as Hp.
  destruct (for_each parse_line _ _) as [st| |]; [cbn|done..].
  destruct (restore_patches _) as [|p ps]; [done|].
  assert (Hw : write_patch p <> OutOfFuel).
  { apply for_each_fuel. intros out c. apply for_each_fuel. intros out' l.
    unfold write_line. by destruct (type l). }
  by destruct (write_patch p).
Qed.

Section DriverSpec.
Context `{TempNames}.
Context (uncrustify : option (string -> option string -> string))
  (unified_diff : list string -> list string -> string -> string -> list string)
  (patch_file : option (string -> string -> string)) (decodes : string -> bool).

(** The new text of a file, with [out] the name of its temporary copy. *)
Definition reindent (level : Z) (name out text : string) : res exn string :=
  match uncrustify with
  | None => Raise NotInstalled
  | Some run =>
      let formatted := run (uncrustify_config level) (Some text) in
      if negb (decodes text && decodes formatted) then Raise UnicodeDecodeError else
      let* d := final_diff level
        (unified_diff (readlines text) (readlines formatted) name out) in
      match patch_file with Some run_patch => Ok (run_patch d text) | None => Raise IOError end
  end.

(** Files that were there before are as they were. *)
Definition untouched (w w' : world) : Prop :=
  forall f, f ∈ dom (files w) -> files w' !! f = files w !! f.

Lemma untouched_trans w1 w2 w3 : untouched w1 w2 -> untouched w2 w3 -> untouched w1 w3.
Proof.
  intros H1 H2 f Hf. rewrite H2, H1; [done..|]. rewrite elem_of_dom, H1 by done.
  by apply elem_of_dom.
Qed.

Lemma untouched_insert w n t out : n ∉ dom (files w) ->
  untouched w {| files := <[n := t]> (files w); stdout := out |}.
Proof. intros Hn f Hf. cbn. rewrite lookup_insert_ne; [done|]. by intros ->. Qed.

Lemma indent_run source debug level w t : files w !! source = Some t ->
  let o := temp_name (dom (files w)) in
  exists w', indent uncrustify unified_diff patch_file decodes source debug level w
    = (match uncrustify with
       | None => Raise NotInstalled
       | Some _ => if debug then Raise TypeError
                   else let* _ := reindent level source o t in Ok o
       end, w') /\
    untouched w w' /\ stdout w' = stdout w /\
    (debug = false -> forall t', reindent level source o t = Ok t' -> files w' !! o = Some t').
Proof.
  intros Hs o. set (w1 := {| files := <[o := ""]> (files w); stdout := stdout w |}).
  assert (Ho : o ∉ dom (files w)) by apply temp_name_fresh.
  assert (Hso : o <> source) by (intros ->; by apply Ho, elem_of_dom).
  set (c := temp_name (dom (files w1))).
  assert (Hc : c ∉ dom (files w1)) by apply temp_name_fresh.
  assert (Hco : c <> o) by (intros E; apply Hc; rewrite E; cbn; set_solver).
  assert (Hcw : c ∉ dom (files w)) by (intros Hin; apply Hc; cbn; set_solver).
  assert (Hcs : c <> source) by (intros E; apply Hcw; rewrite E; by apply elem_of_dom).
  set (w2 := {| files := <[c := uncrustify_config level]> (<[c := ""]> (files w1));
                stdout := stdout w |}).
  assert (Hw2s : files w2 !! source = Some t) by look.
  assert (Hu2 : untouched w w2).
  { intros f Hf. assert (f <> o /\ f <> c) as [??] by (split; by intros ->). look. }
  unfold indent. rewrite (bind_ok _ _ w o w1), (bind_ok _ _ w1 c w2) by done.
  unfold reindent. destruct uncrustify as [run|]; [|by exists w2].
  rewrite (bind_read _ (uncrustify_config level)) by look.
  set (w3 := {| files := <[o := run (uncrustify_config level) (Some t)]> (files w2);
                stdout := stdout w |}).
  rewrite (bind_ok _ _ w2 tt w3) by (unfold write_file; by rewrite Hw2s).
  assert (Hu3 : untouched w w3).
  { intros f Hf. assert (f <> o) by (by intros ->). rewrite <- Hu2 by done. look. }
  destruct debug; [by exists w3|].
  rewrite (bind_text _ _ t) by look. destruct (decodes t); [|by exists w3].
  rewrite (bind_text _ _ (run (uncrustify_config level) (Some t))) by look.
  destruct (decodes (run _ _)); [cbn [andb negb]|by exists w3].
  set (g := temp_name (dom (files w3))). set (diff := unified_diff _ _ source o).
  assert (Hg : g ∉ dom (files w3)) by apply temp_name_fresh.
  assert (g <> o /\ g <> source /\ g ∉ dom (files w)) as (Hgo & Hgs & Hgw).
  { cbn in Hg. rewrite !dom_insert in Hg. split_and!; [set_solver| |set_solver].
    intros E. apply Hg. rewrite E. apply elem_of_dom_2 in Hs. set_solver. }
  set (w4 := {| files := <[g := ""]> (files w3); stdout := stdout w |}).
  assert (Hu4 : untouched w w4).
  { intros f Hf. assert (f <> g) by (by intros ->). rewrite <- Hu3 by done. look. }
  rewrite (bind_ok _ _ w3 g w4) by done.
  destruct (final_diff level diff) as [d|e|] eqn:Ed; [|by exists w4..].
  rewrite (bind_ok _ _ w4 d w4) by done. unfold copyfile.
  erewrite (bind_ok (write_file g d)) by reflexivity.
  erewrite (bind_ok (bind _ _)); [|by erewrite bind_read by look].
  erewrite bind_read by look. erewrite bind_read by look. cbn.
  assert (Hu : forall t' out, untouched w
    {| files := <[o := t']> (<[o := t]> (<[g := d]> (files w4))); stdout := out |}).
  { intros t' out f Hf. assert (f <> g /\ f <> o) as [??] by (split; by intros ->).
    rewrite <- Hu4 by done. look. }
  destruct patch_file as [run_patch|].
  - eexists. split; [done|]. split_and!; [apply Hu|done|]. intros _ t' [= <-]. look.
  - eexists. split; [done|]. split_and!; [|done..].
    intros f Hf. assert (f <> g /\ f <> o) as [??] by (split; by intros ->).
    rewrite <- Hu4 by done. look.
Qed.

Lemma reindent_fuel level name out text : reindent level name out text <> OutOfFuel.
Proof.
  unfold reindent. destruct uncrustify as [run|]; [|done]. case_match; [done|].
  pose proof (final_diff_fuel level (unified_diff (readlines text)
    (readlines (run (uncrustify_config level) (Some text))) name out)) as Hd.
  destruct (final_diff level _); [|done..]. by destruct patch_file.
Qed.

(** Why re-indenting the file [name] with the temporary file [out] fails: its text or the formatted text does not
    decode, the difference of the two is not a patch the script reads and writes, or [patch] is not installed. *)
Inductive reindent_fails (level : Z) (name out text : string) : exn -> Prop :=
  | fails_uncrustify : uncrustify = None -> reindent_fails level name out text NotInstalled
  | fails_source : decodes text = false -> reindent_fails level name out text UnicodeDecodeError
  | fails_formatted run : uncrustify = Some run -> decodes (run (uncrustify_config level) (Some text)) = false ->
      reindent_fails level name out text UnicodeDecodeError
  | fails_diff run e : uncrustify = Some run ->
      final_diff level (unified_diff (readlines text)
        (readlines (run (uncrustify_config level) (Some text))) name out) = Raise e ->
      reindent_fails level name out text e
  | fails_patch : patch_file = None -> reindent_fails level name out text IOError.

Lemma reindent_raise level name out text e :
  reindent level name out text = Raise e -> reindent_fails level name out text e.
Proof.
  unfold reindent. destruct uncrustify as [run|] eqn:Er; [|intros [= <-]; by apply fails_uncrustify].
  destruct (decodes text) eqn:Et; [|intros [= <-]; by apply fails_source].
  destruct (decodes (run _ _)) eqn:Ef; [cbn|intros [= <-]; by eapply fails_formatted].
  destruct (final_diff _ _) as [d|e'|] eqn:Ed; [|intros [= <-]; by eapply fails_diff|done]. cbn.
  destruct patch_file eqn:Ep; [done|intros [= <-]; by apply fails_patch].
Qed.

(** Why a run fails before the comparison: with [debug] it does, or some file cannot be re-indented. *)
Definition fails (fs : list string) (debug : bool) (level : Z) (w : world) (e : exn) : Prop :=
  debug = true /\ e = TypeError \/
  exists f o t, f ∈ fs /\ files w !! f = Some t /\ reindent_fails level f o t e.
(** Why it fails in the comparison: the re-indented text of some file, to be printed, does not decode. *)
Definition print_fails (fs : list string) (level : Z) (w : world) (e : exn) : Prop :=
  e = UnicodeDecodeError /\
  exists f o t t', f ∈ fs /\ files w !! f = Some t /\ reindent level f o t = Ok t' /\ decodes t' = false.
(** A file [f] of [w] was copied to the new file [o] and re-indented there. *)
Definition reindented (level : Z) (w w' : world) (f o : string) : Prop :=
  (o ∉ dom (files w)) /\ exists t t', files w !! f = Some t /\
    reindent level f o t = Ok t' /\ files w' !! o = Some t'.

Lemma reindented_mono level w w1 w2 f o :
  reindented level w w1 f o -> untouched w1 w2 -> reindented level w w2 f o.
Proof.
  intros (Ho & t & t' & Hf & Hr & Hw1) Hu. split; [done|]. exists t, t'. split_and!; [done..|].
  rewrite Hu; [done|]. by apply elem_of_dom.
Qed.

(** Both files of a pair are there, and the first one is text. *)
Definition comparable (w : world) (f o : string) : Prop :=
  exists t t', files w !! f = Some t /\ decodes t = true /\ files w !! o = Some t'.

Lemma reindented_comparable level w w' f o :
  untouched w w' -> reindented level w w' f o -> comparable w' f o.
Proof.
  intros Hu (_ & t & t' & Hf & Hr & Ho). exists t, t'. split_and!; [rewrite Hu; [done|by apply elem_of_dom]| |done].
  revert Hr. unfold reindent. destruct uncrustify; [|done]. by destruct (decodes t).
Qed.

Lemma untouched_dom w w' f : untouched w w' -> f ∈ dom (files w) -> f ∈ dom (files w').
Proof. intros Hu Hf. rewrite elem_of_dom, Hu by done. by apply elem_of_dom. Qed.

Lemma indent_all fs debug level w :
  (forall f, f ∈ fs -> f ∈ dom (files w)) ->
  let '(r, w') := map_m (fun f =>
    (let! dst := indent uncrustify unified_diff patch_file decodes f debug level in ret (f, dst))) fs w in
  untouched w w' /\ stdout w' = stdout w /\
  match r with
  | Ok ps => exists outs, ps = zip fs outs /\ NoDup outs /\ Forall2 (reindented level w w') fs outs
  | Raise e => fails fs debug level w e
  | OutOfFuel => False
  end.
Proof.
  revert w. induction fs as [|f fs IH]; intros w Hex.
  { cbn. split_and!; [by intros ?|done|]. exists []. split_and!; constructor. }
  destruct (proj1 (elem_of_dom (files w) f) (Hex f ltac:(by left))) as [t Ht].
  destruct (indent_run f debug level w t Ht) as (w1 & Heq & Hu1 & Hs1 & Ho1).
  set (o := temp_name (dom (files w))) in *. cbn [map_m].
  remember (reindent level f o t) as rt eqn:Er. pose proof (reindent_fuel level f o t) as Hfu.
  unfold bind at 1 2. rewrite Heq. unfold fails.
  assert (Hre : forall e, rt = Raise e -> fails (f :: fs) debug level w e).
  { intros e ->. right. exists f, o, t. split_and!; [by left|done|by apply reindent_raise]. }
  unfold fails in Hre. destruct uncrustify as [run|] eqn:Eu.
  2:{ split_and!; [done..|]. apply Hre. by rewrite Er; unfold reindent; rewrite Eu. }
  destruct debug; [split_and!; [done..|by left]|].
  destruct rt as [t'|e|]; [cbn|by split_and!; auto|by rewrite <- Er in Hfu].
  specialize (Ho1 eq_refl t' eq_refl).
  assert (Ho : o ∉ dom (files w)) by apply temp_name_fresh.
  assert (Hod : o ∈ dom (files w1)) by (by apply elem_of_dom).
  specialize (IH w1). unfold bind at 1.
  destruct (map_m _ fs w1) as [r w'] eqn:Em.
  destruct IH as (Hu & Hs & Hr).
  { intros f' Hf'. apply (untouched_dom w); [done|]. apply Hex. by right. }
  destruct r as [ps|e|]; cbn; [|..|done].
  - split_and!; [by eapply untouched_trans|congruence|].
    destruct Hr as (outs & -> & Hnd & Hall). exists (o :: outs). split_and!; [done| |].
    + constructor; [|done]. intros Hin. apply list_elem_of_lookup_1 in Hin as [i Hi].
      destruct (Forall2_lookup_r _ _ _ _ _ Hall Hi) as (f' & _ & Hfr & _). done.
    + constructor.
      * split; [done|]. exists t, t'. split_and!; [done..|]. by rewrite Hu.
      * revert Hall. rewrite !Forall2_same_length_lookup. intros [Hlen Hall].
        split; [done|]. intros i f' o' Hf' Ho'.
        destruct (Hall i f' o' Hf' Ho') as (Hn & t1 & t2 & Ht1 & Hr & Ht2).
        split; [intros Hin; by eapply Hn, untouched_dom|]. exists t1, t2. split; [|done].
        rewrite <- Hu1; [done|]. apply Hex. right. by eapply list_elem_of_lookup_2.
  - split_and!; [by eapply untouched_trans|congruence|].
    destruct Hr as [[??]|(f' & o' & t1 & Hf' & Ht1 & Hr)]; [done|].
    right. exists f', o', t1. split_and!; [by right| |done].
    rewrite <- Hu1; [done|]. apply Hex. by right.
Qed.

Lemma copy_all ps w : NoDup ps.*1 ->
  (forall f o, (f, o) ∈ ps -> o ∈ dom (files w) /\ o ∉ ps.*1) ->
  exists w', iter_m (fun '(src, dst) => copyfile dst src) ps w = (Ok tt, w') /\
    stdout w' = stdout w /\
    (forall f, f ∉ ps.*1 -> files w' !! f = files w !! f) /\
    (forall f o, (f, o) ∈ ps -> files w' !! f = files w !! o).
Proof.
  revert w. induction ps as [|[f o] ps IH]; intros w Hnd Hps.
  { exists w. split_and!; [done..|]. by intros f o ?%elem_of_nil. }
  cbn in Hnd. apply NoDup_cons in Hnd as [Hf Hnd].
  destruct (Hps f o ltac:(by left)) as [Hod Ho]. cbn in Ho.
  apply not_elem_of_cons in Ho as [Hof Ho].
  apply elem_of_dom in Hod as [t Ht].
  set (w1 := {| files := <[f := t]> (files w); stdout := stdout w |}).
  destruct (IH w1 Hnd) as (w' & Heq & Hs & Hn & Hl).
  { intros f' o' Hin. destruct (Hps f' o' ltac:(by right)) as [Hd Hno]. cbn in Hno.
    apply not_elem_of_cons in Hno as [Hne Hno]. split; [|done]. cbn. rewrite dom_insert. set_solver. }
  exists w'. cbn [iter_m]. unfold copyfile at 1.
  erewrite bind_ok by (by rewrite (bind_read _ t)). fold w1. split_and!; [done|by rewrite Hs| |].
  - intros g Hg. cbn in Hg. apply not_elem_of_cons in Hg as [Hgf Hg]. rewrite Hn by done.
    cbn. by rewrite lookup_insert_ne.
  - intros f' o' [[= -> ->]|Hin]%elem_of_cons.
    + rewrite Hn by done. cbn. by rewrite lookup_insert_eq, Ht.
    + rewrite (Hl f' o' Hin). cbn. rewrite lookup_insert_ne; [done|].
      destruct (Hps f' o' ltac:(by right)) as [_ Hno]. cbn in Hno. set_solver.
Qed.

Lemma print_all {A} (f : A -> string) l w :
  iter_m (fun x => print_text (f x)) l w
  = (Ok tt, {| files := files w; stdout := stdout w ++ map f l |}).
Proof.
  revert w. induction l as [|x l IH]; intros w; cbn; [by rewrite app_nil_r; destruct w|].
  unfold bind, print_text at 1. rewrite IH. cbn. by rewrite <- app_assoc.
Qed.

Lemma print_diffs ps w : (forall f o, (f, o) ∈ ps -> exists t t', files w !! f = Some t /\ decodes t = true /\
    files w !! o = Some t') ->
  exists out, let '(r, w') := iter_m (print_diff unified_diff decodes) ps w in
    w' = {| files := files w; stdout := out |} /\
    match r with
    | Ok _ => True
    | Raise e => e = UnicodeDecodeError /\ exists f o t', (f, o) ∈ ps /\ files w !! o = Some t' /\ decodes t' = false
    | OutOfFuel => False
    end.
Proof.
  revert w. induction ps as [|[f o] ps IH]; intros w Hps; cbn.
  { exists (stdout w). by destruct w. }
  destruct (Hps f o ltac:(by left)) as (t & t' & Ht & Hd & Ht').
  unfold bind at 1. unfold print_diff. cbn [fst snd].
  rewrite (bind_text _ _ t), Hd, (bind_text _ _ t') by done. destruct (decodes t') eqn:Hd'.
  2:{ exists (stdout w). split; [by destruct w|]. split; [done|]. exists f, o, t'. split_and!; [by left|done..]. }
  set (lines := unified_diff (readlines t) (readlines t') f o).
  rewrite (print_all id). destruct (IH {| files := files w; stdout := stdout w ++ map id lines |}) as [out Hout].
  { intros f' o' Hin. apply Hps. by right. }
  exists out. fold (print_diff unified_diff decodes). destruct (iter_m _ ps _) as [r w']. cbn in Hout.
  destruct Hout as [-> Hr]. split; [done|]. destruct r as [|e|]; [done| |done].
  destruct Hr as (-> & f' & o' & t1 & ? & ? & ?). split; [done|]. exists f', o', t1. by split_and!; [right|..].
Qed.

(** The files of a check whose text would change. *)
Definition badly_indented (w : world) (fs outs : list string) : list string :=
  (List.filter (fun '(src, dst) => negb (same_files src dst w)) (zip fs outs)).*1.
Definition report (bad : list string) : list string :=
  ("Found " +:+ show_number (N.of_nat (length bad)) +:+ " badly indented files:" +:+ nl)
  :: map (fun f => "  " +:+ f +:+ nl) bad.

Lemma compare_files_run fs outs diff w : Forall2 (comparable w) fs outs ->
  let bad := badly_indented w fs outs in
  exists out, let '(r, w') := compare_files unified_diff decodes (zip fs outs) diff w in
    w' = {| files := files w; stdout := out |} /\
    match r with
    | Ok ok => ok = bool_decide (bad = []) /\ (bad = [] -> out = stdout w) /\
        (diff = false -> bad <> [] -> out = stdout w ++ report bad)
    | Raise e => diff = true /\ e = UnicodeDecodeError /\
        exists f o t', (f, o) ∈ zip fs outs /\ files w !! o = Some t' /\ decodes t' = false
    | OutOfFuel => False
    end.
Proof.
  intros Hall. unfold badly_indented, compare_files. cbv zeta.
  set (failed := List.filter _ _).
  assert (Hsub : forall f o, (f, o) ∈ failed -> (f, o) ∈ zip fs outs).
  { intros f o [Hz _]%list_elem_of_In%filter_In. by apply list_elem_of_In. }
  assert (Hin : forall f o, (f, o) ∈ failed -> comparable w f o).
  { intros f o [i Hi]%Hsub%list_elem_of_lookup_1. apply lookup_zip_Some in Hi as [Hf Ho].
    by apply (Forall2_lookup_lr _ _ _ i _ _ Hall). }
  destruct failed as [|p failed'] eqn:Ef.
  { exists (stdout w). by destruct w. }
  rewrite <- Ef in *. assert (Hne : failed.*1 <> []) by (by rewrite Ef).
  rewrite (bool_decide_eq_false_2 (failed.*1 = [])) by done. destruct diff; cbn.
  - destruct (print_diffs failed w Hin) as [out Hout]. exists out.
    unfold bind at 1. destruct (iter_m _ failed w) as [r w']. destruct Hout as [-> Hr].
    destruct r as [u|e|]; cbn; [by split_and!| |done]. destruct Hr as (-> & f & o & t' & ? & ? & ?).
    split_and!; [done..|]. exists f, o, t'. by split_and!; [apply Hsub|..].
  - exists (stdout w ++ report failed.*1). unfold bind at 1 2, print_text at 1. rewrite print_all. cbn.
    rewrite <- app_assoc. unfold report. rewrite length_map. by rewrite map_map.
Qed.

End DriverSpec.

Definition sample_tools_diff (a b : list string) (from to : string) : list string :=
  if decide (a = b) then [] else
  ["--- " +:+ from +:+ nl; "+++ " +:+ to +:+ nl; "@@ -1,1 +1,1 @@" +:+ nl;
   "-" +:+ str_join "" a; "+" +:+ str_join "" b].
