(* ===== verification/WafRun.v ===== *)
(** * Reading the configuration and running programs: [src/utils.py], [src/wutils.py]

    The readers of [.ns3rc] and of the lists in the files that waf leaves, and the
    functions with which waf runs a program: the search for the program, the
    environment and the command of its process, and what becomes of its status.
    Waf's objects (task generators, nodes, the configuration environment) are
    records with the fields that the code reads; [eval], the processes and the file
    system are arguments. *)

From S2P Require Import Prelude PyLib Shellcmd.
From Stdlib Require Import Ascii String.
From stdpp Require Import strings gmap.
Open Scope string_scope.
Open Scope nat_scope.
Open Scope list_scope.

(** ** utils.py *)

Inductive conf_exn := IndexError | UnboundLocalError | EvalError.
(** What [eval] gives for the variables of these files. *)
Inductive pyvalue := VBool (b : bool) | VList (l : list string).
Definition truthy (v : pyvalue) : bool :=
  match v with VBool b => b | VList l => negb (bool_decide (l = [])) end.

(** [p in s] *)
Fixpoint contains (p s : string) : bool :=
  starts_with p s || match s with String _ s => contains p s | EmptyString => false end.
(** A line up to its first [#]. *)
Definition strip_comment (line : string) : string := fst (split_once "#"%char line).

Section Config.
Context (eval : string -> res conf_exn pyvalue).

(** [eval(s.split('=', 1)[1].strip())] *)
Definition eval_assigned (s : string) : res conf_exn pyvalue :=
  match split_once "="%char s with
  | (_, Some rhs) => eval (strip rhs)
  | (_, None) => Raise IndexError
  end.

Fixpoint find_list (list_name : string) (list_string : string) (parsing_multiline_list : bool)
    (file_in : list string) : res conf_exn pyvalue :=
  match file_in with
  | [] => Ok (VList [])
  | line :: file_in =>
      let line := strip_comment line in
      if contains list_name line || parsing_multiline_list then
        let list_string := list_string +:+ line in
        if negb (contains "]" list_string) then find_list list_name list_string true file_in
        else eval_assigned list_string
      else find_list list_name list_string parsing_multiline_list file_in
  end.
(** The lines of the file, if it exists. *)
Definition get_list_from_file (file : option (list string)) (list_name : string)
    : res conf_exn pyvalue :=
  match file with
  | None => Ok (VList [])
  | Some file_in => find_list list_name "" false file_in
  end.

Fixpoint find_bool (bool_name : string) (file_in : list string) : res conf_exn (option pyvalue) :=
  match file_in with
  | [] => Ok None
  | line :: file_in =>
      let line := strip_comment line in
      if contains bool_name line then let* v := eval_assigned line in Ok (Some v)
      else find_bool bool_name file_in
  end.
(** [bool_found] is set only when the file exists. *)
Definition get_bool_from_file (file : option (list string)) (bool_name : string)
    (value_if_missing : pyvalue) : res conf_exn pyvalue :=
  match file with
  | None => Raise UnboundLocalError
  | Some file_in =>
      let* found := find_bool bool_name file_in in Ok (default value_if_missing found)
  end.

Record ns3rc := { config_file_exists : bool; modules_enabled : pyvalue;
  examples_enabled : pyvalue; tests_enabled : pyvalue }.
(** The file system as the lines of each file, and [os.path.expanduser('~/')]. *)
Definition read_config_file (files : string -> option (list string)) (home : string)
    : res conf_exn ns3rc :=
  let read (path : string) :=
    let* modules := get_list_from_file (files path) "modules_enabled" in
    let modules := if truthy modules then modules else VList ["all_modules"] in
    let* examples := get_bool_from_file (files path) "examples_enabled" (VBool false) in
    let* tests := get_bool_from_file (files path) "tests_enabled" (VBool false) in
    Ok {| config_file_exists := true; modules_enabled := modules;
          examples_enabled := examples; tests_enabled := tests |} in
  if decide (is_Some (files ".ns3rc")) then read ".ns3rc"
  else if decide (is_Some (files (home +:+ ".ns3rc"))) then read (home +:+ ".ns3rc")
  else Ok {| config_file_exists := false; modules_enabled := VList ["all_modules"];
             examples_enabled := VBool false; tests_enabled := VBool false |}.
End Config.

(** ** wutils.py *)

Inductive run_exn :=
  | SplitError (e : shell_exn)
  | NoItem
  | FormatError
  | NotFound (program_name : string) (found_programs : list string)
  | OptionsConflict
  | NoValgrind
  | Signalled (argv : list string) (signame : string)
  | Exited (argv : list string) (code : Z)
  | PopenError
  | UnicodeDecodeError.

(** A task generator of waf, as far as [find_program] and [get_run_program] look. *)
Record task_gen := { name : string; is_ns3_program : bool; path : string; bld_path : string;
  program_node : string }.
(** [bld] with its environment. *)
Record build := { all_task_gen : list task_gen; VALGRIND : list string; PYTHON : list string;
  NS3_MODULE_PATH : list string; NS3_EXECUTABLE_PATH : list string;
  pymoddir : string; pyvizdir : string }.
Record waf_options := { command_template : string; valgrind : bool; cwd_launch : string;
  visualize : bool }.

Definition or_else (s d : string) : string := if decide (s = "") then d else s.
Definition get_command_template (opts : waf_options) (arguments : list string) : string :=
  foldl (fun cmd arg => cmd +:+ " " +:+ arg) (or_else (command_template opts) "%s") arguments.

(** [t % (arg,)] for conversions [%s] and [%%]; others are outside the model. *)
Fixpoint format_one (t : string) (arg : option string) : res run_exn string :=
  match t with
  | EmptyString => match arg with None => Ok "" | Some _ => Raise FormatError end
  | String "%" (String "%" t) => let* r := format_one t arg in Ok (String "%" r)
  | String "%" (String "s" t) =>
      match arg with
      | Some a => let* r := format_one t None in Ok (a +:+ r)
      | None => Raise FormatError
      end
  | String "%" _ => Raise FormatError
  | String c t => let* r := format_one t arg in Ok (String c r)
  end.
(** [s.replace('\\', '\\\\')] *)
Fixpoint double_backslashes (s : string) : string :=
  match s with
  | EmptyString => ""
  | String c s =>
      if decide (c = backslash) then String c (String c (double_backslashes s))
      else String c (double_backslashes s)
  end.

(** [bytes.decode('utf-8')]: the characters, each with its bytes; [None] if it raises. *)
Definition in_range (lo hi : N) (c : ascii) : bool := (lo <=? N_of_ascii c)%N && (N_of_ascii c <=? hi)%N.
Definition continuation : ascii -> bool := in_range 128 191.
(** The second byte after a first one of three or four bytes: no overlong form, no surrogate, nothing above U+10FFFF. *)
Definition second_byte (c : ascii) : ascii -> bool :=
  if in_range 224 224 c then in_range 160 191 else if in_range 237 237 c then in_range 128 159
  else if in_range 240 240 c then in_range 144 191 else if in_range 244 244 c then in_range 128 143
  else continuation.
Definition str (l : list ascii) : string := string_of_list_ascii l.
Fixpoint utf8_chars (s : string) : option (list string) :=
  match s with
  | EmptyString => Some []
  | String c s =>
      if in_range 0 127 c then cons (str [c]) <$> utf8_chars s else
      match s with
      | EmptyString => None
      | String c2 s =>
          if in_range 194 223 c then if continuation c2 then cons (str [c; c2]) <$> utf8_chars s else None else
          match s with
          | EmptyString => None
          | String c3 s =>
              if negb (second_byte c c2 && continuation c3) then None
              else if in_range 224 239 c then cons (str [c; c2; c3]) <$> utf8_chars s
              else if negb (in_range 240 244 c) then None else
              match s with
              | String c4 s => if continuation c4 then cons (str [c; c2; c3; c4]) <$> utf8_chars s else None
              | EmptyString => None
              end
          end
      end
  end.

Section Run.
(** [Context.launch_dir], [Options.cwd_launch], [sys.platform] and [os.pathsep]. *)
Context (b : build) (opts : waf_options).
Context (cwd launch_dir options_cwd_launch platform pathsep : string).

(** The names of a program, if it is in the tree below the launch directory. *)
Definition program_names (obj : task_gen) : option (list string) :=
  let launch_dir := abspath cwd launch_dir in
  if negb (is_ns3_program obj) then None
  else if negb (starts_with launch_dir (path obj) || starts_with launch_dir (bld_path obj)) then None
  else Some [name obj; path_join (relpath cwd (path obj) launch_dir) (name obj)].
Fixpoint find_in (program_name : string) (found_programs : list string) (l : list task_gen)
    : res run_exn task_gen :=
  match l with
  | [] => Raise (NotFound program_name found_programs)
  | obj :: l =>
      match program_names obj with
      | None => find_in program_name found_programs l
      | Some names =>
          if decide (program_name ∈ names) then Ok obj
          else find_in program_name (found_programs ++ names) l
      end
  end.
Definition find_program (program_name : string) : res run_exn task_gen :=
  find_in program_name [] (all_task_gen b).

Definition pathvar : string :=
  if decide (platform = "linux2" \/ platform = "linux") then "LD_LIBRARY_PATH"
  else if decide (platform = "darwin") then "DYLD_LIBRARY_PATH"
  else if decide (platform = "win32") then "PATH"
  else if decide (platform = "cygwin") then "PATH"
  else if starts_with "freebsd" platform then "LD_LIBRARY_PATH"
  else "LD_LIBRARY_PATH".
(** [proc_env[var] = os.pathsep.join(paths + [proc_env[var]])], or without the old
    value if there is none. *)
Definition prepend_paths (var : string) (paths : list string) (proc_env : gmap string string)
    : gmap string string :=
  match proc_env !! var with
  | Some old => <[var := str_join pathsep (paths ++ [old])]> proc_env
  | None => <[var := str_join pathsep paths]> proc_env
  end.
(** [dict(os.environ)] updated with [os_env], which wins. *)
Definition get_proc_env (environ os_env : gmap string string) : gmap string string :=
  let proc_env := os_env ∪ environ in
  let proc_env := prepend_paths pathvar (NS3_MODULE_PATH b) proc_env in
  let proc_env := prepend_paths "PYTHONPATH" [pymoddir b; pyvizdir b] proc_env in
  prepend_paths "PATH" (NS3_EXECUTABLE_PATH b) proc_env.

(** A process that was started. *)
Record proc := { p_argv : list string; p_env : gmap string string; p_cwd : string }.
(** The status with which a process ends, negative for a signal, and the bytes it
    wrote to [stderr]; [None] if [Popen] cannot start it and raises [OSError] (or, for a NUL in an argument,
    [ValueError]). *)
Context (process : proc -> option (Z * string)).
(** [vars(signal).items()] *)
Context (signals : list (string * Z)).

Definition is_signal_name (name : string) : bool :=
  starts_with "SIG" name &&
  match str_drop 3 name with
  | String c _ => negb (bool_decide (c = "_"%char))
  | EmptyString => false
  end.
Definition signal_name (retval : Z) : option string :=
  fst <$> List.find (fun '(name, val) => is_signal_name name && bool_decide (val = - retval)%Z)
    signals.

(** The processes started, and the result or the exception. *)
Definition run_argv (environ os_env : gmap string string) (argv : list string) (cwd : string)
    (force_no_valgrind : bool) : list proc * res run_exn Z :=
  let proc_env := get_proc_env environ os_env in
  let finish (argv : list string) (p : proc) (retval : Z) :=
    if decide (retval = 0)%Z then ([p], Ok retval)
    else match (if decide (retval < 0)%Z then signal_name retval else None) with
         | Some signame => ([p], Raise (Signalled argv signame))
         | None => ([p], Raise (Exited argv retval))
         end in
  if valgrind opts && negb force_no_valgrind then
    if decide (command_template opts <> "") then ([], Raise OptionsConflict)
    else match VALGRIND b with
    | [] => ([], Raise NoValgrind)
    | program :: _ =>
        let argv := [program; "--leak-check=full"; "--show-reachable=yes"; "--error-exitcode=1"]
                      ++ argv in
        let p := {| p_argv := argv; p_env := proc_env; p_cwd := cwd |} in
        match process p with
        | None => ([], Raise PopenError)
        | Some (retval, stderrdata) =>
            match utf8_chars stderrdata with
            | None => ([p], Raise UnicodeDecodeError)
            | Some stderrdata =>
                (* [for line in stderrdata] takes the characters of the text. *)
                let error := existsb (contains "== LEAK SUMMARY") stderrdata in
                finish argv p (if decide (retval = 0%Z /\ error = true) then 1%Z else retval)
            end
        end
    end
  else
    let p := {| p_argv := argv; p_env := proc_env; p_cwd := cwd |} in
    match process p with
    | None => ([], Raise PopenError)
    | Some (retval, _) => finish argv p retval
    end.

Definition split_argv (s : string) : res run_exn (list string) :=
  match shlex_split s with
  | Ok l => Ok l
  | Raise e => Raise (SplitError e)
  | OutOfFuel => OutOfFuel
  end.
(** The template is [None] or a string. *)
Definition get_run_program (program_string : string) (template : option string)
    : res run_exn (string * list string) :=
  if decide (template = None \/ template = Some "%s") then
    let* argv := split_argv program_string in
    match argv with
    | [] => Raise NoItem
    | program_name :: args =>
        let* program_obj := find_program program_name in
        Ok (program_name, program_node program_obj :: args)
    end
  else
    let program_name := program_string in
    let* program_obj := find_program program_name in
    let* tmpl := format_one (default "" template) (Some (program_node program_obj)) in
    let* execvec := split_argv (double_backslashes tmpl) in
    Ok (program_name, execvec).

Definition visual_argument : string := "--SimulatorImplementationType=ns3::VisualSimulatorImpl".
Definition run_program (environ : gmap string string) (program_string : string)
    (template : option string) (cwd : option string) (visualize : bool)
    : list proc * res run_exn Z :=
  match get_run_program program_string template with
  | Ok (_, execvec) =>
      let cwd := default (or_else (cwd_launch opts) options_cwd_launch) cwd in
      let execvec := if visualize then execvec ++ [visual_argument] else execvec in
      run_argv environ ∅ execvec cwd false
  | Raise e => ([], Raise e)
  | OutOfFuel => ([], OutOfFuel)
  end.
Definition run_python_program (environ : gmap string string) (program_string : string)
    (visualize : bool) : list proc * res run_exn Z :=
  match split_argv program_string with
  | Ok execvec =>
      let cwd := or_else (cwd_launch opts) options_cwd_launch in
      let execvec := if visualize then execvec ++ [visual_argument] else execvec in
      match PYTHON b with
      | [] => ([], Raise NoItem)
      | python :: _ => run_argv environ ∅ (python :: execvec) cwd false
      end
  | Raise e => ([], Raise e)
  | OutOfFuel => ([], OutOfFuel)
  end.
End Run.

(** [uniquify_list] *)
Definition uniquify_list (seq : list string) : list string :=
  fst (foldl (fun '(out, seen) x =>
    if decide (x ∈ seen) then (out, seen) else (out ++ [x], {[x]} ∪ seen))
    ([], (∅ : gset string)) seq).

(** ** The readers *)

Lemma contains_app_l p s t : contains p s = true -> contains p (s +:+ t) = true.
Proof.
  assert (Hp : forall s, starts_with p s = true -> starts_with p (s +:+ t) = true).
  { induction p as [|c p IH]; intros s' Hs; [done|]. destruct s' as [|d s']; [done|].
    change (String d s' +:+ t) with (String d (s' +:+ t)). cbn in *.
    apply andb_true_iff in Hs as [-> Hs]. by apply IH. }
  induction s as [|d s IH]; intros Hs.
  - cbn in Hs. rewrite orb_false_r in Hs. apply Hp in Hs.
    destruct ("" +:+ t); cbn in *; by rewrite Hs.
  - change (String d s +:+ t) with (String d (s +:+ t)). cbn in *.
    apply orb_true_iff in Hs as [Hs|Hs].
    + apply orb_true_iff. left. by apply (Hp (String d s)).
    + apply orb_true_iff. right. by apply IH.
Qed.

Lemma contains_prefix_false p s t : contains p (s +:+ t) = false -> contains p s = false.
Proof. intros H. destruct (contains p s) eqn:E; [|done]. by rewrite contains_app_l in H. Qed.

(** The text of some lines without their comments. *)
Definition text_of (ls : list string) : string := str_join "" (map strip_comment ls).

Lemma text_of_cons l ls : text_of (l :: ls) = strip_comment l +:+ text_of ls.
Proof.
  unfold text_of. destruct ls as [|l' ls]; [|done]. cbn. by rewrite str_append_nil_r.
Qed.

Lemma text_of_snoc ls l : text_of (ls ++ [l]) = text_of ls +:+ strip_comment l.
Proof.
  induction ls as [|l' ls IH]; [by cbn; destruct (strip_comment l)|].
  change ((l' :: ls) ++ [l]) with (l' :: (ls ++ [l])). by rewrite !text_of_cons, IH, str_append_assoc.
Qed.

Section ConfigSpec.
Context (eval : string -> res conf_exn pyvalue) (name : string).

Lemma find_list_skip pre rest : Forall (fun l => contains name (strip_comment l) = false) pre ->
  find_list eval name "" false (pre ++ rest) = find_list eval name "" false rest.
Proof. induction 1 as [|l pre Hl _ IH]; [done|]. cbn. by rewrite Hl. Qed.

Lemma find_list_open acc ls rest : contains "]" (acc +:+ text_of ls) = false ->
  find_list eval name acc true (ls ++ rest) = find_list eval name (acc +:+ text_of ls) true rest.
Proof.
  revert acc. induction ls as [|l ls IH]; intros acc Hc.
  { cbn. by rewrite str_append_nil_r. }
  rewrite text_of_cons, <- str_append_assoc in Hc |- *. cbn [find_list app].
  rewrite orb_true_r, (contains_prefix_false _ _ _ Hc). cbn [negb]. by apply IH.
Qed.

(** From its first line on, the lines of a list that is not closed are collected. *)
Lemma find_list_start first more rest : contains name (strip_comment first) = true ->
  contains "]" (text_of (first :: more)) = false ->
  find_list eval name "" false (first :: more ++ rest)
  = find_list eval name (text_of (first :: more)) true rest.
Proof.
  intros Hn Hc. cbn [find_list]. rewrite Hn. cbn [orb].
  rewrite text_of_cons in Hc |- *. change ("" +:+ strip_comment first) with (strip_comment first).
  rewrite (contains_prefix_false _ _ _ Hc). cbn [negb]. by rewrite find_list_open.
Qed.

(** [get_list_from_file] gives the empty list if the file does not exist or
    no line outside its comments has the name.  Else it takes the lines from the
    first one with the name, without their comments, up to the first point where
    they hold a [ ] ], and gives the value of what follows the first [=] in their
    text; if that point is not reached it gives the empty list. *)
Theorem get_list_from_file_spec :
  get_list_from_file eval None name = Ok (VList []) /\
  forall pre block rest,
    Forall (fun l => contains name (strip_comment l) = false) pre ->
    match block with
    | [] => rest = []
    | first :: _ => contains name (strip_comment first) = true
    end ->
    contains "]" (text_of (removelast block)) = false ->
    (contains "]" (text_of block) = true ->
     get_list_from_file eval (Some (pre ++ block ++ rest)) name
     = eval_assigned eval (text_of block)) /\
    (contains "]" (text_of block) = false -> rest = [] ->
     get_list_from_file eval (Some (pre ++ block ++ rest)) name = Ok (VList [])).
Proof.
  split; [done|]. intros pre block rest Hpre Hblock Hopen. cbn [get_list_from_file].
  rewrite find_list_skip by done. split.
  - intros Hc. destruct block as [|first block]; [done|].
    destruct block as [|second block] using rev_ind.
    + cbn. rewrite Hblock. cbn. change (text_of [first]) with (strip_comment first) in *.
      change ("" +:+ strip_comment first) with (strip_comment first). by rewrite Hc.
    + clear IHblock. rewrite app_comm_cons, removelast_last in Hopen.
      rewrite app_comm_cons, text_of_snoc in Hc |- *.
      change ((first :: block) ++ [second]) with (first :: (block ++ [second])).
      cbn [app]. rewrite <- app_assoc, find_list_start by done. cbn [app find_list].
      by rewrite orb_true_r, Hc.
  - intros Hc ->. destruct block as [|first block]; [done|].
    cbn [app]. rewrite find_list_start by done. done.
Qed.
End ConfigSpec.

(** A concrete [eval]: it tells that it was called. *)
Definition sample_eval (s : string) : res conf_exn pyvalue := Ok (VList [s]).
Lemma get_list_from_file_spec_witness :
  let file := ["# modules_enabled = [0]" +:+ String newline ""; "modules_enabled = ['core', # all";
               "'wifi']"; "tests_enabled = True"] in
  get_list_from_file sample_eval (Some file) "modules_enabled" = Ok (VList ["['core', 'wifi']"]).
Proof.
  intros file.
  destruct (get_list_from_file_spec sample_eval "modules_enabled") as [_ H].
  destruct (H (take 1 file) (take 2 (drop 1 file)) (drop 3 file)) as [H1 _].
  - by repeat constructor.
  - vm_compute. reflexivity.
  - vm_compute. reflexivity.
  - etrans; [apply H1; vm_compute; reflexivity|]. vm_compute. reflexivity.
Defined.

(** A missing file makes [get_bool_from_file] raise, whatever the default. *)
Lemma get_bool_missing eval n d : get_bool_from_file eval None n d = Raise UnboundLocalError.
Proof. done. Qed.

(** Without a configuration file the defaults hold; [.ns3rc] in the working directory
    hides the one in the home directory. *)
Lemma read_config_file_default eval files home :
  files ".ns3rc" = None -> files (home +:+ ".ns3rc") = None ->
  read_config_file eval files home =
  Ok {| config_file_exists := false; modules_enabled := VList ["all_modules"];
        examples_enabled := VBool false; tests_enabled := VBool false |}.
Proof.
  intros H1 H2. unfold read_config_file.
  by rewrite (decide_False (P := is_Some (files ".ns3rc"))),
    (decide_False (P := is_Some (files (home +:+ ".ns3rc")))) by (rewrite ?H1, ?H2; by intros []).
Qed.

Lemma read_config_file_home eval files files' home : is_Some (files ".ns3rc") ->
  files' ".ns3rc" = files ".ns3rc" ->
  read_config_file eval files' home = read_config_file eval files home.
Proof.
  intros H1 H2. unfold read_config_file.
  by rewrite !decide_True, H2 by (rewrite ?H2; done).
Qed.

(** ** Running programs *)

Lemma uniquify_list_spec seq :
  NoDup (uniquify_list seq) /\ (forall x, x ∈ uniquify_list seq <-> x ∈ seq).
Proof.
  unfold uniquify_list.
  set (f := fun '(out, seen) x => _). 
  assert (Hg : forall out (seen : gset string), NoDup out -> (forall x, x ∈ seen <-> x ∈ out) ->
    NoDup (foldl f (out, seen) seq).1 /\
    forall x, x ∈ (foldl f (out, seen) seq).1 <-> x ∈ out \/ x ∈ seq).
  { induction seq as [|y seq IH]; intros out seen Hnd Hs; cbn.
    - split; [done|]. intros x. rewrite elem_of_nil. naive_solver.
    - case_decide as Hy.
      + destruct (IH out seen Hnd Hs) as [H1 H2]. split; [done|]. intros x. rewrite H2, elem_of_cons.
        apply Hs in Hy. naive_solver.
      + destruct (IH (out ++ [y]) ({[y]} ∪ seen)) as [H1 H2].
        * apply NoDup_app. split_and!; [done| |apply NoDup_singleton].
          intros x Hx ->%list_elem_of_singleton. by apply Hy, Hs.
        * intros x. rewrite elem_of_union, elem_of_app, elem_of_singleton, list_elem_of_singleton, Hs.
          naive_solver.
        * split; [done|]. intros x. rewrite H2, elem_of_app, list_elem_of_singleton, elem_of_cons.
          naive_solver. }
  destruct (Hg [] ∅) as [H1 H2]; [constructor|set_solver|]. split; [done|].
  intros x. rewrite H2, elem_of_nil. naive_solver.
Qed.

Section RunSpec.
Context (b : build) (opts : waf_options).
Context (cwd launch_dir options_cwd_launch platform pathsep : string).
Context (process : proc -> option (Z * string)) (signals : list (string * Z)).

(** A program answers to a name. *)
Definition offers (obj : task_gen) (n : string) : Prop :=
  n ∈ default [] (program_names cwd launch_dir obj).

Lemma find_in_spec n found l :
  match find_in cwd launch_dir n found l with
  | Ok obj => exists pre post, l = pre ++ obj :: post /\ offers obj n /\
      Forall (fun o => ~ offers o n) pre
  | Raise e => e = NotFound n (found ++ mjoin (map (default [] ∘ program_names cwd launch_dir) l)) /\
      Forall (fun o => ~ offers o n) l
  | OutOfFuel => False
  end.
Proof.
  revert found. induction l as [|obj l IH]; intros found; cbn [find_in].
  { cbn. by rewrite app_nil_r. }
  assert (Hskip : forall found', ~ offers obj n ->
    found' = found ++ default [] (program_names cwd launch_dir obj) ->
    match find_in cwd launch_dir n found' l with
    | Ok o => exists pre post, obj :: l = pre ++ o :: post /\ offers o n /\
        Forall (fun o => ~ offers o n) pre
    | Raise e => e = NotFound n (found ++
          mjoin (map (default [] ∘ program_names cwd launch_dir) (obj :: l))) /\
        Forall (fun o => ~ offers o n) (obj :: l)
    | OutOfFuel => False
    end).
  { intros found' Hno ->. specialize (IH (found ++ default [] (program_names cwd launch_dir obj))).
    destruct (find_in _ _ _ _ l) as [o|e|]; [|..|done].
    - destruct IH as (pre & post & -> & Ho & Hpre). exists (obj :: pre), post. by repeat constructor.
    - destruct IH as [-> Hl]. split; [|by constructor]. cbn. by rewrite <- app_assoc. }
  destruct (program_names cwd launch_dir obj) as [names|] eqn:En.
  - case_decide as Hn.
    + exists [], l. split_and!; [done| |constructor]. unfold offers. by rewrite En.
    + apply Hskip; [|done]. unfold offers. by rewrite En.
  - apply Hskip; [|by rewrite app_nil_r]. unfold offers. rewrite En. by apply not_elem_of_nil.
Qed.

(** What becomes of the status of a process. *)
Definition status_result (argv : list string) (retval : Z) : res run_exn Z :=
  if decide (retval = 0)%Z then Ok 0%Z
  else match (if decide (retval < 0)%Z then signal_name signals retval else None) with
       | Some signame => Raise (Signalled argv signame)
       | None => Raise (Exited argv retval)
       end.

(** The characters have at most four bytes each and make up the text. *)
Lemma utf8_chars_spec s l : utf8_chars s = Some l ->
  str_join "" l = s /\ Forall (fun c => String.length c <= 4) l.
Proof.
  revert l. induction s as [s IH] using (induction_ltof1 _ String.length). unfold ltof in IH. intros l.
  assert (Hc : forall cs t l', String.length t < String.length s -> length cs <= 4 -> s = str cs +:+ t ->
    cons (str cs) <$> utf8_chars t = Some l' -> str_join "" l' = s /\ Forall (fun c => String.length c <= 4) l').
  { intros cs t l' Ht Hcs -> Hl. apply fmap_Some in Hl as (l1 & Hl1 & ->).
    destruct (IH t Ht l1 Hl1) as [<- Hall]. split; [|constructor; [|done]].
    - destruct l1; [cbn; by rewrite str_append_nil_r|done].
    - clear -Hcs. revert Hcs. generalize 4. induction cs as [|c cs IHc]; intros n Hn; cbn in *; [lia|].
      destruct n; [lia|]. apply le_n_S, IHc. lia. }
  destruct s as [|c s]; [intros [= <-]; by split|]. cbn [utf8_chars].
  destruct (in_range 0 127 c); [apply (Hc [c] s l); cbn; [lia..|done]|].
  destruct s as [|c2 s]; [done|]. destruct (in_range 194 223 c).
  { destruct (continuation c2); [apply (Hc [c; c2] s l); cbn; [lia..|done]|done]. }
  destruct s as [|c3 s]; [done|]. destruct (negb _); [done|].
  destruct (in_range 224 239 c); [apply (Hc [c; c2; c3] s l); cbn; [lia..|done]|].
  destruct (negb _); [done|]. destruct s as [|c4 s]; [done|].
  destruct (continuation c4); [apply (Hc [c; c2; c3; c4] s l); cbn; [lia..|done]|done].
Qed.

Lemma starts_with_length p s : starts_with p s = true -> String.length p <= String.length s.
Proof.
  revert s. induction p as [|c p IH]; intros [|d s]; cbn; [lia..|done|].
  intros [_ Hs]%andb_true_iff. apply le_n_S. by apply IH.
Qed.
Lemma contains_length p s : contains p s = true -> String.length p <= String.length s.
Proof.
  induction s as [|d s IH]; cbn [contains]; intros [Hs|Hs]%orb_true_iff; [by apply starts_with_length|done|by apply starts_with_length|].
  specialize (IH Hs). cbn. lia.
Qed.
(** No single character holds the text that announces a leak. *)
Lemma leak_never_seen s l : utf8_chars s = Some l -> existsb (contains "== LEAK SUMMARY") l = false.
Proof.
  intros [_ Hl]%utf8_chars_spec. induction Hl as [|c l Hc _ IH]; [done|]. cbn [existsb]. rewrite IH.
  destruct (contains _ c) eqn:E; [|done]. apply contains_length in E. cbn in E. lia.
Qed.

(** What becomes of a process, started or not. *)
Definition process_result (p : proc) : list proc * res run_exn Z :=
  match process p with
  | None => ([], Raise PopenError)
  | Some (status, err) =>
      ([p], if valgrind opts && bool_decide (utf8_chars err = None) then Raise UnicodeDecodeError
            else status_result (p_argv p) status)
  end.

Lemma process_result_spec p procs r : process_result p = (procs, r) ->
  match process p with
  | None => procs = [] /\ r = Raise PopenError
  | Some (status, err) => procs = [p] /\
      if valgrind opts && bool_decide (utf8_chars err = None) then r = Raise UnicodeDecodeError
      else r = status_result (p_argv p) status /\ (r = Ok 0%Z <-> status = 0%Z)
  end.
Proof.
  unfold process_result. destruct (process p) as [[status err]|]; intros [= <- <-]; [|done].
  split; [done|]. destruct (valgrind opts && _); [done|]. split; [done|].
  unfold status_result. case_decide; [done|]. by repeat case_match.
Qed.
Lemma run_argv_run environ os_env argv cwd' wrapper :
  (if valgrind opts
   then command_template opts = "" /\ exists v l, VALGRIND b = v :: l /\
          wrapper = [v; "--leak-check=full"; "--show-reachable=yes"; "--error-exitcode=1"]
   else wrapper = []) ->
  run_argv b opts platform pathsep process signals environ os_env argv cwd' false
  = process_result {| p_argv := wrapper ++ argv;
              p_env := get_proc_env b platform pathsep environ os_env; p_cwd := cwd' |}.
Proof.
  intros Hw. unfold run_argv, process_result, status_result. rewrite andb_true_r.
  set (p := {| p_argv := wrapper ++ argv |}). destruct (valgrind opts).
  - destruct Hw as (Ht & v & l & Hv & ->). rewrite decide_False by auto. rewrite Hv.
    cbv zeta. change {| p_argv := _ ++ argv |} with p.
    destruct (process p) as [[z err]|]; [|done]. cbn [andb]. destruct (utf8_chars err) as [cs|] eqn:Ec.
    + rewrite (leak_never_seen _ _ Ec), bool_decide_eq_false_2 by done.
      rewrite (decide_False (P := _ /\ _)) by (by intros []).
      cbn. case_decide; [by subst|]. by repeat case_match.
    + by rewrite bool_decide_eq_true_2.
  - subst wrapper. cbv zeta. change {| p_argv := argv |} with p.
    destruct (process p) as [[z err]|]; [|done]. cbn.
    case_decide; [by subst|]. by repeat case_match.
Qed.

(** The old values of the search paths stay, after the new ones. *)
Lemma get_proc_env_pythonpath environ os_env old : platform <> "win32" -> platform <> "cygwin" ->
  (os_env ∪ environ) !! "PYTHONPATH" = Some old ->
  get_proc_env b platform pathsep environ os_env !! "PYTHONPATH"
  = Some (str_join pathsep [pymoddir b; pyvizdir b; old]).
Proof.
  intros Hw Hc Hold. unfold get_proc_env.
  assert (Hpv : pathvar platform <> "PYTHONPATH") by (unfold pathvar; by repeat case_match).
  assert (Hne : forall var paths env v, var <> v ->
    prepend_paths pathsep var paths env !! v = env !! v).
  { intros var paths env v Hv. unfold prepend_paths.
    destruct (env !! var); by rewrite lookup_insert_ne. }
  rewrite Hne by done. unfold prepend_paths at 1. rewrite Hne, Hold by done.
  by rewrite lookup_insert_eq.
Qed.

(** C13: A command line of plain words with no template.  If no program below the
    launch directory answers to the first word, nothing is run and all the names
    are reported.  Else the program is the first one that does; if valgrind is
    asked for and there is a template in the options or no valgrind, nothing is
    run.  Else the process is the program's file with the other words,
    below valgrind if asked for, in the directory given or else that of the options, with the search paths added to
    the environment.  If it cannot be started, the exception of [Popen] passes.  Else it is started once; if valgrind is
    asked for and what it writes to [stderr] is not UTF-8, the decoding raises; and otherwise the result is 0 exactly when the status of
    the process is 0, whatever leaks valgrind reports. *)
Theorem run_program_spec environ prog args template cwd' vis
    (Hplain : forall s, s ∈ prog :: args -> plain s)
    (Ht : template = None \/ template = Some "%s") :
  let '(procs, r) := run_program b opts cwd launch_dir options_cwd_launch platform pathsep
    process signals environ (join_sp (prog :: args)) template cwd' vis in
  (procs = [] /\ Forall (fun o => ~ offers o prog) (all_task_gen b) /\
   r = Raise (NotFound prog (mjoin (map (default [] ∘ program_names cwd launch_dir)
                                      (all_task_gen b))))) \/
  exists pre obj post, all_task_gen b = pre ++ obj :: post /\ offers obj prog /\
    Forall (fun o => ~ offers o prog) pre /\
    if valgrind opts && bool_decide (command_template opts <> "") then procs = [] /\ r = Raise OptionsConflict
    else if valgrind opts && bool_decide (VALGRIND b = []) then procs = [] /\ r = Raise NoValgrind
    else exists p wrapper,
      p_argv p = wrapper ++ program_node obj :: args ++ (if vis then [visual_argument] else []) /\
      (if valgrind opts then head wrapper = head (VALGRIND b) /\
         tail wrapper = ["--leak-check=full"; "--show-reachable=yes"; "--error-exitcode=1"]
       else wrapper = []) /\
      p_env p = get_proc_env b platform pathsep environ ∅ /\
      p_cwd p = default (or_else (cwd_launch opts) options_cwd_launch) cwd' /\
      match process p with
      | None => procs = [] /\ r = Raise PopenError
      | Some (status, err) => procs = [p] /\
          if valgrind opts && bool_decide (utf8_chars err = None) then r = Raise UnicodeDecodeError
          else r = status_result (p_argv p) status /\ (r = Ok 0%Z <-> status = 0%Z)
      end.
Proof.
  unfold run_program, get_run_program, split_argv, find_program.
  rewrite (decide_True (P := template = None \/ _)), shlex_split_join by done. cbn [res_bind].
  pose proof (find_in_spec prog [] (all_task_gen b)) as Hf.
  destruct (find_in cwd launch_dir prog [] (all_task_gen b)) as [obj|e|]; [|..|done]; cbn [res_bind].
  2:{ destruct Hf as [-> Hno]. by left. }
  destruct Hf as (pre & post & Hall & Hobj & Hpre).
  set (execvec := if vis then _ else _).
  assert (Hexec : execvec = program_node obj :: args ++ (if vis then [visual_argument] else [])).
  { unfold execvec. destruct vis; [done|]. by rewrite app_nil_r. }
  set (c := default _ cwd').
  destruct (run_argv b opts _ _ _ _ _ _ _ _ _) as [procs r] eqn:Erun. right.
  exists pre, obj, post. split_and!; [done..|].
  destruct (valgrind opts) eqn:Ev; cbn [andb].
  - case_bool_decide as Hct.
    { unfold run_argv in Erun. rewrite Ev in Erun. cbn in Erun. rewrite decide_True in Erun by done.
      by injection Erun as <- <-. }
    destruct (VALGRIND b) as [|v l] eqn:EV.
    { rewrite bool_decide_eq_true_2 by done. unfold run_argv in Erun.
      rewrite Ev, EV in Erun. cbn in Erun. rewrite decide_False in Erun by auto. by injection Erun as <- <-. }
    rewrite bool_decide_eq_false_2 by done.
    erewrite (run_argv_run environ ∅ execvec c) in Erun
      by (rewrite Ev; split; [done|]; by eauto).
    eexists _, [v; "--leak-check=full"; "--show-reachable=yes"; "--error-exitcode=1"].
    pose proof (process_result_spec _ _ _ Erun) as Hp. cbn [p_argv p_env p_cwd head tail] in *.
    rewrite Ev in Hp. rewrite Hexec in *. by split_and!; [..|exact Hp].
  - rewrite (run_argv_run environ ∅ execvec c []) in Erun by (by rewrite Ev).
    eexists _, []. pose proof (process_result_spec _ _ _ Erun) as Hp. cbn [p_argv p_env p_cwd app] in *.
    rewrite Ev in Hp. rewrite Hexec in *. by split_and!; [..|exact Hp].
Qed.
End RunSpec.

Definition sample_build : build :=
  {| all_task_gen :=
       [{| name := "core"; is_ns3_program := false; path := "/ns/src/core";
           bld_path := "/ns/build/src/core"; program_node := "" |};
        {| name := "first"; is_ns3_program := true; path := "/ns/examples/tutorial";
           bld_path := "/ns/build/examples/tutorial";
           program_node := "/ns/build/examples/tutorial/ns3-first" |}];
     VALGRIND := ["/usr/bin/valgrind"]; PYTHON := ["/usr/bin/python"];
     NS3_MODULE_PATH := ["/ns/build"]; NS3_EXECUTABLE_PATH := [];
     pymoddir := "/ns/build/bindings/python"; pyvizdir := "/ns/src/visualizer" |}.
Definition plain_bool (s : string) : bool :=
  negb (bool_decide (s = "")) && forallb (fun c =>
    negb (lex_space c) && negb (is_quote c) && negb (bool_decide (c = backslash)))
    (list_ascii_of_string s).
Lemma plain_bool_ok s : plain_bool s = true -> plain s.
Proof.
  intros [Hs Hc]%andb_true_iff. split; [by apply negb_true_iff, bool_decide_eq_false in Hs|].
  intros c Hin%list_elem_of_In. rewrite forallb_forall in Hc. specialize (Hc c Hin).
  apply andb_true_iff in Hc as [[H1 H2]%andb_true_iff H3].
  split_and!; [by apply negb_true_iff..|]. by apply negb_true_iff, bool_decide_eq_false in H3.
Qed.

Lemma run_program_spec_witness :
  let opts := {| command_template := ""; valgrind := true; cwd_launch := ""; visualize := false |} in
  let process (_ : proc) := Some (0%Z, "== LEAK SUMMARY") in
  exists p, run_program sample_build opts "/ns" "/ns" "/ns" "linux" ":" process [] ∅
    "first --n=2" None None false = ([p], Ok 0%Z) /\ p_cwd p = "/ns".
Proof.
  intros opts process.
  assert (Hplain : forall s, s ∈ ["first"; "--n=2"] -> plain s).
  { intros s Hs. apply (plain_bool_ok s). apply list_elem_of_In in Hs.
    repeat destruct Hs as [<-|Hs]; [vm_compute; reflexivity..|destruct Hs]. }
  pose proof (run_program_spec sample_build opts "/ns" "/ns" "/ns" "linux" ":" process []
    ∅ "first" ["--n=2"] None None false Hplain (or_introl eq_refl)) as H.
  change (join_sp ["first"; "--n=2"]) with "first --n=2" in H.
  destruct (run_program _ _ _ _ _ _ _ _ _ _ _ _ _ _) as [procs r] eqn:E.
  destruct H as [(-> & _ & _)|(pre & obj & post & _ & _ & _ & p & w & _ & _ & _ & Hcwd & -> & _ & Hr)].
  - exfalso. vm_compute in E. discriminate E.
  - exists p. split; [f_equal; by apply Hr|exact Hcwd].
Defined.
