(* ===== verification/TestRun.v ===== *)
(** * A run of the test driver: [run_tests] of [src/test.py]

    [read_waf_config] and [run_tests] as a whole, from the configuration to the exit status: what
    [TestPlan], [TestJobs], [TestReport] and [WafRun] model is put together here in the order of
    the code.  The state is the list of effects so far.  The host (files, waf, the test runner, the parser of
    XML) and the order in which the jobs come back are arguments; the theorems take an order that the
    threads of [TestJobs] can produce.  What is printed and appended for the jobs is grouped; the lines that
    announce a report, and those of [--verbose], are left out. *)

From S2P Require Import Prelude PyLib WafRun TestReport TestJobs TestPlan State.
From Stdlib Require Import Ascii String.
From stdpp Require Import strings gmap.
Local Open Scope nat_scope.
Local Open Scope string_scope.
Local Open Scope list_scope.
Local Open Scope py_scope.

(** ** The configuration of waf *)

Inductive run_exn :=
  | SysExit (code : Z) | ValueError | UnboundLocalError | NameError (name : string)
  | FileNotFound (path : string) | EvalError | ListError (e : conf_exn) | TypeError | PlanError (e : plan_exn)
  | ParseError | ReportError (e : report_exn)
  (** An exception while the workers wait for jobs: they are never told to stop. *)
  | Hangs.
Definition from_plan (e : plan_exn) : run_exn := match e with SystemExit z => SysExit z | _ => PlanError e end.
Definition raised {E A} (f : E -> run_exn) (m : res E A) : res run_exn A :=
  match m with Ok a => Ok a | Raise e => Raise (f e) | OutOfFuel => OutOfFuel end.

Inductive value := GBool (b : bool) | GStr (s : string) | GList (l : list string).
Abbreviation globals := (gmap string value).
Definition interesting_config_items : list string :=
  ["NS3_ENABLED_MODULES"; "NS3_ENABLED_CONTRIBUTED_MODULES"; "NS3_MODULE_PATH"; "NSC_ENABLED";
   "ENABLE_REAL_TIME"; "ENABLE_THREADING"; "ENABLE_EXAMPLES"; "ENABLE_TESTS"; "EXAMPLE_DIRECTORIES";
   "ENABLE_PYTHON_BINDINGS"; "NSCLICK"; "ENABLE_BRITE"; "ENABLE_OPENFLOW"; "APPNAME"; "BUILD_PROFILE";
   "VERSION"; "PYTHON"; "VALGRIND_FOUND"].
(** The values at the top of the file. *)
Definition default_globals : globals :=
  list_to_map
    [("NSC_ENABLED", GBool false); ("ENABLE_REAL_TIME", GBool false); ("ENABLE_THREADING", GBool false);
     ("ENABLE_EXAMPLES", GBool true); ("ENABLE_TESTS", GBool true); ("NSCLICK", GBool false);
     ("ENABLE_BRITE", GBool false); ("ENABLE_OPENFLOW", GBool false); ("EXAMPLE_DIRECTORIES", GList []);
     ("APPNAME", GStr ""); ("BUILD_PROFILE", GStr ""); ("VERSION", GStr ""); ("PYTHON", GStr "");
     ("VALGRIND_FOUND", GBool true)].
Definition flag (name : string) (g : globals) : bool :=
  match g !! name with
  | Some (GBool b) => b
  | Some (GStr s) => bool_decide (s <> "")
  | Some (GList l) => bool_decide (l <> [])
  | None => false
  end.
Definition text_of (name : string) (g : globals) : string :=
  match g !! name with Some (GStr s) => s | _ => "" end.
Definition list_of (name : string) (g : globals) : list string :=
  match g !! name with Some (GList l) => l | _ => [] end.
(** The variables for [TestPlan]; those that hold texts and lists are taken to do so. *)
Definition config_of (top_dir out_dir : string) (g : globals) : config :=
  mkConfig (flag "NSC_ENABLED" g) (flag "ENABLE_EXAMPLES" g) (flag "ENABLE_PYTHON_BINDINGS" g)
    (text_of "APPNAME" g) (text_of "VERSION" g) (text_of "BUILD_PROFILE" g) (text_of "PYTHON" g)
    top_dir out_dir (list_of "NS3_MODULE_PATH" g) (list_of "EXAMPLE_DIRECTORIES" g)
    (list_of "NS3_ENABLED_MODULES" g) (list_of "NS3_ENABLED_CONTRIBUTED_MODULES" g).

(** ** Effects *)

Inductive effect :=
  | Print (lines : list string) | PrintError (line : string) | RunWaf (command : string)
  | SetEnviron (environ : gmap string string) | MakeDirs (path : string)
  | WriteFile (path : string) (lines : list string) | AppendFile (path : string) (lines : list string)
  | StartWorkers (n : nat) | JoinWorkers | CopyFile (source target : string) | RemoveTree (path : string).
Abbreviation M := (st (list effect) run_exn).
Definition log (e : effect) : M unit := modify (fun l => l ++ [e]).
Definition require (name : string) (g : globals) : M unit :=
  match g !! name with Some _ => ret tt | None => raise (NameError name) end.

Section Run.
(** The host: [sys.platform], the lines of files, [os.path.exists], [os.environ], the working directory,
    [eval] and [exec] on the files of waf (which fail with any exception), waf's exit status, the answers of the test runner, the lists of a file of
    examples, the number of processors, the date, the parser of XML. *)
Context (platform : string) (files : string -> option (list string)) (exists_path : string -> bool)
  (environ : gmap string string) (cwd : string).
Context (eval_string : string -> option string) (exec_line : string -> globals -> option globals)
  (eval_list : string -> res conf_exn pyvalue) (eval_cond : string -> res plan_exn bool).
Context (waf : string -> Z) (test_runner : string -> Z * string)
  (cpp_examples : string -> list (string * string * string)) (python_examples : string -> list (string * string)).
Context {T : Type} (zero : T) (show_time : T -> string) (read_file : string -> string)
  (processors : nat) (date_and_time : string) (parse_xml : list string -> option element).
(** The jobs as they come back. *)
Context (arrived : list (Job T) -> list (Job T)).
Context (opts : options).

(** One line of the lock file. *)
Definition assigned_value (line : string) : res run_exn string :=
  match split_on "="%char line with
  | [_; val] => match eval_string (strip val) with Some v => Ok v | None => Raise EvalError end
  | _ => Raise ValueError
  end.
Definition read_lock_line (s : option string * option string) (line : string)
    : res run_exn (option string * option string) :=
  let* top := if starts_with "top_dir =" line then let* v := assigned_value line in Ok (Some v) else Ok s.1 in
  let* out := if starts_with "out_dir =" line then let* v := assigned_value line in Ok (Some v) else Ok s.2 in
  Ok (top, out).
(** One line of waf's cache: it is run once for every item that begins it. *)
Definition exec_interesting (g : globals) (line : string) : res run_exn globals :=
  for_each (fun g item =>
    if starts_with item line then
      match exec_line line g with Some g => Ok g | None => Raise EvalError end
    else Ok g) interesting_config_items g.
Definition lock_file : option (list string) :=
  match files (".lock-waf_" +:+ platform +:+ "_build") with
  | Some l => Some l
  | None => files ".lock-waf_linux2_build"
  end.
Definition NO_LOCK : string :=
  "The .lock-waf ... directory was not found.  You must do waf build before running test.py.".
(** [read_waf_config]: the two directories and the variables. *)
Definition read_waf_config : M (string * string * globals) :=
  match lock_file with
  | None => let! _ := log (PrintError NO_LOCK) in raise (SysExit 2)
  | Some lines =>
      let! dirs := lift (for_each read_lock_line lines (None, None)) in
      match dirs with
      | (Some top_dir, Some out_dir) =>
          match files (out_dir +:+ "/c4che/_cache.py") with
          | None => raise (FileNotFound (out_dir +:+ "/c4che/_cache.py"))
          | Some cache =>
              let! g := lift (for_each exec_interesting cache default_globals) in
              if verbose opts then
                let! _ := iter_m (fun item => require item g) interesting_config_items in
                ret (top_dir, out_dir, g)
              else ret (top_dir, out_dir, g)
          end
      | _ => raise UnboundLocalError
      end
  end.

(** ** run_tests *)

(** A list of the build status, of which the code takes the elements. *)
Definition runnable (status_file : string) (name : string) : M (list string) :=
  let! v := lift (raised ListError (get_list_from_file eval_list (files status_file) name)) in
  match v with VList l => ret l | VBool _ => raise TypeError end.

Section Config.
Context (cfg : config) (g : globals).
Definition examples_found : examples :=
  all_examples cfg cwd exists_path cpp_examples python_examples.
(** The loops that dispatch the examples; a Python example asks whether there are bindings. *)
Definition queue_jobs (out_dir : string) (suites programs scripts : list string) : res plan_exn (list (Job T)) :=
  let* js2 := example_jobs opts cfg cwd eval_cond zero out_dir (programs_dictionary programs)
                (example_tests examples_found) in
  let* js3 := pyexample_jobs opts cfg cwd eval_cond zero out_dir scripts (python_tests examples_found) in
  if (no_single_test opts && negb (has_key g "ENABLE_PYTHON_BINDINGS") && negb (bool_decide (js3 = [])))%bool
  then Raise ConditionError
  else Ok (suite_jobs opts cfg cwd zero out_dir suites ++ js2 ++ js3).

(** From the creation of the output directory on. *)
Definition TMP_OUTPUT_DIR : string := "testpy-output".
Definition out_dir : string := path_join TMP_OUTPUT_DIR date_and_time.
Definition results_path : string := path_join out_dir "results.xml".
Definition make_dir (path : string) : M unit :=
  if exists_path path then ret tt else log (MakeDirs path).
Definition results_head : list string :=
  ["<?xml version=" +:+ dquote +:+ "1.0" +:+ dquote +:+ "?>" +:+ TestJobs.eol; "<Results>" +:+ TestJobs.eol].
Definition UNKNOWN_SUITE : string :=
  "The test suite was not run because an unknown test suite name was requested.".
Definition when (b : bool) (m : M unit) : M unit := if b then m else ret tt.
(** What is left when the results are complete: the reports, the notes, the removal of the directory. *)
Definition write_report (results : list string) (extension : string) (target : string)
    (translate : element -> res report_exn (list string)) : M unit :=
  when (bool_decide (target <> ""))
    match parse_xml results with
    | None => raise ParseError
    | Some et =>
        let! lines := lift (raised ReportError (translate et)) in
        log (WriteFile (target +:+ extension) lines)
    end.
Definition DISABLED_TESTS : list string :=
  ["***  Note: ns-3 tests are currently disabled. Enable them by adding";
   "***  " +:+ dquote +:+ "--enable-tests" +:+ dquote +:+ " to ./waf configure or modifying your .ns3rc file."; ""].
Definition DISABLED_EXAMPLES : list string :=
  ["***  Note: ns-3 examples are currently disabled. Enable them by adding";
   "***  " +:+ dquote +:+ "--enable-examples" +:+ dquote +:+ " to ./waf configure or modifying your .ns3rc file."; ""].
Definition NO_VALGRIND : list string :=
  [""; "***  Note: you are trying to use valgrind, but valgrind could not be found";
   "***  on your machine.  All tests and examples will crash or be skipped."; ""].
Definition notes : list string :=
  let tests := flag "ENABLE_TESTS" g in
  let examples := flag "ENABLE_EXAMPLES" g in
  (if tests && examples then []
   else [""] ++ (if tests then [] else DISABLED_TESTS) ++ (if examples then [] else DISABLED_EXAMPLES))
  ++ (if valgrind opts && negb (flag "VALGRIND_FOUND" g) then NO_VALGRIND else []).
Definition finish_run (results : list string) : M unit :=
  let! _ := write_report results ".html" (html opts) translate_to_html in
  let! _ := write_report results ".txt" (TestPlan.text opts) translate_to_text in
  let! _ := when (bool_decide (xml_file opts <> "")) (log (CopyFile results_path (xml_file opts +:+ ".xml"))) in
  let! _ := log (Print notes) in
  when (negb (retain opts)) (log (RemoveTree out_dir)).
(** Whether a result is printed with its time. *)
Definition with_time : bool := duration opts || bool_decide (constrain opts = "performance").
(** The dispatch of the jobs, with an exception while the workers wait, and the collection of the results. *)
Definition run_jobs (suites programs scripts : list string) : M Z :=
  let! _ := log (StartWorkers processors) in
  let! jobs := lift (raised (fun _ => Hangs) (queue_jobs out_dir suites programs scripts)) in
  let js := arrived jobs in
  let r := collect_all show_time with_time read_file js in
  let! _ := log (Print (printed r)) in
  let! _ := log (AppendFile results_path (TestJobs.xml r)) in
  let! _ := log JoinWorkers in
  let! _ := log (AppendFile results_path ["</Results>" +:+ TestJobs.eol]) in
  let! _ := log (Print (summary (length jobs) r)) in
  let! _ := finish_run (results_file show_time with_time read_file js) in
  ret (exit_code (length jobs) r).
Definition run_suites (programs scripts : list string) : M Z :=
  let! _ := make_dir TMP_OUTPUT_DIR in
  let! _ := make_dir out_dir in
  let! _ := log (WriteFile results_path results_head) in
  match suites_to_run opts cfg test_runner with
  | Raise e => let! _ := log (PrintError UNKNOWN_SUITE) in raise (from_plan e)
  | OutOfFuel => lift OutOfFuel
  | Ok suites => run_jobs suites programs scripts
  end.
(** After waf. *)
Definition NO_STATUS : string :=
  "The build status file was not found.  You must do waf build before running test.py.".
Definition run_built : M (option Z) :=
  let! _ := require "NS3_MODULE_PATH" g in
  let env := make_paths platform cfg environ in
  let! _ := log (SetEnviron env) in
  let status := path_join (NS3_BUILDDIR cfg) "build-status.py" in
  if negb (exists_path status) then let! _ := log (PrintError NO_STATUS) in raise (SysExit 2)
  else
    let! programs := runnable status "ns3_runnable_programs" in
    let! scripts := runnable status "ns3_runnable_scripts" in
    let! _ := require "NS3_ENABLED_MODULES" g in
    let! _ := require "NS3_ENABLED_CONTRIBUTED_MODULES" g in
    let! _ := log (SetEnviron (<["NS_LOG" := ""]> env)) in
    if kinds opts || list_tests opts then
      let! lines := lift (raised from_plan (print_listing opts cfg test_runner (example_names_original examples_found))) in
      let! _ := log (Print lines) in
      ret None
    else let! code := run_suites programs scripts in ret (Some code).
End Config.

(** [run_tests] *)
Definition run_tests : M (option Z) :=
  let! (top_dir, build_dir, g) := read_waf_config in
  let cfg := config_of top_dir build_dir g in
  match waf_cmd opts with
  | None => run_built cfg g
  | Some cmd =>
      let! _ := log (RunWaf cmd) in
      if decide (waf cmd = 0%Z) then run_built cfg g
      else let! _ := log (PrintError "Waf died. Not running tests") in ret (Some (waf cmd))
  end.
(** The status of the process after [sys.exit(main(sys.argv))], if it ends. *)
Definition exit_status (r : res run_exn (option Z)) : option Z :=
  match r with
  | Ok None => Some 0%Z
  | Ok (Some z) | Raise (SysExit z) => Some (z mod 256)%Z
  | Raise Hangs | OutOfFuel => None
  | Raise _ => Some 1%Z
  end.
End Run.

(** ** Proofs *)

(** A computation that ends with a value has gone through all of its steps. *)
Lemma bind_ok_inv {W E A B} (m : st W E A) (k : A -> st W E B) w b w2 :
  bind m k w = (Ok b, w2) -> exists a w1, m w = (Ok a, w1) /\ k a w1 = (Ok b, w2).
Proof. unfold bind. destruct (m w) as [[a|e|] w1]; intros H; [by exists a, w1|done..]. Qed.
Ltac bind_inv H := let a := fresh "a" in let l := fresh "l" in let E := fresh "E" in
  apply bind_ok_inv in H as (a & l & E & H).

(** An exception that does not end the process with the status 0. *)
Definition harmless (e : run_exn) : Prop := forall z, e = SysExit z -> z = 2%Z.
Definition not_success {A} (m : M A) : Prop := forall l e l', m l = (Raise e, l') -> harmless e.
Lemma not_success_bind {A B} (m : M A) (k : A -> M B) : not_success m -> (forall a, not_success (k a)) ->
  not_success (bind m k).
Proof.
  intros Hm Hk l e l'. unfold bind. destruct (m l) as [[a|e'|] l1] eqn:E; intros H; [by eapply Hk| |done].
  injection H as -> ->. by eapply Hm.
Qed.
Lemma not_success_ret {A} (a : A) : not_success (ret a).
Proof. by intros l e l'. Qed.
Lemma not_success_log e : not_success (log e).
Proof. by intros l e' l'. Qed.
Lemma not_success_raise {A} e : harmless e -> not_success (A := A) (raise e).
Proof. intros H l e' l' [= <- <-]. done. Qed.
Lemma not_success_lift {A} (m : res run_exn A) : (forall e, m = Raise e -> harmless e) ->
  not_success (lift m).
Proof. intros H l e l' [= Hm _]. by apply H. Qed.
Lemma not_success_require x g : not_success (require x g).
Proof. unfold require. destruct (g !! x); [apply not_success_ret|by apply not_success_raise]. Qed.
Lemma not_success_when b m : not_success m -> not_success (when b m).
Proof. intros H. destruct b; [done|apply not_success_ret]. Qed.
Lemma for_each_exn {E S A} (f : S -> A -> res E S) (P : E -> Prop) l : (forall s x e, f s x = Raise e -> P e) ->
  forall s e, for_each f l s = Raise e -> P e.
Proof.
  intros Hf. induction l as [|x l IH]; intros s e; cbn; [done|].
  destruct (f s x) as [s1|e1|] eqn:Hx; cbn; [apply IH|intros [= <-]; by eapply Hf|done].
Qed.
Create HintDb not_success.
#[local] Hint Resolve not_success_ret not_success_log not_success_require not_success_when : not_success.
#[local] Hint Extern 1 (not_success (raise _)) => apply not_success_raise; unfold harmless; congruence : not_success.
Ltac no_success := repeat first [solve [auto with not_success] | apply not_success_bind; [|intros ?]].

Section Correct.
Context (platform : string) (files : string -> option (list string)) (exists_path : string -> bool)
  (environ : gmap string string) (cwd : string).
Context (eval_string : string -> option string) (exec_line : string -> globals -> option globals)
  (eval_list : string -> res conf_exn pyvalue) (eval_cond : string -> res plan_exn bool).
Context (waf : string -> Z) (test_runner : string -> Z * string)
  (cpp_examples : string -> list (string * string * string)) (python_examples : string -> list (string * string)).
Context {T : Type} (zero : T) (show_time : T -> string) (read_file : string -> string)
  (processors : nat) (date_and_time : string) (parse_xml : list string -> option element).
Context (arrived : list (Job T) -> list (Job T)).
Context (opts : options).
Local Abbreviation config_read := (read_waf_config platform files eval_string exec_line opts).
Local Abbreviation found cfg := (queue_jobs exists_path cwd eval_cond cpp_examples python_examples zero opts cfg).
Local Abbreviation built := (run_built platform files exists_path environ cwd eval_list eval_cond test_runner cpp_examples
  python_examples zero show_time read_file processors date_and_time parse_xml arrived opts).
Local Abbreviation whole := (run_tests platform files exists_path environ cwd eval_string exec_line eval_list eval_cond waf
  test_runner cpp_examples python_examples zero show_time read_file processors date_and_time parse_xml arrived opts).
Local Abbreviation jobs_run := (run_jobs exists_path cwd eval_cond cpp_examples python_examples zero show_time read_file
  processors date_and_time parse_xml arrived opts).

Lemma select_suites_exn cfg e : suites_to_run opts cfg test_runner = Raise e -> e = SystemExit 2.
Proof.
  unfold suites_to_run, select_suites. repeat case_decide; cbn; try done; try (by intros [= <-]);
    destruct (_ && _)%bool; done.
Qed.
Lemma read_config_fails : not_success config_read.
Proof.
  unfold read_waf_config. destruct (lock_file platform files) as [lines|]; [|no_success].
  apply not_success_bind; [|intros [[top|] [out|]]; [|auto with not_success..]].
  - apply not_success_lift. intros e He. refine (for_each_exn _ harmless _ _ _ _ He). intros s x e'. unfold read_lock_line, assigned_value.
    destruct (starts_with "top_dir =" x), (starts_with "out_dir =" x); cbn; try done;
      (destruct (split_on "="%char x) as [|? [|? [|]]]; cbn; [by intros [= <-]..| |by intros [= <-]]);
      destruct (eval_string _); cbn; try done; by intros [= <-].
  - destruct (files _) as [cache|]; [|auto with not_success].
    apply not_success_bind; [|intros g].
    + apply not_success_lift. intros e He. refine (for_each_exn _ harmless _ _ _ _ He).
      intros s x e' He'. refine (for_each_exn _ harmless _ _ _ _ He'). intros s' x' e''. cbn. destruct (starts_with x' x); [|done]. destruct (exec_line x s'); [done|by intros [= <-]].
    + destruct (verbose opts); [|auto with not_success]. no_success.
Qed.
Lemma raised_exn {E A} (f : E -> run_exn) (m : res E A) e : raised f m = Raise e -> exists e', m = Raise e' /\ e = f e'.
Proof. destruct m; cbn; intros [= <-]. by eexists. Qed.
Lemma raised_ok {E A} (f : E -> run_exn) (m : res E A) a : raised f m = Ok a -> m = Ok a.
Proof. by destruct m; cbn; intros [= <-]. Qed.
Lemma lift_ok {A} (m : res run_exn A) (l l' : list effect) a : lift m l = (Ok a, l') -> m = Ok a /\ l' = l.
Proof. unfold lift. intros H. injection H as -> ->. done. Qed.
Lemma report_fails results ext target translate : not_success (write_report parse_xml results ext target translate).
Proof.
  unfold write_report. apply not_success_when. destruct (parse_xml results) as [et|]; [|auto with not_success].
  no_success. apply not_success_lift. intros e He. by apply raised_exn in He as (e' & _ & ->).
Qed.
Lemma jobs_run_fails cfg g suites programs scripts : not_success (jobs_run cfg g suites programs scripts).
Proof.
  unfold run_jobs, finish_run. no_success; try apply report_fails.
  apply not_success_lift. intros e He. by apply raised_exn in He as (e' & _ & ->).
Qed.
Lemma runnable_fails status name : not_success (runnable files eval_list status name).
Proof.
  unfold runnable. apply not_success_bind; [|intros [b|l]; auto with not_success].
  apply not_success_lift. intros e He. by apply raised_exn in He as (e' & _ & ->).
Qed.
Lemma make_dir_fails path : not_success (make_dir exists_path path).
Proof. unfold make_dir. destruct (exists_path path); auto with not_success. Qed.
#[local] Hint Resolve make_dir_fails runnable_fails report_fails jobs_run_fails : not_success.
Lemma built_fails cfg g : not_success (built cfg g).
Proof.
  unfold run_built. no_success. destruct (negb _); [no_success|]. no_success.
  destruct (kinds opts || list_tests opts)%bool.
  - no_success. apply not_success_lift. intros e He. apply raised_exn in He as (e' & He & ->).
    unfold print_listing in He. destruct (kinds opts); [injection He as <-; by intros z|].
    by destruct (test_runner _); case_decide.
  - apply not_success_bind; [|auto with not_success]. unfold run_suites. no_success.
    destruct (suites_to_run opts cfg test_runner) as [suites|e|] eqn:Es; [apply jobs_run_fails| |].
    + no_success. apply select_suites_exn in Es as ->. apply not_success_raise. by intros z [= <-].
    + by intros l e l'.
Qed.
(** A list of the build status that was read. *)
Local Abbreviation listed build_dir name :=
  (get_list_from_file eval_list (files (path_join build_dir "build-status.py")) name).
Lemma runnable_ok status name l v l' : runnable files eval_list status name l = (Ok v, l') ->
  get_list_from_file eval_list (files status) name = Ok (VList v).
Proof.
  unfold runnable. intros H. bind_inv H. apply lift_ok in E as [E%raised_ok _]. rewrite E.
  destruct a; [done|]. by injection H as ->.
Qed.
(** What a value of [run_tests] means. *)
Lemma built_ok cfg g l r l' : built cfg g l = (Ok r, l') ->
  match r with
  | None => (kinds opts || list_tests opts)%bool = true
  | Some code => exists suites programs scripts jobs,
      listed (NS3_BUILDDIR cfg) "ns3_runnable_programs" = Ok (VList programs) /\
      listed (NS3_BUILDDIR cfg) "ns3_runnable_scripts" = Ok (VList scripts) /\
      suites_to_run opts cfg test_runner = Ok suites /\
      found cfg g (out_dir date_and_time) suites programs scripts = Ok jobs /\
      code = exit_code (length jobs) (collect_all show_time (with_time opts) read_file (arrived jobs))
  end.
Proof.
  unfold run_built. intros H. bind_inv H. bind_inv H. destruct (negb _); [bind_inv H; done|].
  do 5 bind_inv H. destruct (kinds opts || list_tests opts)%bool.
  - do 2 bind_inv H. injection H as <- <-. done.
  - bind_inv H. injection H as <- <-. unfold run_suites in E6. do 3 bind_inv E6.
    destruct (suites_to_run opts cfg test_runner) as [suites|e|]; [|bind_inv E6; done|done].
    unfold run_jobs in E6. bind_inv E6. bind_inv E6. apply lift_ok in E11 as [Hj _]. apply raised_ok in Hj.
    do 6 bind_inv E6. injection E6 as <- <-. eexists suites, _, _, _.
    split; [by eapply runnable_ok|]. split; [by eapply runnable_ok|]. split; [done|by split].
Qed.

Lemma whole_fails : not_success whole.
Proof.
  unfold run_tests. apply not_success_bind; [apply read_config_fails|intros [[top build] g]].
  destruct (waf_cmd opts) as [cmd|]; [|apply built_fails]. no_success.
  destruct (decide (waf cmd = 0%Z)); [apply built_fails|no_success].
Qed.
Lemma whole_ok r l' : whole [] = (Ok r, l') ->
  (exists cmd, waf_cmd opts = Some cmd /\ waf cmd <> 0%Z /\ r = Some (waf cmd)) \/
  exists top_dir build_dir g l1, (config_read []).1 = Ok (top_dir, build_dir, g) /\
    built (config_of top_dir build_dir g) g l1 = (Ok r, l').
Proof.
  unfold run_tests. intros H. bind_inv H. destruct a as [[top build] g]. rewrite E.
  destruct (waf_cmd opts) as [cmd|] eqn:Hc; [|by right; eexists _, _, _, _].
  bind_inv H. destruct (decide (waf cmd = 0%Z)); [by right; eexists _, _, _, _|].
  bind_inv H. injection H as <- <-. left. by exists cmd.
Qed.
Lemma status_zero r : (forall e, r = Raise e -> harmless e) -> exit_status r = Some 0%Z ->
  r = Ok None \/ exists z, r = Ok (Some z) /\ (z mod 256 = 0)%Z.
Proof.
  intros Hh. destruct r as [[z|]|e|]; cbn; [intros [= Hz]; right; by exists z|by left| |done].
  specialize (Hh e eq_refl). destruct e; try done. intros [= Hz]. by rewrite (Hh _ eq_refl) in Hz.
Qed.

(** C33: The test driver reports success only when it was asked for a list, or when every job it has dispatched
    came back, not interrupted, and was skipped or returned 0.  The jobs are those of the suites and the runnable programs
    and scripts that the configuration and the status file of the build give, and what came back is what the threads
    collected.  With any files, options, exit
    status of waf and order of the threads, in every other case the status is not 0 or the process does not end. *)
Theorem success_means_passed
  (Hwaf : forall cmd, (-256 < waf cmd < 256)%Z)
  (Harrived : forall jobs, exists s, rtc run_step (initial jobs processors) s /\ final s /\ arrived jobs = (collected s).*2)
  (Hstatus : exit_status (whole []).1 = Some 0%Z) :
  (kinds opts || list_tests opts)%bool = true \/
  exists top_dir build_dir g suites programs scripts jobs s,
    let cfg := config_of top_dir build_dir g in
    (config_read []).1 = Ok (top_dir, build_dir, g) /\
    listed build_dir "ns3_runnable_programs" = Ok (VList programs) /\
    listed build_dir "ns3_runnable_scripts" = Ok (VList scripts) /\
    suites_to_run opts cfg test_runner = Ok suites /\
    found cfg g (out_dir date_and_time) suites programs scripts = Ok jobs /\
    rtc run_step (initial jobs processors) s /\ final s /\ arrived jobs = (collected s).*2 /\
    forall n, n < length jobs -> exists j', (n, j') ∈ collected s /\
      is_break j' = false /\ (is_skip j' = true \/ returncode j' = 0%Z).
Proof.
  destruct (whole []) as [r l'] eqn:Er. cbn [fst] in Hstatus.
  apply status_zero in Hstatus as Hz; [|intros e ->; by eapply whole_fails].
  assert (Hok : exists x, r = Ok x) by (destruct Hz as [->|(z & -> & _)]; by eexists).
  destruct Hok as [x ->]. destruct (whole_ok x l' Er) as [(cmd & _ & Hw & ->)|(top & build & g & l1 & Hcfg & Hb)].
  { destruct Hz as [[=]|(z & [= <-] & Hm)]. specialize (Hwaf cmd).
    apply Z.mod_divide in Hm as [k Hk]; lia. }
  apply built_ok in Hb. destruct x as [code|]; [|by left]. right.
  destruct Hb as (suites & programs & scripts & jobs & Hp & Hsc & Hs & Hj & ->).
  destruct (Harrived jobs) as (s & Hr & Hf & Ha). exists top, build, g, suites, programs, scripts, jobs, s.
  do 8 (split; [done|]).
  destruct Hz as [[=]|(z & [= <-] & Hm)].
  assert (H0 : exit_code (length jobs) (collect_all show_time (with_time opts) read_file (arrived jobs)) = 0%Z)
    by (revert Hm; unfold exit_code; case_decide; [done|by cbn]).
  destruct (collected_answers jobs processors s Hr Hf) as [Hids _].
  assert (Hlen : length jobs = length (arrived jobs)).
  { rewrite Ha, length_fmap, <- (length_fmap fst), Hids. by rewrite length_seq. }
  rewrite Hlen, exit_code_zero in H0. intros n Hn.
  assert (Hin : n ∈ (collected s).*1) by (rewrite Hids; apply elem_of_seq; lia).
  apply list_elem_of_fmap in Hin as ([n' j'] & -> & Hin). exists j'. split; [done|].
  apply H0. rewrite Ha. apply list_elem_of_fmap. by exists (n', j').
Qed.
(** *** The files that are left *)

(** What the effects leave on the disk, as far as [run_tests] writes it itself. *)
Definition apply_effect (d : gmap string (list string)) (e : effect) : gmap string (list string) :=
  match e with
  | WriteFile p lines => <[p := lines]> d
  | AppendFile p lines => <[p := default [] (d !! p) ++ lines]> d
  | CopyFile a b => match d !! a with Some lines => <[b := lines]> d | None => d end
  | RemoveTree p => filter (fun kv => starts_with (p +:+ "/") kv.1 = false) d
  | _ => d
  end.
Definition disk (l : list effect) : gmap string (list string) := foldl apply_effect ∅ l.
Local Abbreviation results_at := (results_path date_and_time).

Lemma disk_app l1 l2 : disk (l1 ++ l2) = foldl apply_effect (disk l1) l2.
Proof. apply foldl_app. Qed.
Lemma log_inv e l a l' : log e l = (Ok a, l') -> l' = l ++ [e].
Proof. by intros [= _ <-]. Qed.
Lemma when_inv b m (l l' : list effect) a : when b m l = (Ok a, l') -> (b = true /\ m l = (Ok a, l')) \/ (b = false /\ l' = l).
Proof. destruct b; cbn; [by left|]. intros [= _ <-]. by right. Qed.
(** The effects of a report, when it is written. *)
Definition report_log (results : list string) (extension target : string)
    (translate : element -> res report_exn (list string)) (l : list effect) : Prop :=
  (target = "" /\ l = []) \/
  exists et lines, target <> "" /\ parse_xml results = Some et /\ translate et = Ok lines /\
    l = [WriteFile (target +:+ extension) lines].
Lemma report_inv results extension target translate l a l' :
  write_report parse_xml results extension target translate l = (Ok a, l') ->
  exists r, report_log results extension target translate r /\ l' = l ++ r.
Proof.
  unfold write_report. intros [[Hb H]|[Hb ->]]%when_inv.
  - apply bool_decide_eq_true in Hb. destruct (parse_xml results) as [et|] eqn:Hp; [|done].
    bind_inv H. apply lift_ok in E as [Ht ->]. apply raised_ok in Ht. apply log_inv in H as ->.
    eexists. split; [right; by eexists _, _|done].
  - exists []. rewrite app_nil_r. split; [|done]. left. apply bool_decide_eq_false in Hb.
    destruct (decide (target = "")); [done|by destruct Hb].
Qed.
(** What [run_jobs] does, when it ends with a code. *)
Lemma jobs_run_log cfg g suites programs scripts l code l' :
  jobs_run cfg g suites programs scripts l = (Ok code, l') ->
  exists jobs html_log text_log,
    found cfg g (out_dir date_and_time) suites programs scripts = Ok jobs /\
    let r := collect_all show_time (with_time opts) read_file (arrived jobs) in
    let results := results_file show_time (with_time opts) read_file (arrived jobs) in
    code = exit_code (length jobs) r /\
    report_log results ".html" (html opts) translate_to_html html_log /\
    report_log results ".txt" (TestPlan.text opts) translate_to_text text_log /\
    l' = l ++ [StartWorkers processors; Print (printed r); AppendFile results_at (TestJobs.xml r); JoinWorkers;
               AppendFile results_at ["</Results>" +:+ TestJobs.eol]; Print (summary (length jobs) r)]
           ++ html_log ++ text_log
           ++ (if bool_decide (xml_file opts <> "") then [CopyFile results_at (xml_file opts +:+ ".xml")] else [])
           ++ Print (notes opts g) :: (if retain opts then [] else [RemoveTree (out_dir date_and_time)]).
Proof.
  unfold run_jobs, finish_run. intros H. bind_inv H. apply log_inv in E as ->.
  bind_inv H. apply lift_ok in E as [Hj ->]. apply raised_ok in Hj.
  do 5 (bind_inv H; apply log_inv in E as ->). bind_inv H. injection H as <- <-.
  bind_inv E. apply report_inv in E0 as (html_log & Hh & ->).
  bind_inv E. apply report_inv in E0 as (text_log & Ht & ->).
  bind_inv E. bind_inv E. apply log_inv in E1 as ->.
  exists a0, html_log, text_log. split; [done|]. split; [done|]. split; [done|]. split; [done|].
  apply when_inv in E0, E.
  destruct E0 as [[-> ->%log_inv]|[-> ->]], E as [[Hr ->%log_inv]|[Hr ->]];
    [apply negb_true_iff in Hr|apply negb_false_iff in Hr|apply negb_true_iff in Hr|apply negb_false_iff in Hr];
    rewrite Hr; by rewrite <- ?app_assoc.
Qed.
(** Before the jobs, the results file has been begun. *)
Lemma built_jobs cfg g l code l' : built cfg g l = (Ok (Some code), l') ->
  exists suites programs scripts l1, suites_to_run opts cfg test_runner = Ok suites /\
    jobs_run cfg g suites programs scripts (l1 ++ [WriteFile results_at results_head]) = (Ok code, l').
Proof.
  unfold run_built. intros H. bind_inv H. bind_inv H. destruct (negb _); [bind_inv H; done|].
  do 5 bind_inv H. destruct (kinds opts || list_tests opts)%bool; [do 2 bind_inv H; done|].
  bind_inv H. injection H as <- <-. unfold run_suites in E6. do 3 bind_inv E6. apply log_inv in E9 as ->.
  destruct (suites_to_run opts cfg test_runner) as [suites|e|]; [|bind_inv E6; done|done].
  by eexists suites, _, _, _.
Qed.

(** A file is told from another by the ends of their names. *)
Lemma suffix_differs (a b s t : string) :
  (exists k x y, rev (list_ascii_of_string s) !! k = Some x /\ rev (list_ascii_of_string t) !! k = Some y /\ x <> y) ->
  a +:+ s <> b +:+ t.
Proof.
  intros (k & x & y & Hx & Hy & Hne) H. apply (f_equal list_ascii_of_string) in H. rewrite !list_ascii_app in H.
  apply (f_equal (@rev ascii)) in H. rewrite !rev_app_distr in H.
  apply Hne. apply (f_equal (fun l => l !! k)) in H. rewrite (lookup_app_l_Some _ _ _ _ Hx) in H.
  rewrite (lookup_app_l_Some _ _ _ _ Hy) in H. by injection H.
Qed.
Lemma results_name : exists a, results_at = a +:+ "results.xml".
Proof.
  unfold results_path, path_join. destruct (decide (out_dir date_and_time = "")); [by exists ""|].
  destruct (ends_with_slash _); [by eexists|]. exists (out_dir date_and_time +:+ "/"). by rewrite string_app_assoc.
Qed.
Lemma report_keeps results ext target translate l d :
  report_log results ext target translate l -> (forall a, a +:+ ext <> results_at) ->
  foldl apply_effect d l !! results_at = d !! results_at.
Proof.
  intros [[_ ->]|(et & lines & _ & _ & _ & ->)] He; [done|]. cbn. by rewrite lookup_insert_ne.
Qed.
Lemma results_on_disk (jobs : list (Job T)) d :
  let r := collect_all show_time (with_time opts) read_file (arrived jobs) in
  foldl apply_effect (<[results_at := results_head]> d)
    [StartWorkers processors; Print (printed r); AppendFile results_at (TestJobs.xml r); JoinWorkers;
     AppendFile results_at ["</Results>" +:+ TestJobs.eol]; Print (summary (length jobs) r)] !! results_at
  = Some (results_file show_time (with_time opts) read_file (arrived jobs)).
Proof. cbn. rewrite !lookup_insert_eq. cbn. by rewrite <- ?app_assoc. Qed.
Lemma removed_on_disk p path d : starts_with (p +:+ "/") path = true -> apply_effect d (RemoveTree p) !! path = None.
Proof.
  intros H. cbn. apply map_lookup_filter_None. right. intros x _. cbn. by rewrite H.
Qed.
Lemma kept_on_disk p path d : starts_with (p +:+ "/") path = false ->
  apply_effect d (RemoveTree p) !! path = d !! path.
Proof.
  intros H. cbn. destruct (d !! path) as [x|] eqn:E.
  - by apply map_lookup_filter_Some.
  - apply map_lookup_filter_None. by left.
Qed.

(** After the reports the results file is complete. *)
Lemma reports_on_disk (jobs : list (Job T)) l hl tl :
  let r := collect_all show_time (with_time opts) read_file (arrived jobs) in
  let results := results_file show_time (with_time opts) read_file (arrived jobs) in
  report_log results ".html" (html opts) translate_to_html hl ->
  report_log results ".txt" (TestPlan.text opts) translate_to_text tl ->
  foldl apply_effect (foldl apply_effect (foldl apply_effect (disk (l ++ [WriteFile results_at results_head]))
    [StartWorkers processors; Print (printed r); AppendFile results_at (TestJobs.xml r); JoinWorkers;
     AppendFile results_at ["</Results>" +:+ TestJobs.eol]; Print (summary (length jobs) r)]) hl) tl !! results_at
  = Some results.
Proof.
  intros r results Hh Ht. destruct results_name as [n Hn].
  rewrite (report_keeps _ _ _ _ _ _ Ht), (report_keeps _ _ _ _ _ _ Hh), disk_app; [apply results_on_disk|..];
    intros a; rewrite Hn; apply suffix_differs.
  - exists 2, "t"%char, "x"%char. split; [done|]. split; done.
  - exists 0, "t"%char, "l"%char. split; [done|]. split; done.
Qed.
Lemma report_written results ext target translate l : report_log results ext target translate l -> target <> "" ->
  exists et lines, parse_xml results = Some et /\ translate et = Ok lines /\ WriteFile (target +:+ ext) lines ∈ l.
Proof.
  intros [[? _]|(et & lines & _ & Hp & Ht & ->)] Hne; [done|]. exists et, lines. split; [done|]. split; [done|set_solver].
Qed.

(** A run that waf lets go on and that returns a code has dispatched the jobs of its suites and examples, and the
    code says of the jobs that came back what [exit_code] says; the file of [--xml] is then the complete
    results document, those of [--html] and [--text] are its translations, and nothing is left in
    the output directory unless [--retain] was given. *)
Theorem run_tests_files code l' :
  (forall cmd, waf_cmd opts = Some cmd -> waf cmd = 0%Z) ->
  whole [] = (Ok (Some code), l') ->
  exists cfg g suites programs scripts jobs,
    suites_to_run opts cfg test_runner = Ok suites /\
    found cfg g (out_dir date_and_time) suites programs scripts = Ok jobs /\
    let results := results_file show_time (with_time opts) read_file (arrived jobs) in
    code = exit_code (length jobs) (collect_all show_time (with_time opts) read_file (arrived jobs)) /\
    (xml_file opts <> "" -> starts_with (out_dir date_and_time +:+ "/") (xml_file opts +:+ ".xml") = false ->
     disk l' !! (xml_file opts +:+ ".xml") = Some results) /\
    (html opts <> "" -> exists et lines, parse_xml results = Some et /\ translate_to_html et = Ok lines /\
       WriteFile (html opts +:+ ".html") lines ∈ l') /\
    (TestPlan.text opts <> "" -> exists et lines, parse_xml results = Some et /\ translate_to_text et = Ok lines /\
       WriteFile (TestPlan.text opts +:+ ".txt") lines ∈ l') /\
    (retain opts = false -> forall path, starts_with (out_dir date_and_time +:+ "/") path = true -> disk l' !! path = None).
Proof.
  intros Hw Hr. destruct (whole_ok _ _ Hr) as [(cmd & Hc & Hne & _)|(top & build & g & l1 & Hcfg & Hb)]; [by rewrite Hw in Hne|].
  destruct (built_jobs _ _ _ _ _ Hb) as (suites & programs & scripts & l2 & Hs & Hj).
  apply jobs_run_log in Hj as (jobs & hl & tl & Hf & Hcode & Hh & Ht & ->).
  exists (config_of top build g), g, suites, programs, scripts, jobs. split; [done|]. split; [done|]. split; [done|].
  pose proof (reports_on_disk jobs l2 hl tl Hh Ht) as Hd. cbv zeta in Hd.
  split; [|split; [|split]].
  - intros Hx Hp. rewrite bool_decide_eq_true_2 by done. unfold disk. rewrite !foldl_app. cbn [foldl].
    unfold disk in Hd. rewrite foldl_app in Hd. cbn [foldl] in Hd.
    change (apply_effect ?d (CopyFile ?a ?b)) with (match d !! a with Some x => <[b := x]> d | None => d end).
    rewrite Hd. destruct (retain opts); cbn [foldl apply_effect].
    + by rewrite lookup_insert_eq.
    + setoid_rewrite kept_on_disk; [by rewrite lookup_insert_eq|done].
  - intros Hx. destruct (report_written _ _ _ _ _ Hh Hx) as (et & lines & Hp & Htr & Hin).
    exists et, lines. split; [done|]. split; [done|]. set_solver.
  - intros Hx. destruct (report_written _ _ _ _ _ Ht Hx) as (et & lines & Hp & Htr & Hin).
    exists et, lines. split; [done|]. split; [done|]. set_solver.
  - intros -> path Hp. unfold disk. rewrite !foldl_app. cbn [foldl]. by apply removed_on_disk.
Qed.

(** What is refused before anything runs: without a lock file, after a failure of waf, whose status is the
    result, and without the status of the build. *)
Theorem run_tests_refused :
  (lock_file platform files = None -> whole [] = (Raise (SysExit 2), [PrintError NO_LOCK])) /\
  forall top_dir build_dir g, config_read [] = (Ok (top_dir, build_dir, g), []) ->
  (forall cmd, waf_cmd opts = Some cmd -> waf cmd <> 0%Z ->
   whole [] = (Ok (Some (waf cmd)), [RunWaf cmd; PrintError "Waf died. Not running tests"])) /\
  (forall cmd, waf_cmd opts = Some cmd -> waf cmd = 0%Z -> is_Some (g !! "NS3_MODULE_PATH") ->
   exists_path (path_join build_dir "build-status.py") = false ->
   whole [] = (Raise (SysExit 2),
     [RunWaf cmd; SetEnviron (make_paths platform (config_of top_dir build_dir g) environ); PrintError NO_STATUS])).
Proof.
  split.
  - intros H. unfold run_tests, read_waf_config. by rewrite H.
  - intros top build g Hc. unfold run_tests. rewrite (bind_ok _ _ _ _ _ Hc). split.
    + intros cmd -> Hw. unfold bind at 1. cbn [log modify app]. by rewrite decide_False.
    + intros cmd -> Hw [v Hm] Hs. unfold bind at 1. cbn [log modify app]. rewrite decide_True by done.
      unfold run_built, require. rewrite Hm. unfold bind at 1. cbn [ret]. unfold bind at 1. cbn [log modify app].
      change (NS3_BUILDDIR (config_of top build g)) with build. by rewrite Hs.
Qed.
End Correct.

(** ** A thread that runs the jobs one after the other *)

Section Sequential.
Context {T : Type} (zero : T).
Definition answer (j : Job T) : Job T := if is_skip j then j else set_elapsed_time zero (set_returncode 0 j).
Lemma put_all tp : forall iq ws oq co te,
  rtc (@run_step T) (mkPool tp iq ws oq co te) (mkPool [] (iq ++ tp) ws oq co te).
Proof.
  induction tp as [|x tp IH]; intros iq ws oq co te; [by rewrite app_nil_r|].
  eapply rtc_l; [left; apply Put|]. pose proof (IH (iq ++ [x]) ws oq co te) as H.
  by rewrite <- app_assoc in H.
Qed.
Lemma run_sequence items : forall co,
  rtc (@run_step T) (mkPool [] (map Some items ++ [None]) [Waiting] [] co false)
    (mkPool [] [] [Exited] [] (co ++ map (fun x => (x.1, answer x.2)) items) false).
Proof.
  induction items as [|[n j] items IH]; intros co; cbn [map app].
  - rewrite app_nil_r. eapply rtc_once. left. apply (WorkerBreak [] [] [] []).
  - eapply rtc_l; [left; apply (WorkerGet (n, j) [] _ [] [])|].
    assert (H : rtc (@run_step T) (mkPool [] (map Some items ++ [None]) ([] ++ Holding (n, j) :: []) [] co false)
      (mkPool [] (map Some items ++ [None]) ([] ++ Waiting :: []) ([] ++ [(n, answer j)]) co false)).
    { unfold answer. destruct (is_skip j) eqn:Hs.
      - apply rtc_once. left. by apply (WorkerSkip n j [] _ [] []).
      - eapply rtc_l; [left; by apply (WorkerLaunch n j [] _ [] [])|].
        apply rtc_once. left. apply (WorkerRan n j 0 zero [] _ [] []). }
    etransitivity; [apply H|]. eapply rtc_l; [left; apply Collect|].
    specialize (IH (co ++ [(n, answer j)])). by rewrite <- app_assoc in IH.
Qed.
(** One worker can give the answers in the order of the jobs. *)
Lemma sequential_arrives (jobs : list (Job T)) : exists s,
  rtc run_step (initial jobs 1) s /\ final s /\ map answer jobs = (collected s).*2.
Proof.
  eexists. split; [etransitivity; [apply put_all|apply (run_sequence (numbered jobs) [])]|].
  split; [by repeat constructor|]. cbn [collected app]. unfold numbered. generalize 0 as k.
  induction jobs as [|j jobs IH]; intros k; [done|]. cbn. f_equal. apply IH.
Qed.
End Sequential.

(** ** Examples *)

Definition demo_files (path : string) : option (list string) :=
  if decide (path = ".lock-waf_linux_build") then Some ["run_dir = /r"; "top_dir = /r"; "out_dir = /r/build"]
  else if decide (path = "/r/build/c4che/_cache.py") then
    Some ["NS3_MODULE_PATH = []"; "NS3_ENABLED_MODULES = []"; "NS3_ENABLED_CONTRIBUTED_MODULES = []"; "AR = []"]
  else if decide (path = "/r/build/build-status.py") then
    Some ["ns3_runnable_programs = ['-first-']"; "ns3_runnable_scripts = []"]
  else None.
Definition demo_exec (line : string) (g : globals) : option globals :=
  Some (<[strip (split_once "="%char line).1 := GList ["ns3-core"]]> g).
Definition demo_runner (command : string) : Z * string := (0%Z, "core" +:+ TestJobs.eol).
Definition demo_options : options :=
  mkOptions "" "core" false "" false "QUICK" false false false false true "" false "core" "" false "" "out".
Definition demo_run (cond : string -> res plan_exn bool) (opts : options) (examples : string -> list (string * string * string)) :=
  run_tests "linux" demo_files (fun _ => true) ∅ "/r" Some demo_exec (fun _ => Ok (VList ["-first-"]))
    cond (fun _ => 0%Z) demo_runner examples (fun _ => []) 0 (fun _ => "") (fun _ => "<Test/>") 1 "now"
    (fun _ => None) (map (answer 0)) opts.

Lemma success_means_passed_witness :
  exit_status (demo_run (fun _ => Ok true) demo_options (fun _ => []) []).1 = Some 0%Z /\
  exists (jobs : list (Job nat)) s, rtc run_step (initial jobs 1) s /\ final s /\ map (answer 0) jobs = (collected s).*2 /\
    forall n, n < length jobs -> exists j', (n, j') ∈ collected s /\
      is_break j' = false /\ (is_skip j' = true \/ returncode j' = 0%Z).
Proof.
  assert (H0 : exit_status (demo_run (fun _ => Ok true) demo_options (fun _ => []) []).1 = Some 0%Z) by by vm_compute.
  split; [exact H0|]. unfold demo_run in H0.
  assert (Hw : forall cmd : string, (-256 < (fun _ => 0) cmd < 256)%Z) by (intros cmd; split; reflexivity).
  destruct (success_means_passed "linux" demo_files (fun _ => true) ∅ "/r" Some demo_exec
    (fun _ => Ok (VList ["-first-"])) (fun _ => Ok true) (fun _ => 0%Z) demo_runner (fun _ => []) (fun _ => []) 0
    (fun _ => "") (fun _ => "<Test/>") 1 "now" (fun _ => None) (map (answer 0)) demo_options
    Hw (sequential_arrives 0) H0)
    as [H|(top & build & g & suites & programs & scripts & jobs & s & _ & _ & _ & _ & _ & H1 & H2 & H3)]; [discriminate H|].
  exists jobs, s. split; [exact H1|]. split; [exact H2|exact H3].
Defined.
Lemma run_tests_files_witness :
  exists results, disk (demo_run (fun _ => Ok true) demo_options (fun _ => []) []).2 !! "out.xml" = Some results /\
  disk (demo_run (fun _ => Ok true) demo_options (fun _ => []) []).2 !! "testpy-output/now/results.xml" = None.
Proof.
  destruct (demo_run (fun _ => Ok true) demo_options (fun _ => []) []) as [r l'] eqn:E.
  assert (Hr : r = Ok (Some 0%Z)) by (change r with (r, l').1; rewrite <- E; by vm_compute). subst r.
  destruct (run_tests_files "linux" demo_files (fun _ => true) ∅ "/r" Some demo_exec
    (fun _ => Ok (VList ["-first-"])) (fun _ => Ok true) (fun _ => 0%Z) demo_runner (fun _ => []) (fun _ => []) 0
    (fun _ => "") (fun _ => "<Test/>") 1 "now" (fun _ => None) (map (answer 0)) demo_options 0%Z l'
    ltac:(done) E) as (cfg & g & suites & programs & scripts & jobs & _ & _ & _ & Hx & _ & _ & Hd).
  eexists. split; [apply Hx; [done|by vm_compute]|]. apply Hd; [done|by vm_compute].
Defined.
(** A condition of an example that cannot be evaluated raises while the workers wait for jobs, and as nobody tells
    them to stop the process never ends. *)
Example condition_error_hangs :
  let opts := mkOptions "" "" false "" false "QUICK" false false false false true "" false "" "" false "" "" in
  let r := demo_run (fun _ => Raise ConditionError) opts (fun _ => [("first", "NO_SUCH_NAME", "True")]) [] in
  r.1 = Raise Hangs /\ exit_status r.1 = None /\ last r.2 = Some (StartWorkers 1).
Proof. by vm_compute. Qed.
