(* ===== verification/WafMisc.v ===== *)
(** * Waf tasks for files and commands: [src/waf-tools/misc.py]

    [subst_func], which fills in the variables of a [.in] file; [copy_func] and
    [apply_copy]; and [command-output], a task that runs a command on files
    ([init_cmd_output], [apply_cmd_output], [command_output.run]).  waf's nodes and their
    searches are arguments, and so are the environment and the process that is run. *)

From S2P Require Import Prelude PyLib Format.
From Stdlib Require Import Ascii String.
From stdpp Require Import strings.
Open Scope string_scope.
Open Scope nat_scope.
Open Scope list_scope.

(** ** Substitution *)

(** [re.compile('@(\w+)@')]: the text cut at its matches. *)
Inductive m4_piece := Chr (c : ascii) | Var (name : string).
Definition chars (s : string) : list m4_piece := map Chr (list_ascii_of_string s).
(** [Some acc] after an at sign and the word characters [acc]. *)
Fixpoint m4 (m : option string) (s : string) : list m4_piece :=
  match m, s with
  | None, EmptyString => []
  | Some acc, EmptyString => Chr "@" :: chars acc
  | None, String c s => if decide (c = "@"%char) then m4 (Some "") s else Chr c :: m4 None s
  | Some acc, String c s =>
      if is_word c then m4 (Some (acc +:+ String c "")) s
      else if decide (c = "@"%char) then
        if decide (acc = "") then Chr "@" :: m4 (Some "") s else Var acc :: m4 None s
      else Chr "@" :: chars acc ++ Chr c :: m4 None s
  end.
Definition findall (s : string) : list string :=
  omap (fun p => match p with Var n => Some n | _ => None end) (m4 None s).
(** [m4_re.sub(r'%(\1)s', code)] *)
Definition piece_field (p : m4_piece) : string :=
  match p with Chr c => String c "" | Var n => "%(" +:+ n +:+ ")s" end.
Definition m4_sub (s : string) : string := str_join "" (map piece_field (m4 None s)).
(** [code.replace('%', '%%')] *)
Fixpoint escape (s : string) : string :=
  match s with
  | EmptyString => ""
  | String c s => if decide (c = "%"%char) then String c (String c (escape s)) else String c (escape s)
  end.

(** [env.get_flat].  The source fills the dictionary in place: where [di] is an empty dictionary that the generator holds, a later
    task of the same generator finds it filled.  Here every task starts from the dictionary it is given. *)
Definition subst_dict (get_flat : string -> string) (di : fields) (code : string) : fields :=
  match di with
  | [] => map (fun i => (i, let x := get_flat i in if decide (x = "") then get_flat (upper i) else x))
            (findall code)
  | _ => di
  end.
(** What [subst_func] writes for the text of its input. *)
Definition subst_func (get_flat : string -> string) (di : fields) (code : string) : res fmt_exn string :=
  let code := escape code in format (m4_sub code) (subst_dict get_flat di code).

(** [copy_func]: the copy can fail. *)
Definition copy_func (copied : bool) (chmod : Z) : Z * list Z :=
  if copied then (0%Z, if decide (chmod = 0%Z) then [] else [chmod]) else (1%Z, []).

(** ** Commands *)

(** A node of waf's tree. *)
Class Nodes := {
  node : Type; find_resource : string -> option node; find_or_declare : string -> option node;
  find_dir : string -> option node; abspath_of : node -> string; bldpath : node -> string;
  srcpath : node -> string }.
Inductive waf_exn := WafError (msg : string) | WafTypeError | WafAssertionError | BadTemplate.

(** [template % path] for one path: [%s], which has to occur once, and [%%]. *)
Fixpoint fill (pending : bool) (template path : string) : res waf_exn (string * nat) :=
  match pending, template with
  | false, EmptyString => Ok ("", 0)
  | true, EmptyString => Raise BadTemplate
  | false, String c s =>
      if decide (c = "%"%char) then fill true s path
      else let* (t, n) := fill false s path in Ok (String c t, n)
  | true, String c s =>
      let* (t, n) := fill false s path in
      if decide (c = "s"%char) then Ok (path +:+ t, S n)
      else if decide (c = "%"%char) then Ok (String c t, n) else Raise BadTemplate
  end.
Definition fill_template (template path : string) : res waf_exn string :=
  let* (t, n) := fill false template path in
  if decide (n = 1) then Ok t else Raise BadTemplate.

Section Commands.
Context `{Nodes}.

(** The classes of [cmd_arg], and a plain string among the arguments.  The file that
    [find_node] finds is kept in the argument. *)
Inductive arg_kind := InputFile | OutputFile | InputDir | OutputDir.
Inductive cmd_arg := PlainArg (s : string) | FileArg (k : arg_kind) (name template : string).
Inductive found_arg := PlainFound (s : string) | NodeArg (k : arg_kind) (template : string) (n : node).

(** [find_node]; the message of the exception has one place for two values, so that it
    is a [TypeError] instead. *)
Definition find_node (a : cmd_arg) : res waf_exn found_arg :=
  match a with
  | PlainArg s => Ok (PlainFound s)
  | FileArg k name template =>
      let n := match k with
               | InputFile => find_resource name | OutputFile => find_or_declare name
               | InputDir | OutputDir => find_dir name end in
      match n with Some n => Ok (NodeArg k template n) | None => Raise WafTypeError end
  end.
Definition get_path (absolute : bool) (a : found_arg) : res waf_exn string :=
  match a with
  | PlainFound s => Ok s
  | NodeArg k template n =>
      fill_template template
        (match k with
         | InputFile => if absolute then abspath_of n else srcpath n
         | OutputFile => if absolute then abspath_of n else bldpath n
         | InputDir | OutputDir => abspath_of n end)
  end.

(** The attributes of a task generator, and those of the task. *)
Record generator := {
  command : option string; command_is_external : bool; argv : list cmd_arg;
  stdin : option string; stdout : option string; stderr : option string;
  hidden_inputs : list string; hidden_outputs : list string; g_dep_vars : list string;
  cwd : option string; no_inputs : bool; no_outputs : bool }.
Definition init_cmd_output : generator :=
  {| command := None; command_is_external := false; argv := []; stdin := None; stdout := None;
     stderr := None; hidden_inputs := []; hidden_outputs := []; g_dep_vars := []; cwd := None;
     no_inputs := false; no_outputs := false |}.
Inductive command_name := External (s : string) | InTree (n : node).
Record task := {
  t_command : command_name; command_args : list found_arg; t_stdin : option node;
  t_stdout : option node; t_stderr : option node; t_cwd : option string;
  dep_nodes : list node; inputs : list node; outputs : list node; dep_vars : list string;
  always_run : bool }.

Definition not_found (name : string) : waf_exn := WafError ("File " +:+ name +:+ " not found").
(** A file that may be given: its node, when it is. *)
Definition optional (find : string -> option node) (name : option string) : res waf_exn (option node) :=
  match name with
  | None => Ok None
  | Some s => match find s with Some n => Ok (Some n) | None => Raise (not_found s) end
  end.
Definition hidden (find : string -> option node) (names : list string) : res waf_exn (list node) :=
  map_res (fun s => match find s with
    | Some n => Ok n | None => Raise (WafError ("File " +:+ s +:+ " not found in dir")) end) names.
Definition arg_nodes (k : arg_kind) (args : list found_arg) : list node :=
  omap (fun a => match k, a with
    | InputFile, NodeArg InputFile _ n | OutputFile, NodeArg OutputFile _ n => Some n
    | _, _ => None end) args.

Definition apply_cmd_output (variant_dir : string) (g : generator) : res waf_exn task :=
  match command g with
  | None => Raise (WafError "command-output missing command")
  | Some c =>
      let* (cmd, cmd_node) :=
        if command_is_external g then Ok (External c, [])
        else match find_resource c with
             | Some n => Ok (InTree n, [n]) | None => Raise WafAssertionError end in
      let* args := map_res find_node (argv g) in
      let* out := optional find_or_declare (stdout g) in
      let* err := optional find_or_declare (stderr g) in
      let* inp := optional find_resource (stdin g) in
      let* hidden_in := hidden find_resource (hidden_inputs g) in
      let* hidden_out := hidden find_or_declare (hidden_outputs g) in
      let inputs := arg_nodes InputFile args ++ option_list inp ++ hidden_in in
      let outputs := arg_nodes OutputFile args ++ option_list out ++ option_list err ++ hidden_out in
      match inputs, no_inputs g with
      | [], false => Raise (WafError "command-output objects must have at least one input file or give self.no_inputs")
      | _, _ =>
          match outputs, no_outputs g with
          | [], false => Raise (WafError "command-output objects must have at least one output file or give self.no_outputs")
          | _, _ =>
              Ok {| t_command := cmd; command_args := args; t_stdin := inp; t_stdout := out;
                    t_stderr := err; t_cwd := Some variant_dir; dep_nodes := cmd_node;
                    inputs := inputs; outputs := outputs; dep_vars := g_dep_vars g;
                    always_run := match inputs with [] => true | _ => false end |}
          end
      end
  end.

(** What [run] starts: the command line, the files of its streams, its directory. *)
Record popen := {
  p_argv : list string; p_stdin : option string; p_stdout : option string;
  p_stderr : option string; p_cwd : option string }.
Definition node_path (cwd : option string) (n : node) : string :=
  match cwd with None => bldpath n | Some _ => abspath_of n end.
Definition run (t : task) : res waf_exn popen :=
  let command := match t_command t with External s => s | InTree n => node_path (t_cwd t) n end in
  let* args := map_res (get_path (match t_cwd t with None => false | Some _ => true end)) (command_args t) in
  let path := option_map (node_path (t_cwd t)) in
  Ok {| p_argv := command :: args; p_stdin := path (t_stdin t); p_stdout := path (t_stdout t);
        p_stderr := path (t_stderr t); p_cwd := t_cwd t |}.

(** [apply_copy]: a task for each source, from its node to the node of the target or, when
    there is none or there are several sources, of the same name. *)
Definition apply_copy (node_name : node -> string) (sources : list string) (target : string)
    : res waf_exn (list (node * option node)) :=
  map_res (fun filename =>
    match find_resource filename with
    | None => Raise (WafError ("cannot find input file " +:+ filename +:+ " for processing"))
    | Some n =>
        let target := if decide (target = "" \/ 1 < length sources) then node_name n else target in
        Ok (n, find_or_declare target)
    end) sources.
End Commands.

(** ** What a substitution writes *)

(** The value of a piece of the text. *)
Definition piece_value (env : fields) (p : m4_piece) : string :=
  match p with Chr c => String c "" | Var n => default "" (field env n) end.

Lemma str_join_nil_cons x l : str_join "" (x :: l) = x +:+ str_join "" l.
Proof. destruct l; [cbn; by rewrite str_append_nil_r|done]. Qed.
Lemma str_join_nil_app l1 l2 : str_join "" (l1 ++ l2) = str_join "" l1 +:+ str_join "" l2.
Proof.
  induction l1 as [|x l1 IH]; [done|]. cbn [app]. by rewrite !str_join_nil_cons, IH, str_append_assoc.
Qed.

(** Percent signs are doubled outside of the matches. *)
Definition escape_piece (p : m4_piece) : list m4_piece :=
  match p with Chr c => if decide (c = "%"%char) then [p; p] else [p] | Var _ => [p] end.
Lemma escape_chars s : str_all is_word s = true -> concat (map escape_piece (chars s)) = chars s.
Proof.
  induction s as [|c s IH]; [done|]. cbn. intros [Hc Hs]%andb_true_iff.
  change (escape_piece (Chr c) ++ concat (map escape_piece (chars s)) = Chr c :: chars s).
  rewrite IH by done. cbn. rewrite decide_False; [done|]. by intros ->.
Qed.
Lemma m4_escape m s : match m with Some acc => str_all is_word acc = true | None => True end ->
  m4 m (escape s) = concat (map escape_piece (m4 m s)).
Proof.
  revert m. induction s as [|c s IH]; intros [acc|] Hm.
  - cbn. change (Chr "@" :: chars acc = Chr "@" :: concat (map escape_piece (chars acc))).
    by rewrite escape_chars.
  - done.
  - cbn [escape]. destruct (decide (c = "%"%char)) as [->|Hc].
    + cbn [m4]. change (is_word "%") with false. cbn iota.
      rewrite !(decide_False (P := "%"%char = "@"%char)) by done. cbn [map concat].
      rewrite map_app, concat_app, escape_chars by done. cbn [map concat escape_piece].
      rewrite !(decide_True (P := "%"%char = "%"%char)) by done. rewrite IH by done.
      by rewrite !(decide_False (P := "@"%char = "%"%char)) by done.
    + cbn [m4]. destruct (is_word c) eqn:Hw.
      * apply IH. rewrite str_all_append, Hm. cbn. by rewrite Hw.
      * destruct (decide (c = "@"%char)) as [->|Ha].
        -- destruct (decide (acc = "")); cbn [map concat escape_piece].
           ++ rewrite !(decide_False (P := "@"%char = "%"%char)) by done. cbn. by rewrite IH.
           ++ cbn. by rewrite IH.
        -- cbn [map concat]. rewrite map_app, concat_app, escape_chars by done.
           cbn [map concat escape_piece]. rewrite !(decide_False (P := c = "%"%char)) by done.
           rewrite !(decide_False (P := "@"%char = "%"%char)) by done. by rewrite IH.
  - cbn [escape]. destruct (decide (c = "%"%char)) as [->|Hc].
    + cbn [m4]. rewrite !(decide_False (P := "%"%char = "@"%char)) by done. cbn [map concat escape_piece].
      rewrite !(decide_True (P := "%"%char = "%"%char)) by done. cbn. by rewrite IH.
    + cbn [m4]. case_decide; [by apply IH|]. cbn [map concat escape_piece]. rewrite decide_False by done.
      cbn. by rewrite IH.
Qed.

(** The names of the matches are words. *)
Lemma m4_names m s n : match m with Some acc => str_all is_word acc = true | None => True end ->
  Var n ∈ m4 m s -> str_all is_word n = true.
Proof.
  revert m. induction s as [|c s IH]; intros [acc|] Hm; cbn.
  - intros [?|Hin]%elem_of_cons; [done|]. unfold chars in Hin. by apply list_elem_of_fmap in Hin as (? & ? & _).
  - by intros ?%elem_of_nil.
  - destruct (is_word c) eqn:Hw; [apply IH; rewrite str_all_append, Hm; cbn; by rewrite Hw|].
    repeat case_decide; intros Hin.
    + apply elem_of_cons in Hin as [?|Hin]; [done|]. by apply (IH (Some "")).
    + apply elem_of_cons in Hin as [[= ->]|Hin]; [done|]. by apply (IH None).
    + apply elem_of_cons in Hin as [?|Hin]; [done|]. apply elem_of_app in Hin as [Hin|Hin].
      * unfold chars in Hin. by apply list_elem_of_fmap in Hin as (? & ? & _).
      * apply elem_of_cons in Hin as [?|Hin]; [done|]. by apply (IH None).
  - case_decide; [by apply (IH (Some ""))|]. intros [?|Hin]%elem_of_cons; [done|]. by apply (IH None).
Qed.

Lemma parse_field n s : ~ (")"%char ∈ list_ascii_of_string n) -> forall acc,
  parse_fmt (InName acc) (n +:+ String ")" (String "s" s))
  = let* l := parse_fmt InText s in Ok (Field (acc +:+ n) AsStr :: l).
Proof.
  induction n as [|c n IH]; intros Hn acc.
  - change ("" +:+ ?x) with x. cbn. by rewrite !decide_True, str_append_nil_r by done.
  - cbn in Hn. apply not_elem_of_cons in Hn as [Hc Hn].
    change (String c n +:+ ?x) with (String c (n +:+ x)). cbn [parse_fmt].
    rewrite decide_False by done. rewrite IH by done. by rewrite str_append_assoc.
Qed.
Lemma word_no_paren n : str_all is_word n = true -> ~ (")"%char ∈ list_ascii_of_string n).
Proof.
  induction n as [|c n IH]; [by intros _ ?%elem_of_nil|]. cbn. intros [Hc Hn]%andb_true_iff.
  intros [<-|Hin]%elem_of_cons; [done|]. by apply IH.
Qed.

(** The template that the substitution makes of the pieces. *)
Definition symbol (p : m4_piece) : sym := match p with Chr c => Lit c | Var n => Field n AsStr end.
Lemma parse_pieces l : (forall n, Var n ∈ l -> str_all is_word n = true) ->
  parse_fmt InText (str_join "" (map piece_field (concat (map escape_piece l)))) = Ok (map symbol l).
Proof.
  induction l as [|p l IH]; intros Hl; [done|]. cbn [map concat]. rewrite map_app, str_join_nil_app.
  assert (IH' := IH (fun n Hn => Hl n (proj2 (elem_of_cons l (Var n) p) (or_intror Hn)))).
  destruct p as [c|n]; cbn [escape_piece].
  - case_decide as Hc.
    + subst c. cbn [map piece_field]. rewrite !str_join_nil_cons. cbn [str_join].
      change (parse_fmt InText (String "%" (String "%" (str_join "" (map piece_field (concat (map escape_piece l))))))
        = Ok (Lit "%" :: map symbol l)).
      cbn [parse_fmt]. rewrite !(decide_True (P := "%"%char = "%"%char)) by done. by rewrite IH'.
    + cbn [map piece_field str_join].
      change (parse_fmt InText (String c (str_join "" (map piece_field (concat (map escape_piece l)))))
        = Ok (Lit c :: map symbol l)).
      cbn [parse_fmt]. rewrite decide_False by done. by rewrite IH'.
  - cbn [map piece_field str_join].
    change (("%(" +:+ n +:+ ")s") +:+ ?x) with (String "%" (String "(" ((n +:+ ")s") +:+ x))).
    rewrite str_append_assoc. change (")s" +:+ ?x) with (String ")" (String "s" x)). cbn [parse_fmt].
    rewrite !(decide_True (P := "%"%char = "%"%char)) by done.
    rewrite !(decide_False (P := "("%char = "%"%char)) by done.
    rewrite !(decide_True (P := "("%char = "("%char)) by done.
    rewrite parse_field by (apply word_no_paren, Hl; by left). by rewrite IH'.
Qed.

Lemma findall_escape s : findall (escape s) = findall s.
Proof.
  unfold findall. rewrite (m4_escape None s) by done.
  generalize (m4 None s). intros l. induction l as [|p l IH]; [done|]. cbn [map concat].
  rewrite omap_app, IH. destruct p as [c|n]; cbn [escape_piece]; [by case_decide|done].
Qed.
Lemma elem_of_findall n s : n ∈ findall s <-> Var n ∈ m4 None s.
Proof.
  unfold findall. rewrite list_elem_of_omap. split.
  - intros ([c|n'] & Hin & E); [done|]. by injection E as ->.
  - intros Hin. by exists (Var n).
Qed.

Lemma render_pieces env l :
  (forall n, Var n ∈ l -> is_Some (field env n)) ->
  render env (map symbol l) = Ok (str_join "" (map (piece_value env) l)).
Proof.
  induction l as [|p l IH]; intros Hl; [done|]. cbn [map]. rewrite str_join_nil_cons.
  assert (IH' : render env (map symbol l) = Ok (str_join "" (map (piece_value env) l))).
  { apply IH. intros n Hn. apply Hl. by right. }
  destruct p as [c|n]; cbn [symbol render piece_value].
  - by rewrite IH'.
  - destruct (Hl n) as [x Hx]; [by left|]. by rewrite Hx, IH'.
Qed.
Lemma render_missing env l n : Var n ∈ l -> field env n = None ->
  exists n', Var n' ∈ l /\ field env n' = None /\ render env (map symbol l) = Raise (FieldMissing n').
Proof.
  induction l as [|p l IH]; [by intros ?%elem_of_nil|]. intros Hin Hn.
  assert (Hrest : Var n ∈ l -> (forall l', render env (map symbol l) = Raise l' ->
      render env (map symbol (p :: l)) = Raise l') -> exists n', Var n' ∈ p :: l /\
      field env n' = None /\ render env (map symbol (p :: l)) = Raise (FieldMissing n')).
  { intros Hl Hr. destruct (IH Hl Hn) as (n' & H1 & H2 & H3). exists n'. split; [by right|].
    split; [done|]. by apply Hr. }
  destruct p as [c|k].
  - apply elem_of_cons in Hin as [?|Hin]; [done|]. apply Hrest; [done|]. intros e He. cbn. by rewrite He.
  - destruct (field env k) as [x|] eqn:E.
    + apply elem_of_cons in Hin as [[= ->]|Hin]; [congruence|]. apply Hrest; [done|].
      intros e He. cbn. by rewrite E, He.
    + exists k. split; [by left|]. split; [done|]. cbn. by rewrite E.
Qed.

Lemma subst_dict_names get_flat code : (subst_dict get_flat [] code).*1 = findall code.
Proof. unfold subst_dict. induction (findall code) as [|x l IH]; [done|]. cbn. by f_equal. Qed.

(** C31: the output of the substitution is the input with each [@NAME@] replaced by its
    value and every other character, percent signs included, kept; without a dictionary
    every name has a value, and with one that lacks a name it raises the [KeyError]. *)
Theorem subst_func_spec (get_flat : string -> string) (di : fields) (code : string) :
  let env := subst_dict get_flat di code in
  (di = [] -> forall n, n ∈ findall code -> is_Some (field env n)) /\
  ((forall n, n ∈ findall code -> is_Some (field env n)) ->
     subst_func get_flat di code = Ok (str_join "" (map (piece_value env) (m4 None code)))) /\
  (forall n, n ∈ findall code -> field env n = None -> exists n', n' ∈ findall code /\
     field env n' = None /\ subst_func get_flat di code = Raise (FieldMissing n')).
Proof.
  intros env.
  assert (Henv : subst_dict get_flat di (escape code) = env).
  { unfold env, subst_dict. by rewrite findall_escape. }
  assert (Hrun : subst_func get_flat di code = render env (map symbol (m4 None code))).
  { unfold subst_func, format, m4_sub. rewrite Henv, (m4_escape None code) by done.
    rewrite parse_pieces; [done|]. intros n. by apply (m4_names None). }
  rewrite Hrun. split; [|split].
  - intros -> n Hn. unfold env. apply field_is_Some.
    by rewrite subst_dict_names.
  - intros Hall. apply render_pieces. intros n Hn%elem_of_findall. by apply Hall.
  - intros n Hn%elem_of_findall Hf. destruct (render_missing env _ n Hn Hf) as (n' & H1 & H2 & H3).
    exists n'. by rewrite elem_of_findall.
Qed.

(** ** What a command reads and writes *)

Section CommandSpec.
Context `{Nodes}.

Lemma map_res_inv {E A B} (f : A -> res E B) l l' : map_res f l = Ok l' -> Forall2 (fun x y => f x = Ok y) l l'.
Proof.
  revert l'. induction l as [|x l IH]; intros l'; cbn; [by intros [= <-]|].
  rewrite res_bind_ok. intros (y & Hy & Hr). rewrite res_bind_ok in Hr. destruct Hr as (ys & Hys & [= <-]).
  constructor; [done|by apply IH].
Qed.
Lemma elem_of_arg_nodes k t n args : k = InputFile \/ k = OutputFile ->
  NodeArg k t n ∈ args -> n ∈ arg_nodes k args.
Proof.
  intros Hk Hin. apply list_elem_of_omap. exists (NodeArg k t n). split; [done|]. by destruct Hk as [-> | ->].
Qed.

Lemma hidden_found (find : string -> option node) s names l : hidden find names = Ok l ->
  s ∈ names -> exists n, find s = Some n /\ n ∈ l.
Proof.
  unfold hidden. intros Hl%map_res_inv Hs. apply list_elem_of_lookup in Hs as [i Hi].
  destruct (Forall2_lookup_l _ _ _ _ _ Hl Hi) as (n & Hn & Hf).
  destruct (find s) as [n'|]; [|done]. injection Hf as ->. exists n. split; [done|].
  by eapply list_elem_of_lookup_2.
Qed.
Lemma optional_found find name o s : optional find name = Ok o -> name = Some s ->
  exists n, find s = Some n /\ o = Some n.
Proof.
  intros Ho ->. cbn in Ho. destruct (find s) as [n|]; [|done]. injection Ho as <-. by exists n.
Qed.
(** A file argument that was found: its node, and its path on the command line. *)
Lemma argument_found (argv : list cmd_arg) args paths k name template :
  map_res find_node argv = Ok args -> map_res (get_path true) args = Ok paths ->
  FileArg k name template ∈ argv -> exists n path,
    NodeArg k template n ∈ args /\ fill_template template (abspath_of n) = Ok path /\ path ∈ paths /\
    match k with
    | InputFile => find_resource name = Some n
    | OutputFile => find_or_declare name = Some n
    | _ => find_dir name = Some n
    end.
Proof.
  intros Hargs%map_res_inv Hpaths%map_res_inv [i Hi]%list_elem_of_lookup.
  destruct (Forall2_lookup_l _ _ _ _ _ Hargs Hi) as (fa & Hfa & Hfind).
  destruct (Forall2_lookup_l _ _ _ _ _ Hpaths Hfa) as (path & Hpath & Hget).
  apply list_elem_of_lookup_2 in Hfa, Hpath. cbn in Hfind.
  destruct k; [destruct (find_resource name) as [n|]|destruct (find_or_declare name) as [n|]
    |destruct (find_dir name) as [n|]|destruct (find_dir name) as [n|]];
    try done; injection Hfind as <-; by exists n, path.
Qed.

(** Every file the command gets by its arguments. *)
Definition names_file (g : generator) (k : arg_kind) (name template : string) : Prop :=
  FileArg k name template ∈ argv g.

(** When the task can be made and run, it runs in the directory of the build, whatever
    the generator asks for; each file argument is on the command line as its absolute path
    in its template, and is an input or an output of the task, as it is declared; so are the
    files of the streams and the hidden files; and a command of the tree is a dependency. *)
Theorem command_output_spec (variant_dir : string) (g : generator) (t : task) (p : popen)
    (Ht : apply_cmd_output variant_dir g = Ok t) (Hp : run t = Ok p) :
  p_cwd p = Some variant_dir /\
  (forall k name template, names_file g k name template -> exists n path,
     fill_template template (abspath_of n) = Ok path /\ path ∈ p_argv p /\
     match k with
     | InputFile => find_resource name = Some n /\ n ∈ inputs t
     | OutputFile => find_or_declare name = Some n /\ n ∈ outputs t
     | _ => find_dir name = Some n
     end) /\
  (forall s, stdin g = Some s -> exists n, find_resource s = Some n /\ n ∈ inputs t /\
     p_stdin p = Some (abspath_of n)) /\
  (forall s, stdout g = Some s -> exists n, find_or_declare s = Some n /\ n ∈ outputs t /\
     p_stdout p = Some (abspath_of n)) /\
  (forall s, stderr g = Some s -> exists n, find_or_declare s = Some n /\ n ∈ outputs t /\
     p_stderr p = Some (abspath_of n)) /\
  (forall s, s ∈ hidden_inputs g -> exists n, find_resource s = Some n /\ n ∈ inputs t) /\
  (forall s, s ∈ hidden_outputs g -> exists n, find_or_declare s = Some n /\ n ∈ outputs t) /\
  (exists c, command g = Some c /\ if command_is_external g then head (p_argv p) = Some c
     else exists n, find_resource c = Some n /\ dep_nodes t = [n] /\ head (p_argv p) = Some (abspath_of n)) /\
  (no_inputs g = false -> inputs t <> []) /\ (no_outputs g = false -> outputs t <> []).
Proof.
  unfold apply_cmd_output in Ht. destruct (command g) as [c|]; [|done].
  apply res_bind_ok in Ht as ([cmd cmd_node] & Hcmd & Ht).
  apply res_bind_ok in Ht as (args & Hargs & Ht).
  apply res_bind_ok in Ht as (out & Hout & Ht). apply res_bind_ok in Ht as (err & Herr & Ht).
  apply res_bind_ok in Ht as (inp & Hinp & Ht).
  apply res_bind_ok in Ht as (hin & Hhin & Ht).
  apply res_bind_ok in Ht as (hout & Hhout & Ht). cbv zeta in Ht.
  set (ins := arg_nodes InputFile args ++ option_list inp ++ hin) in *.
  set (outs := arg_nodes OutputFile args ++ option_list out ++ option_list err ++ hout) in *.
  assert (Hio : t = {| t_command := cmd; command_args := args; t_stdin := inp; t_stdout := out;
      t_stderr := err; t_cwd := Some variant_dir; dep_nodes := cmd_node; inputs := ins; outputs := outs;
      dep_vars := g_dep_vars g; always_run := match ins with [] => true | _ => false end |} /\
    (no_inputs g = false -> ins <> []) /\ (no_outputs g = false -> outs <> [])).
  { destruct ins as [|i ins'], (no_inputs g), outs as [|o outs'], (no_outputs g); try done;
      injection Ht as <-; by split_and!. }
  clear Ht. destruct Hio as (-> & Hni & Hno). unfold run in Hp. cbn in Hp.
  apply res_bind_ok in Hp as (paths & Hpaths & [= <-]). cbn.
  split; [done|]. split_and!; try done.
  - intros k name template Hin.
    destruct (argument_found (argv g) args paths k name template Hargs Hpaths Hin)
      as (n & path & Hn & Hpath & Hin' & Hfind).
    exists n, path. split; [done|]. split; [by right|]. unfold ins, outs.
    destruct k; try done; (split; [done|apply elem_of_app; left; eapply elem_of_arg_nodes; eauto]).
  - intros s Hs. destruct (optional_found _ _ _ _ Hinp Hs) as (n & Hn & ->). exists n. unfold ins. set_solver.
  - intros s Hs. destruct (optional_found _ _ _ _ Hout Hs) as (n & Hn & ->). exists n. unfold outs. set_solver.
  - intros s Hs. destruct (optional_found _ _ _ _ Herr Hs) as (n & Hn & ->). exists n. unfold outs. set_solver.
  - intros s Hs. destruct (hidden_found _ _ _ _ Hhin Hs) as (n & Hn & Hl). exists n. unfold ins. set_solver.
  - intros s Hs. destruct (hidden_found _ _ _ _ Hhout Hs) as (n & Hn & Hl). exists n. unfold outs. set_solver.
  - exists c. split; [done|]. destruct (command_is_external g).
    + by injection Hcmd as <- <-.
    + destruct (find_resource c) as [n|]; [|done]. injection Hcmd as <- <-. by exists n.
Qed.
End CommandSpec.

(** ** On concrete tasks *)

Lemma subst_func_spec_witness :
  subst_func (fun n => n +:+ "!") [] "prefix=@PREFIX@, 5% of a@b" = Ok "prefix=PREFIX!, 5% of a@b".
Proof.
  destruct (subst_func_spec (fun n => n +:+ "!") [] "prefix=@PREFIX@, 5% of a@b") as (H1 & H2 & _).
  exact (H2 (H1 eq_refl)).
Defined.

(** A tree in which every file is found. *)
#[local] Instance demo_nodes : Nodes :=
  {| node := string; find_resource := Some; find_or_declare := Some; find_dir := Some;
     abspath_of := fun n => "/src/" +:+ n; bldpath := id; srcpath := id |}.
Definition demo_generator : generator :=
  {| command := Some "cp"; command_is_external := true;
     argv := [PlainArg "-p"; FileArg InputFile "a.in" "%s"; FileArg OutputFile "b" "--out=%s"];
     stdin := None; stdout := Some "log"; stderr := None; hidden_inputs := ["conf"]; hidden_outputs := [];
     g_dep_vars := []; cwd := Some "elsewhere"; no_inputs := false; no_outputs := false |}.
Lemma command_output_spec_witness :
  exists t p, apply_cmd_output "build" demo_generator = Ok t /\ run t = Ok p /\
    p_argv p = ["cp"; "-p"; "/src/a.in"; "--out=/src/b"] /\ p_cwd p = Some "build".
Proof.
  eexists _, _. split; [vm_compute; reflexivity|]. split; [vm_compute; reflexivity|].
  split; [reflexivity|].
  exact (proj1 (command_output_spec "build" demo_generator _ _ eq_refl eq_refl)).
Defined.

(** The message for a file that is missing cannot be formatted. *)
Lemma missing_file_is_type_error `{Nodes} k name template :
  find_resource name = None -> find_or_declare name = None -> find_dir name = None ->
  find_node (FileArg k name template) = Raise WafTypeError.
Proof. intros H1 H2 H3. cbn. by destruct k; rewrite ?H1, ?H2, ?H3. Qed.
