(* ===== verification/Cflags.v ===== *)
(** * Compiler flags: [src/waf-tools/cflags.py]

    The traits of the compilers, the build profiles, and [configure], which adds the flags
    of the chosen profile that the compiler supports to the environment.  Whether it
    supports a flag is what [check_cxx] finds out, an argument. *)

From S2P Require Import Prelude PyLib.
From Stdlib Require Import Ascii String.
From stdpp Require Import strings.
Open Scope string_scope.
Open Scope nat_scope.
Open Scope list_scope.

(** ** Compilers *)

(** [CompilerTraits].  A level out of range has no flags: the method returns [None]. *)
Class CompilerTraits (C : Type) := {
  get_compiler_flags : C -> list string;
  warnings_flags : C -> list (list string);
  get_optimization_flags : C -> Z -> option (list string);
  get_debug_flags : C -> Z -> option (list string * list string) }.

(** [get_warnings_flags], the same in each class: the lists up to the level. *)
Fixpoint collect_warnings (l : list nat) (flags : list (list string)) (warnings : list string)
    : list string :=
  match l with
  | [] => warnings
  | i :: l =>
      match flags !! i with
      | Some f => collect_warnings l flags (warnings ++ f)
      | None => warnings
      end
  end.
Definition get_warnings_flags `{CompilerTraits C} (c : C) (level : Z) : list string :=
  collect_warnings (seq 0 (Z.to_nat level)) (warnings_flags c) [].

Inductive compiler := gcc | icc | msvc.
Definition optimization_flags (c : compiler) (level : Z) : option (list string) :=
  match c with
  | gcc | icc =>
      if decide (level = 0)%Z then Some ["-O0"] else if decide (level = 1)%Z then Some ["-O"]
      else if decide (level = 2)%Z then Some ["-O2"] else if decide (level = 3)%Z then Some ["-O3"]
      else None
  | msvc =>
      if decide (level = 0)%Z then Some ["/Od"] else if decide (level = 1)%Z then Some []
      else if decide (level = 2)%Z then Some ["/O2"] else if decide (level = 3)%Z then Some ["/Ox"]
      else None
  end.
Definition debug_flags (c : compiler) (level : Z) : option (list string * list string) :=
  match c with
  | gcc | icc =>
      if decide (level = 0)%Z then Some (["-g0"], ["NDEBUG"])
      else if decide (level = 1)%Z then Some (["-g"], [])
      else if decide (2 <= level)%Z then Some (["-ggdb"; "-g3"], ["_DEBUG"]) else None
  | msvc =>
      if decide (level = 0)%Z then Some ([], ["NDEBUG"])
      else if decide (level = 1)%Z then Some (["/ZI"; "/RTC1"], [])
      else if decide (2 <= level)%Z then Some (["/ZI"; "/RTC1"], ["_DEBUG"]) else None
  end.
(** [GccTraits], [IccTraits], [MsvcTraits] *)
#[export] Instance compiler_traits : CompilerTraits compiler := {
  get_compiler_flags c := match c with gcc => ["-std=c++14"] | icc => ["/Qstd=c++14"] | msvc => [] end;
  warnings_flags c :=
    match c with
    | gcc => [["-Wall"; "-Wno-error=deprecated-declarations"; "-fstrict-aliasing"; "-Wstrict-aliasing"]]
    | icc => [[]; []; ["-Wall"]]
    | msvc => [["/W2"]; ["/WX"]; ["/Wall"]]
    end;
  get_optimization_flags := optimization_flags;
  get_debug_flags := debug_flags }.

Definition compiler_mapping : gmap string compiler := list_to_map
  [("gcc", gcc); ("g++", gcc); ("msvc", msvc); ("icc", icc); ("icpc", icc); ("clang", gcc); ("clang++", gcc)].
(** The levels of optimization, warnings and debugging. *)
Definition profiles : gmap string (Z * Z * Z) := list_to_map
  [("default", (2, 1, 1)%Z); ("debug", (0, 2, 3)%Z); ("release", (3, 1, 0)%Z)].
Definition default_profile : string := "default".
(** [options]: the assertion, and the values that the option allows. *)
Definition options `{!DictOrder string} : res unit (list string) :=
  if has_key profiles default_profile then Ok (dict_keys profiles) else Raise tt.

(** ** Configuration *)

(** The environment of the configuration: a variable that is not set is empty. *)
Abbreviation env := (gmap string (list string)).
Definition get (e : env) (k : string) : list string := default [] (e !! k).
Definition append_value (k : string) (v : list string) (e : env) : env := <[k := get e k ++ v]> e.
Inductive conf_exn := WafError | NoProfile | NotIterable.
Definition optional_flags {A} (o : option A) : res conf_exn A :=
  match o with Some x => Ok x | None => Raise NotIterable end.

Section Configure.
(** [check_cxx(cxxflags=['-Werror', flag])] *)
Context (check_cxx : list string -> bool).
Definition get_supported_cxxflags (cxxflags : list string) : list string :=
  List.filter (fun flag => check_cxx ["-Werror"; flag]) cxxflags.

(** The traits for the names of the two compilers: the first that is known. *)
Definition find_compiler (cc cxx : option string) : option compiler :=
  match cc ≫= (fun c => compiler_mapping !! c) with
  | Some c => Some c
  | None => cxx ≫= (fun c => compiler_mapping !! c)
  end.
Definition compiler_name (e : env) (k : string) : option string :=
  match get e k with [] => None | s :: _ => if decide (s = "") then None else Some s end.

(** [configure]: the environment after it. *)
Definition configure (build_profile : string) (disable_werror : bool) (e : env) : res conf_exn env :=
  let cc := compiler_name e "COMPILER_CC" in
  let cxx := compiler_name e "COMPILER_CXX" in
  match cc, cxx with
  | None, None => Raise WafError
  | _, _ =>
      match find_compiler cc cxx with
      | None => Ok e
      | Some compiler =>
          match profiles !! build_profile with
          | None => Raise NoProfile
          | Some (opt_level, warn_level, dbg_level) =>
              let compilerFlags := get_supported_cxxflags (get_compiler_flags compiler) in
              let* o := optional_flags (get_optimization_flags compiler opt_level) in
              let optimizations := get_supported_cxxflags o in
              let* (d, debug_defs) := optional_flags (get_debug_flags compiler dbg_level) in
              let debug := get_supported_cxxflags d in
              let warnings := get_supported_cxxflags (get_warnings_flags compiler warn_level) in
              let warnings := if disable_werror then list_remove "-Werror" warnings else warnings in
              let e :=
                if (bool_decide (is_Some cc) && bool_decide (get e "CCFLAGS" = []))%bool then
                  append_value "CCDEFINES" debug_defs
                    (append_value "CCFLAGS" warnings
                      (append_value "CCFLAGS" debug (append_value "CCFLAGS" optimizations e)))
                else e in
              Ok (if (bool_decide (is_Some cxx) && bool_decide (get e "CXXFLAGS" = []))%bool then
                    append_value "CXXDEFINES" debug_defs
                      (append_value "CXXFLAGS" warnings
                        (append_value "CXXFLAGS" debug
                          (append_value "CXXFLAGS" optimizations
                            (append_value "CXXFLAGS" compilerFlags e))))
                  else e)
          end
      end
  end.
End Configure.

(** ** What a configuration adds *)

Lemma get_append k k' v e : get (append_value k v e) k' = get e k' ++ (if decide (k' = k) then v else []).
Proof.
  unfold get, append_value. case_decide as Hk; subst.
  - by rewrite lookup_insert_eq.
  - by rewrite lookup_insert_ne, app_nil_r by congruence.
Qed.

Lemma collect_take n k flags ws : collect_warnings (seq k n) flags ws = ws ++ concat (take n (drop k flags)).
Proof.
  revert k ws. induction n as [|n IH]; intros k ws; [cbn; by rewrite app_nil_r|]. cbn.
  destruct (flags !! k) as [f|] eqn:E.
  - rewrite IH, (drop_S _ _ _ E). cbn. by rewrite app_assoc.
  - apply lookup_ge_None in E. rewrite drop_ge by done. cbn. by rewrite app_nil_r.
Qed.

(** The flags of a profile and its definitions, from the tables. *)
Record profile_flags (c : compiler) (levels : Z * Z * Z) (o d w defs : list string) : Prop := {
  flags_opt : optimization_flags c levels.1.1 = Some o;
  flags_debug : debug_flags c levels.2 = Some (d, defs);
  flags_warn : w = concat (take (Z.to_nat levels.1.2) (warnings_flags c)) }.

(** Every profile has all its flags for every compiler. *)
Lemma profiles_total c p levels : profiles !! p = Some levels ->
  exists o d w defs, profile_flags c levels o d w defs.
Proof.
  intros Hp. assert (Hin : levels ∈ [(2, 1, 1)%Z; (0, 2, 3)%Z; (3, 1, 0)%Z]).
  { unfold profiles in Hp. apply elem_of_list_to_map_2 in Hp.
    by apply (list_elem_of_fmap_2 snd) in Hp. }
  revert Hin. rewrite !elem_of_cons, elem_of_nil.
  intros [-> |[-> |[-> |[]]]]; destruct c; eexists _, _, _, _; by split.
Qed.

Section ConfigureSpec.
Context (check_cxx : list string -> bool).
Abbreviation supported := (get_supported_cxxflags check_cxx).

(** What the variables of a language become. *)
Definition extended (on : bool) (e e' : env) (flags defs : string) (f d : list string) : Prop :=
  if on then get e' flags = f /\ get e' defs = get e defs ++ d
  else get e' flags = get e flags /\ get e' defs = get e defs.

Lemma list_remove_absent {A} `{EqDecision A} (x : A) l : x ∉ l -> list_remove x l = l.
Proof.
  induction l as [|y l IH]; [done|]. intros [Hx Hl]%not_elem_of_cons. cbn. rewrite decide_False by done.
  by rewrite IH.
Qed.

Lemma no_werror c n : "-Werror" ∉ concat (take n (warnings_flags c)).
Proof.
  assert (Hall : "-Werror" ∉ concat (warnings_flags c)).
  { apply (bool_decide_unpack _). destruct c; vm_compute; exact I. }
  intros Hin. apply Hall. rewrite <- (take_drop n (warnings_flags c)), concat_app. apply elem_of_app. by left.
Qed.

(** With a compiler that is known and a profile of the table, the configuration
    succeeds and adds, for each language whose flags the user has not set, the flags of
    the profile that the compiler supports, in their order, and its definitions; a
    language whose flags are set, and every other variable, is left as it is.  Whether
    [-Werror] is disabled makes no difference. *)
Theorem configure_spec (build_profile : string) (disable_werror : bool) (e : env) (c : compiler)
    (levels : Z * Z * Z) (cc cxx : option string)
    (Hcc : compiler_name e "COMPILER_CC" = cc) (Hcxx : compiler_name e "COMPILER_CXX" = cxx)
    (Hc : find_compiler cc cxx = Some c) (Hp : profiles !! build_profile = Some levels) :
  exists o d w defs e', profile_flags c levels o d w defs /\
    configure check_cxx build_profile disable_werror e = Ok e' /\
    extended (bool_decide (is_Some cc) && bool_decide (get e "CCFLAGS" = []))%bool e e'
      "CCFLAGS" "CCDEFINES" (supported (o ++ d ++ w)) defs /\
    extended (bool_decide (is_Some cxx) && bool_decide (get e "CXXFLAGS" = []))%bool e e'
      "CXXFLAGS" "CXXDEFINES" (supported (get_compiler_flags c ++ o ++ d ++ w)) defs /\
    (forall k, k ∉ ["CCFLAGS"; "CCDEFINES"; "CXXFLAGS"; "CXXDEFINES"] -> get e' k = get e k).
Proof.
  destruct (profiles_total c build_profile levels Hp) as (o & d & w & defs & Hf).
  pose proof Hf as [Ho Hd Hw]. destruct levels as [[ol wl] dl]. cbn in Ho, Hd, Hw.
  exists o, d, w, defs. unfold configure. rewrite Hcc, Hcxx, Hc, Hp.
  assert (Hww : get_warnings_flags c wl = w).
  { unfold get_warnings_flags. rewrite collect_take, drop_0. by rewrite Hw. }
  assert (Hsup : (if disable_werror then list_remove "-Werror" (supported w) else supported w) = supported w).
  { destruct disable_werror; [|done]. apply list_remove_absent. intros Hin.
    unfold get_supported_cxxflags in Hin. apply list_elem_of_In, filter_In in Hin as [Hin _].
    apply list_elem_of_In in Hin. rewrite Hw in Hin. by apply no_werror in Hin. }
  assert (Happ : forall a b, supported (a ++ b) = supported a ++ supported b).
  { intros a b. unfold get_supported_cxxflags. by rewrite List.filter_app. }
  cbn [get_optimization_flags get_debug_flags compiler_traits]. rewrite Ho, Hd. cbn [optional_flags res_bind].
  rewrite Hww, Hsup, !Happ.
  set (b1 := (bool_decide (is_Some cc) && bool_decide (get e "CCFLAGS" = []))%bool).
  set (e1 := if b1 then _ else e).
  assert (He1 : forall k, k <> "CCFLAGS" -> k <> "CCDEFINES" -> get e1 k = get e k).
  { intros k H1 H2. unfold e1. destruct b1; [|done]. rewrite !get_append.
    rewrite !decide_False by done. by rewrite !app_nil_r. }
  rewrite (He1 "CXXFLAGS") by done.
  set (b2 := (bool_decide (is_Some cxx) && bool_decide (get e "CXXFLAGS" = []))%bool).
  set (e2 := if b2 then _ else e1).
  exists e2. split; [done|]. split; [destruct cc as [?|], cxx as [?|]; [reflexivity..|discriminate Hc]|].
  assert (He2 : forall k, k <> "CXXFLAGS" -> k <> "CXXDEFINES" -> get e2 k = get e1 k).
  { intros k H1 H2. unfold e2. destruct b2; [|done]. rewrite !get_append.
    rewrite !decide_False by done. by rewrite !app_nil_r. }
  split; [|split].
  - unfold extended. rewrite !He2 by done. unfold e1. destruct b1 eqn:E; [|done].
    apply andb_true_iff in E as [_ E%bool_decide_eq_true]. rewrite !get_append, E. cbn.
    by rewrite ?app_nil_r, <- ?app_assoc.
  - unfold extended, e2. destruct b2 eqn:E; [|by rewrite !He1 by done].
    apply andb_true_iff in E as [_ E%bool_decide_eq_true]. rewrite !get_append, !He1, E by done. cbn.
    by rewrite ?app_nil_r, <- ?app_assoc.
  - intros k Hk. rewrite !not_elem_of_cons in Hk. rewrite He2, He1 by tauto. done.
Qed.
End ConfigureSpec.

(** A configuration with a C++ compiler alone. *)
Definition demo_env : env := {["COMPILER_CXX" := ["g++"]]}.
Lemma configure_spec_witness :
  (compiler_name demo_env "COMPILER_CC" = None /\ compiler_name demo_env "COMPILER_CXX" = Some "g++") /\
  exists e', configure (fun f => bool_decide (f <> ["-Werror"; "-fstrict-aliasing"])) "debug" true demo_env = Ok e' /\
    get e' "CXXDEFINES" = ["_DEBUG"].
Proof.
  split; [by split; vm_compute|].
  destruct (configure_spec (fun f => bool_decide (f <> ["-Werror"; "-fstrict-aliasing"])) "debug" true demo_env
    gcc (0, 2, 3)%Z None (Some "g++") eq_refl eq_refl eq_refl eq_refl)
    as (o & d & w & defs & e' & [_ Hd _] & Hrun & _ & [_ Hdefs] & _).
  exists e'. split; [exact Hrun|]. vm_compute in Hd. injection Hd as <- <-. exact Hdefs.
Defined.

(** The debug profile asks for two levels of warnings, of which gcc has one. *)
Lemma gcc_warning_levels n : (1 <= n)%Z -> get_warnings_flags gcc n = get_warnings_flags gcc 1.
Proof.
  intros Hn. unfold get_warnings_flags. rewrite !collect_take, !drop_0. cbn [app].
  rewrite !take_ge; [done|cbn; lia..].
Qed.
