(* ===== verification/VizThread.v ===== *)
(** * The simulation thread of the visualizer: [src/src/visualizer/visualizer/core.py]

    [SimulationThread.run] against the handlers of the main thread, which share a lock, an
    event and some attributes: [update_view_timeout] with its timer, [_quit], and the handlers
    that hold the lock around what they do.  A step is one access to what the threads
    share.  The handlers of the main thread form a stack, since [update_view_timeout] runs the
    loop of Gtk while it tries to get the lock.  How far the simulator gets is a parameter;
    [update_view] is taken not to raise. *)

From S2P Require Import Prelude.
From Stdlib Require Import QArith Qminmax.
From stdpp Require Import strings.
Local Open Scope nat_scope.
Local Open Scope list_scope.

Inductive thread := View | Sim.
(** Where [SimulationThread.run] is. *)
Inductive sim_pc := AtLoop | Waiting | Clearing | Testing | Acquiring | Running | Collecting
  | Notifying | Releasing | Exited.
(** [update_view_timeout]: trying to get the lock, running the loop of Gtk meanwhile, taking the
    messages, updating the view, releasing the lock, and what it does after it. *)
Inductive timeout_pc := Trying | Pumping | Taking | Updating (messages : list string)
  | Unlocking (messages : list string) | Finishing (messages : list string).
(** A handler of the main thread: the timer's; one that acquires the lock around its body
    ([update_model], [set_nodes_of_interest], [begin_node_drag], [node_drag_motion],
    [tooltip_query], [add_information_window]); and [_quit] before and in [join]. *)
Inductive frame := Timeout (id : nat) (pc : timeout_pc) | Blocked | Holding | Quitting | Joining.

(** What [SimulationThread] keeps.  [produced] is no attribute: all the messages that the simulator
    has ever made. *)
Record simulation := mkSimulation {
  lock : option thread; go : bool; quit : bool; target_time : Q; now : Q;
  helper_messages : list string; pause_messages : list string; model_updates : nat;
  pc : sim_pc; produced : list string }.
(** What the main thread keeps: its handlers, whether its loop is left, the button, the timer
    and the timers that GLib knows, the removals of others, the messages shown. *)
Record view := mkView {
  frames : list frame; closed : bool; play : bool; timeout_id : option nat; sources : list nat;
  next_id : nat; bad_removes : list nat; sample_period : Q; shown : list string }.
Record viz := mkViz { sim : simulation; gui : view }.

Definition set_pc (p : sim_pc) (s : simulation) : simulation :=
  mkSimulation (lock s) (go s) (quit s) (target_time s) (now s) (helper_messages s) (pause_messages s)
    (model_updates s) p (produced s).
Definition set_go (b : bool) (s : simulation) : simulation :=
  mkSimulation (lock s) b (quit s) (target_time s) (now s) (helper_messages s) (pause_messages s)
    (model_updates s) (pc s) (produced s).
Definition set_quit (s : simulation) : simulation :=
  mkSimulation (lock s) (go s) true (target_time s) (now s) (helper_messages s) (pause_messages s)
    (model_updates s) (pc s) (produced s).
Definition set_lock (t : option thread) (s : simulation) : simulation :=
  mkSimulation t (go s) (quit s) (target_time s) (now s) (helper_messages s) (pause_messages s)
    (model_updates s) (pc s) (produced s).
Definition set_target (t : Q) (s : simulation) : simulation :=
  mkSimulation (lock s) (go s) (quit s) t (now s) (helper_messages s) (pause_messages s)
    (model_updates s) (pc s) (produced s).
Definition take_messages (s : simulation) : simulation :=
  mkSimulation (lock s) (go s) (quit s) (target_time s) (now s) (helper_messages s) []
    (model_updates s) (pc s) (produced s).
Definition take_update (n : nat) (s : simulation) : simulation :=
  mkSimulation (lock s) (go s) (quit s) (target_time s) (now s) (helper_messages s) (pause_messages s)
    n (pc s) (produced s).
Definition run_to (t : Q) (messages : list string) (s : simulation) : simulation :=
  mkSimulation (lock s) (go s) (quit s) (target_time s) t (helper_messages s ++ messages) (pause_messages s)
    (model_updates s) Collecting (produced s ++ messages).
Definition collect (s : simulation) : simulation :=
  mkSimulation (lock s) (go s) (quit s) (target_time s) (now s) []
    (pause_messages s ++ helper_messages s) (model_updates s) Notifying (produced s).

Definition set_frames (fs : list frame) (v : view) : view :=
  mkView fs (closed v) (play v) (timeout_id v) (sources v) (next_id v) (bad_removes v)
    (sample_period v) (shown v).
Definition set_closed (v : view) : view :=
  mkView (frames v) true (play v) (timeout_id v) (sources v) (next_id v) (bad_removes v)
    (sample_period v) (shown v).
Definition set_play (b : bool) (v : view) : view :=
  mkView (frames v) (closed v) b (timeout_id v) (sources v) (next_id v) (bad_removes v)
    (sample_period v) (shown v).
Definition set_timeout_id (i : option nat) (v : view) : view :=
  mkView (frames v) (closed v) (play v) i (sources v) (next_id v) (bad_removes v)
    (sample_period v) (shown v).
Definition set_sources (l : list nat) (v : view) : view :=
  mkView (frames v) (closed v) (play v) (timeout_id v) l (next_id v) (bad_removes v)
    (sample_period v) (shown v).
Definition set_period (p : Q) (v : view) : view :=
  mkView (frames v) (closed v) (play v) (timeout_id v) (sources v) (next_id v) (bad_removes v) p (shown v).
Definition show (messages : list string) (v : view) : view :=
  mkView (frames v) (closed v) (play v) (timeout_id v) (sources v) (next_id v) (bad_removes v)
    (sample_period v) (shown v ++ messages).

(** ** Timers *)

(** [GLib.source_remove]: removing a source that is not there is an error of the program,
    which GLib reports. *)
Definition source_remove (i : nat) (v : view) : view :=
  if decide (i ∈ sources v) then set_sources (filter (fun j => j <> i) (sources v)) v
  else mkView (frames v) (closed v) (play v) (timeout_id v) (sources v) (next_id v)
         (bad_removes v ++ [i]) (sample_period v) (shown v).
Definition remove_timer (v : view) : view :=
  match timeout_id v with Some i => source_remove i v | None => v end.
(** [_start_update_timer] *)
Definition start_update_timer (v : view) : view :=
  let v := remove_timer v in
  mkView (frames v) (closed v) (play v) (Some (next_id v)) (next_id v :: sources v) (S (next_id v))
    (bad_removes v) (sample_period v) (shown v).
(** [_on_play_button_toggled], after the button has changed. *)
Definition on_play_button_toggled (active : bool) (v : view) : view :=
  let v := set_play active v in
  if active then start_update_timer v else remove_timer v.
(** [play_button.set_active(False)]: the handler runs if this is a change. *)
Definition stop_playing (v : view) : view := if play v then on_play_button_toggled false v else v.

(** What [update_view_timeout] does after it has released the lock; its result says whether the timer
    goes on. *)
Definition finish (id : nat) (messages : list string) (v : view) : bool * view :=
  let v := match messages with [] => v | _ => stop_playing (show messages v) end in
  if play v then (true, v)
  else (false, set_sources (filter (fun j => j <> id) (sources v)) (set_timeout_id None v)).

(** ** Steps *)

Section Threads.
(** The time the simulator gets to from a time and a target, and the messages it makes. *)
Context (run_until : Q -> Q -> Q -> list string -> Prop).

(** [SimulationThread.run] *)
Inductive sim_step : simulation -> simulation -> Prop :=
  | LoopOn s : pc s = AtLoop -> quit s = false -> sim_step s (set_pc Waiting s)
  | LoopEnd s : pc s = AtLoop -> quit s = true -> sim_step s (set_pc Exited s)
  | Wake s : pc s = Waiting -> go s = true -> sim_step s (set_pc Clearing s)
  | ClearGo s : pc s = Clearing -> sim_step s (set_pc Testing (set_go false s))
  | Break s : pc s = Testing -> quit s = true -> sim_step s (set_pc Exited s)
  | NoBreak s : pc s = Testing -> quit s = false -> sim_step s (set_pc Acquiring s)
  | SimLock s : pc s = Acquiring -> lock s = None -> sim_step s (set_pc Running (set_lock (Some Sim) s))
  | RunUntil s t messages : pc s = Running -> run_until (now s) (target_time s) t messages ->
      sim_step s (run_to t messages s)
  | Collect s : pc s = Collecting -> sim_step s (collect s)
  | Notify s : pc s = Notifying -> sim_step s (set_pc Releasing (take_update (S (model_updates s)) s))
  | SimUnlock s : pc s = Releasing -> sim_step s (set_pc AtLoop (set_lock None s)).

(** Handlers start in the loop of Gtk, which runs while no handler does, or within the timer's. *)
Definition in_gtk_loop (v : view) : Prop :=
  match frames v with
  | [] => closed v = false
  | Timeout _ Pumping :: _ => True
  | _ => False
  end.
Definition push (f : frame) (v : view) : view := set_frames (f :: frames v) v.
Definition is_timeout (id : nat) (f : frame) : Prop := match f with Timeout i _ => i = id | _ => False end.

(** The start of a handler. *)
Inductive event : viz -> viz -> Prop :=
  | Fire s v id : in_gtk_loop v -> id ∈ sources v -> Forall (fun f => ~ is_timeout id f) (frames v) ->
      event (mkViz s v) (mkViz s (push (Timeout id Trying) v))
  | UpdateModel s v n : in_gtk_loop v -> model_updates s = S n ->
      event (mkViz s v) (mkViz (take_update n s) (push Blocked v))
  | OtherHandler s v : in_gtk_loop v -> event (mkViz s v) (mkViz s (push Blocked v))
  | PlayButton s v : in_gtk_loop v ->
      event (mkViz s v) (mkViz s (on_play_button_toggled (negb (play v)) v))
  | SpeedChanged s v p : in_gtk_loop v ->
      event (mkViz s v) (mkViz s (start_update_timer (set_period p v)))
  | Quit s v : in_gtk_loop v ->
      event (mkViz s v) (mkViz (set_quit s) (push Quitting (set_timeout_id None (remove_timer v)))).

(** A step of the handler on top; [fs] are the ones below. *)
Inductive view_step : viz -> viz -> Prop :=
  | TryFails s v id fs : frames v = Timeout id Trying :: fs -> lock s <> None ->
      view_step (mkViz s v) (mkViz s (set_frames (Timeout id Pumping :: fs) v))
  | TryAgain s v id fs : frames v = Timeout id Pumping :: fs ->
      view_step (mkViz s v) (mkViz s (set_frames (Timeout id Trying :: fs) v))
  | ViewLock s v id fs : frames v = Timeout id Trying :: fs -> lock s = None ->
      view_step (mkViz s v) (mkViz (set_lock (Some View) s) (set_frames (Timeout id Taking :: fs) v))
  | Take s v id fs : frames v = Timeout id Taking :: fs ->
      view_step (mkViz s v)
        (mkViz (take_messages s) (set_frames (Timeout id (Updating (pause_messages s)) :: fs) v))
  | Update s v id ms fs : frames v = Timeout id (Updating ms) :: fs ->
      view_step (mkViz s v)
        (mkViz (set_target (now s + sample_period v) s) (set_frames (Timeout id (Unlocking ms) :: fs) v))
  | ViewUnlock s v id ms fs : frames v = Timeout id (Unlocking ms) :: fs ->
      view_step (mkViz s v) (mkViz (set_lock None s) (set_frames (Timeout id (Finishing ms) :: fs) v))
  | Finish s v id ms fs (goes_on : bool) v' : frames v = Timeout id (Finishing ms) :: fs ->
      finish id ms v = (goes_on, v') ->
      view_step (mkViz s v) (mkViz (if goes_on then set_go true s else s) (set_frames fs v'))
  | HandlerLock s v fs : frames v = Blocked :: fs -> lock s = None ->
      view_step (mkViz s v) (mkViz (set_lock (Some View) s) (set_frames (Holding :: fs) v))
  | HandlerUnlock s v fs : frames v = Holding :: fs ->
      view_step (mkViz s v) (mkViz (set_lock None s) (set_frames fs v))
  | QuitGo s v fs : frames v = Quitting :: fs ->
      view_step (mkViz s v) (mkViz (set_go true s) (set_frames (Joining :: fs) v))
  | Joined s v fs : frames v = Joining :: fs -> pc s = Exited ->
      view_step (mkViz s v) (mkViz s (set_closed (set_frames fs v))).

Inductive step : viz -> viz -> Prop :=
  | BySim s s' v : sim_step s s' -> step (mkViz s v) (mkViz s' v)
  | ByView z z' : view_step z z' -> step z z'
  | ByEvent z z' : event z z' -> step z z'.

(** [SimulationThread.__init__] and [Visualizer.__init__], with the thread started: [_speed_changed]
    has started a timer. *)
Definition initial (period : Q) : viz :=
  mkViz (mkSimulation None false false 0 0 [] [] 0 AtLoop [])
        (mkView [] false false (Some 0) [0] 1 [] period []).
End Threads.

(** ** What holds in every state *)

Definition critical (p : sim_pc) : bool :=
  match p with Running | Collecting | Notifying | Releasing => true | _ => false end.
Definition holds_lock (f : frame) : bool :=
  match f with
  | Timeout _ (Taking | Updating _ | Unlocking _) | Holding => true
  | _ => false
  end.
Definition top_holds (fs : list frame) : bool := match fs with [] => false | f :: _ => holds_lock f end.
Definition is_pumping (f : frame) : Prop := match f with Timeout _ Pumping => True | _ => False end.
(** The messages that the handler on top has taken. *)
Definition taken (fs : list frame) : list string :=
  match fs with Timeout _ (Updating ms | Unlocking ms | Finishing ms) :: _ => ms | _ => [] end.
Definition quits (fs : list frame) : bool :=
  match fs with (Quitting | Joining) :: _ => true | _ => false end.
Definition joins (fs : list frame) : bool := match fs with Joining :: _ => true | _ => false end.

Record inv (z : viz) : Prop := {
  inv_sim : lock (sim z) = Some Sim <-> critical (pc (sim z)) = true;
  inv_view : lock (sim z) = Some View <-> top_holds (frames (gui z)) = true;
  inv_below : Forall is_pumping (tail (frames (gui z)));
  inv_messages : produced (sim z) =
    shown (gui z) ++ taken (frames (gui z)) ++ pause_messages (sim z) ++ helper_messages (sim z);
  inv_quits : quits (frames (gui z)) = true -> quit (sim z) = true;
  inv_joins : joins (frames (gui z)) = true -> pc (sim z) = Waiting -> go (sim z) = true }.

(** What the functions on timers leave alone. *)
Definition same_handlers (v v' : view) : Prop :=
  frames v' = frames v /\ closed v' = closed v /\ shown v' = shown v.
Lemma same_handlers_trans v1 v2 v3 : same_handlers v1 v2 -> same_handlers v2 v3 -> same_handlers v1 v3.
Proof. unfold same_handlers. intuition congruence. Qed.
Lemma source_remove_handlers i v : same_handlers v (source_remove i v).
Proof. unfold source_remove. by case_decide. Qed.
Lemma remove_timer_handlers v : same_handlers v (remove_timer v).
Proof. unfold remove_timer. destruct (timeout_id v); [apply source_remove_handlers|done]. Qed.
Lemma start_update_timer_handlers v : same_handlers v (start_update_timer v).
Proof. exact (remove_timer_handlers v). Qed.
Lemma on_play_button_toggled_handlers b v : same_handlers v (on_play_button_toggled b v).
Proof.
  unfold on_play_button_toggled. destruct b; [exact (start_update_timer_handlers _)|exact (remove_timer_handlers _)].
Qed.
Lemma stop_playing_handlers v : same_handlers v (stop_playing v).
Proof. unfold stop_playing. destruct (play v); [apply on_play_button_toggled_handlers|done]. Qed.
Lemma finish_handlers id ms v b v' : finish id ms v = (b, v') ->
  frames v' = frames v /\ closed v' = closed v /\ shown v' = shown v ++ ms.
Proof.
  unfold finish. set (w := match ms with [] => v | _ => stop_playing (show ms v) end).
  assert (Hw : frames w = frames v /\ closed w = closed v /\ shown w = shown v ++ ms).
  { subst w. destruct ms; [by rewrite app_nil_r|]. exact (stop_playing_handlers (show _ v)). }
  destruct (play w); by intros [= <- <-].
Qed.

Section Facts.
Context (run_until : Q -> Q -> Q -> list string -> Prop).
Abbreviation sim_step := (sim_step run_until).
Abbreviation step := (step run_until).

Lemma joins_quits fs : joins fs = true -> quits fs = true.
Proof. by destruct fs as [|[] fs]. Qed.
Lemma inv_sim_step s s' v : sim_step s s' -> inv (mkViz s v) -> inv (mkViz s' v).
Proof.
  intros Hs [H1 H2 H3 H4 H5 H6]. cbn in *. pose proof (joins_quits (frames v)) as Hj.
  destruct Hs; destruct s as [lk g q tt nw hm pm mu p pr]; cbn in *; subst;
    split; cbn; try done; try (by intuition congruence); by rewrite ?app_nil_r, <- ?app_assoc.
Qed.

(** A handler that starts has not got the lock yet. *)
Lemma in_gtk_loop_idle s v : in_gtk_loop v -> inv (mkViz s v) ->
  top_holds (frames v) = false /\ Forall is_pumping (frames v) /\ taken (frames v) = [] /\
  quits (frames v) = false.
Proof.
  intros Hl [_ _ H3 _ _ _]. cbn in H3. unfold in_gtk_loop in Hl.
  destruct (frames v) as [|[id []| | | |] fs]; try done. split_and!; try done. by constructor.
Qed.
Lemma inv_same s v v' : same_handlers v v' -> inv (mkViz s v) -> inv (mkViz s v').
Proof. intros (Ef & _ & Es) [H1 H2 H3 H4 H5 H6]. by split; cbn in *; rewrite ?Ef, ?Es. Qed.
Lemma inv_push s s' v f : in_gtk_loop v -> inv (mkViz s v) ->
  lock s' = lock s -> pc s' = pc s -> produced s' = produced s ->
  pause_messages s' = pause_messages s -> helper_messages s' = helper_messages s ->
  holds_lock f = false -> taken [f] = [] -> joins [f] = false -> (quits [f] = true -> quit s' = true) ->
  inv (mkViz s' (push f v)).
Proof.
  intros Hl Hi El Ep Er Em Eh Hf Htf Hjf Hqf. destruct (in_gtk_loop_idle s v Hl Hi) as (Ht & Hp & Htk & _).
  destruct Hi as [H1 H2 _ H4 _ _]. cbn in H1, H2, H4. rewrite Ht in H2. rewrite Htk in H4.
  split; cbn [sim gui push set_frames frames shown tail top_holds]; rewrite ?El, ?Ep, ?Er, ?Em, ?Eh, ?Hf; try done.
  - by destruct f as [? []| | | |]; cbn in *; subst.
  - by destruct f.
Qed.
Lemma inv_event z z' : event z z' -> inv z -> inv z'.
Proof.
  intros He Hi. destruct He as [s v id Hl Hin Hf|s v n Hl Hn|s v Hl|s v Hl|s v p Hl|s v Hl].
  1, 2, 3: by eapply inv_push.
  - eapply inv_same; [apply on_play_button_toggled_handlers|done].
  - apply (inv_same s v); [exact (start_update_timer_handlers (set_period p v))|done].
  - assert (Hs : same_handlers v (set_timeout_id None (remove_timer v))) by exact (remove_timer_handlers v).
    eapply inv_push; [|by eapply inv_same|done..]. destruct Hs as (Ef & Ec & _).
    unfold in_gtk_loop in *. by rewrite Ef, Ec.
Qed.

Lemma inv_view_step z z' : view_step z z' -> inv z -> inv z'.
Proof.
  intros Hs [H1 H2 H3 H4 H5 H6].
  destruct Hs as [s v id fs E Hn|s v id fs E|s v id fs E Hn|s v id fs E|s v id ms fs E|s v id ms fs E
    |s v id ms fs b v' E Hf|s v fs E Hn|s v fs E|s v fs E|s v fs E Hx]; cbn in *; rewrite E in *; cbn in *.
  all: assert (Hp : top_holds fs = false /\ taken fs = [] /\ quits fs = false /\ joins fs = false
    /\ Forall is_pumping (tail fs))
    by (destruct H3 as [|[? []| | | |] fs]; try done; by split_and!).
  all: destruct Hp as (Ht & Htk & Hq & Hj & Hb).
  7:{ apply finish_handlers in Hf as (Ef & _ & Es).
      split; destruct b; cbn; rewrite ?Ht, ?Htk, ?Hq, ?Hj, ?Es, ?H4, <- ?app_assoc; done. }
  all: split; cbn; rewrite ?Ht, ?Htk, ?Hq, ?Hj; try done; by intuition congruence.
Qed.

Lemma threads_inv_initial period : inv (initial period).
Proof. by split. Qed.
Lemma threads_inv_reachable period z : rtc step (initial period) z -> inv z.
Proof.
  intros Hr. assert (Hi := threads_inv_initial period). induction Hr as [|z1 z2 z3 Hs Hr IH]; [done|].
  apply IH. destruct Hs; [by eapply inv_sim_step|by eapply inv_view_step|by eapply inv_event].
Qed.
End Facts.

(** ** The lock and the messages *)

Section Theorems.
Context (run_until : Q -> Q -> Q -> list string -> Prop).
Abbreviation sim_step := (sim_step run_until).
Abbreviation step := (step run_until).

(** C21: the simulation thread and the main thread exclude each other: at most the handler on top
    of the others has the lock, and not while the simulator is run; the simulator advances only under the
    lock of its thread, and its target changes only under the lock of the main thread. *)
Theorem lock_protects period z z' (Hr : rtc step (initial period) z) (Hs : step z z') :
  (critical (pc (sim z)) = true -> lock (sim z) = Some Sim /\
     Forall (fun f => holds_lock f = false) (frames (gui z))) /\
  Forall (fun f => holds_lock f = false) (tail (frames (gui z))) /\
  (now (sim z') <> now (sim z) -> lock (sim z) = Some Sim) /\
  (target_time (sim z') <> target_time (sim z) -> lock (sim z) = Some View).
Proof.
  pose proof (threads_inv_reachable run_until period z Hr) as [H1 H2 H3 _ _ _].
  assert (Hbelow : Forall (fun f => holds_lock f = false) (tail (frames (gui z)))).
  { eapply Forall_impl; [exact H3|]. by intros [? []| | | |]. }
  split; [|split; [done|]].
  - intros Hc. apply H1 in Hc. split; [done|]. destruct (frames (gui z)) as [|f fs]; [constructor|].
    constructor; [|done]. destruct (holds_lock f) eqn:Hf; [|done]. cbn in H2. rewrite Hf in H2.
    assert (lock (sim z) = Some View) by by apply H2. congruence.
  - destruct Hs as [s s' v Hs|z z' Hv|z z' He]; cbn in *.
    + split; destruct Hs; cbn; intros Hne; try done. apply H1. by rewrite H.
    + split; destruct Hv; cbn in *; try done; try (destruct goes_on; done).
      intros _. apply H2. by rewrite H.
    + by destruct He.
Qed.

(** A message that the simulator makes is shown once: the messages made are those shown, those that
    the handler on top is about to show, and those that are waiting, in this order. *)
Theorem messages_shown period z (Hr : rtc step (initial period) z) :
  produced (sim z) =
    shown (gui z) ++ taken (frames (gui z)) ++ pause_messages (sim z) ++ helper_messages (sim z).
Proof. apply (threads_inv_reachable run_until period z Hr). Qed.

(** ** What is sure to happen *)

(** [P] holds sooner or later, whichever thread goes first and whatever the user does. *)
Inductive inevitably (P : viz -> Prop) : viz -> Prop :=
  | Now z : P z -> inevitably P z
  | Later z : (exists z', step z z') -> (forall z', step z z' -> inevitably P z') -> inevitably P z.
Lemma inevitably_measure (P I : viz -> Prop) (m : viz -> nat) :
  (forall z, I z -> P z \/ (exists z', step z z') /\
     forall z', step z z' -> P z' \/ I z' /\ m z' < m z) ->
  forall z, I z -> inevitably P z.
Proof.
  intros Hstep z. remember (m z) as n eqn:En. revert z En.
  induction (lt_wf n) as [n _ IH]. intros z -> Hz.
  destruct (Hstep z Hz) as [Hp|[Hex Hall]]; [by apply Now|]. apply Later; [done|].
  intros z' Hs. destruct (Hall z' Hs) as [Hp|[Hi Hlt]]; [by apply Now|]. by eapply IH.
Qed.

#[local] Instance sim_pc_eq_dec : EqDecision sim_pc.
Proof. solve_decision. Defined.
(** Running the simulator comes to an end. *)
Context (run_until_ends : forall now target, exists t messages, run_until now target t messages).

(** The simulation thread can go on unless it waits for the event or the lock. *)
Lemma sim_progress s : pc s <> Exited -> (pc s = Waiting -> go s = true) ->
  (pc s = Acquiring -> lock s = None) -> exists s', sim_step s s'.
Proof.
  intros Hx Hw Ha. destruct (pc s) eqn:E; [| | | | | | | | |done].
  - destruct (quit s) eqn:Eq; eexists; [by apply LoopEnd|by apply LoopOn].
  - eexists. apply Wake; auto.
  - eexists. by apply ClearGo.
  - destruct (quit s) eqn:Eq; eexists; [by apply Break|by apply NoBreak].
  - eexists. apply SimLock; auto.
  - destruct (run_until_ends (now s) (target_time s)) as (t & ms & Ht). eexists. by eapply RunUntil.
  - eexists. by apply Collect.
  - eexists. by apply Notify.
  - eexists. by apply SimUnlock.
Qed.
(** The steps of the simulation thread before it waits, when nobody sets the event. *)
Definition base (p : sim_pc) : nat :=
  match p with
  | AtLoop => 1 | Waiting | Exited => 0 | Clearing => 8 | Testing => 7 | Acquiring => 6 | Running => 5
  | Collecting => 4 | Notifying => 3 | Releasing => 2
  end.
Definition rounds (s : simulation) : nat :=
  base (pc s) + match pc s with Clearing | Exited => 0 | _ => if go s then 20 else 0 end.
Lemma sim_step_rounds s s' : sim_step s s' -> rounds s' < rounds s.
Proof.
  intros Hs. destruct Hs as [s E|s E|s E Eg|s E|s E|s E|s E|s t ms E|s E|s E|s E];
    unfold rounds; cbn; rewrite E; try rewrite Eg; cbn; destruct (go s); lia.
Qed.
Lemma lock_free z : inv z -> critical (pc (sim z)) = false -> top_holds (frames (gui z)) = false ->
  lock (sim z) = None.
Proof.
  intros [H1 H2 _ _ _ _] Hc Ht. rewrite Hc in H1. rewrite Ht in H2.
  destruct (lock (sim z)) as [[]|]; [|..|done].
  - by destruct H2 as [H2 _]; specialize (H2 eq_refl).
  - by destruct H1 as [H1 _]; specialize (H1 eq_refl).
Qed.
Lemma step_inv z z' : step z z' -> inv z -> inv z'.
Proof. intros []; [by eapply inv_sim_step|by eapply inv_view_step|by eapply inv_event]. Qed.

(** A handler that waits for the lock gets it, after finitely many steps of the simulation thread. *)
Theorem lock_obtained period z fs (Hr : rtc step (initial period) z) (Hf : frames (gui z) = Blocked :: fs) :
  inevitably (fun z => lock (sim z) = Some View /\ frames (gui z) = Holding :: fs) z.
Proof.
  apply (inevitably_measure _ (fun z => inv z /\ frames (gui z) = Blocked :: fs) (fun z => rounds (sim z)));
    [|by split; [eapply threads_inv_reachable|]].
  clear z Hr Hf. intros z [Hi Hf]. right. split.
  - destruct (critical (pc (sim z))) eqn:Hc.
    + destruct (sim_progress (sim z)) as [s' Hs']; [by destruct (pc (sim z))..|].
      exists (mkViz s' (gui z)). destruct z. by apply BySim.
    + destruct z as [s v]. cbn in *. eexists. apply ByView. eapply HandlerLock; [done|].
      apply (lock_free (mkViz s v)); [done|done|]. cbn. by rewrite Hf.
  - intros z' Hs. assert (Hi' := step_inv _ _ Hs Hi).
    destruct Hs as [s s' v Hs|z z' Hv|z z' He]; cbn in *.
    + right. split; [done|]. by apply sim_step_rounds.
    + left. destruct Hv; cbn in *; simplify_eq/=; try congruence. split; congruence.
    + exfalso. destruct He; cbn in *; unfold in_gtk_loop in *; by rewrite Hf in *.
Qed.

(** The steps of the simulation thread before it leaves its loop, once it is to quit. *)
Definition to_exit (p : sim_pc) : nat :=
  match p with
  | Exited => 0 | AtLoop => 1 | Releasing => 2 | Notifying => 3 | Collecting => 4 | Running => 5
  | Acquiring => 6 | Testing => 7 | Clearing => 8 | Waiting => 9
  end.
Lemma sim_step_to_exit s s' : quit s = true -> sim_step s s' ->
  quit s' = true /\ to_exit (pc s') < to_exit (pc s).
Proof.
  intros Hq Hs. destruct Hs as [s E|s E|s E Eg|s E|s E|s E|s E|s t ms E|s E|s E|s E];
    cbn; rewrite E; cbn; (split; [done|lia]) || congruence.
Qed.

(** C22: if every run of the simulator up to a target time comes to an end ([run_until_ends]), then once the user closes
    the window, whatever the simulation thread is doing and whatever
    the two threads do next, it leaves its loop, [join] returns and the main loop is left. *)
Theorem quit_ends period z fs (Hr : rtc step (initial period) z) (Hf : frames (gui z) = Quitting :: fs) :
  inevitably (fun z => pc (sim z) = Exited /\ closed (gui z) = true /\ frames (gui z) = fs) z.
Proof.
  apply (inevitably_measure _
    (fun z => inv z /\ (frames (gui z) = Quitting :: fs \/ frames (gui z) = Joining :: fs))
    (fun z => to_exit (pc (sim z)) + match frames (gui z) with Quitting :: _ => 1 | _ => 0 end));
    [|by split; [eapply threads_inv_reachable|left]].
  clear z Hr Hf. intros [s v] [Hi Hf]. right. pose proof Hi as [_ _ _ _ Hq Hj]. cbn in *.
  assert (Hquit : quit s = true) by (apply Hq; by destruct Hf as [-> | ->]).
  split.
  - destruct Hf as [Hf|Hf]; [eexists; by eapply ByView, QuitGo|].
    destruct (decide (pc s = Exited)) as [Hx|Hx]; [eexists; by eapply ByView, Joined|].
    destruct (sim_progress s Hx) as [s' Hs']; [apply Hj; by rewrite Hf| |by exists (mkViz s' v); apply BySim].
    intros Ha. apply (lock_free (mkViz s v)); [done|cbn; by rewrite Ha|cbn; by rewrite Hf].
  - intros z' Hs. assert (Hi' := step_inv _ _ Hs Hi).
    inversion Hs as [s1 s' v1 Hs1|z1 z2 Hv|z1 z2 He]; subst.
    + right. destruct (sim_step_to_exit s s' Hquit Hs1) as [_ Hlt]. cbn. split; [done|lia].
    + inversion Hv; subst; destruct Hf as [Hf|Hf]; try congruence.
      * right. cbn. rewrite Hf. assert (fs0 = fs) as -> by congruence. split; [split; [done|by right]|lia].
      * left. cbn. split_and!; [done|done|congruence].
    + exfalso. inversion He; subst; unfold in_gtk_loop in *; by destruct Hf as [Hf|Hf]; rewrite Hf in *.
Qed.
End Theorems.

(** ** Runs *)

(** A simulator that reaches its target and makes a message. *)
Definition demo_run_until (now target t : Q) (messages : list string) : Prop :=
  t = target /\ messages = ["stop"%string].
(** Evaluates the state that was reached. *)
Ltac settle := lazymatch goal with |- rtc ?R ?z ?t => let z' := eval vm_compute in z in change (rtc R z' t) end.
Ltac by_sim c := eapply rtc_l; [apply BySim; c; (reflexivity || by split)|]; settle.
Ltac by_view c := eapply rtc_l; [apply ByView; eapply c; (reflexivity || discriminate)|]; settle.
Ltac by_event c := eapply rtc_l; [apply ByEvent; c; (reflexivity || by left || constructor)|]; settle.
(** Play: the timer fires, the simulator is run, and the timer fires again. *)
Lemma demo_play : exists z, rtc (step demo_run_until) (initial 1) z /\
  shown (gui z) = ["stop"%string] /\ frames (gui z) = [].
Proof.
  eexists. split; [|split].
  - by_event ltac:(eapply PlayButton).
    by_event ltac:(eapply (Fire _ _ 1)).
    by_sim ltac:(apply LoopOn). by_view ViewLock. by_view Take. by_view Update. by_view ViewUnlock. by_view Finish.
    by_sim ltac:(apply Wake). by_sim ltac:(apply ClearGo). by_sim ltac:(apply NoBreak). by_sim ltac:(apply SimLock).
    by_sim ltac:(eapply RunUntil). by_sim ltac:(apply Collect). by_sim ltac:(apply Notify). by_sim ltac:(apply SimUnlock).
    by_event ltac:(eapply (Fire _ _ 1)).
    by_view ViewLock. by_view Take. by_view Update. by_view ViewUnlock. by_view Finish. apply rtc_refl.
  - reflexivity.
  - reflexivity.
Qed.

(** The simulator has run, and its message is collected. *)
Definition demo_run : simulation :=
  mkSimulation (Some Sim) false false 1 0 [] [] 0 Running [].
Definition demo_collected : simulation :=
  mkSimulation (Some Sim) false false 1 1 [] ["stop"%string] 0 Notifying ["stop"%string].
Definition demo_view : view := mkView [] false true (Some 1) [1] 2 [] 1 [].
Lemma demo_running : rtc (step demo_run_until) (initial 1) (mkViz demo_run demo_view).
Proof.
  by_event ltac:(eapply PlayButton). by_event ltac:(eapply (Fire _ _ 1)).
  by_sim ltac:(apply LoopOn). by_view ViewLock. by_view Take. by_view Update. by_view ViewUnlock. by_view Finish.
  by_sim ltac:(apply Wake). by_sim ltac:(apply ClearGo). by_sim ltac:(apply NoBreak). by_sim ltac:(apply SimLock).
  apply rtc_refl.
Qed.
Lemma demo_collecting : rtc (step demo_run_until) (mkViz demo_run demo_view) (mkViz demo_collected demo_view).
Proof. by_sim ltac:(eapply RunUntil). by_sim ltac:(apply Collect). apply rtc_refl. Qed.

Lemma messages_shown_witness :
  rtc (step demo_run_until) (initial 1) (mkViz demo_collected demo_view) /\
  ["stop"%string] = [] ++ [] ++ ["stop"%string] ++ [].
Proof.
  assert (Hr : rtc (step demo_run_until) (initial 1) (mkViz demo_collected demo_view))
    by (etransitivity; [exact demo_running|exact demo_collecting]).
  split; [exact Hr|]. exact (messages_shown demo_run_until 1 _ Hr).
Defined.
Lemma lock_protects_witness :
  let z' := mkViz (run_to 1 ["stop"%string] demo_run) demo_view in
  step demo_run_until (mkViz demo_run demo_view) z' /\ lock demo_run = Some Sim.
Proof.
  intros z'. assert (Hs : step demo_run_until (mkViz demo_run demo_view) z').
  { apply BySim. apply RunUntil; [reflexivity|by split]. }
  split; [exact Hs|]. exact (proj1 (proj1 (lock_protects demo_run_until 1 _ _ demo_running Hs) eq_refl)).
Defined.
Lemma demo_ends now target : exists t messages, demo_run_until now target t messages.
Proof. by exists target, ["stop"%string]. Qed.
Lemma lock_obtained_witness : inevitably demo_run_until
  (fun z => lock (sim z) = Some View /\ frames (gui z) = [Holding])
  (mkViz (sim (initial 1)) (push Blocked (gui (initial 1)))).
Proof.
  exact (lock_obtained demo_run_until demo_ends 1 (mkViz (sim (initial 1)) (push Blocked (gui (initial 1)))) []
    (rtc_once _ _ (ByEvent _ _ _ (OtherHandler (sim (initial 1)) (gui (initial 1)) eq_refl))) eq_refl).
Defined.
Lemma quit_ends_witness : exists z, frames (gui z) = [Quitting] /\
  inevitably demo_run_until (fun z => pc (sim z) = Exited /\ closed (gui z) = true /\ frames (gui z) = []) z.
Proof.
  eexists. split; [|exact (quit_ends demo_run_until demo_ends 1 _ []
    (rtc_once _ _ (ByEvent _ _ _ (Quit (sim (initial 1)) (gui (initial 1)) eq_refl))) eq_refl)].
  reflexivity.
Defined.

(** Pausing leaves [_update_timeout_id] set, so that playing again removes the timer a second time. *)
Lemma pause_removes_twice : exists z, rtc (step demo_run_until) (initial 1) z /\ bad_removes (gui z) = [1].
Proof.
  eexists. split; [|].
  - by_event ltac:(eapply PlayButton). by_event ltac:(eapply PlayButton). by_event ltac:(eapply PlayButton).
    apply rtc_refl.
  - reflexivity.
Qed.
