(* ===== verification/VizCanvas.v ===== *)
(** * What the visualizer draws: [src/src/visualizer/visualizer/core.py], [base.py]

    The coordinates of [base.py] and the traits of devices, then [Node], [Channel] and [WiredLink] of
    [core.py]: their items on the canvas, their positions, what changes their look.  Coordinates
    are rational numbers.  Nodes and channels are named by their keys in the dictionaries of the
    visualizer, links by their numbers; the canvas of GooCanvas is what its items were last told.
    The invariant [canvas_ok] says that what is drawn fits the attributes; [safe] is what keeps it. *)

From S2P Require Import Prelude State.
From Stdlib Require Import QArith.
From stdpp Require Import strings.
Local Open Scope nat_scope.
Local Open Scope list_scope.

Abbreviation point := (Q * Q)%type.

(** ** Coordinates: [base.py] *)

Definition PIXELS_PER_METER : Q := 3.
Definition transform_distance_simulation_to_canvas (d : Q) : Q := d * PIXELS_PER_METER.
Definition transform_point_simulation_to_canvas (p : point) : point :=
  (p.1 * PIXELS_PER_METER, p.2 * PIXELS_PER_METER)%Q.
Definition transform_distance_canvas_to_simulation (d : Q) : Q := d / PIXELS_PER_METER.
Definition transform_point_canvas_to_simulation (p : point) : point :=
  (p.1 / PIXELS_PER_METER, p.2 / PIXELS_PER_METER)%Q.
Definition py_min (a b : Q) : Q := if Qle_bool a b then a else b.
Definition py_max (a b : Q) : Q := if Qle_bool b a then a else b.

(** [NetDeviceTraits] and [lookup_netdevice_traits]: a type that is not registered is registered as
    wireless. *)
Record NetDeviceTraits := mkTraits { is_wireless : bool; is_virtual : bool }.
Abbreviation traits_table := (gmap string NetDeviceTraits).
Definition lookup_netdevice_traits (class_type : string) (t : traits_table)
    : NetDeviceTraits * traits_table :=
  match t !! class_type with
  | Some tr => (tr, t)
  | None => let tr := mkTraits true false in (tr, <[class_type := tr]> t)
  end.

(** ** Nodes, channels and links *)

(** How the ellipse of a node is drawn. *)
Record look := mkLook { radius : Q; fill_color_rgba : Z; line_width : Q; stroke_color : string }.
(** The icon of a node: its alignment and size, and where it is. *)
Record svg := mkSvg { align_x : Q; align_y : Q; svg_width : Q; svg_height : Q; svg_at : point }.
Record Node := mkNode {
  center : point; node_links : list nat; selected : bool; highlighted : bool; color : Z; size : Q;
  svg_item : option svg; label : option string; label_item : option (string * point); shape : look }.
Record Channel := mkChannel { channel_center : point; channel_links : list nat }.
Inductive endpoint := NodeEnd (n : nat) | ChannelEnd (c : nat).
#[export] Instance endpoint_eq_dec : EqDecision endpoint.
Proof. solve_decision. Defined.
(** [WiredLink]: the points of its path once it has been drawn. *)
Record WiredLink := mkLink { node1 : nat; node2 : endpoint; data : option (point * point) }.
(** [get_bounds] of GooCanvas may not return bounds at all. *)
Record canvas := mkCanvas {
  nodes : gmap nat Node; channels : gmap nat Channel; links : list WiredLink;
  bounds : option (Q * Q * Q * Q) }.

Definition DEFAULT_NODE_SIZE : Q := 1.
(** [_update_appearance]: the look that the attributes ask for. *)
Definition look_of (nd : Node) : look :=
  let size := transform_distance_simulation_to_canvas (size nd) in
  let alpha := match svg_item nd with Some _ => 128 | None => 255 end%Z in
  {| radius := size; fill_color_rgba := Z.lor (Z.land (color nd) 4294967040) alpha;
     line_width := if selected nd then size * (3 # 10) else size * (15 # 100);
     stroke_color := if highlighted nd then "yellow" else "black" |}.
Definition set_shape (l : look) (nd : Node) : Node :=
  mkNode (center nd) (node_links nd) (selected nd) (highlighted nd) (color nd) (size nd) (svg_item nd)
    (label nd) (label_item nd) l.
Definition set_center (p : point) (nd : Node) : Node :=
  mkNode p (node_links nd) (selected nd) (highlighted nd) (color nd) (size nd) (svg_item nd) (label nd)
    (label_item nd) (shape nd).
Definition set_svg (v : option svg) (nd : Node) : Node :=
  mkNode (center nd) (node_links nd) (selected nd) (highlighted nd) (color nd) (size nd) v (label nd)
    (label_item nd) (shape nd).
Definition set_label_item (v : option (string * point)) (nd : Node) : Node :=
  mkNode (center nd) (node_links nd) (selected nd) (highlighted nd) (color nd) (size nd) (svg_item nd)
    (label nd) v (shape nd).
Definition add_node_link (i : nat) (nd : Node) : Node :=
  mkNode (center nd) (node_links nd ++ [i]) (selected nd) (highlighted nd) (color nd) (size nd)
    (svg_item nd) (label nd) (label_item nd) (shape nd).
(** [Node.__init__] *)
Definition new_node : Node :=
  let nd := mkNode (0, 0)%Q [] false false 2155905279 DEFAULT_NODE_SIZE None None None
              (mkLook 0 0 0 "") in
  set_shape (look_of nd) nd.
Definition new_channel : Channel := mkChannel (0, 0)%Q [].

Definition on_nodes (f : gmap nat Node -> gmap nat Node) (c : canvas) : canvas :=
  mkCanvas (f (nodes c)) (channels c) (links c) (bounds c).
Definition on_channels (f : gmap nat Channel -> gmap nat Channel) (c : canvas) : canvas :=
  mkCanvas (nodes c) (f (channels c)) (links c) (bounds c).
Definition on_links (f : list WiredLink -> list WiredLink) (c : canvas) : canvas :=
  mkCanvas (nodes c) (channels c) (f (links c)) (bounds c).
Definition set_bounds (b : option (Q * Q * Q * Q)) (c : canvas) : canvas :=
  mkCanvas (nodes c) (channels c) (links c) b.

(** [get_node], [get_channel] *)
Definition get_node (index : nat) (c : canvas) : canvas :=
  match nodes c !! index with Some _ => c | None => on_nodes <[index := new_node]> c end.
Definition get_channel (index : nat) (c : canvas) : canvas :=
  match channels c !! index with Some _ => c | None => on_channels <[index := new_channel]> c end.
(** [get_position] of a node or a channel. *)
Definition position (e : endpoint) (c : canvas) : point :=
  match e with
  | NodeEnd n => from_option center (0, 0)%Q (nodes c !! n)
  | ChannelEnd k => from_option channel_center (0, 0)%Q (channels c !! k)
  end.
(** [WiredLink.__init__] and [create_link] *)
Definition add_link (e : endpoint) (i : nat) (c : canvas) : canvas :=
  match e with
  | NodeEnd n => on_nodes (alter (add_node_link i) n) c
  | ChannelEnd k =>
      on_channels (alter (fun ch => mkChannel (channel_center ch) (channel_links ch ++ [i])) k) c
  end.
Definition create_link (n : nat) (e : endpoint) (c : canvas) : canvas :=
  let i := length (links c) in
  add_link e i (add_link (NodeEnd n) i (on_links (fun l => l ++ [mkLink n e None]) c)).
(** [update_points] *)
Definition update_points (i : nat) (c : canvas) : canvas :=
  on_links (alter (fun l => mkLink (node1 l) (node2 l)
    (Some (position (NodeEnd (node1 l)) c, position (node2 l) c))) i) c.
Definition update_links (ids : list nat) (c : canvas) : canvas := foldl (fun c i => update_points i c) c ids.

(** [_update_svg_position] *)
Definition place_svg (p : point) (v : svg) : svg :=
  mkSvg (align_x v) (align_y v) (svg_width v) (svg_height v)
    (p.1 - (1 - align_x v) * svg_width v, p.2 - (1 - align_y v) * svg_height v)%Q.
Definition enlarge (p : point) (b : Q * Q * Q * Q) : Q * Q * Q * Q :=
  let '(min_x, min_y, max_x, max_y) := b in
  (py_min p.1 min_x, py_min p.2 min_y, py_max p.1 max_x, py_max p.2 max_y).
(** [Node.set_position], [Channel.set_position] *)
Definition place_node (p : point) (nd : Node) : Node :=
  set_svg (place_svg p <$> svg_item nd) (set_center p nd).
Definition place_label (p : point) (nd : Node) : Node :=
  set_label_item ((fun t => (t.1, (p.1, p.2 + size nd * 3)%Q)) <$> label_item nd) nd.
Definition set_position (n : nat) (p : point) (c : canvas) : canvas :=
  let c := on_nodes (alter (place_node p) n) c in
  let c := update_links (from_option node_links [] (nodes c !! n)) c in
  let c := on_nodes (alter (place_label p) n) c in
  set_bounds (enlarge p <$> bounds c) c.
Definition set_channel_position (k : nat) (p : point) (c : canvas) : canvas :=
  let c := on_channels (alter (fun ch => mkChannel p (channel_links ch)) k) c in
  update_links (from_option channel_links [] (channels c !! k)) c.

(** [_update_appearance], and the setters that end with it. *)
Definition update_appearance (n : nat) (c : canvas) : canvas :=
  let c := on_nodes (alter (fun nd => set_shape (look_of nd) nd) n) c in
  match nodes c !! n with
  | Some nd =>
      match label nd with
      | Some text =>
          set_position n (center nd)
            (on_nodes (alter (set_label_item
               (Some (text, from_option snd (0, 0)%Q (label_item nd)))) n) c)
      | None => c
      end
  | None => c
  end.
Definition change_node (f : Node -> Node) (n : nat) (c : canvas) : canvas :=
  update_appearance n (on_nodes (alter f n) c).
Definition set_selected (b : bool) : nat -> canvas -> canvas := change_node (fun nd =>
  mkNode (center nd) (node_links nd) b (highlighted nd) (color nd) (size nd) (svg_item nd)
    (label nd) (label_item nd) (shape nd)).
Definition set_highlighted (b : bool) : nat -> canvas -> canvas := change_node (fun nd =>
  mkNode (center nd) (node_links nd) (selected nd) b (color nd) (size nd) (svg_item nd)
    (label nd) (label_item nd) (shape nd)).
Definition set_color (k : Z) : nat -> canvas -> canvas := change_node (fun nd =>
  mkNode (center nd) (node_links nd) (selected nd) (highlighted nd) k (size nd) (svg_item nd)
    (label nd) (label_item nd) (shape nd)).
Definition set_size (q : Q) : nat -> canvas -> canvas := change_node (fun nd =>
  mkNode (center nd) (node_links nd) (selected nd) (highlighted nd) (color nd) q (svg_item nd)
    (label nd) (label_item nd) (shape nd)).
Definition set_label (s : string) : nat -> canvas -> canvas := change_node (fun nd =>
  mkNode (center nd) (node_links nd) (selected nd) (highlighted nd) (color nd) (size nd) (svg_item nd)
    (Some s) (label_item nd) (shape nd)).

Inductive vis_exn := KeyError (n : nat) | MathDomainError | ValueError.
(** [set_svg_icon]: [svg_size] gives the size of the icon, of which the file knows the
    proportions. *)
Definition set_svg_icon (svg_size : option Q -> option Q -> Q * Q) (width height : option Q)
    (ax ay : Q) (n : nat) (c : canvas) : res vis_exn canvas :=
  match width, height with
  | None, None => Raise ValueError
  | _, _ =>
      let '(w, h) := svg_size (transform_distance_simulation_to_canvas <$> width)
                              (transform_distance_simulation_to_canvas <$> height) in
      Ok (change_node (fun nd => set_svg (Some (place_svg (center nd) (mkSvg ax ay w h (0, 0)%Q))) nd) n c)
  end.

(** ** What is drawn fits what is known *)

(** The links at a node or a channel. *)
Definition links_at (e : endpoint) (c : canvas) : list nat :=
  match e with
  | NodeEnd n => from_option node_links [] (nodes c !! n)
  | ChannelEnd k => from_option channel_links [] (channels c !! k)
  end.
Definition ends (l : WiredLink) (e : endpoint) : Prop := e = NodeEnd (node1 l) \/ e = node2 l.
Definition drawn (c : canvas) (l : WiredLink) : point * point := (position (NodeEnd (node1 l)) c, position (node2 l) c).
(** The ends of a link know it, and a link that has been drawn is drawn between their
    positions. *)
Record links_ok (c : canvas) : Prop := {
  links_listed i l e : links c !! i = Some l -> ends l e -> i ∈ links_at e c;
  links_drawn i l d : links c !! i = Some l -> data l = Some d -> d = drawn c l }.
(** The item of a node shows its attributes, and its label and icon are at its position. *)
Definition node_ok (nd : Node) : Prop :=
  shape nd = look_of nd /\
  label_item nd = (fun t => (t, ((center nd).1, (center nd).2 + size nd * 3)%Q)) <$> label nd /\
  place_svg (center nd) <$> svg_item nd = svg_item nd.
Definition canvas_ok (c : canvas) : Prop :=
  links_ok c /\ forall n nd, nodes c !! n = Some nd -> node_ok nd.

(** *** Drawing links *)

Lemma update_links_frame ids c :
  nodes (update_links ids c) = nodes c /\ channels (update_links ids c) = channels c /\
  bounds (update_links ids c) = bounds c.
Proof. unfold update_links. revert c. induction ids as [|i ids IH]; intros c; [done|]. exact (IH (update_points i c)). Qed.
Lemma position_frame c c' e : nodes c' = nodes c -> channels c' = channels c -> position e c' = position e c.
Proof. intros Hn Hc. by destruct e; cbn; rewrite ?Hn, ?Hc. Qed.
Lemma drawn_frame c c' l : nodes c' = nodes c -> channels c' = channels c -> drawn c' l = drawn c l.
Proof. intros Hn Hc. unfold drawn. by rewrite !(position_frame c c') by done. Qed.
Lemma update_links_lookup ids c i l : links (update_links ids c) !! i = Some l ->
  exists l0, links c !! i = Some l0 /\ node1 l = node1 l0 /\ node2 l = node2 l0 /\
    data l = if decide (i ∈ ids) then Some (drawn c l0) else data l0.
Proof.
  unfold update_links. revert c. induction ids as [|j ids IH]; intros c H.
  { exists l. rewrite decide_False by apply not_elem_of_nil. done. }
  cbn in H. apply IH in H as (l1 & H1 & E1 & E2 & Ed). unfold update_points, on_links in H1. cbn in H1.
  destruct (decide (i = j)) as [->|Hne].
  - rewrite list_lookup_alter_eq in H1. destruct (links c !! j) as [l0|]; [|done]. injection H1 as <-.
    exists l0. split_and!; [done..|]. rewrite Ed, (decide_True (P := j ∈ j :: ids)) by by left. by case_decide.
  - rewrite list_lookup_alter_ne in H1 by done. exists l1. split_and!; [done..|]. rewrite Ed.
    destruct (decide (i ∈ ids)), (decide (i ∈ j :: ids)) as [Hin|Hin]; try done.
    + destruct Hin. by right.
    + by apply elem_of_cons in Hin as [|].
Qed.
(** The links at an end that moves are drawn again. *)
Lemma links_ok_moved e c c' ids :
  links_ok c -> (forall e', links_at e' c' = links_at e' c) ->
  (forall e', e' <> e -> position e' c' = position e' c) -> links c' = links c ->
  (links_at e c ⊆ ids) -> links_ok (update_links ids c').
Proof.
  intros [Hlist Hdraw] Hat Hpos Hl Hids. destruct (update_links_frame ids c') as (Hn & Hc & _).
  assert (Hat' : forall e', links_at e' (update_links ids c') = links_at e' c).
  { intros e'. rewrite <- Hat. by destruct e'; cbn; rewrite ?Hn, ?Hc. }
  split.
  - intros i l e' H He. apply update_links_lookup in H as (l0 & H0 & E1 & E2 & _). rewrite Hl in H0.
    rewrite Hat'. eapply Hlist; [done|]. unfold ends in *. by rewrite <- E1, <- E2.
  - intros i l d H Hd. apply update_links_lookup in H as (l0 & H0 & E1 & E2 & Ed). rewrite Hl in H0.
    rewrite (drawn_frame c') by done. unfold drawn. rewrite E1, E2. rewrite Hd in Ed.
    case_decide as Hin; [by injection Ed|].
    assert (He : forall e', ends l0 e' -> e' <> e).
    { intros e' He' ->. apply Hin, Hids. by eapply Hlist. }
    rewrite !Hpos by (apply He; unfold ends; auto). by eapply Hdraw.
Qed.

(** *** Moving and changing a node *)

(** A change that leaves the position and the links of the nodes alone. *)
Definition still (f : Node -> Node) : Prop :=
  forall nd, center (f nd) = center nd /\ node_links (f nd) = node_links nd.
Lemma alter_node (f : Node -> Node) n m (ns : gmap nat Node) :
  alter f n ns !! m = if decide (m = n) then f <$> ns !! m else ns !! m.
Proof. case_decide; subst; [apply lookup_alter_eq|by apply lookup_alter_ne]. Qed.
Lemma still_position f n e c : still f -> position e (on_nodes (alter f n) c) = position e c.
Proof.
  intros Hf. destruct e as [m|k]; [|done]. cbn. rewrite alter_node. case_decide; [|done].
  destruct (nodes c !! m) as [nd|]; [|done]. apply Hf.
Qed.
Lemma still_links_at f n e c : still f -> links_at e (on_nodes (alter f n) c) = links_at e c.
Proof.
  intros Hf. destruct e as [m|k]; [|done]. cbn. rewrite alter_node. case_decide; [|done].
  destruct (nodes c !! m) as [nd|]; [|done]. apply Hf.
Qed.
Lemma links_ok_ext c c' : links c' = links c -> (forall e, position e c' = position e c) ->
  (forall e, links_at e c ⊆ links_at e c') -> links_ok c -> links_ok c'.
Proof.
  intros Hl Hp Ha [H1 H2]. split; rewrite Hl.
  - intros i l e Hi He. apply Ha. by eapply H1.
  - intros i l d Hi Hd. unfold drawn. rewrite !Hp. by eapply H2.
Qed.
Lemma links_ok_still f n c : still f -> links_ok c -> links_ok (on_nodes (alter f n) c).
Proof.
  intros Hf. apply links_ok_ext; [done|by intros; apply still_position|].
  intros e. by rewrite still_links_at.
Qed.

Lemma nodes_set_position n p c :
  nodes (set_position n p c) = alter (place_label p) n (alter (place_node p) n (nodes c)).
Proof. unfold set_position. cbn. by rewrite (proj1 (update_links_frame _ _)). Qed.
Lemma links_ok_set_position n p c : links_ok c -> links_ok (set_position n p c).
Proof.
  intros Hc. unfold set_position. apply (links_ok_ext (on_nodes (alter (place_label p) n)
    (update_links (from_option node_links [] (nodes (on_nodes (alter (place_node p) n) c) !! n))
      (on_nodes (alter (place_node p) n) c)))); [done|by intros []|by intros []|].
  apply links_ok_still; [by intros nd|].
  apply (links_ok_moved (NodeEnd n) c); try done.
  - intros [m|k]; [|done]. cbn. rewrite alter_node. case_decide; [|done]. by destruct (nodes c !! m).
  - intros [m|k] Hne; [|done]. cbn. rewrite alter_node. by rewrite decide_False by congruence.
  - cbn. rewrite alter_node, decide_True by done. by destruct (nodes c !! n).
Qed.
Lemma links_ok_set_channel_position k p c : links_ok c -> links_ok (set_channel_position k p c).
Proof.
  intros Hc. unfold set_channel_position. apply (links_ok_moved (ChannelEnd k) c); try done.
  - intros [m|j]; [done|]. cbn. destruct (decide (j = k)) as [->|];
      [rewrite lookup_alter_eq; by destruct (channels c !! k)|by rewrite lookup_alter_ne].
  - intros [m|j] Hne; [done|]. cbn. rewrite lookup_alter_ne by congruence. done.
  - cbn. rewrite lookup_alter_eq. by destruct (channels c !! k).
Qed.

(** What [_update_appearance] makes of the node. *)
Definition appear (nd : Node) : Node :=
  let nd := set_shape (look_of nd) nd in
  match label nd with
  | Some text => place_label (center nd) (place_node (center nd)
      (set_label_item (Some (text, from_option snd (0, 0)%Q (label_item nd))) nd))
  | None => nd
  end.
Lemma nodes_update_appearance n c : nodes (update_appearance n c) = alter appear n (nodes c).
Proof.
  unfold update_appearance. cbn. rewrite lookup_alter_eq.
  destruct (nodes c !! n) as [nd|] eqn:E; cbn.
  - destruct (label nd) as [text|] eqn:El.
    + rewrite nodes_set_position. cbn. apply map_eq. intros m. rewrite !alter_node.
      case_decide; [|done]. subst. rewrite E. cbn. unfold appear. cbn. by rewrite El.
    + cbn. apply map_eq. intros m. rewrite !alter_node. case_decide; [|done]. subst. rewrite E. cbn.
      unfold appear. cbn. by rewrite El.
  - apply map_eq. intros m. rewrite !alter_node. case_decide; [|done]. subst. by rewrite E.
Qed.
Lemma links_ok_update_appearance n c : links_ok c -> links_ok (update_appearance n c).
Proof.
  intros Hc. unfold update_appearance. cbn.
  assert (H1 : links_ok (on_nodes (alter (fun nd => set_shape (look_of nd) nd) n) c)) by (by apply links_ok_still).
  destruct (_ !! n) as [nd|]; [|done]. destruct (label nd); [|done].
  apply links_ok_set_position. by apply links_ok_still.
Qed.
Lemma place_svg_twice p v : place_svg p (place_svg p v) = place_svg p v.
Proof. done. Qed.
Lemma node_ok_appear nd : (label nd = None -> label_item nd = None) ->
  (is_Some (label nd) \/ place_svg (center nd) <$> svg_item nd = svg_item nd) -> node_ok (appear nd).
Proof.
  intros Hl Hs. unfold node_ok, appear. cbn. destruct (label nd) as [t|] eqn:El; cbn; rewrite El.
  - split_and!; [|done|by destruct (svg_item nd)].
    unfold look_of. cbn. by destruct (svg_item nd).
  - rewrite Hl by done. destruct Hs as [[? [=]]|Hs]. by rewrite Hs.
Qed.

(** The operations on the canvas keep it right, keep its nodes and their selection, and add nodes
    that are not selected. *)
Definition grows (c c' : canvas) : Prop := forall n,
  match nodes c !! n with
  | Some nd => exists nd', nodes c' !! n = Some nd' /\ selected nd' = selected nd
  | None => forall nd', nodes c' !! n = Some nd' -> selected nd' = false
  end.
Definition safe (f : canvas -> canvas) : Prop := forall c, canvas_ok c -> canvas_ok (f c) /\ grows c (f c).
Lemma grows_refl c : grows c c.
Proof. intros n. destruct (nodes c !! n) as [nd|]; [by exists nd|done]. Qed.
Lemma grows_trans c1 c2 c3 : grows c1 c2 -> grows c2 c3 -> grows c1 c3.
Proof.
  intros H1 H2 n. specialize (H1 n). specialize (H2 n). destruct (nodes c1 !! n) as [nd|].
  - destruct H1 as (nd' & E & Es). rewrite E in H2. destruct H2 as (nd2 & E2 & Es2). exists nd2.
    split; [done|congruence].
  - intros nd' E. destruct (nodes c2 !! n) as [nd2|] eqn:E2; [|by apply H2].
    destruct H2 as (nd3 & E3 & Es). rewrite E in E3. injection E3 as <-. rewrite Es. by apply H1.
Qed.
Lemma grows_known c c' n : grows c c' -> is_Some (nodes c !! n) -> is_Some (nodes c' !! n).
Proof. intros H [nd E]. specialize (H n). rewrite E in H. destruct H as (nd' & -> & _). by eexists. Qed.
Lemma grows_alter f n c c' : nodes c' = alter f n (nodes c) -> (forall nd, selected (f nd) = selected nd) ->
  grows c c'.
Proof.
  intros Hn Hf m. rewrite Hn, alter_node. destruct (nodes c !! m) as [nd|]; case_decide; cbn; try done.
  - exists (f nd). by rewrite Hf.
  - by exists nd.
Qed.
Lemma safe_comp f g : safe f -> safe g -> safe (fun c => f (g c)).
Proof.
  intros Hf Hg c Hc. destruct (Hg c Hc) as [Hc1 Hg1]. destruct (Hf _ Hc1) as [Hc2 Hg2].
  split; [done|by eapply grows_trans].
Qed.
Lemma selected_appear nd : selected (appear nd) = selected nd.
Proof. unfold appear. cbn. by destruct (label nd). Qed.

Lemma safe_set_position n p : safe (set_position n p).
Proof.
  intros c [Hl Hn]. split; [split; [by apply links_ok_set_position|]|].
  - intros m nd. rewrite nodes_set_position, !alter_node. case_decide; [|by apply Hn]. subst.
    destruct (nodes c !! n) as [nd0|] eqn:E; [|done]. intros [= <-].
    destruct (Hn n nd0 E) as (H1 & H2 & H3). split_and!; cbn.
    + rewrite H1. unfold look_of. cbn. by destruct (svg_item nd0).
    + rewrite H2. by destruct (label nd0).
    + by destruct (svg_item nd0).
  - intros m. rewrite nodes_set_position, !alter_node. case_decide.
    + subst. destruct (nodes c !! n) as [nd|]; [|done]. by eexists.
    + destruct (nodes c !! m) as [nd|]; [by exists nd|done].
Qed.
Lemma safe_set_channel_position k p : safe (set_channel_position k p).
Proof.
  intros c [Hl Hn]. destruct (update_links_frame
    (from_option channel_links [] (alter (fun ch => mkChannel p (channel_links ch)) k (channels c) !! k))
    (on_channels (alter (fun ch => mkChannel p (channel_links ch)) k) c)) as (En & _).
  split; [split; [by apply links_ok_set_channel_position|]|].
  - intros m nd. unfold set_channel_position. cbn. rewrite En. apply Hn.
  - intros m. unfold set_channel_position. cbn. rewrite En. exact (grows_refl c m).
Qed.
Lemma change_node_ok f n c : still f ->
  (forall nd, node_ok nd -> label (f nd) = None -> label_item (f nd) = None) ->
  (forall nd, node_ok nd -> place_svg (center (f nd)) <$> svg_item (f nd) = svg_item (f nd)) ->
  canvas_ok c -> canvas_ok (change_node f n c).
Proof.
  intros Hf Hlab Hsvg [Hl Hn]. split.
  - apply links_ok_update_appearance. by apply links_ok_still.
  - intros m nd. unfold change_node. rewrite nodes_update_appearance. cbn. rewrite !alter_node.
    case_decide; [|by apply Hn]. subst. destruct (nodes c !! n) as [nd0|] eqn:E; [|done]. intros [= <-].
    apply node_ok_appear; [by eapply Hlab, Hn|right; by eapply Hsvg, Hn].
Qed.
Lemma safe_change f n : still f ->
  (forall nd, node_ok nd -> label (f nd) = None -> label_item (f nd) = None) ->
  (forall nd, node_ok nd -> place_svg (center (f nd)) <$> svg_item (f nd) = svg_item (f nd)) ->
  (forall nd, selected (f nd) = selected nd) -> safe (change_node f n).
Proof.
  intros Hf Hlab Hsvg Hsel c Hc. split; [by apply change_node_ok|].
  apply (grows_alter (fun nd => appear (f nd)) n).
  - unfold change_node. rewrite nodes_update_appearance. cbn. apply map_eq. intros m.
    rewrite !alter_node. by case_decide; [destruct (nodes c !! m)|].
  - intros nd. by rewrite selected_appear.
Qed.
Lemma node_ok_no_label nd : node_ok nd -> label nd = None -> label_item nd = None.
Proof. intros (_ & -> & _) ->. done. Qed.
Lemma node_ok_svg nd : node_ok nd -> place_svg (center nd) <$> svg_item nd = svg_item nd.
Proof. by intros (_ & _ & ?). Qed.
Lemma safe_setters n : (forall k, safe (set_color k n)) /\ (forall q, safe (set_size q n)) /\
  (forall b, safe (set_highlighted b n)) /\ (forall s, safe (set_label s n)).
Proof.
  split_and!; intros ?; apply safe_change; try done; try exact node_ok_no_label; exact node_ok_svg.
Qed.
Lemma safe_set_svg_icon svg_size w h ax ay n c c' : canvas_ok c ->
  set_svg_icon svg_size w h ax ay n c = Ok c' -> canvas_ok c' /\ grows c c'.
Proof.
  intros Hc H. unfold set_svg_icon in H.
  destruct w, h; try done; destruct (svg_size _ _); injection H as <-;
    (apply safe_change; [done|exact node_ok_no_label|done|done|done]).
Qed.
Lemma safe_get_node n : safe (get_node n).
Proof.
  intros c [Hl Hn]. unfold get_node. destruct (nodes c !! n) as [nd|] eqn:E; [by split; [|apply grows_refl]|].
  split; [split|].
  - apply (links_ok_ext c); [done| | |done]; intros [m|k]; try done; cbn;
      destruct (decide (m = n)) as [->|]; rewrite ?lookup_insert_eq, ?E; try done;
      by rewrite lookup_insert_ne by done.
  - intros m nd. cbn. destruct (decide (m = n)) as [->|]; [|rewrite lookup_insert_ne by done; apply Hn].
    rewrite lookup_insert_eq. by intros [= <-].
  - intros m. cbn. destruct (decide (m = n)) as [->|].
    + rewrite E, lookup_insert_eq. by intros nd [= <-].
    + rewrite lookup_insert_ne by done. exact (grows_refl c m).
Qed.
Lemma safe_get_channel k : safe (get_channel k).
Proof.
  intros c [Hl Hn]. unfold get_channel. destruct (channels c !! k) as [ch|] eqn:E;
    [by split; [|apply grows_refl]|]. split; [split; [|exact Hn]|exact (grows_refl c)].
  apply (links_ok_ext c); [done| | |done]; intros [m|j]; try done; cbn;
    destruct (decide (j = k)) as [->|]; rewrite ?lookup_insert_eq, ?E; try done;
    by rewrite lookup_insert_ne by done.
Qed.

(** *** New links *)

Definition known (e : endpoint) (c : canvas) : Prop :=
  match e with NodeEnd n => is_Some (nodes c !! n) | ChannelEnd k => is_Some (channels c !! k) end.
Lemma add_link_position e i c e' : position e' (add_link e i c) = position e' c.
Proof.
  destruct e as [n|k], e' as [m|j]; cbn; try done.
  - rewrite alter_node. case_decide; [|done]. by destruct (nodes c !! m).
  - destruct (decide (j = k)) as [->|]; [rewrite lookup_alter_eq|by rewrite lookup_alter_ne].
    by destruct (channels c !! k).
Qed.
Lemma add_link_at e i c e' : known e' c ->
  links_at e' (add_link e i c) = links_at e' c ++ (if decide (e' = e) then [i] else []).
Proof.
  intros Hk. destruct e as [n|k], e' as [m|j]; cbn in *; rewrite ?app_nil_r; try done; destruct Hk as [x Hx].
  - rewrite alter_node, Hx. do 2 case_decide; simplify_eq; cbn; by rewrite ?app_nil_r.
  - destruct (decide (j = k)) as [->|]; rewrite ?lookup_alter_eq, ?lookup_alter_ne, Hx by done;
      case_decide; simplify_eq; cbn; by rewrite ?app_nil_r.
Qed.
Lemma links_at_unknown e c : ~ known e c -> links_at e c = [].
Proof. destruct e as [n|k]; cbn; [destruct (nodes c !! n)|destruct (channels c !! k)]; try done; by destruct 1. Qed.
Lemma known_add_link e i c e' : known e' (add_link e i c) <-> known e' c.
Proof.
  destruct e as [n|k], e' as [m|j]; cbn; try done.
  - rewrite alter_node. case_decide; [|done]. by rewrite fmap_is_Some.
  - destruct (decide (j = k)) as [->|]; [rewrite lookup_alter_eq|by rewrite lookup_alter_ne].
    by rewrite fmap_is_Some.
Qed.
#[local] Instance known_dec e c : Decision (known e c).
Proof. destruct e; cbn; apply _. Defined.
Lemma add_link_sub e i c e' : links_at e' c ⊆ links_at e' (add_link e i c).
Proof.
  destruct (decide (known e' c)) as [Hk|Hk]; [rewrite add_link_at by done; set_solver|].
  rewrite (links_at_unknown e' c) by done. set_solver.
Qed.
Lemma links_add_link e i c : links (add_link e i c) = links c.
Proof. by destruct e. Qed.

Lemma grows_add_link e i c : grows c (add_link e i c).
Proof.
  destruct e as [n|k]; [|exact (grows_refl c)]. by apply (grows_alter (add_node_link i) n).
Qed.
Lemma node_ok_add_link e i c : (forall n nd, nodes c !! n = Some nd -> node_ok nd) ->
  forall n nd, nodes (add_link e i c) !! n = Some nd -> node_ok nd.
Proof.
  intros Hn n nd. destruct e as [m|k]; [|apply Hn]. cbn. rewrite alter_node. case_decide; [|apply Hn].
  destruct (nodes c !! n) as [nd0|] eqn:E; [|done]. intros [= <-]. exact (Hn n nd0 E).
Qed.
Lemma create_link_ok n e c : known (NodeEnd n) c -> known e c -> canvas_ok c ->
  canvas_ok (create_link n e c) /\ grows c (create_link n e c).
Proof.
  intros Hn He [[H1 H2] Hok]. unfold create_link.
  set (i := length (links c)). set (c0 := on_links (fun l => l ++ [mkLink n e None]) c).
  split; [split|].
  - assert (El : links (add_link e i (add_link (NodeEnd n) i c0)) = links c ++ [mkLink n e None])
      by by rewrite !links_add_link.
    split; rewrite El; intros j l.
    + intros e' [Hj|[Hj1 Hj]]%lookup_app_Some He'.
      * apply add_link_sub, add_link_sub. exact (H1 j l e' Hj He').
      * apply list_lookup_singleton_Some in Hj as [Hj <-].
        assert (j = i) as -> by (subst i; lia). destruct He' as [->| ->]; cbn [node1 node2].
        -- apply add_link_sub. rewrite add_link_at by done. case_decide; [set_solver|done].
        -- rewrite add_link_at by (by apply known_add_link; destruct e). case_decide; [set_solver|done].
    + intros d [Hj|[_ Hj]]%lookup_app_Some Hd.
      * rewrite (H2 j l d Hj Hd). unfold drawn. by rewrite !add_link_position.
      * apply list_lookup_singleton_Some in Hj as [_ <-]. done.
  - apply node_ok_add_link, node_ok_add_link. exact Hok.
  - eapply grows_trans; [|apply grows_add_link]. eapply grows_trans; [|apply grows_add_link].
    exact (grows_refl c).
Qed.
Lemma get_node_known n c : known (NodeEnd n) (get_node n c).
Proof. unfold get_node. destruct (nodes c !! n) eqn:E; cbn; [by rewrite E|by rewrite lookup_insert_eq]. Qed.
Lemma get_channel_known k c : known (ChannelEnd k) (get_channel k c).
Proof. unfold get_channel. destruct (channels c !! k) eqn:E; cbn; [by rewrite E|by rewrite lookup_insert_eq]. Qed.
