(* ===== verification/VizGraph.v ===== *)
(** * The visualizer's registry: [src/src/visualizer/visualizer/core.py]

    [scan_topology], which fills the registry of nodes, channels and links of [VizCanvas], the
    selection, the drag of a node and [_update_node_positions].  The network and the layout of graphviz are
    parameters, and so is which nodes have a mobility model, which stays as it is while the window is
    open: [Node.has_mobility] keeps its first answer. *)

From S2P Require Import Prelude State VizCanvas.
From Stdlib Require Import QArith.
From stdpp Require Import strings.
Local Open Scope nat_scope.
Local Open Scope list_scope.

(** ** The visualizer *)

Inductive ShowTransmissionsMode := ALL | NONE | SELECTED.
Record NodeDragState := mkDrag { canvas_0 : point; sim_0 : point }.
(** [cv] is the canvas; [mobility] the positions of the nodes with a mobility model, and [n_nodes] the
    number of nodes, both of the simulation. *)
Record visualizer := mkVis {
  cv : canvas; selected_node : option nat; show_transmissions_mode : ShowTransmissionsMode;
  nodes_of_interest : list nat; node_drag_state : option NodeDragState;
  mobility : gmap nat point; n_nodes : nat }.
Abbreviation M := (st visualizer vis_exn).

Definition on_canvas (f : canvas -> canvas) (v : visualizer) : visualizer :=
  mkVis (f (cv v)) (selected_node v) (show_transmissions_mode v) (nodes_of_interest v)
    (node_drag_state v) (mobility v) (n_nodes v).
Definition set_selected_node (n : option nat) (v : visualizer) : visualizer :=
  mkVis (cv v) n (show_transmissions_mode v) (nodes_of_interest v) (node_drag_state v) (mobility v) (n_nodes v).
Definition set_mode (m : ShowTransmissionsMode) (v : visualizer) : visualizer :=
  mkVis (cv v) (selected_node v) m (nodes_of_interest v) (node_drag_state v) (mobility v) (n_nodes v).
Definition set_nodes_of_interest (l : list nat) (v : visualizer) : visualizer :=
  mkVis (cv v) (selected_node v) (show_transmissions_mode v) l (node_drag_state v) (mobility v) (n_nodes v).
Definition set_drag (d : option NodeDragState) (v : visualizer) : visualizer :=
  mkVis (cv v) (selected_node v) (show_transmissions_mode v) (nodes_of_interest v) d (mobility v) (n_nodes v).
Definition set_mobility (m : gmap nat point) (v : visualizer) : visualizer :=
  mkVis (cv v) (selected_node v) (show_transmissions_mode v) (nodes_of_interest v) (node_drag_state v) m
    (n_nodes v).

(** [set_show_transmissions_mode] *)
Definition selected_list (v : visualizer) : list nat :=
  match selected_node v with None => [] | Some n => [n] end.
Definition set_show_transmissions_mode (m : ShowTransmissionsMode) (v : visualizer) : visualizer :=
  let v := set_mode m v in
  set_nodes_of_interest
    (match m with ALL => seq 0 (n_nodes v) | NONE => [] | SELECTED => selected_list v end) v.
(** [select_node] with a number or [None]: [self.nodes[node]] raises on an unknown number. *)
Definition select_node (n : option nat) : M unit := fun v =>
  let known := match n with Some i => bool_decide (is_Some (nodes (cv v) !! i)) | None => true end in
  if negb known then (Raise (KeyError (default 0 n)), v)
  else if decide (n = selected_node v) then (Ok tt, v)
  else
    let v := match selected_node v with Some i => on_canvas (set_selected false i) v | None => v end in
    let v := set_selected_node n v in
    let v := match n with Some i => on_canvas (set_selected true i) v | None => v end in
    (Ok tt, match show_transmissions_mode v with
            | SELECTED => set_nodes_of_interest (selected_list v) v
            | _ => v
            end).

(** [begin_node_drag], [node_drag_motion], [end_node_drag]: [pointer] is where the pointer is on the
    canvas. *)
Definition begin_node_drag (n : nat) (pointer : point) (v : visualizer) : visualizer :=
  match mobility v !! n, node_drag_state v with
  | Some pos, None => set_drag (Some (mkDrag pointer pos)) v
  | _, _ => v
  end.
Definition node_drag_motion (n : nat) (pointer : point) (v : visualizer) : bool * visualizer :=
  match mobility v !! n, node_drag_state v with
  | Some _, Some d =>
      let dx := (pointer.1 - (canvas_0 d).1)%Q in
      let dy := (pointer.2 - (canvas_0 d).2)%Q in
      let pos := ((sim_0 d).1 + transform_distance_canvas_to_simulation dx,
                  (sim_0 d).2 + transform_distance_canvas_to_simulation dy)%Q in
      (true, on_canvas (set_position n (transform_point_simulation_to_canvas pos))
               (set_mobility (<[n := pos]> (mobility v)) v))
  | _, _ => (false, v)
  end.
Definition end_node_drag (v : visualizer) : visualizer :=
  match node_drag_state v with None => v | Some _ => set_drag None v end.

(** [_update_node_positions], without the scrolling to a node that is followed. *)
Definition update_node_position (v : visualizer) (n : nat) : visualizer :=
  match mobility v !! n with
  | Some pos => on_canvas (set_position n (transform_point_simulation_to_canvas pos)) v
  | None => v
  end.
Definition update_node_positions `{!DictOrder nat} (v : visualizer) : visualizer :=
  foldl update_node_position v (dict_keys (nodes (cv v))).

(** *** [scan_topology] *)

(** The simulation's nodes: each device has a type and may have a channel, with the nodes of the
    channel's devices. *)
Record net_device := mkDevice { device_type : string; channel : nat }.
Record network := mkNetwork { net_nodes : list (list net_device); channel_nodes : nat -> list nat }.
(** The graph for graphviz: its vertices, and the calls of [add_edge]. *)
Inductive vertex := VNode (n : nat) | VChannel (k : nat).
#[export] Instance vertex_eq_dec : EqDecision vertex.
Proof. solve_decision. Defined.
Record graph := mkGraph { vertices : list vertex; edges : list (vertex * vertex) }.
Definition add_vertex (x : vertex) (g : graph) : graph :=
  if decide (x ∈ vertices g) then g else mkGraph (vertices g ++ [x]) (edges g).
Definition add_edge (x y : vertex) (g : graph) : graph :=
  let g := add_vertex y (add_vertex x g) in mkGraph (vertices g) (edges g ++ [(x, y)]).

Section Scan.
Context (net : network) (assign : bool).
(** The state of the scan: the visualizer, the graph, the table of device types. *)
Record scanning := mkScanning { vis : visualizer; gr : graph; table : traits_table }.
Definition has_mobility (v : visualizer) (n : nat) : bool := bool_decide (is_Some (mobility v !! n)).
Definition on_vis (f : visualizer -> visualizer) (s : scanning) : scanning := mkScanning (f (vis s)) (gr s) (table s).
Definition on_graph (f : graph -> graph) (s : scanning) : scanning := mkScanning (vis s) (f (gr s)) (table s).

(** The loop over the devices of a channel with at most two. *)
Definition scan_other (n : nat) (s : scanning) (other : nat) : scanning :=
  let s := on_vis (on_canvas (get_node other)) s in
  if decide (other = n) then s
  else
    let s :=
      if (assign || (negb (has_mobility (vis s) n) && negb (has_mobility (vis s) other)))%bool
      then on_graph (add_edge (VNode n) (VNode other)) s else s in
    on_vis (on_canvas (fun c => create_link n (NodeEnd other) (get_node n c))) s.
Definition scan_device (n : nat) (s : scanning) (d : net_device) : scanning :=
  let '(tr, t) := lookup_netdevice_traits (device_type d) (table s) in
  let s := mkScanning (vis s) (gr s) t in
  if is_wireless tr then s
  else if is_virtual tr then s
  else
    if 2 <? length (channel_nodes net (channel d)) then
      let s := if has_mobility (vis s) n then s
               else on_graph (add_edge (VNode n) (VChannel (channel d))) s in
      on_vis (on_canvas (fun c => create_link n (ChannelEnd (channel d)) (get_channel (channel d) c))) s
    else foldl (scan_other n) s (channel_nodes net (channel d)).
Definition scan_node (s : scanning) (x : nat * list net_device) : scanning :=
  let '(n, devices) := x in
  let s := on_vis (on_canvas (get_node n)) s in
  let s :=
    match mobility (vis s) !! n with
    | Some pos => on_vis (on_canvas (fun c =>
        set_position n (transform_point_simulation_to_canvas pos) (set_color 4278190335 n c))) s
    | None => on_graph (add_vertex (VNode n)) s
    end in
  foldl (scan_device n) s devices.
(** The positions that graphviz gives to the vertices. *)
Context (layout : graph -> vertex -> point).
Definition place_vertex (g : graph) (v : visualizer) (x : vertex) : visualizer :=
  let p := layout g x in
  match x with
  | VNode n =>
      let v := if (assign && has_mobility v n)%bool then set_mobility (<[n := p]> (mobility v)) v else v in
      on_canvas (set_position n p) v
  | VChannel k => on_canvas (set_channel_position k p) v
  end.
(** The first part, up to the call of graphviz. *)
Definition scan_nodes (t : traits_table) (v : visualizer) : scanning :=
  foldl scan_node (mkScanning v (mkGraph [] []) t) (imap pair (net_nodes net)).
Definition scan_topology (t : traits_table) (v : visualizer) : visualizer :=
  let s := scan_nodes t v in
  foldl (place_vertex (gr s)) (vis s) (vertices (gr s)).
End Scan.

(** ** The visualizer as the user and the simulator drive it *)

(** [Visualizer.__init__] with [create_gui]. *)
Definition initial (mob : gmap nat point) (number : nat) : visualizer :=
  mkVis (mkCanvas ∅ ∅ [] (Some (-10000, -10000, 10000, 10000)%Q)) None ALL (seq 0 number) None mob number.

(** What is called on a visualizer: [scan_topology]; the handlers of the user; [update_view];
    [get_node] and the methods of the nodes, which plugins call too; and the simulator, that moves
    nodes. *)
Inductive operation : visualizer -> visualizer -> Prop :=
  | Scan net assign layout t v : operation v (scan_topology net assign layout t v)
  | Select n v : operation v (select_node n v).2
  | SetMode m v : operation v (set_show_transmissions_mode m v)
  | BeginDrag n p v : operation v (begin_node_drag n p v)
  | DragMotion n p v : operation v (node_drag_motion n p v).2
  | EndDrag v : operation v (end_node_drag v)
  | UpdatePositions `{!DictOrder nat} v : operation v (update_node_positions v)
  | GetNode n v : operation v (on_canvas (get_node n) v)
  | SetPosition n p v : operation v (on_canvas (set_position n p) v)
  | SetHighlighted n b v : operation v (on_canvas (set_highlighted b n) v)
  | SetSize n q v : operation v (on_canvas (set_size q n) v)
  | SetColor n k v : operation v (on_canvas (set_color k n) v)
  | SetLabel n s v : operation v (on_canvas (set_label s n) v)
  | SetSvgIcon svg_size w h ax ay n v c : set_svg_icon svg_size w h ax ay n (cv v) = Ok c ->
      operation v (on_canvas (fun _ => c) v)
  | Simulate mob v : operation v (set_mobility mob v).

(** The node that is selected is known and is the one drawn as selected; the simulator tells
    about the nodes of the mode. *)
Definition selection_ok (v : visualizer) : Prop :=
  (forall n nd, nodes (cv v) !! n = Some nd -> selected nd = true <-> selected_node v = Some n) /\
  (forall n, selected_node v = Some n -> is_Some (nodes (cv v) !! n)).
Definition interest_ok (v : visualizer) : Prop :=
  nodes_of_interest v =
    match show_transmissions_mode v with ALL => seq 0 (n_nodes v) | NONE => [] | SELECTED => selected_list v end.
Definition vis_ok (v : visualizer) : Prop := canvas_ok (cv v) /\ selection_ok v /\ interest_ok v.

Definition safe_at (f : canvas -> canvas) (c : canvas) : Prop := canvas_ok (f c) /\ grows c (f c).
Lemma vis_ok_on_canvas f v : vis_ok v -> safe_at f (cv v) -> vis_ok (on_canvas f v).
Proof.
  intros (Hc & [Hs1 Hs2] & Hi) [Hc' Hg]. split_and!; [exact Hc'| |exact Hi]. split.
  - intros n nd E. cbn in *. specialize (Hg n). destruct (nodes (cv v) !! n) as [nd0|] eqn:E0.
    + destruct Hg as (nd' & E' & Es). simplify_eq. rewrite Es. by apply Hs1.
    + rewrite (Hg _ E). split; [done|]. intros H. apply Hs2 in H. rewrite E0 in H. by destruct H.
  - intros n H. by eapply grows_known, Hs2.
Qed.
Lemma vis_ok_safe f v : safe f -> vis_ok v -> vis_ok (on_canvas f v).
Proof. intros Hf Hv. apply vis_ok_on_canvas; [done|]. apply Hf, Hv. Qed.
Lemma vis_ok_mobility mob v : vis_ok v -> vis_ok (set_mobility mob v).
Proof. exact (fun H => H). Qed.
Lemma vis_ok_foldl {A} (f : visualizer -> A -> visualizer) (l : list A) v :
  (forall v x, vis_ok v -> vis_ok (f v x)) -> vis_ok v -> vis_ok (foldl f v l).
Proof. intros Hf. revert v. induction l as [|x l IH]; intros v Hv; [done|]. apply IH. by apply Hf. Qed.

(** *** Selection *)

Lemma set_selected_ok b n c : canvas_ok c -> canvas_ok (set_selected b n c).
Proof. apply change_node_ok; [done|exact node_ok_no_label|exact node_ok_svg]. Qed.
Definition flag (n : nat) (c : canvas) : option bool := selected <$> nodes c !! n.
Lemma flag_set_selected b n c m :
  flag m (set_selected b n c) = if decide (m = n) then (fun _ => b) <$> flag m c else flag m c.
Proof.
  unfold flag, set_selected, change_node. rewrite nodes_update_appearance. cbn. rewrite !alter_node.
  case_decide; [|done]. destruct (nodes c !! m) as [nd|]; [|done]. cbn. by rewrite selected_appear.
Qed.
Lemma selection_ok_flags v : selection_ok v <->
  (forall n b, flag n (cv v) = Some b -> b = bool_decide (selected_node v = Some n)) /\
  (forall n, selected_node v = Some n -> is_Some (flag n (cv v))).
Proof.
  unfold selection_ok, flag. split; intros [H1 H2]; split.
  - intros n b (nd & E & ->)%fmap_Some. specialize (H1 n nd E).
    destruct (selected nd); [rewrite bool_decide_eq_true_2|rewrite bool_decide_eq_false_2]; intuition congruence.
  - intros n Hn. apply fmap_is_Some. by apply H2.
  - intros n nd E. specialize (H1 n (selected nd)). rewrite E in H1. rewrite (H1 eq_refl). apply bool_decide_eq_true.
  - intros n Hn. by eapply fmap_is_Some, H2.
Qed.

(** What [select_node] does to the selection and the canvas. *)
Definition reselect (n : option nat) (v : visualizer) : visualizer :=
  let v := match selected_node v with Some i => on_canvas (set_selected false i) v | None => v end in
  let v := set_selected_node n v in
  match n with Some i => on_canvas (set_selected true i) v | None => v end.
Lemma reselect_flag n v m : flag m (cv (reselect n v)) =
  if decide (n = Some m) then (fun _ => true) <$> flag m (cv v)
  else if decide (selected_node v = Some m) then (fun _ => false) <$> flag m (cv v) else flag m (cv v).
Proof.
  unfold reselect. destruct (selected_node v) as [i|], n as [j|]; cbn; rewrite ?flag_set_selected;
    repeat case_decide; simplify_eq; try done; by destruct (flag _ _).
Qed.
Lemma reselect_ok n v : canvas_ok (cv v) -> selection_ok v ->
  (forall i, n = Some i -> is_Some (nodes (cv v) !! i)) ->
  canvas_ok (cv (reselect n v)) /\ selection_ok (reselect n v) /\ selected_node (reselect n v) = n.
Proof.
  intros Hc Hs Hn. apply selection_ok_flags in Hs as [Hs1 Hs2].
  assert (E : selected_node (reselect n v) = n) by (unfold reselect; by destruct (selected_node v), n).
  split_and!; [|apply selection_ok_flags; rewrite E; split|done].
  - unfold reselect. destruct (selected_node v), n; cbn; auto using set_selected_ok.
  - intros m b. rewrite reselect_flag. case_decide as H1.
    + rewrite bool_decide_eq_true_2 by done. intros (? & _ & ->)%fmap_Some. done.
    + rewrite bool_decide_eq_false_2 by done. case_decide as H2.
      * intros (? & _ & ->)%fmap_Some. done.
      * intros Hb. rewrite (Hs1 _ _ Hb). by apply bool_decide_eq_false_2.
  - intros m ->. rewrite reselect_flag, decide_True by done. apply fmap_is_Some, fmap_is_Some. by apply Hn.
Qed.
Lemma vis_ok_select n v : vis_ok v -> vis_ok (select_node n v).2.
Proof.
  intros (Hc & Hs & Hi). unfold select_node.
  destruct (negb _) eqn:Hk; [by split_and!|]. case_decide; [by split_and!|].
  assert (Hn : forall i, n = Some i -> is_Some (nodes (cv v) !! i)).
  { intros i ->. apply negb_false_iff, bool_decide_eq_true in Hk. done. }
  destruct (reselect_ok n v Hc Hs Hn) as (Hc' & Hs' & E).
  change (vis_ok (match show_transmissions_mode (reselect n v) with
    | SELECTED => set_nodes_of_interest (selected_list (reselect n v)) (reselect n v) | _ => reselect n v end)).
  assert (Hi' : show_transmissions_mode (reselect n v) = show_transmissions_mode v /\
    nodes_of_interest (reselect n v) = nodes_of_interest v /\ n_nodes (reselect n v) = n_nodes v)
    by (unfold reselect; by destruct (selected_node v), n).
  destruct Hi' as (Em & En & Eno).
  destruct (show_transmissions_mode (reselect n v)) eqn:Emode;
    (split_and!; [exact Hc'|exact Hs'|]); unfold interest_ok in *; cbn; rewrite Emode; try done;
    rewrite ?En, ?Eno, Hi, <- Em; done.
Qed.

(** *** Scanning *)

Definition vertex_end (x : vertex) : endpoint := match x with VNode n => NodeEnd n | VChannel k => ChannelEnd k end.
Lemma known_grows f c e : safe f -> canvas_ok c -> known e c -> (forall k, e <> ChannelEnd k) -> known e (f c).
Proof. intros Hf Hc Hk Hne. destruct e as [n|k]; [|by destruct (Hne k)]. eapply grows_known; [by apply Hf|done]. Qed.
Lemma known_get_node n c e : known e c -> known e (get_node n c).
Proof.
  unfold get_node. destruct (nodes c !! n) eqn:E; [done|]. destruct e as [m|k]; [|done]. cbn.
  destruct (decide (m = n)) as [->|]; [by rewrite lookup_insert_eq|by rewrite lookup_insert_ne].
Qed.
Lemma known_get_channel k c e : known e c -> known e (get_channel k c).
Proof.
  unfold get_channel. destruct (channels c !! k) eqn:E; [done|]. destruct e as [m|j]; [done|]. cbn.
  destruct (decide (j = k)) as [->|]; [by rewrite lookup_insert_eq|by rewrite lookup_insert_ne].
Qed.
Lemma known_create_link n e' c e : known e (create_link n e' c) <-> known e c.
Proof. unfold create_link. rewrite !known_add_link. by destruct e. Qed.
Lemma known_set_position n p c e : known e (set_position n p c) <-> known e c.
Proof.
  destruct e as [m|k]; unfold known.
  - rewrite nodes_set_position, !alter_node. case_decide; by rewrite ?fmap_is_Some.
  - unfold set_position. cbn. by rewrite (proj1 (proj2 (update_links_frame _ _))).
Qed.
Lemma known_change_node f n c e : known e (change_node f n c) <-> known e c.
Proof.
  destruct e as [m|k]; unfold known.
  - unfold change_node. rewrite nodes_update_appearance. cbn. rewrite !alter_node.
    case_decide; by rewrite ?fmap_is_Some.
  - unfold change_node, update_appearance. cbn. destruct (_ !! n) as [nd|]; [|done].
    destruct (label nd); [|done]. exact (known_set_position n _ _ (ChannelEnd k)).
Qed.

(** The ends of the links, which only [create_link] changes. *)
Definition link_ends (c : canvas) : list (nat * endpoint) := (fun l => (node1 l, node2 l)) <$> links c.
Lemma link_ends_update ids c : link_ends (update_links ids c) = link_ends c.
Proof.
  unfold update_links. revert c. induction ids as [|i ids IH]; intros c; [done|]. cbn. rewrite IH.
  unfold link_ends, update_points. cbn. apply list_eq. intros j. rewrite !list_lookup_fmap.
  destruct (decide (i = j)) as [->|]; [rewrite list_lookup_alter_eq|by rewrite list_lookup_alter_ne].
  by destruct (links c !! j).
Qed.
Lemma link_ends_set_position n p c : link_ends (set_position n p c) = link_ends c.
Proof. exact (link_ends_update _ (on_nodes (alter (place_node p) n) c)). Qed.
Lemma link_ends_set_channel_position k p c : link_ends (set_channel_position k p c) = link_ends c.
Proof. exact (link_ends_update _ (on_channels (alter (fun ch => mkChannel p (channel_links ch)) k) c)). Qed.
Lemma link_ends_change_node f n c : link_ends (change_node f n c) = link_ends c.
Proof.
  unfold change_node, update_appearance. cbn. destruct (_ !! n) as [nd|]; [|done].
  destruct (label nd); [|done]. by rewrite link_ends_set_position.
Qed.
Lemma link_ends_get_node n c : link_ends (get_node n c) = link_ends c.
Proof. unfold get_node. by destruct (nodes c !! n). Qed.
Lemma link_ends_get_channel k c : link_ends (get_channel k c) = link_ends c.
Proof. unfold get_channel. by destruct (channels c !! k). Qed.
Lemma link_ends_create_link n e c : link_ends (create_link n e c) = link_ends c ++ [(n, e)].
Proof. unfold create_link, link_ends. rewrite !links_add_link. cbn. by rewrite fmap_app. Qed.

(** Whether the nodes that links start from are placed, by the simulator or by graphviz. *)
Definition placed (s : scanning) (n : nat) : Prop := is_Some (mobility (vis s) !! n) \/ VNode n ∈ vertices (gr s).
(** [old] are the links from before the scan. *)
Section Scanning.
Context (old : list (nat * endpoint)).
Record scan_inv (s : scanning) : Prop := {
  scan_vis : vis_ok (vis s);
  scan_vertices x : x ∈ vertices (gr s) -> known (vertex_end x) (cv (vis s));
  scan_sources n e : (n, e) ∈ link_ends (cv (vis s)) -> (n, e) ∈ old \/ placed s n }.
Lemma add_vertex_elem x y g : y ∈ vertices (add_vertex x g) <-> y ∈ vertices g \/ y = x.
Proof. unfold add_vertex. case_decide; cbn; set_solver. Qed.
Lemma add_edge_elem x y z g : z ∈ vertices (add_edge x y g) <-> z ∈ vertices g \/ z = x \/ z = y.
Proof. unfold add_edge. cbn. rewrite !add_vertex_elem. tauto. Qed.

Lemma scan_inv_canvas f s : safe_at f (cv (vis s)) ->
  (forall e, known e (cv (vis s)) -> known e (f (cv (vis s)))) -> scan_inv s ->
  (forall n e, (n, e) ∈ link_ends (f (cv (vis s))) -> (n, e) ∈ link_ends (cv (vis s)) \/ placed s n) ->
  scan_inv (on_vis (on_canvas f) s).
Proof.
  intros Hf Hk [H1 H2 H3] Hl. split.
  - by apply vis_ok_on_canvas.
  - intros x Hx. by apply Hk, H2.
  - intros n e He. destruct (Hl n e He) as [H|H]; [exact (H3 n e H)|by right].
Qed.
Lemma scan_inv_quiet f s : safe f -> (forall c e, known e c -> known e (f c)) ->
  (forall c, link_ends (f c) = link_ends c) -> scan_inv s -> scan_inv (on_vis (on_canvas f) s).
Proof.
  intros Hf Hk Hl Hs. apply scan_inv_canvas; [apply Hf, (scan_vis s Hs)|auto|done|].
  intros n e. rewrite Hl. by left.
Qed.
Lemma scan_inv_graph f s : (forall x, x ∈ vertices (gr s) -> x ∈ vertices (f (gr s))) ->
  (forall x, x ∈ vertices (f (gr s)) -> x ∈ vertices (gr s) \/ known (vertex_end x) (cv (vis s))) ->
  scan_inv s -> scan_inv (on_graph f s).
Proof.
  intros Hm Hf [H1 H2 H3]. split; [done| |].
  - intros x Hx. destruct (Hf x Hx); [by apply H2|done].
  - intros n e He. destruct (H3 n e He) as [H|[H|H]]; [by left|by right; left|right; right; by apply Hm].
Qed.
Lemma scan_inv_edge x y s : known (vertex_end x) (cv (vis s)) -> known (vertex_end y) (cv (vis s)) ->
  scan_inv s -> scan_inv (on_graph (add_edge x y) s).
Proof.
  intros Hx Hy. apply scan_inv_graph; intros z; rewrite add_edge_elem; [tauto|].
  intros [?|[->| ->]]; auto.
Qed.
Lemma scan_inv_link n e s : known (NodeEnd n) (cv (vis s)) -> known e (cv (vis s)) -> placed s n ->
  scan_inv s -> scan_inv (on_vis (on_canvas (create_link n e)) s).
Proof.
  intros Hn He Hp Hs. apply scan_inv_canvas; [|by intros; apply known_create_link|done|].
  - by apply create_link_ok; [..|apply (scan_vis s Hs)].
  - intros m e'. rewrite link_ends_create_link, elem_of_app, list_elem_of_singleton.
    intros [?|[= -> ->]]; [by left|by right].
Qed.
Lemma scan_inv_get_node n s : scan_inv s -> scan_inv (on_vis (on_canvas (get_node n)) s).
Proof. apply scan_inv_quiet; [apply safe_get_node|intros; by apply known_get_node|apply link_ends_get_node]. Qed.
Lemma scan_inv_get_channel k s : scan_inv s -> scan_inv (on_vis (on_canvas (get_channel k)) s).
Proof. apply scan_inv_quiet; [apply safe_get_channel|intros; by apply known_get_channel|apply link_ends_get_channel]. Qed.

(** The traits that a type of device has, registered or not. *)
Definition traits_of (t : traits_table) (ty : string) : NetDeviceTraits := default (mkTraits true false) (t !! ty).
Lemma lookup_netdevice_traits_spec ty t : (lookup_netdevice_traits ty t).1 = traits_of t ty /\
  forall ty', traits_of (lookup_netdevice_traits ty t).2 ty' = traits_of t ty'.
Proof.
  unfold lookup_netdevice_traits, traits_of. destruct (t !! ty) eqn:E; [done|]. split; [done|]. intros ty'. cbn.
  destruct (decide (ty' = ty)) as [->|]; [by rewrite lookup_insert_eq, E|by rewrite lookup_insert_ne].
Qed.
(** The links that a node has for a device. *)
Definition device_links (net : network) (t : traits_table) (n : nat) (d : net_device) : list (nat * endpoint) :=
  let tr := traits_of t (device_type d) in
  if (is_wireless tr || is_virtual tr)%bool then []
  else if 2 <? length (channel_nodes net (channel d)) then [(n, ChannelEnd (channel d))]
  else pair n ∘ NodeEnd <$> filter (fun other => other <> n) (channel_nodes net (channel d)).
Definition network_links (net : network) (t : traits_table) : list (nat * endpoint) :=
  concat ((fun x => concat (device_links net t x.1 <$> x.2)) <$> imap pair (net_nodes net)).

(** A part of the scan that adds some links. *)
Record adds (new : list (nat * endpoint)) (s s' : scanning) : Prop := {
  adds_inv : scan_inv s';
  adds_mobility : mobility (vis s') = mobility (vis s);
  adds_known e : known e (cv (vis s)) -> known e (cv (vis s'));
  adds_vertices x : x ∈ vertices (gr s) -> x ∈ vertices (gr s');
  adds_traits ty : traits_of (table s') ty = traits_of (table s) ty;
  adds_links : link_ends (cv (vis s')) = link_ends (cv (vis s)) ++ new }.
Lemma adds_nil s : scan_inv s -> adds [] s s.
Proof. intros Hs. split; [done..|]. by rewrite app_nil_r. Qed.
Lemma adds_app l1 l2 s1 s2 s3 : adds l1 s1 s2 -> adds l2 s2 s3 -> adds (l1 ++ l2) s1 s3.
Proof.
  intros [A1 A2 A6 A3 A4 A5] [B1 B2 B6 B3 B4 B5]. split; [done|congruence|auto|auto|congruence|].
  by rewrite B5, A5, app_assoc.
Qed.
Lemma adds_placed l s s' n : adds l s s' -> placed s n -> placed s' n.
Proof. intros H [Hm|Hv]; [left; by rewrite (adds_mobility _ _ _ H)|right; by eapply adds_vertices]. Qed.
Lemma adds_foldl {A} (f : scanning -> A -> scanning) (g : A -> list (nat * endpoint)) (P : scanning -> Prop) l s :
  (forall s x, x ∈ l -> scan_inv s -> P s -> adds (g x) s (f s x)) ->
  (forall l s s', adds l s s' -> P s -> P s') ->
  scan_inv s -> P s -> adds (concat (g <$> l)) s (foldl f s l).
Proof.
  intros Hf HP. revert s. induction l as [|x l IH]; intros s Hs Hp; [by apply adds_nil|]. cbn.
  assert (H := Hf s x ltac:(by left) Hs Hp). eapply adds_app; [exact H|].
  apply IH; [|by apply (adds_inv _ _ _ H)|by eapply HP]. intros s' y Hy. apply Hf. by right.
Qed.

Section ScanFacts.
Context (net : network) (assign : bool) (layout : graph -> vertex -> point).

Lemma adds_scan_other n s other : scan_inv s -> placed s n ->
  adds (if decide (other = n) then [] else [(n, NodeEnd other)]) s (scan_other assign n s other).
Proof.
  intros Hs Hp. unfold scan_other.
  set (s1 := on_vis (on_canvas (get_node other)) s).
  assert (H1 : adds [] s s1).
  { split; [by apply scan_inv_get_node|done|intros; by apply known_get_node|done..|]. rewrite app_nil_r.
    apply link_ends_get_node. }
  case_decide; [done|]. clear Hs. rewrite <- (app_nil_l [_]). eapply adds_app; [exact H1|].
  assert (Hp1 : placed s1 n) by (by eapply adds_placed).
  assert (Ho : known (NodeEnd other) (cv (vis s1))) by apply get_node_known.
  apply adds_inv in H1. clearbody s1. clear s Hp.
  set (s2 := on_vis (on_canvas (get_node n)) s1).
  assert (H2 : scan_inv s2) by (by apply scan_inv_get_node).
  assert (Hn : known (NodeEnd n) (cv (vis s2))) by apply get_node_known.
  assert (Ho2 : known (NodeEnd other) (cv (vis s2))) by by apply known_get_node.
  destruct (_ || _)%bool.
  - change (adds [(n, NodeEnd other)] s1
      (on_vis (on_canvas (create_link n (NodeEnd other))) (on_graph (add_edge (VNode n) (VNode other)) s2))).
    split; try done.
    + apply scan_inv_link; [done..| |by apply scan_inv_edge].
      right. cbn. apply add_edge_elem. auto.
    + intros e He. by apply known_create_link, known_get_node.
    + intros x Hx. cbn. apply add_edge_elem. by left.
    + etransitivity; [apply link_ends_create_link|]. f_equal. apply link_ends_get_node.
  - change (adds [(n, NodeEnd other)] s1 (on_vis (on_canvas (create_link n (NodeEnd other))) s2)).
    split; [by apply scan_inv_link|done|intros; by apply known_create_link, known_get_node|done..|].
    etransitivity; [apply link_ends_create_link|]. f_equal. apply link_ends_get_node.
Qed.
Lemma concat_if n l : concat ((fun other => if decide (other = n) then [] else [(n, NodeEnd other)]) <$> l) =
  pair n ∘ NodeEnd <$> filter (fun other => other <> n) l.
Proof.
  induction l as [|o l IH]; [done|]. rewrite filter_cons, fmap_cons. cbn [concat]. rewrite IH.
  repeat case_decide; done.
Qed.
Lemma adds_scan_device n s d : scan_inv s -> placed s n -> known (NodeEnd n) (cv (vis s)) ->
  (mobility (vis s) !! n = None -> VNode n ∈ vertices (gr s)) ->
  adds (device_links net (table s) n d) s (scan_device net assign n s d).
Proof.
  intros Hs Hp Hn Hv. unfold scan_device, device_links.
  destruct (lookup_netdevice_traits_spec (device_type d) (table s)) as [E Ht].
  destruct (lookup_netdevice_traits (device_type d) (table s)) as [tr t]. cbn in E, Ht. subst tr.
  set (s1 := mkScanning (vis s) (gr s) t).
  assert (H1 : adds [] s s1).
  { split; try done; [|by rewrite app_nil_r]. destruct Hs as [? ? Hsrc]. split; [done..|exact Hsrc]. }
  destruct (is_wireless _); [done|]. cbn [orb]. destruct (is_virtual _); [done|].
  refine (adds_app [] _ _ _ _ H1 _).
  assert (Hp1 : placed s1 n) by exact Hp. apply adds_inv in H1. assert (Hn1 : known (NodeEnd n) (cv (vis s1))) by exact Hn.
  assert (Hv1 : mobility (vis s1) !! n = None -> VNode n ∈ vertices (gr s1)) by exact Hv.
  clearbody s1. clear s Hs Hp Hn Hv Ht. unfold Nat.ltb. destruct (3 <=? _).
  - set (k := channel d). set (s2 := on_vis (on_canvas (get_channel k)) s1).
    assert (H2 : scan_inv s2) by (by apply scan_inv_get_channel).
    assert (Hk : known (ChannelEnd k) (cv (vis s2))) by apply get_channel_known.
    assert (Hn2 : known (NodeEnd n) (cv (vis s2))) by (by apply known_get_channel).
    destruct (has_mobility (vis s1) n).
    + change (adds [(n, ChannelEnd k)] s1 (on_vis (on_canvas (create_link n (ChannelEnd k))) s2)).
      split; [by apply scan_inv_link|done|intros; by apply known_create_link, known_get_channel|done..|].
      etransitivity; [apply link_ends_create_link|]. f_equal. apply link_ends_get_channel.
    + change (adds [(n, ChannelEnd k)] s1
        (on_vis (on_canvas (create_link n (ChannelEnd k))) (on_graph (add_edge (VNode n) (VChannel k)) s2))).
      split; try done.
      * apply scan_inv_link; [done..| |by apply scan_inv_edge]. right. apply add_edge_elem. auto.
      * intros e He. by apply known_create_link, known_get_channel.
      * intros x Hx. apply add_edge_elem. by left.
      * etransitivity; [apply link_ends_create_link|]. f_equal. apply link_ends_get_channel.
  - rewrite <- concat_if. apply (adds_foldl _ _ (fun s => placed s n)); [|intros; by eapply adds_placed|done..].
    intros s x _ Hs Hp. by apply adds_scan_other.
Qed.
Lemma device_links_ext t t' n d : (forall ty, traits_of t ty = traits_of t' ty) ->
  device_links net t n d = device_links net t' n d.
Proof. intros H. unfold device_links. by rewrite H. Qed.
(** A node after its turn. *)
Definition visited (n : nat) (s : scanning) : Prop := known (NodeEnd n) (cv (vis s)) /\ placed s n.
Lemma adds_visited l s s' n : adds l s s' -> visited n s -> visited n s'.
Proof. intros H [Hk Hp]. split; [by eapply adds_known|by eapply adds_placed]. Qed.
Lemma scan_inv_move n p s : scan_inv s ->
  scan_inv (on_vis (on_canvas (fun c => set_position n p (set_color 4278190335 n c))) s).
Proof.
  apply (scan_inv_quiet (fun c => set_position n p (set_color 4278190335 n c))).
  - exact (safe_comp _ _ (safe_set_position n p) (proj1 (safe_setters n) 4278190335%Z)).
  - intros c e He. by apply known_set_position, known_change_node.
  - intros c. rewrite link_ends_set_position. apply link_ends_change_node.
Qed.
Lemma adds_scan_node s n devices : scan_inv s ->
  adds (concat (device_links net (table s) n <$> devices)) s (scan_node net assign s (n, devices)) /\
  visited n (scan_node net assign s (n, devices)).
Proof.
  intros Hs. cbn [scan_node].
  set (s1 := on_vis (on_canvas (get_node n)) s).
  set (s2 := match mobility (vis s1) !! n with Some _ => _ | None => _ end).
  assert (Hn1 : known (NodeEnd n) (cv (vis s1))) by apply get_node_known.
  assert (H1 : scan_inv s1) by (by apply scan_inv_get_node).
  assert (H2 : adds [] s s2 /\ visited n s2 /\ (mobility (vis s2) !! n = None -> VNode n ∈ vertices (gr s2))).
  { subst s2. destruct (mobility (vis s1) !! n) as [p|] eqn:E.
    - split; [split; try done|split; [split|]].
      + by apply scan_inv_move.
      + intros e He. by apply known_set_position, known_change_node, known_get_node.
      + rewrite app_nil_r. etransitivity; [apply link_ends_set_position|].
        etransitivity; [apply link_ends_change_node|]. apply link_ends_get_node.
      + by apply known_set_position, known_change_node.
      + left. by eexists.
      + cbn in E |- *. by rewrite E.
    - split; [split; try done|split; [split|]]; try done.
      + apply scan_inv_graph; [|intros x; rewrite add_vertex_elem; intros [?| ->]; auto|done].
        intros x Hx. apply add_vertex_elem. by left.
      + intros e He. by apply known_get_node.
      + intros x Hx. apply add_vertex_elem. by left.
      + rewrite app_nil_r. apply link_ends_get_node.
      + right. apply add_vertex_elem. by right.
      + intros _. apply add_vertex_elem. by right. }
  clearbody s2. clear s1 Hn1 H1. destruct H2 as (H2 & [Hk Hp] & Hv).
  assert (H3 : adds (concat (device_links net (table s) n <$> devices)) s2
    (foldl (scan_device net assign n) s2 devices)).
  { apply (adds_foldl _ _ (fun s' => visited n s' /\ (mobility (vis s') !! n = None -> VNode n ∈ vertices (gr s')) /\
      forall ty, traits_of (table s') ty = traits_of (table s) ty)).
    - intros s' d _ Hs' ([Hk' Hp'] & Hv' & Ht). rewrite (device_links_ext (table s) (table s')) by done.
      by apply adds_scan_device.
    - intros l s3 s4 H34 (Hvis & Hv' & Ht). split_and!; [by eapply adds_visited| |].
      + rewrite (adds_mobility _ _ _ H34). intros Hm. by eapply adds_vertices, Hv'.
      + intros ty. by rewrite (adds_traits _ _ _ H34).
    - apply (adds_inv _ _ _ H2).
    - split_and!; [done..|]. apply (adds_traits _ _ _ H2). }
  split; [exact (adds_app _ _ _ _ _ H2 H3)|]. by eapply adds_visited.
Qed.

Lemma adds_scan_nodes t (l : list (nat * list net_device)) s : scan_inv s ->
  (forall ty, traits_of (table s) ty = traits_of t ty) ->
  let s' := foldl (scan_node net assign) s l in
  adds (concat ((fun x => concat (device_links net t x.1 <$> x.2)) <$> l)) s s' /\
  Forall (fun x => visited x.1 s') l.
Proof.
  revert s. induction l as [|[n devices] l IH]; intros s Hs Ht; [by split; [apply adds_nil|]|].
  cbn [foldl]. destruct (adds_scan_node s n devices Hs) as [Ha Hv].
  destruct (IH _ (adds_inv _ _ _ Ha)) as [Hb Hbv].
  { intros ty. by rewrite (adds_traits _ _ _ Ha). }
  split; [|constructor; [by eapply adds_visited|done]].
  rewrite fmap_cons. refine (adds_app _ _ _ _ _ _ Hb). cbn [fst snd].
  rewrite (list_fmap_ext (device_links net t n) (device_links net (table s) n) devices); [exact Ha|].
  intros i d _. by apply device_links_ext.
Qed.

(** *** Laying out *)

Lemma position_set_position n p c e : known (NodeEnd n) c ->
  position e (set_position n p c) = if decide (e = NodeEnd n) then p else position e c.
Proof.
  intros [nd Hn]. destruct e as [m|k]; unfold position.
  - rewrite nodes_set_position, !alter_node. do 2 case_decide; simplify_eq; try done. by rewrite Hn.
  - rewrite decide_False by done. unfold set_position. cbn.
    by rewrite (proj1 (proj2 (update_links_frame _ _))).
Qed.
Lemma position_set_channel_position k p c e : known (ChannelEnd k) c ->
  position e (set_channel_position k p c) = if decide (e = ChannelEnd k) then p else position e c.
Proof.
  intros [ch Hk]. unfold set_channel_position.
  destruct (update_links_frame (from_option channel_links []
    (channels (on_channels (alter (fun ch => mkChannel p (channel_links ch)) k) c) !! k))
    (on_channels (alter (fun ch => mkChannel p (channel_links ch)) k) c)) as (En & Ec & _).
  destruct e as [m|j]; unfold position.
  - rewrite decide_False by done. by rewrite En.
  - rewrite Ec. cbn. case_decide; simplify_eq; [by rewrite lookup_alter_eq, Hk|].
    by rewrite lookup_alter_ne by congruence.
Qed.
Lemma links_at_set_position n p c e : links_at e (set_position n p c) = links_at e c.
Proof.
  destruct e as [m|k]; unfold links_at.
  - rewrite nodes_set_position, !alter_node. case_decide; [|done]. by destruct (nodes c !! m).
  - unfold set_position. cbn. by rewrite (proj1 (proj2 (update_links_frame _ _))).
Qed.
Lemma links_at_set_channel_position k p c e : links_at e (set_channel_position k p c) = links_at e c.
Proof.
  unfold set_channel_position. set (c1 := on_channels _ c). set (ids := from_option _ _ _).
  destruct (update_links_frame ids c1) as (En & Ec & _). destruct e as [m|j]; unfold links_at; rewrite ?En, ?Ec; [done|].
  subst c1. cbn. destruct (decide (j = k)) as [->|]; [rewrite lookup_alter_eq|by rewrite lookup_alter_ne].
  by destruct (channels c !! k).
Qed.
Lemma known_set_channel_position k p c e : known e (set_channel_position k p c) <-> known e c.
Proof.
  unfold set_channel_position. set (c1 := on_channels _ c). set (ids := from_option _ _ _).
  destruct (update_links_frame ids c1) as (En & Ec & _). destruct e as [m|j]; unfold known; rewrite ?En, ?Ec; [done|].
  subst c1. cbn. destruct (decide (j = k)) as [->|]; [rewrite lookup_alter_eq|by rewrite lookup_alter_ne].
  by rewrite fmap_is_Some.
Qed.
(** A link that has never been drawn. *)
Definition undrawn (i : nat) (c : canvas) : Prop := exists l, links c !! i = Some l /\ data l = None.
Lemma undrawn_update_links i ids c : undrawn i (update_links ids c) -> undrawn i c /\ i ∉ ids.
Proof.
  intros (l & Hl & Hd). apply update_links_lookup in Hl as (l0 & H0 & _ & _ & E). rewrite Hd in E.
  case_decide; [done|]. split; [by exists l0|done].
Qed.
Lemma undrawn_set_position i n p c : undrawn i (set_position n p c) ->
  undrawn i c /\ i ∉ links_at (NodeEnd n) c.
Proof.
  intros H. unfold set_position in H. apply (undrawn_update_links i _ (on_nodes _ c)) in H as [H1 H2].
  split; [exact H1|]. cbn in H2 |- *. rewrite alter_node, decide_True in H2 by done.
  by destruct (nodes c !! n).
Qed.
Lemma undrawn_set_channel_position i k p c : undrawn i (set_channel_position k p c) ->
  undrawn i c /\ i ∉ links_at (ChannelEnd k) c.
Proof.
  intros H. apply (undrawn_update_links i _ (on_channels _ c)) in H as [H1 H2].
  split; [exact H1|]. cbn in H2 |- *. rewrite lookup_alter_eq in H2. by destruct (channels c !! k).
Qed.
End ScanFacts.
End Scanning.

(** Moves of nodes and channels, one after the other. *)
Definition move (e : endpoint) (p : point) (c : canvas) : canvas :=
  match e with NodeEnd n => set_position n p c | ChannelEnd k => set_channel_position k p c end.
Definition moves (l : list (endpoint * point)) (c : canvas) : canvas := foldl (fun c x => move x.1 x.2 c) c l.
Lemma safe_move e p : safe (move e p).
Proof. destruct e; [apply safe_set_position|apply safe_set_channel_position]. Qed.
Lemma position_move e p c e' : known e c -> position e' (move e p c) = if decide (e' = e) then p else position e' c.
Proof. destruct e; [apply position_set_position|apply position_set_channel_position]. Qed.
Lemma known_move e p c e' : known e' (move e p c) <-> known e' c.
Proof. destruct e; [apply known_set_position|apply known_set_channel_position]. Qed.
Lemma links_at_move e p c e' : links_at e' (move e p c) = links_at e' c.
Proof. destruct e; [apply links_at_set_position|apply links_at_set_channel_position]. Qed.
Lemma link_ends_move e p c : link_ends (move e p c) = link_ends c.
Proof. destruct e; [apply link_ends_set_position|apply link_ends_set_channel_position]. Qed.
Lemma undrawn_move i e p c : undrawn i (move e p c) -> undrawn i c /\ i ∉ links_at e c.
Proof. destruct e; [apply undrawn_set_position|apply undrawn_set_channel_position]. Qed.

Lemma moves_frame l c : link_ends (moves l c) = link_ends c /\
  (forall e, known e (moves l c) <-> known e c) /\ (forall e, links_at e (moves l c) = links_at e c).
Proof.
  unfold moves. revert c. induction l as [|[e p] l IH]; intros c; [done|]. cbn.
  destruct (IH (move e p c)) as (H1 & H2 & H3). rewrite H1, link_ends_move. split_and!; [done|..]; intros e'.
  - by rewrite H2, known_move.
  - by rewrite H3, links_at_move.
Qed.
Lemma undrawn_moves i l c : undrawn i (moves l c) -> undrawn i c /\ forall e p, (e, p) ∈ l -> i ∉ links_at e c.
Proof.
  unfold moves. revert c. induction l as [|[e p] l IH]; intros c H; [split; [done|set_solver]|]. cbn in H.
  apply IH in H as [H1 H2]. apply undrawn_move in H1 as [H1 Hi]. split; [done|].
  intros e' p' [[= -> ->]|Hin]%elem_of_cons; [done|]. specialize (H2 e' p' Hin). by rewrite links_at_move in H2.
Qed.
(** Moves to places that only depend on what is moved. *)
Lemma position_moves (f : endpoint -> point) (l : list endpoint) c e :
  (forall e, e ∈ l -> known e c) ->
  position e (moves ((fun e => (e, f e)) <$> l) c) = if decide (e ∈ l) then f e else position e c.
Proof.
  unfold moves. revert c. induction l as [|e1 l IH]; intros c Hk.
  { by rewrite decide_False by apply not_elem_of_nil. }
  cbn. rewrite IH by (intros e2 H2; apply known_move, Hk; by right).
  rewrite position_move by (apply Hk; by left).
  repeat case_decide; subst; try done; set_solver.
Qed.

Lemma place_vertices assign layout g vs v :
  let v' := foldl (place_vertex assign layout g) v vs in
  cv v' = moves ((fun x => (vertex_end x, layout g x)) <$> vs) (cv v) /\
  forall n, mobility v' !! n =
    if decide (assign = true /\ VNode n ∈ vs /\ is_Some (mobility v !! n)) then Some (layout g (VNode n))
    else mobility v !! n.
Proof.
  revert v. induction vs as [|x vs IH]; intros v; cbn.
  { split; [done|]. intros n. rewrite decide_False; [done|]. intros (_ & H & _). by apply elem_of_nil in H. }
  destruct (IH (place_vertex assign layout g v x)) as [H1 H2].
  assert (Hc : cv (place_vertex assign layout g v x) = move (vertex_end x) (layout g x) (cv v)).
  { destruct x as [m|k]; cbn; [|done]. by destruct (assign && _)%bool. }
  split; [by rewrite H1, Hc|]. intros n. rewrite H2.
  assert (Hm : mobility (place_vertex assign layout g v x) !! n =
    if decide (assign = true /\ x = VNode n /\ is_Some (mobility v !! n)) then Some (layout g (VNode n))
    else mobility v !! n).
  { destruct x as [m|k]; cbn; [|by rewrite decide_False by naive_solver]. unfold has_mobility.
    destruct assign; cbn; [|by rewrite decide_False by naive_solver].
    destruct (decide (m = n)) as [->|Hne].
    - destruct (mobility v !! n) as [p|] eqn:E; cbn.
      + rewrite decide_True by by split_and!. by rewrite lookup_insert_eq.
      + rewrite decide_False by (intros (_ & _ & [? [=]])). done.
    - rewrite decide_False by naive_solver. case_bool_decide; [|done]. cbn. by rewrite lookup_insert_ne. }
  rewrite Hm. destruct (decide (assign = true)); [|rewrite !decide_False by tauto; done].
  destruct (mobility v !! n) as [p|] eqn:E.
  - assert (Hin : VNode n ∈ x :: vs <-> x = VNode n \/ VNode n ∈ vs)
      by (rewrite elem_of_cons; intuition congruence).
    assert (Hs : forall q : point, is_Some (Some q)) by (by eexists).
    repeat case_decide; try done; exfalso; intuition eauto.
  - rewrite !(decide_False (P := _ /\ _ /\ is_Some None)) by (intros (_ & _ & [? [=]])).
    done.
Qed.

Lemma update_node_positions_moves `{!DictOrder nat} v :
  mobility (update_node_positions v) = mobility v /\
  cv (update_node_positions v) = moves ((fun e => (e, match e with
      | NodeEnd n => transform_point_simulation_to_canvas (default (0, 0)%Q (mobility v !! n))
      | ChannelEnd k => (0, 0)%Q end)) <$>
    (NodeEnd <$> filter (fun n => is_Some (mobility v !! n)) (dict_keys (nodes (cv v))))) (cv v).
Proof.
  unfold update_node_positions. generalize (dict_keys (nodes (cv v))) as ns. intros ns.
  revert v. induction ns as [|n ns IH]; intros v; [done|]. cbn [foldl].
  destruct (IH (update_node_position v n)) as [H1 H2].
  assert (Hm : mobility (update_node_position v n) = mobility v)
    by (unfold update_node_position; by destruct (mobility v !! n)).
  rewrite H1, H2, Hm. split; [done|]. rewrite filter_cons. unfold update_node_position.
  destruct (mobility v !! n) as [p|] eqn:E.
  - rewrite decide_True by by eexists. cbn. by rewrite E.
  - rewrite decide_False by (by intros [? [=]]). done.
Qed.

Lemma scan_inv_initial mob number t : scan_inv [] (mkScanning (initial mob number) (mkGraph [] []) t).
Proof.
  split; [split_and!|..]; cbn.
  - split; [by split; intros i l e H; discriminate H|]. intros n nd. cbn. by rewrite lookup_empty.
  - split; [|done]. intros n nd. cbn. by rewrite lookup_empty.
  - done.
  - intros x. by rewrite elem_of_nil.
  - intros n e. by rewrite elem_of_nil.
Qed.

(** What is laid out, by the vertices of graphviz and then by the simulator. *)
Section LaidOut.
Context `{!DictOrder nat} (assign : bool) (layout : graph -> vertex -> point) (s : scanning) (Hs : scan_inv [] s).
Let v1 := foldl (place_vertex assign layout (gr s)) (vis s) (vertices (gr s)).
Let v := update_node_positions v1.
Definition vertex_place (e : endpoint) : point :=
  layout (gr s) match e with NodeEnd n => VNode n | ChannelEnd k => VChannel k end.
Lemma cv_placed : cv v1 = moves ((fun e => (e, vertex_place e)) <$> (vertex_end <$> vertices (gr s))) (cv (vis s)).
Proof.
  rewrite <- list_fmap_compose. subst v1.
  destruct (place_vertices assign layout (gr s) (vertices (gr s)) (vis s)) as [-> _].
  f_equal. apply list_fmap_ext. intros i x _. by destruct x.
Qed.
Lemma laid_out_frame : link_ends (cv v) = link_ends (cv (vis s)) /\
  (forall e, known e (cv v) <-> known e (cv (vis s))) /\
  (forall e, links_at e (cv v) = links_at e (cv (vis s))) /\
  (forall n, is_Some (mobility v !! n) <-> is_Some (mobility (vis s) !! n)) /\ canvas_ok (cv v).
Proof.
  destruct (update_node_positions_moves v1) as [Em Ec]. fold v in Em, Ec. rewrite Ec, cv_placed, Em.
  set (l1 := _ <$> (vertex_end <$> _)). set (l2 := _ <$> (NodeEnd <$> _)).
  destruct (moves_frame l2 (moves l1 (cv (vis s)))) as (A1 & A2 & A3).
  destruct (moves_frame l1 (cv (vis s))) as (B1 & B2 & B3). split_and!.
  - by rewrite A1, B1.
  - intros e. by rewrite A2, B2.
  - intros e. by rewrite A3, B3.
  - intros n. subst v1. destruct (place_vertices assign layout (gr s) (vertices (gr s)) (vis s)) as [_ ->].
    case_decide as H; [|done]. destruct H as (_ & _ & H). split; [done|by eexists].
  - assert (Hmv : forall l c, canvas_ok c -> canvas_ok (moves l c)).
    { unfold moves. induction l as [|x l IH]; intros c Hc; [done|]. by apply IH, safe_move. }
    apply Hmv, Hmv, (scan_vis _ s Hs).
Qed.
Lemma laid_out_position e :
  (forall n, e = NodeEnd n -> known e (cv (vis s)) /\ placed s n) ->
  (forall k, e = ChannelEnd k -> VChannel k ∈ vertices (gr s)) ->
  position e (cv v) = match e with
    | NodeEnd n => match mobility v !! n with
        | Some p => transform_point_simulation_to_canvas p
        | None => vertex_place e end
    | ChannelEnd k => vertex_place e end.
Proof.
  intros Hn Hk. destruct laid_out_frame as (_ & Hknown & _ & Hmob & _).
  destruct (update_node_positions_moves v1) as [Em Ec]. fold v in Em, Ec. rewrite Em in *.
  destruct (moves_frame ((fun e => (e, vertex_place e)) <$> (vertex_end <$> vertices (gr s))) (cv (vis s)))
    as (_ & Hk1 & _). rewrite <- cv_placed in Hk1.
  rewrite Ec. erewrite (position_moves (fun e => match e with NodeEnd n => _ | ChannelEnd k => _ end)).
  2:{ intros e' (m & -> & Hm)%list_elem_of_fmap. apply list_elem_of_filter in Hm as [_ Hm].
      apply elem_of_dict_keys, elem_of_dom in Hm. exact Hm. }
  assert (Hp1 : vertex_end <$> vertices (gr s) = vertex_end <$> vertices (gr s) -> 
    e ∈ vertex_end <$> vertices (gr s) -> position e (cv v1) = vertex_place e).
  { intros _ He. rewrite cv_placed, position_moves; [by rewrite decide_True|].
    intros e' (x & -> & Hx)%list_elem_of_fmap. by apply (scan_vertices _ s Hs). }
  destruct e as [n|k].
  - destruct (Hn n eq_refl) as [Hkn Hp]. case_decide as Hin.
    + apply list_elem_of_fmap in Hin as (m & [= <-] & Hm). apply list_elem_of_filter in Hm as [[p Hm] _].
      by rewrite Hm.
    + assert (Hmn : mobility v1 !! n = None).
      { destruct (mobility v1 !! n) eqn:E; [|done]. destruct Hin. apply (list_elem_of_fmap_2 NodeEnd), list_elem_of_filter.
        split; [by eexists|]. by apply elem_of_dict_keys, elem_of_dom, (Hk1 (NodeEnd n)). }
      rewrite Hmn. apply Hp1; [done|]. destruct Hp as [Hp|Hp].
      * apply Hmob in Hp. rewrite Hmn in Hp. by destruct Hp.
      * exact (list_elem_of_fmap_2 vertex_end _ _ Hp).
  - rewrite decide_False by (intros (m & [=] & _)%list_elem_of_fmap). apply Hp1; [done|].
    exact (list_elem_of_fmap_2 vertex_end _ _ (Hk k eq_refl)).
Qed.
Lemma laid_out_drawn i l : links (cv v) !! i = Some l -> data l = Some (drawn (cv v) l).
Proof.
  intros Hl. destruct laid_out_frame as (Hends & Hknown & Hat & Hmob & [[H1 H2] _]).
  destruct (data l) as [d|] eqn:Hd; [f_equal; by eapply H2|]. exfalso.
  assert (Hu : undrawn i (cv v)) by (by exists l).
  assert (Hi : i ∈ links_at (NodeEnd (node1 l)) (cv (vis s))) by (rewrite <- Hat; eapply H1; [done|by left]).
  destruct (update_node_positions_moves v1) as [Em Ec]. fold v in Em, Ec. rewrite Em in Hmob. rewrite Ec in Hu.
  apply undrawn_moves in Hu as [Hu Hu2]. rewrite cv_placed in Hu. apply undrawn_moves in Hu as [_ Hu1].
  destruct (scan_sources _ s Hs (node1 l) (node2 l)) as [Hp|[Hp|Hp]].
  - rewrite <- Hends. apply list_elem_of_fmap. exists l. split; [done|by eapply list_elem_of_lookup_2].
  - by apply elem_of_nil in Hp.
  - eapply Hu2; [|by rewrite cv_placed, (proj2 (proj2 (moves_frame _ _)))].
    apply list_elem_of_fmap. eexists. split; [reflexivity|]. apply (list_elem_of_fmap_2 NodeEnd), list_elem_of_filter.
    split; [by apply Hmob|].
    apply elem_of_dict_keys, elem_of_dom. rewrite cv_placed.
    apply (proj1 (proj2 (moves_frame _ _)) (NodeEnd (node1 l))). cbn in Hi |- *.
    destruct (nodes (cv (vis s)) !! node1 l); [done|]. cbn in Hi. by apply elem_of_nil in Hi.
  - by eapply Hu1; [apply (list_elem_of_fmap_2 (fun e => (e, vertex_place e))),
      (list_elem_of_fmap_2 vertex_end _ _ Hp)|].
Qed.
End LaidOut.

(** C23: after [scan_topology] and the first [update_view], for any table of devices and any layout: the
    links are those of the devices of the network, in order, and each is drawn between
    its ends; each node of the simulator is where its mobility model says it is, or else where graphviz
    puts it; a channel in the graph is where graphviz puts it; and each vertex that
    graphviz gives back is known, so that no [KeyError] is raised. *)
Theorem scan_topology_spec `{!DictOrder nat} net assign layout t mob number :
  let s := scan_nodes net assign t (initial mob number) in
  let v := update_node_positions (scan_topology net assign layout t (initial mob number)) in
  link_ends (cv v) = network_links net t /\
  (forall i l, links (cv v) !! i = Some l -> data l = Some (drawn (cv v) l)) /\
  (forall n, n < length (net_nodes net) -> is_Some (nodes (cv v) !! n) /\
     position (NodeEnd n) (cv v) = match mobility v !! n with
       | Some p => transform_point_simulation_to_canvas p
       | None => layout (gr s) (VNode n)
       end) /\
  (forall k, VChannel k ∈ vertices (gr s) -> position (ChannelEnd k) (cv v) = layout (gr s) (VChannel k)) /\
  (forall x, x ∈ vertices (gr s) -> known (vertex_end x) (cv (vis s))).
Proof.
  intros s v. destruct (adds_scan_nodes [] net assign t (imap pair (net_nodes net)) _
    (scan_inv_initial mob number t) (fun _ => eq_refl)) as [Ha Hvis].
  change (foldl _ _ _) with s in Ha, Hvis. pose proof (adds_inv _ _ _ _ Ha) as Hs.
  destruct (laid_out_frame assign layout s Hs) as (Hends & Hknown & _ & _ & _). split_and!.
  - exact (eq_trans Hends (adds_links _ _ _ _ Ha)).
  - intros i l. exact (laid_out_drawn assign layout s Hs i l).
  - intros n Hn. apply lookup_lt_is_Some_2 in Hn as [devices Hn].
    rewrite Forall_lookup in Hvis. destruct (Hvis n (n, devices)) as [Hk Hp];
      [by rewrite list_lookup_imap, Hn|]. split; [by apply (Hknown (NodeEnd n))|].
    refine (laid_out_position assign layout s Hs (NodeEnd n) _ _); by intros ? [= <-].
  - intros k Hk. refine (laid_out_position assign layout s Hs (ChannelEnd k) _ _); by intros ? [= <-].
  - apply (scan_vertices _ s Hs).
Qed.

(** *** All operations *)

Lemma vis_ok_scan net assign layout t v : vis_ok v -> vis_ok (scan_topology net assign layout t v).
Proof.
  intros Hv. unfold scan_topology.
  assert (Hs : scan_inv (link_ends (cv v)) (mkScanning v (mkGraph [] []) t)).
  { split; [done|intros x Hx; by apply elem_of_nil in Hx|by left]. }
  destruct (adds_scan_nodes _ net assign t (imap pair (net_nodes net)) _ Hs (fun _ => eq_refl)) as [Ha _].
  apply vis_ok_foldl; [|exact (scan_vis _ _ (adds_inv _ _ _ _ Ha))].
  intros v' [n|k] Hv'; cbn; apply vis_ok_safe; try exact (safe_move (NodeEnd n) _);
    try exact (safe_move (ChannelEnd k) _); [|done].
  by destruct (_ && _)%bool.
Qed.
Lemma vis_ok_operation v v' : operation v v' -> vis_ok v -> vis_ok v'.
Proof.
  intros Hop Hv. destruct Hop as [net assign layout t v|n v|m v|n p v|n p v|v|Hd v|n v|n p v|n b v|n q v|n k v|n s v
    |f w h ax ay n v c Hsvg|mob v].
  - by apply vis_ok_scan.
  - by apply vis_ok_select.
  - destruct Hv as (Hc & Hs & _). by split_and!.
  - unfold begin_node_drag. destruct (mobility v !! n), (node_drag_state v); exact Hv.
  - unfold node_drag_motion. destruct (mobility v !! n), (node_drag_state v); try exact Hv.
    apply vis_ok_safe; [apply safe_set_position|exact Hv].
  - unfold end_node_drag. destruct (node_drag_state v); exact Hv.
  - apply vis_ok_foldl; [|done]. intros v' n Hv'. unfold update_node_position.
    destruct (mobility v' !! n); [|done]. apply vis_ok_safe; [apply safe_set_position|done].
  - apply vis_ok_safe; [apply safe_get_node|done].
  - apply vis_ok_safe; [apply safe_set_position|done].
  - exact (vis_ok_safe _ v (proj1 (proj2 (proj2 (safe_setters n))) b) Hv).
  - exact (vis_ok_safe _ v (proj1 (proj2 (safe_setters n)) q) Hv).
  - exact (vis_ok_safe _ v (proj1 (safe_setters n) k) Hv).
  - exact (vis_ok_safe _ v (proj2 (proj2 (proj2 (safe_setters n))) s) Hv).
  - apply vis_ok_on_canvas; [done|]. by eapply safe_set_svg_icon; [apply Hv|].
  - exact Hv.
Qed.

(** C24: whatever is called on a visualizer from its creation on: a link that is drawn is drawn between
    the positions of its ends, which know it; each node is drawn with its size, colour and flags, and its
    label and icon are at its position; the node that is selected is known, and is the only one drawn as
    selected; and the simulator tells about the nodes of the mode that the user chose. *)
Theorem visualizer_ok mob number v (Hr : rtc operation (initial mob number) v) :
  links_ok (cv v) /\ (forall n nd, nodes (cv v) !! n = Some nd -> node_ok nd) /\ selection_ok v /\ interest_ok v.
Proof.
  assert (Hv : vis_ok v).
  { assert (Hi := scan_vis _ _ (scan_inv_initial mob number ∅)). cbn in Hi.
    induction Hr as [|v1 v2 v3 Hs Hr IH]; [done|]. by eapply IH, vis_ok_operation. }
  destruct Hv as ([Hl Hn] & Hs & Hi). by split_and!.
Qed.
Definition demo_net : network :=
  mkNetwork [[mkDevice "PointToPointNetDevice" 0]; [mkDevice "PointToPointNetDevice" 0; mkDevice "WifiNetDevice" 1]]
    (fun k => match k with 0 => [0; 1] | _ => [1] end).
Definition demo_table : traits_table :=
  {[ "PointToPointNetDevice"%string := mkTraits false false; "WifiNetDevice"%string := mkTraits true false ]}.
Definition demo_layout (_ : graph) (x : vertex) : point :=
  match x with VNode n => (Z.of_nat n # 1, 7)%Q | VChannel k => (Z.of_nat k # 1, 9)%Q end.
Lemma visualizer_ok_witness :
  let v := (select_node (Some 1) (scan_topology demo_net false demo_layout demo_table (initial ∅ 2))).2 in
  selection_ok v /\ selected_node v = Some 1 /\ length (links (cv v)) = 2.
Proof.
  intros v. split; [|split; reflexivity].
  exact (proj1 (proj2 (proj2 (visualizer_ok ∅ 2 v
    (rtc_l _ _ _ _ (Scan demo_net false demo_layout demo_table (initial ∅ 2)) (rtc_once _ _ (Select (Some 1) _))))))).
Defined.

(** *** Dragging a node *)

Definition same_point (p q : point) : Prop := (p.1 == q.1)%Q /\ (p.2 == q.2)%Q.
Definition drag (n : nat) (p0 : point) (motions : list point) (v : visualizer) : visualizer :=
  end_node_drag (foldl (fun v p => (node_drag_motion n p v).2) (begin_node_drag n p0 v) motions).

Record dragging (n : nat) (d : NodeDragState) (v v' : visualizer) : Prop := {
  dragging_state : node_drag_state v' = Some d;
  dragging_node : is_Some (mobility v' !! n);
  dragging_known : known (NodeEnd n) (cv v');
  dragging_mobility m : m <> n -> mobility v' !! m = mobility v !! m;
  dragging_position e : e <> NodeEnd n -> position e (cv v') = position e (cv v) }.
Lemma dragging_motion n d p v v' : dragging n d v v' ->
  let pos := ((sim_0 d).1 + (p.1 - (canvas_0 d).1) / 3, (sim_0 d).2 + (p.2 - (canvas_0 d).2) / 3)%Q in
  let v2 := (node_drag_motion n p v').2 in
  dragging n d v v2 /\ mobility v2 !! n = Some pos /\
  position (NodeEnd n) (cv v2) = transform_point_simulation_to_canvas pos.
Proof.
  intros [H1 [q H2] H3 H4 H5] pos v2. subst v2. unfold node_drag_motion. rewrite H1, H2. split; [split|split].
  - exact H1.
  - exists pos. apply lookup_insert_eq.
  - by apply known_set_position.
  - intros m Hm. cbn. rewrite lookup_insert_ne by congruence. by apply H4.
  - intros e He. etransitivity; [exact (position_set_position _ _ _ _ H3)|].
    rewrite decide_False by done. by apply H5.
  - apply lookup_insert_eq.
  - etransitivity; [exact (position_set_position _ _ _ _ H3)|]. by rewrite decide_True.
Qed.
Lemma dragging_motions n d motions v v' : dragging n d v v' ->
  dragging n d v (foldl (fun v p => (node_drag_motion n p v).2) v' motions).
Proof.
  revert v'. induction motions as [|p motions IH]; intros v' H; [done|]. by apply IH, dragging_motion.
Qed.

(** Dragging a node from one point of the canvas to another, by way of others, moves its
    mobility model by what was dragged over the scale, and its item to there: the node stays under the
    pointer if it was drawn where it was.  It moves no other node and no other mobility model, and it leaves no drag
    state. *)
Theorem drag_spec n p0 motions p1 pos v (Hd : node_drag_state v = None) (Hm : mobility v !! n = Some pos)
    (Hn : is_Some (nodes (cv v) !! n)) :
  let v' := drag n p0 (motions ++ [p1]) v in
  (exists pos', mobility v' !! n = Some pos' /\
     same_point pos' (pos.1 + (p1.1 - p0.1) / 3, pos.2 + (p1.2 - p0.2) / 3)%Q) /\
  same_point (position (NodeEnd n) (cv v')) (3 * pos.1 + (p1.1 - p0.1), 3 * pos.2 + (p1.2 - p0.2))%Q /\
  (forall m, m <> n -> mobility v' !! m = mobility v !! m) /\
  (forall e, e <> NodeEnd n -> position e (cv v') = position e (cv v)) /\
  node_drag_state v' = None.
Proof.
  assert (H0 : dragging n (mkDrag p0 pos) v (begin_node_drag n p0 v)).
  { unfold begin_node_drag. rewrite Hm, Hd. by split. }
  apply (dragging_motions _ _ motions) in H0. apply (dragging_motion _ _ p1) in H0 as (H & Hmob & Hpos).
  intros v'. assert (Ev : v' = end_node_drag (foldl (fun v p => (node_drag_motion n p v).2)
    (begin_node_drag n p0 v) (motions ++ [p1]))) by done.
  rewrite foldl_snoc in Ev. set (v2 := (node_drag_motion n p1 _).2) in *. cbn in Hmob.
  unfold end_node_drag in Ev. destruct H as [E _ _ Hothers Hend]. rewrite E in Ev. rewrite Ev. cbn. clear Ev v'.
  split; [by eexists|]. split; [|by split_and!]. split.
  - cbn in Hpos. rewrite Hpos. cbn. unfold PIXELS_PER_METER. field.
  - cbn in Hpos. rewrite Hpos. cbn. unfold PIXELS_PER_METER. field.
Qed.

(** ** Runs *)

Definition demo_mobile : visualizer :=
  scan_topology demo_net false demo_layout demo_table (initial {[0 := (1, 2)%Q]} 2).
Lemma drag_spec_witness :
  let v' := drag 0 (3, 6)%Q ([(4, 6)%Q] ++ [(9, 12)%Q]) demo_mobile in
  (exists pos', mobility v' !! 0 = Some pos' /\ same_point pos' (3, 4)%Q) /\ node_drag_state v' = None.
Proof.
  intros v'.
  assert (Hm : mobility demo_mobile !! 0 = Some (1, 2)%Q) by (vm_compute; reflexivity).
  assert (Hn : is_Some (nodes (cv demo_mobile) !! 0)) by (vm_compute; by eexists).
  destruct (drag_spec 0 (3, 6)%Q [(4, 6)%Q] (9, 12)%Q (1, 2)%Q demo_mobile
    ltac:(vm_compute; reflexivity) Hm Hn) as ((pos' & E & E1 & E2) & _ & _ & _ & Hd).
  split; [|exact Hd]. exists pos'. split; [exact E|]. split; [rewrite E1|rewrite E2]; vm_compute; reflexivity.
Defined.

(** Both ends of a point-to-point link make a link of their own. *)
Lemma demo_doubled : link_ends (cv (scan_topology demo_net false demo_layout demo_table (initial ∅ 2))) =
  [(0, NodeEnd 1); (1, NodeEnd 0)].
Proof. vm_compute. reflexivity. Qed.
(** With [NS_VIS_ASSIGN], a mobility model is given the coordinates of the canvas, as if they were
    meters: the first [update_view] moves the node away from where graphviz put it. *)
Definition demo_assigned : visualizer :=
  scan_topology demo_net true demo_layout demo_table (initial {[0 := (1, 2)%Q; 1 := (5, 5)%Q]} 2).
Lemma assigned_jumps :
  position (NodeEnd 1) (cv demo_assigned) = (1, 7)%Q /\
  position (NodeEnd 1) (cv (update_node_positions demo_assigned)) = (3, 21)%Q.
Proof. vm_compute. by split. Qed.
(** A channel all of whose nodes have a mobility model is not in the graph, and stays at the
    origin. *)
Definition demo_lan : network :=
  mkNetwork (repeat [mkDevice "CsmaNetDevice" 4] 3) (fun _ => [0; 1; 2]).
Lemma mobile_channel_unplaced :
  let mob := {[0 := (1, 2)%Q; 1 := (5, 5)%Q; 2 := (9, 9)%Q]} in
  let t := {[ "CsmaNetDevice"%string := mkTraits false false ]} in
  let v := update_node_positions (scan_topology demo_lan false demo_layout t (initial mob 3)) in
  vertices (gr (scan_nodes demo_lan false t (initial mob 3))) = [] /\
  length (links (cv v)) = 3 /\ position (ChannelEnd 4) (cv v) = (0, 0)%Q.
Proof. vm_compute. by split_and!. Qed.
