(* ===== verification/VizArrows.v ===== *)
(** * The arrows of the visualizer: [src/src/visualizer/visualizer/core.py]

    [do_simulation_periodic_update], which keeps the samples of the last periods, and
    [_update_transmissions_view] and [_update_drops_view], which show their averages as arrows with
    a caption.  The arrows are kept in a pool and used again.  The logarithm, [atan2], [pi], the
    clipping of a line by the window and the edge of the screen are parameters. *)

From S2P Require Import Prelude State VizCanvas.
From Stdlib Require Import QArith Qround Lqa.
From stdpp Require Import strings.
Local Open Scope nat_scope.
Local Open Scope list_scope.

(** ** Samples *)

(** A sample counts for its key: the transmitter and the receiver of a transmission, the transmitter of a
    packet that is dropped. *)
Abbreviation sample K := (K * Z)%type.
Record periods := mkPeriods {
  last_transmissions : list (list (sample (nat * nat))); last_drops : list (list (sample nat)) }.

(** [while len(l) > k: l.pop(0)] *)
Fixpoint keep_last {A} (k : nat) (l : list A) : list A :=
  match l with
  | [] => []
  | _ :: l' => if k <? length l then keep_last k l' else l
  end.
(** [do_simulation_periodic_update], with the value of the adjustment and what the helper has. *)
Definition do_simulation_periodic_update (smoothing : Q) (transmissions : list (sample (nat * nat)))
    (drops : list (sample nat)) (p : periods) : periods :=
  let smooth_factor := Z.to_nat (Qfloor (smoothing * 10)) in
  mkPeriods (keep_last smooth_factor (last_transmissions p ++ [transmissions]))
            (keep_last smooth_factor (last_drops p ++ [drops])).

(** [transmissions_average], [drops_average]: the bytes of a key and how many samples they are from. *)
Definition add_sample `{Countable K} (m : gmap K (Z * Z)) (s : sample K) : gmap K (Z * Z) :=
  let '(bytes, count) := default (0, 0)%Z (m !! s.1) in <[s.1 := (bytes + s.2, count + 1)%Z]> m.
Definition averages `{Countable K} (l : list (list (sample K))) : gmap K (Z * Z) := foldl (foldl add_sample) ∅ l.

(** ** Arrows and their captions *)

(** The caption of a transmission is written along the arrow, to the right or to the left of its
    line; that of a drop is not turned. *)
Inductive caption :=
  | Along (rightwards : bool) (kbps dy : Q) (middle : point) (angle : Q)
  | Flat (kbps : Q) (middle : point).
Record drawing := mkDrawing { width : Q; points : point * point; font_size : Z; text : caption }.
(** An arrow with its label; [visible] is the arrow's, which its label follows when it is
    drawn. *)
Record item := mkItem { visible : bool; drawn_as : option drawing }.
Record arrows := mkArrows { items : list item; pool : list nat }.
Abbreviation M := (st (canvas * arrows) vis_exn).

Definition set_item (f : item -> item) (i : nat) (a : arrows) : arrows := mkArrows (alter f i (items a)) (pool a).
Definition set_visible (b : bool) : nat -> arrows -> arrows := set_item (fun it => mkItem b (drawn_as it)).
Definition draw (d : drawing) : nat -> arrows -> arrows := set_item (fun it => mkItem (visible it) (Some d)).
(** The arrow that is popped from the pool, or else a new one. *)
Definition take_arrow (a : arrows) : nat * arrows :=
  match rev (pool a) with
  | i :: rest => (i, mkArrows (items a) (rev rest))
  | [] => (length (items a), mkArrows (items a ++ [mkItem true None]) [])
  end.

Section Update.
Context `{DictOrder K} (ensure : K -> canvas -> canvas) (look : canvas -> K -> Z * Z -> res vis_exn drawing).
(** The body of the loop over the averages; it gives the arrow. *)
Definition place (x : K * (Z * Z)) : M nat := fun w =>
  let c := ensure x.1 w.1 in
  let '(i, a) := take_arrow w.2 in
  let a := set_visible true i a in
  match look c x.1 x.2 with
  | Ok d => (Ok i, (c, draw d i a))
  | Raise e => (Raise e, (c, a))
  | OutOfFuel => (OutOfFuel, (c, a))
  end.
Definition dict_items (m : gmap K (Z * Z)) : list (K * (Z * Z)) := omap (fun k => pair k <$> m !! k) (dict_keys m).
Definition update_arrows (m : gmap K (Z * Z)) : M unit := fun w =>
  let a := foldl (fun a i => set_visible false i a) w.2 (pool w.2) in
  match map_m place (dict_items m) (w.1, a) with
  | (Ok new, (c, a)) => (Ok tt, (c, mkArrows (items a) (new ++ pool a)))
  | (Raise e, w) => (Raise e, w)
  | (OutOfFuel, w) => (OutOfFuel, w)
  end.
End Update.

Section Views.
Context (log : Q -> Q) (atan2 : Q -> Q -> Q) (pi : Q) (clip : point * point -> point * point) (edge_y : Q).
(** [node_size_adjustment], and [sample_period], which is positive. *)
Context (node_size sample_period : Q).

Definition math_log (x : Q) : res vis_exn Q := if Qle_bool x 0 then Raise MathDomainError else Ok (log x).
Definition scale : Q := node_size / 5.
Definition BITRATE_FONT_SIZE : Q := 10.
Definition rate (bytes count : Z) : Q := inject_Z bytes / inject_Z count / sample_period.
Definition line_width (bytes count : Z) : res vis_exn Q :=
  res_bind (math_log (rate bytes count)) (fun l => Ok (py_max (1 # 10) (l * scale))).
Definition kbps (bytes count : Z) : Q := inject_Z (bytes * 8) / 1000 / inject_Z count / sample_period.
Definition caption_font : Z := Qfloor (1 + BITRATE_FONT_SIZE * scale).
(** [_get_label_over_line_position] *)
Definition get_label_over_line_position (p q : point) : point :=
  let '(p, q) := clip (p, q) in ((p.1 + q.1) / 2, (p.2 + q.2) / 2)%Q.
(** Whether the caption is for a line to the right, and its angle. *)
Definition upright (angle : Q) : bool * Q :=
  let half := (pi / 2)%Q in
  if (Qle_bool (- half) angle && Qle_bool angle half)%bool then (true, angle)
  else (false, if Qle_bool (- half) angle then angle - pi else angle + pi)%Q.
Definition transmission_drawing (c : canvas) (k : nat * nat) (v : Z * Z) : res vis_exn drawing :=
  res_bind (line_width v.1 v.2) (fun w =>
    let p := position (NodeEnd k.1) c in
    let q := position (NodeEnd k.2) c in
    let '(onwards, angle) := upright (atan2 (q.2 - p.2) (q.1 - p.1)) in
    Ok (mkDrawing w (p, q) caption_font
      (Along onwards (kbps v.1 v.2) (if onwards then - w / 2 else w / 2)%Q (get_label_over_line_position p q) angle))).
Definition drop_drawing (c : canvas) (k : nat) (v : Z * Z) : res vis_exn drawing :=
  res_bind (line_width v.1 v.2) (fun w =>
    let p := position (NodeEnd k) c in
    let q := (p.1, edge_y) in
    Ok (mkDrawing w (p, q) caption_font (Flat (kbps v.1 v.2) ((p.1 + q.1) / 2, (p.2 + q.2) / 2)%Q))).

Definition update_transmissions_view `{!DictOrder (nat * nat)} (p : periods) : M unit :=
  update_arrows (fun k c => get_node k.2 (get_node k.1 c)) transmission_drawing (averages (last_transmissions p)).
Definition update_drops_view `{!DictOrder nat} (p : periods) : M unit :=
  update_arrows get_node drop_drawing (averages (last_drops p)).
End Views.

(** ** The samples that are kept *)

Lemma keep_last_drop {A} k (l : list A) : keep_last k l = drop (length l - k) l.
Proof.
  induction l as [|x l IH]; [done|]. cbn [keep_last]. destruct (Nat.ltb_spec k (length (x :: l))) as [Hlt|Hge].
  - rewrite IH. cbn in Hlt |- *. by replace (S (length l) - k) with (S (length l - k)) by lia.
  - by replace (length (x :: l) - k) with 0 by lia.
Qed.
(** With a steady smoothing, the last periods are kept. *)
Lemma keep_last_snoc {A} k (l : list A) x : keep_last k (keep_last k l ++ [x]) = keep_last k (l ++ [x]).
Proof.
  rewrite !keep_last_drop, !length_app, length_drop. cbn.
  rewrite !drop_app, !drop_drop, !length_drop. f_equal; f_equal; lia.
Qed.

(** The samples of a key. *)
Definition samples_of `{EqDecision K} (k : K) (l : list (sample K)) : list Z := snd <$> filter (fun s => s.1 = k) l.
Definition total (l : list Z) : Z := foldr Z.add 0%Z l.
Lemma total_app l1 l2 : total (l1 ++ l2) = (total l1 + total l2)%Z.
Proof. induction l1 as [|x l IH]; [done|]. unfold total in *. cbn. rewrite IH. lia. Qed.
Definition average_of (l : list Z) : option (Z * Z) :=
  match l with [] => None | _ => Some (total l, Z.of_nat (length l)) end.
Lemma average_snoc l x : average_of (l ++ [x]) =
  Some ((default (0, 0)%Z (average_of l)).1 + x, (default (0, 0)%Z (average_of l)).2 + 1)%Z.
Proof.
  assert (E : average_of (l ++ [x]) = Some (total (l ++ [x]), Z.of_nat (length (l ++ [x])))) by by destruct l.
  rewrite E, total_app, length_app. destruct l as [|y l]; cbn [average_of default fst snd]; f_equal; f_equal; cbn; lia.
Qed.
Lemma averages_spec `{Countable K} (l : list (list (sample K))) k :
  averages l !! k = average_of (samples_of k (concat l)).
Proof.
  unfold averages. rewrite <- (app_nil_l (concat l)).
  assert (H0 : forall k, (∅ : gmap K (Z * Z)) !! k = average_of (samples_of k [])) by (intros; apply lookup_empty).
  revert H0. generalize (∅ : gmap K (Z * Z)) as m. generalize (@nil (sample K)) as seen. revert k.
  induction l as [|period l IH]; intros k seen m Hm; cbn [foldl concat]; [by rewrite app_nil_r|].
  rewrite app_assoc. apply IH. clear IH k l. revert seen m Hm.
  induction period as [|[k0 b] period IH]; intros seen m Hm k; [by rewrite app_nil_r|].
  rewrite (cons_middle _ seen period), app_assoc. apply IH. clear IH k. intros k.
  unfold samples_of. rewrite filter_app, fmap_app. fold (samples_of k seen). unfold add_sample. cbn [fst snd].
  rewrite Hm. destruct (default (0, 0)%Z (average_of (samples_of k0 seen))) as [bytes count] eqn:E.
  destruct (decide (k0 = k)) as [->|Hne].
  - rewrite lookup_insert_eq. rewrite filter_cons_True, filter_nil by done. cbn [fmap list_fmap snd].
    by rewrite average_snoc, E.
  - rewrite lookup_insert_ne, Hm by done. rewrite filter_cons_False, filter_nil by done. cbn. by rewrite app_nil_r.
Qed.

(** ** Arrows are used again *)

(** All arrows are in the pool. *)
Definition arrows_ok (a : arrows) : Prop := pool a ≡ₚ seq 0 (length (items a)).
Lemma take_arrow_spec a i a' : take_arrow a = (i, a') ->
  (pool a = pool a' ++ [i] /\ items a' = items a) \/
  (pool a = [] /\ pool a' = [] /\ i = length (items a) /\ items a' = items a ++ [mkItem true None]).
Proof.
  unfold take_arrow. destruct (rev (pool a)) as [|j rest] eqn:E; intros [= <- <-].
  - right. apply (f_equal (@rev nat)) in E. rewrite rev_involutive in E. by split_and!.
  - left. apply (f_equal (@rev nat)) in E. rewrite rev_involutive in E. by split.
Qed.

Section Facts.
Context `{DictOrder K} (ensure : K -> canvas -> canvas) (look : canvas -> K -> Z * Z -> res vis_exn drawing).
(** Making nodes known moves none, and a drawing is made from the positions. *)
Context (ensure_position : forall k c e, position e (ensure k c) = position e c).
Context (look_position : forall c c' k v, (forall e, position e c' = position e c) -> look c' k v = look c k v).

(** The arrow [i] is shown as the drawing for an entry. *)
Definition shows (c : canvas) (its : list item) (i : nat) (x : K * (Z * Z)) : Prop :=
  exists d, look c x.1 x.2 = Ok d /\ its !! i = Some (mkItem true (Some d)).
Lemma place_ok x c a d : Forall (fun i => i < length (items a)) (pool a) -> look c x.1 x.2 = Ok d ->
  exists i a', place ensure look x (c, a) = (Ok i, (ensure x.1 c, a')) /\
    items a' !! i = Some (mkItem true (Some d)) /\ (forall j, j <> i -> j < length (items a) -> items a' !! j = items a !! j) /\
    ((pool a = pool a' ++ [i] /\ length (items a') = length (items a)) \/
     (pool a = [] /\ pool a' = [] /\ i = length (items a) /\ length (items a') = S (length (items a)))).
Proof.
  intros Hin Hd. unfold place. cbn [fst snd]. destruct (take_arrow a) as [i a1] eqn:E. apply take_arrow_spec in E.
  rewrite (look_position c) by apply ensure_position. rewrite Hd. do 2 eexists. split; [reflexivity|].
  unfold draw, set_visible, set_item. cbn [items pool]. rewrite list_lookup_alter_eq, list_lookup_alter_eq, !length_alter.
  destruct E as [[Ep Ei]|(Ep & Ep' & -> & Ei)]; rewrite Ei.
  - assert (Hi : i < length (items a)) by (rewrite Ep, Forall_app, Forall_singleton in Hin; by destruct Hin).
    apply lookup_lt_is_Some_2 in Hi as [it Hi]. rewrite Hi. split; [done|]. split; [|by left].
    intros j Hj _. by rewrite !list_lookup_alter_ne by done.
  - rewrite lookup_app_r, Nat.sub_diag by lia. split; [done|]. split.
    + intros j Hj Hlt. rewrite !list_lookup_alter_ne by done. by apply lookup_app_l.
    + right. rewrite length_app. cbn. split_and!; try done. lia.
Qed.

(** The loop over the averages. *)
Record placed (l : list (K * (Z * Z))) (c : canvas) (a : arrows) (ids : list nat) (a' : arrows) : Prop := {
  placed_shown : Forall2 (shows c (items a')) ids l;
  placed_others j : j ∉ ids -> j < length (items a) -> items a' !! j = items a !! j;
  placed_length : length (items a') = length (items a) + (length l - length (pool a));
  placed_arrows : ids ++ pool a' ≡ₚ pool a ++ seq (length (items a)) (length l - length (pool a)) }.
Lemma places_ok l c a : NoDup (pool a) -> Forall (fun i => i < length (items a)) (pool a) ->
  Forall (fun x => exists d, look c x.1 x.2 = Ok d) l ->
  exists ids c' a', map_m (place ensure look) l (c, a) = (Ok ids, (c', a')) /\ placed l c a ids a' /\
    forall e, position e c' = position e c.
Proof.
  intros Hnd Hin Hl. revert c a Hnd Hin Hl. induction l as [|x l IH]; intros c a Hnd Hin Hl.
  { exists [], c, a. split; [done|]. split; [|done].
    split; cbn; rewrite ?Nat.add_0_r, ?app_nil_r; [constructor|done..]. }
  apply Forall_cons in Hl as [[d Hd] Hl].
  destruct (place_ok x c a d Hin Hd) as (i & a1 & E1 & Hi & Hothers & Hcase).
  assert (H1 : NoDup (pool a1) /\ (i ∉ pool a1) /\ i < length (items a1) /\ Forall (fun i => i < length (items a1)) (pool a1)).
  { destruct Hcase as [[Ep El]|(_ & Ep & -> & El)]; rewrite El.
    - rewrite Ep, NoDup_app, Forall_app, Forall_singleton in *. set_solver.
    - rewrite Ep. split_and!; [constructor|set_solver|lia|constructor]. }
  destruct H1 as (Hnd1 & Hni & Hlt & Hin1).
  destruct (IH (ensure x.1 c) a1 Hnd1 Hin1) as (ids & c' & a' & E2 & [P1 P2 P3 P4] & Hpos).
  { eapply Forall_impl; [exact Hl|]. intros y [dy Hy]. exists dy. by rewrite (look_position c) by apply ensure_position. }
  exists (i :: ids), c', a'. split; [|split].
  - cbn. unfold bind. by rewrite E1, E2.
  - assert (Hni' : i ∉ ids).
    { intros Hi'. assert (Hp : i ∈ ids ++ pool a') by set_solver. rewrite P4 in Hp.
      apply elem_of_app in Hp as [Hp|Hp]; [done|]. apply elem_of_seq in Hp. lia. }
    split.
    + constructor.
      * exists d. split; [done|]. by rewrite P2.
      * eapply Forall2_impl; [exact P1|]. intros j y (dy & Hy & Ej). exists dy. split; [|done].
        by rewrite <- (look_position c (ensure x.1 c)) by apply ensure_position.
    + intros j Hj Hjl. apply not_elem_of_cons in Hj as [Hne Hj].
      rewrite P2; [by apply Hothers|done|]. destruct Hcase as [[_ El]|(_ & _ & _ & El)]; lia.
    + rewrite P3. destruct Hcase as [[Ep El]|(Ep & Ep' & _ & El)]; rewrite El, ?Ep, ?Ep', ?length_app; cbn; lia.
    + cbn [app]. rewrite P4. destruct Hcase as [[Ep El]|(Ep & Ep' & -> & El)].
      * rewrite El, Ep, length_app. cbn [length]. rewrite <- app_assoc. cbn [app].
        replace (S (length l) - (length (pool a1) + 1)) with (length l - length (pool a1)) by lia.
        by rewrite Permutation_middle.
      * rewrite Ep, Ep', El. cbn [length app]. by rewrite !Nat.sub_0_r.
  - intros e. by rewrite Hpos, ensure_position.
Qed.

Lemma dict_items_perm (m : gmap K (Z * Z)) : dict_items m ≡ₚ map_to_list m.
Proof.
  unfold dict_items. rewrite (dict_keys_perm m).
  assert (Hm : Forall (fun x => m !! x.1 = Some x.2) (map_to_list m)).
  { apply Forall_forall. intros [k v] Hx. by apply elem_of_map_to_list in Hx. }
  apply reflexive_eq. induction Hm as [|[k v] l E _ IH]; [done|]. cbn in E |- *. by rewrite E; cbn; rewrite IH.
Qed.
Lemma dict_items_lookup (m : gmap K (Z * Z)) x : x ∈ dict_items m <-> m !! x.1 = Some x.2.
Proof. rewrite (dict_items_perm m). destruct x. apply elem_of_map_to_list. Qed.
Lemma dict_items_keys (m : gmap K (Z * Z)) : (dict_items m).*1 = dict_keys m.
Proof.
  unfold dict_items. assert (Hm : Forall (fun k => is_Some (m !! k)) (dict_keys m)).
  { apply Forall_forall. intros k Hk. by apply elem_of_dom, elem_of_dict_keys. }
  induction Hm as [|k l [v E] _ IH]; [done|]. cbn. rewrite E. cbn. by rewrite IH.
Qed.

Lemma hide_all l a : let a' := foldl (fun a i => set_visible false i a) a l in
  pool a' = pool a /\ length (items a') = length (items a) /\
  forall i, items a' !! i = if decide (i ∈ l) then (fun it => mkItem false (drawn_as it)) <$> items a !! i else items a !! i.
Proof.
  revert a. induction l as [|j l IH]; intros a; cbn; [split_and!; [done..|]; intros i; by rewrite decide_False by apply not_elem_of_nil|].
  destruct (IH (set_visible false j a)) as (H1 & H2 & H3). rewrite H1, H2. cbn. rewrite length_alter.
  split_and!; [done..|]. intros i. rewrite H3. cbn. destruct (decide (i = j)) as [->|Hne].
  - rewrite list_lookup_alter_eq, (decide_True (P := j ∈ j :: l)) by by left.
    case_decide; [|done]. by destruct (items a !! j).
  - rewrite list_lookup_alter_ne by done. by repeat case_decide; try done; set_solver.
Qed.
Lemma update_arrows_ok m c a : arrows_ok a -> (forall k v, m !! k = Some v -> exists d, look c k v = Ok d) ->
  exists c' a' ids rest, update_arrows ensure look m (c, a) = (Ok tt, (c', a')) /\ pool a' = ids ++ rest /\
    arrows_ok a' /\ length (items a') = Nat.max (length (items a)) (size m) /\
    Forall2 (shows c (items a')) ids (dict_items m) /\
    Forall (fun i => exists d, items a' !! i = Some (mkItem false d)) rest /\
    forall e, position e c' = position e c.
Proof.
  intros Ha Hm. unfold update_arrows. cbn [fst snd].
  destruct (hide_all (pool a) a) as (Hp1 & Hl1 & Hi1). set (a1 := foldl _ a (pool a)) in *. unfold arrows_ok in Ha.
  assert (Hin : forall i, i ∈ pool a1 -> i < length (items a1)).
  { intros i. rewrite Hp1, Hl1, Ha, elem_of_seq. lia. }
  destruct (places_ok (dict_items m) c a1) as (ids & c' & a2 & E & [P1 P2 P3 P4] & Hpos).
  { rewrite Hp1, Ha. apply NoDup_seq. }
  { by apply Forall_forall. }
  { apply Forall_forall. intros x Hx%dict_items_lookup. by apply Hm. }
  rewrite E. exists c', (mkArrows (items a2) (ids ++ pool a2)), ids, (pool a2). cbn [items pool].
  assert (Elen : length (pool a) = length (items a)) by (rewrite Ha; apply length_seq).
  assert (Esize : length (dict_items m) = size m) by (rewrite (dict_items_perm m); apply length_map_to_list).
  rewrite Hp1, Hl1, Elen, Esize in *. split_and!; try done.
  - unfold arrows_ok. cbn. rewrite P4, P3, Ha. by rewrite seq_app.
  - rewrite P3. lia.
  - apply Forall_forall. intros i Hi.
    assert (Hn : NoDup (ids ++ pool a2)).
    { rewrite P4, Ha, <- seq_app. apply NoDup_seq. }
    apply NoDup_app in Hn as (_ & Hd & _). assert (Hni : i ∉ ids) by (intros ?; by eapply Hd).
    assert (Hi2 : i ∈ pool a /\ i < length (items a)).
    { assert (Hlen := Permutation_length P4). rewrite !length_app, length_seq, Elen in Hlen.
      assert (Hids := Forall2_length _ _ _ P1). rewrite Esize in Hids.
      assert (Hpos2 : 0 < length (pool a2)) by (destruct (pool a2); [by apply elem_of_nil in Hi|cbn; lia]).
      assert (Hip : i ∈ ids ++ pool a2) by set_solver. rewrite P4 in Hip.
      apply elem_of_app in Hip as [Hip|Hip]; [split; [done|by apply Hin]|]. apply elem_of_seq in Hip. lia. }
    destruct Hi2 as [Hi2 Hlt]. rewrite P2, Hi1, decide_True by done.
    apply lookup_lt_is_Some_2 in Hlt as [it ->]. by eexists.
Qed.
End Facts.

(** ** What is shown *)

Lemma position_get_node n c e : position e (get_node n c) = position e c.
Proof.
  unfold get_node. destruct (nodes c !! n) eqn:E; [done|]. destruct e as [m|k]; [|done]. cbn.
  destruct (decide (m = n)) as [->|]; [by rewrite lookup_insert_eq, E|by rewrite lookup_insert_ne].
Qed.

Lemma Forall2_impl_in {A B} (R S : A -> B -> Prop) l k :
  Forall2 R l k -> (forall x y, y ∈ k -> R x y -> S x y) -> Forall2 S l k.
Proof. induction 1 as [|x y l k Hxy _ IH]; intros HS; constructor; [apply HS; [by left|done]|]. apply IH. intros x' y' Hy. apply HS. by right. Qed.

Section Shown.
Context (log : Q -> Q) (atan2 : Q -> Q -> Q) (pi : Q) (clip : point * point -> point * point) (edge_y : Q).
Context (node_size sample_period : Q) (sample_period_pos : (0 < sample_period)%Q).

(** The width of the line for these samples. *)
Definition width_of (l : list Z) : Q :=
  py_max (1 # 10) (log (rate sample_period (total l) (Z.of_nat (length l))) * scale node_size).
Lemma line_width_ok l v : average_of l = Some v -> Forall (fun b => 0 < b)%Z l ->
  line_width log node_size sample_period v.1 v.2 = Ok (width_of l).
Proof.
  intros Hv Hl. assert (Hne : l <> []) by by destruct l.
  assert (Ev : v = (total l, Z.of_nat (length l))) by (destruct l; [done|by injection Hv]). subst v. cbn [fst snd].
  assert (Ht : (0 < total l)%Z).
  { clear Hv. destruct Hl as [|b l Hb Hl]; [done|]. clear Hne. cbn.
    assert (0 <= foldr Z.add 0 l)%Z by (induction Hl; cbn; lia). lia. }
  assert (Hr : (0 < rate sample_period (total l) (Z.of_nat (length l)))%Q).
  { unfold rate, Qdiv. repeat apply Qmult_lt_0_compat; try apply Qinv_lt_0_compat; try done;
      unfold Qlt; cbn; destruct l; cbn in *; [done|lia..]. }
  unfold line_width, math_log. destruct (Qle_bool _ 0) eqn:E; [|done].
  apply Qle_bool_iff in E. by apply Qle_not_lt in E.
Qed.

(** C25: when all the samples of the last periods have bytes and a receiver (a transmission whose receiver is null, on which
    the code fails, is not representable), and the pool holds every arrow once ([arrows_ok], true of the empty pool at the start and kept by
    every update), [_update_transmissions_view] shows an arrow for
    each pair of nodes with samples, from the position of the transmitter to that of the receiver and as
    wide as the logarithm of the mean rate says; the other arrows are hidden.  Arrows are
    made only when there are too few, all stay in the pool, and no node moves. *)
Theorem transmissions_view_spec `{!DictOrder (nat * nat)} p c a (Ha : arrows_ok a)
    (Hb : Forall (Forall (fun s : sample (nat * nat) => 0 < s.2)%Z) (last_transmissions p)) :
  let sent k := samples_of k (concat (last_transmissions p)) in
  let pairs := dict_keys (averages (last_transmissions p)) in
  exists c' a' ids rest,
    update_transmissions_view log atan2 pi clip node_size sample_period p (c, a) = (Ok tt, (c', a')) /\
    (forall k, k ∈ pairs <-> sent k <> []) /\
    pool a' = ids ++ rest /\ arrows_ok a' /\ length (items a') = Nat.max (length (items a)) (length pairs) /\
    Forall2 (fun i k => exists d, items a' !! i = Some (mkItem true (Some d)) /\
      points d = (position (NodeEnd k.1) c, position (NodeEnd k.2) c) /\ width d = width_of (sent k)) ids pairs /\
    Forall (fun i => exists d, items a' !! i = Some (mkItem false d)) rest /\
    forall e, position e c' = position e c.
Proof.
  intros sent pairs. set (m := averages (last_transmissions p)) in *.
  assert (Hlook : forall k v, m !! k = Some v ->
    exists d, transmission_drawing log atan2 pi clip node_size sample_period c k v = Ok d /\
      points d = (position (NodeEnd k.1) c, position (NodeEnd k.2) c) /\ width d = width_of (sent k)).
  { intros k v Hv. unfold m in Hv. rewrite averages_spec in Hv. unfold transmission_drawing.
    rewrite (line_width_ok _ v Hv); cbn.
    - destruct (upright _ _). eexists. by split_and!.
    - unfold samples_of. apply Forall_fmap, Forall_forall. intros s [_ Hs]%list_elem_of_filter.
      apply Forall_concat in Hb. rewrite Forall_forall in Hb. by apply Hb. }
  destruct (update_arrows_ok (fun k c => get_node k.2 (get_node k.1 c))
    (transmission_drawing log atan2 pi clip node_size sample_period)) with (m := m) (c := c) (a := a)
    as (c' & a' & ids & rest & E & Ep & Hok & Hlen & Hshown & Hhidden & Hpos).
  - intros. by rewrite !position_get_node.
  - intros c1 c2 k v Hp. unfold transmission_drawing. by rewrite !Hp.
  - exact Ha.
  - intros k v Hv. destruct (Hlook k v Hv) as (d & Hd & _). by exists d.
  - exists c', a', ids, rest. split_and!; try done.
    + intros k. unfold pairs. rewrite elem_of_dict_keys, elem_of_dom. unfold m. rewrite averages_spec.
      fold (sent k). by destruct (sent k) as [|b l]; split; [intros [? [=]]|..]; try done; eexists.
    + rewrite Hlen. f_equal. unfold pairs. rewrite (Permutation_length (dict_keys_perm m)), length_fmap.
      symmetry. apply length_map_to_list.
    + unfold pairs. rewrite <- dict_items_keys. apply Forall2_fmap_r. eapply Forall2_impl_in; [exact Hshown|].
      intros i [k v] Hx (d & Hd & Hi). apply dict_items_lookup in Hx. cbn in Hx, Hd |- *.
      destruct (Hlook k v Hx) as (d' & Hd' & H1 & H2). assert (d' = d) as -> by congruence. by exists d.
Qed.
(** [_update_drops_view] has an arrow down to the edge of the screen for each node that drops packets. *)
Theorem drops_view_spec `{!DictOrder nat} p c a (Ha : arrows_ok a)
    (Hb : Forall (Forall (fun s : sample nat => 0 < s.2)%Z) (last_drops p)) :
  let dropped k := samples_of k (concat (last_drops p)) in
  exists c' a' ids rest,
    update_drops_view log edge_y node_size sample_period p (c, a) = (Ok tt, (c', a')) /\
    pool a' = ids ++ rest /\ arrows_ok a' /\
    Forall2 (fun i k => exists d, items a' !! i = Some (mkItem true (Some d)) /\
      points d = (position (NodeEnd k) c, ((position (NodeEnd k) c).1, edge_y)) /\
      width d = width_of (dropped k)) ids (dict_keys (averages (last_drops p))) /\
    Forall (fun i => exists d, items a' !! i = Some (mkItem false d)) rest.
Proof.
  intros dropped. set (m := averages (last_drops p)) in *.
  assert (Hlook : forall k v, m !! k = Some v -> exists d, drop_drawing log edge_y node_size sample_period c k v = Ok d /\
    points d = (position (NodeEnd k) c, ((position (NodeEnd k) c).1, edge_y)) /\ width d = width_of (dropped k)).
  { intros k v Hv. unfold m in Hv. rewrite averages_spec in Hv. unfold drop_drawing.
    rewrite (line_width_ok _ v Hv); [by eexists|].
    apply Forall_fmap, Forall_forall. intros s [_ Hs]%list_elem_of_filter.
    apply Forall_concat in Hb. rewrite Forall_forall in Hb. by apply Hb. }
  destruct (update_arrows_ok get_node (drop_drawing log edge_y node_size sample_period)) with (m := m) (c := c) (a := a)
    as (c' & a' & ids & rest & E & Ep & Hok & _ & Hshown & Hhidden & _).
  - intros. apply position_get_node.
  - intros c1 c2 k v Hp. unfold drop_drawing. by rewrite !Hp.
  - exact Ha.
  - intros k v Hv. destruct (Hlook k v Hv) as (d & Hd & _). by exists d.
  - exists c', a', ids, rest. split_and!; try done.
    rewrite <- dict_items_keys. apply Forall2_fmap_r. eapply Forall2_impl_in; [exact Hshown|].
    intros i [k v] Hx (d & Hd & Hi). apply dict_items_lookup in Hx. cbn in Hx, Hd |- *.
    destruct (Hlook k v Hx) as (d' & Hd' & H1 & H2). assert (d' = d) as -> by congruence. by exists d.
Qed.

(** Samples without bytes have no logarithm: the exception leaves the arrows that were taken out of the pool
    on the canvas. *)
Lemma line_width_error bytes count : (bytes <= 0)%Z -> (0 < count)%Z ->
  line_width log node_size sample_period bytes count = Raise MathDomainError.
Proof.
  intros Hb Hc. unfold line_width, math_log. assert (H : (rate sample_period bytes count <= 0)%Q).
  { unfold rate, Qdiv. rewrite <- Qmult_assoc. apply Qle_trans with (0 * (/ inject_Z count * / sample_period))%Q;
      [|by rewrite Qmult_0_l; apply Qle_refl].
    apply Qmult_le_compat_r; [unfold Qle; cbn; lia|].
    apply Qlt_le_weak, Qmult_lt_0_compat; apply Qinv_lt_0_compat; [|done]. unfold Qlt; cbn; lia. }
  by apply Qle_bool_iff in H as ->.
Qed.
End Shown.

(** A caption is never upside down, and is along the arrow. *)
Lemma upright_spec pi angle : (0 < pi)%Q -> (- pi <= angle <= pi)%Q ->
  let '(onwards, angle') := upright pi angle in
  (- (pi / 2) <= angle' <= pi / 2)%Q /\
  (if onwards then angle' = angle else angle' == angle - pi \/ angle' == angle + pi)%Q.
Proof.
  intros Hpi [H1 H2]. unfold upright. assert (Eh : (pi == pi / 2 + pi / 2)%Q) by field.
  set (half := (pi / 2)%Q) in *. assert (Hneg : (- pi == - half + - half)%Q) by (rewrite Eh; ring).
  destruct (Qle_bool (- half) angle) eqn:E1; cbn.
  - apply Qle_bool_iff in E1. destruct (Qle_bool angle half) eqn:E2; cbn; [by apply Qle_bool_iff in E2|].
    split; [|by left]. assert (E3 : (half < angle)%Q).
    { apply Qnot_le_lt. intros H. apply Qle_bool_iff in H. congruence. }
    split; lra.
  - split; [|by right]. assert (E3 : (angle < - half)%Q).
    { apply Qnot_le_lt. intros H. apply Qle_bool_iff in H. congruence. }
    split; lra.
Qed.

(** ** A run *)

Definition demo_canvas : canvas := set_position 1 (3, 4)%Q (get_node 1 (get_node 0 (mkCanvas ∅ ∅ [] None))).
Definition demo_periods : periods :=
  do_simulation_periodic_update (1 # 2) [((0, 1), 100%Z)] [] (mkPeriods [[((0, 1), 300%Z)]] []).
Definition demo_update : res vis_exn unit * (canvas * arrows) :=
  update_transmissions_view (fun x => x) (fun _ _ => 0%Q) 3 (fun l => l) 5 1 demo_periods
    (demo_canvas, mkArrows [] []).
Lemma transmissions_view_spec_witness :
  demo_update.1 = Ok tt /\ length (items demo_update.2.2) = 1 /\
  width_of (fun x => x) 5 1 [300; 100]%Z == 200.
Proof.
  assert (Hp : (0 < 1)%Q) by reflexivity.
  assert (Hb : Forall (Forall (fun s : sample (nat * nat) => 0 < s.2)%Z) (last_transmissions demo_periods))
    by (vm_compute; repeat constructor).
  destruct (transmissions_view_spec (fun x => x) (fun _ _ => 0%Q) 3 (fun l => l) 5 1 Hp demo_periods demo_canvas
    (mkArrows [] []) (Permutation_refl []) Hb) as (c' & a' & ids & rest & E & _ & _ & _ & Hlen & _).
  unfold demo_update. rewrite E. split; [reflexivity|]. split; [exact Hlen|]. vm_compute. reflexivity.
Defined.
