(* ===== verification/CompileDb.v ===== *)
(** * The compilation database: [src/waf-tools/clang_compilation_database.py]

    The tasks whose commands are kept, and the file [compile_commands.json] with one entry for each
    source.  Dictionaries keep the order of insertion here, since the values are written in this
    order.  Entries are objects whose values are strings; [json] itself is outside.
    [shlex.quote] of the Python library is written out, as the inverse of [Shellcmd.shlex_split]. *)

From S2P Require Import Prelude PyLib Shellcmd.
From Stdlib Require Import Ascii String.
From stdpp Require Import strings gmap.
Local Open Scope nat_scope.
Local Open Scope string_scope.
Local Open Scope list_scope.
Local Open Scope py_scope.

(** ** [shlex.quote] *)

(** The characters that need no quotes: [\w@%+=:,./-] in ASCII. *)
Definition is_safe (c : ascii) : bool :=
  is_word c || bool_decide (c ∈ list_ascii_of_string "@%+=:,./-").
(** [s.replace] of a single quote by a single quote between double quotes, outside the single quotes. *)
Fixpoint escape_quotes (s : list ascii) : list ascii :=
  match s with
  | [] => []
  | c :: s =>
      if decide (c = squote) then [squote; dquote; squote; dquote; squote] ++ escape_quotes s
      else c :: escape_quotes s
  end.
Definition quote (s : string) : string :=
  let l := list_ascii_of_string s in
  if decide (s = "") then string_of_list_ascii [squote; squote]
  else if forallb is_safe l then s
  else string_of_list_ascii ([squote] ++ escape_quotes l ++ [squote]).

(** ** The database *)

Inductive db_exn := KeyError (k : string) | IndexError | ValueError.
(** An entry of the file: an object of JSON. *)
Abbreviation entry := (gmap string string).
(** A dictionary in the order of insertion. *)
Abbreviation database := (list (string * entry)).
Fixpoint dict_set (k : string) (v : entry) (d : database) : database :=
  match d with
  | [] => [(k, v)]
  | (k', v') :: d => if decide (k' = k) then (k, v) :: d else (k', v') :: dict_set k v d
  end.
Fixpoint dict_find (k : string) (d : database) : option entry :=
  match d with
  | [] => None
  | (k', v) :: d => if decide (k' = k) then Some v else dict_find k d
  end.
(** What a task keeps: [last_cmd] is set once it has run, [cwd] by some tasks. *)
Record task := mkTask {
  compiles : bool; last_cmd : option (list string); task_cwd : option string; inputs : list string }.

(** [collect_compilation_db_tasks]: the tasks of the build, if the attribute exists, and how often the
    writer has been registered. *)
Record build := mkBuild { db_tasks : option (list task); post_funs : nat }.
Definition collect_compilation_db_tasks (compiled_tasks : list task) (b : build) : build :=
  let b := match db_tasks b with Some _ => b | None => mkBuild (Some []) (S (post_funs b)) end in
  mkBuild (Some (default [] (db_tasks b) ++ filter (fun t => compiles t = true) compiled_tasks)) (post_funs b).

(** What is found at the path of the database. *)
Inductive old_file := NoFile | NotJson | Entries (l : list entry).

Section Write.
(** The directories of the process and of the variant. *)
Context (cwd variant_dir : string).
Definition task_directory (t : task) : string := default variant_dir (task_cwd t).
Definition make_entry (directory filename : string) (cmd : list string) : entry :=
  {[ "directory" := directory; "command" := str_join " " (map quote cmd); "file" := filename ]}.
Definition add_task (d : database) (t : task) : res db_exn database :=
  match last_cmd t with
  | None => Ok d
  | Some cmd =>
      match inputs t with
      | [] => Raise IndexError
      | f_node :: _ =>
          let filename := relpath cwd f_node (task_directory t) in
          Ok (dict_set filename (make_entry (task_directory t) filename cmd) d)
      end
  end.
Definition add_old (d : database) (x : entry) : res db_exn database :=
  match x !! "file" with Some f => Ok (dict_set f x d) | None => Raise (KeyError "file") end.
(** [write_compilation_database], with the entries that it writes. *)
Definition write_compilation_database (old : old_file) (b : build) : res db_exn (list entry) :=
  let* root := match old with NoFile => Ok [] | NotJson => Raise ValueError | Entries l => Ok l end in
  let* clang_db := for_each add_old root [] in
  let* clang_db := for_each add_task (default [] (db_tasks b)) clang_db in
  Ok clang_db.*2.
End Write.

(** ** Quoting *)

Lemma safe_plain c : is_safe c = true -> lex_space c = false /\ is_quote c = false /\ c <> backslash.
Proof.
  destruct c as [[] [] [] [] [] [] [] []]; vm_compute; intros H; try discriminate H; by split_and!.
Qed.
(** Within single quotes everything is read as it is. *)
Lemma lex_escaped s : forall token q rest,
  lex (LexQuote squote) token q (escape_quotes s ++ squote :: rest) = lex LexWord (rev s ++ token) true rest.
Proof.
  induction s as [|c s IH]; intros token q rest; cbn [escape_quotes rev].
  - cbn [app lex]. by rewrite decide_True.
  - case_decide as Hc.
    + subst c. change (lex (LexQuote squote) (squote :: token) true (escape_quotes s ++ squote :: rest) =
        lex LexWord ((rev s ++ [squote]) ++ token) true rest). by rewrite IH, <- app_assoc.
    + cbn [app lex]. rewrite decide_False by done. rewrite decide_False by (by intros [_ ?]). by rewrite IH, <- app_assoc.
Qed.
(** How [quote s] is read: as one token, whatever follows. *)
Lemma lex_quoted s rest : exists q,
  lex LexSpace [] false (list_ascii_of_string (quote s) ++ rest) = lex LexWord (rev (list_ascii_of_string s)) q rest /\
  lex_emit (rev (list_ascii_of_string s)) q = [s].
Proof.
  unfold quote. case_decide as Hs; [by subst; exists true|].
  destruct (forallb _ _) eqn:Hf.
  - exists false. split; [|by apply lex_emit_word]. apply lex_plain_word. split; [done|].
    intros c Hc. apply safe_plain. rewrite forallb_forall in Hf. apply Hf. by apply list_elem_of_In.
  - exists true. rewrite list_ascii_of_string_of_list_ascii. cbn [app lex].
    split.
    + change (lex_space squote) with false. cbn -[lex escape_quotes]. rewrite <- app_assoc. cbn [app].
      by rewrite lex_escaped, app_nil_r.
    + unfold lex_emit. cbn. rewrite andb_false_r. by rewrite rev_involutive, string_of_list_ascii_of_string.
Qed.
Lemma shlex_split_quoted cmd : shlex_split (str_join " " (map quote cmd)) = Ok cmd.
Proof.
  unfold shlex_split. induction cmd as [|s cmd IH]; [done|].
  destruct cmd as [|t cmd]; cbn [map].
  - cbn [str_join]. destruct (lex_quoted s []) as (q & H & He). rewrite app_nil_r in H. rewrite H. cbn [lex]. by rewrite He.
  - change (str_join " " (quote s :: quote t :: map quote cmd))
      with (quote s +:+ " " +:+ str_join " " (map quote (t :: cmd))).
    rewrite !list_ascii_app. edestruct (lex_quoted s) as (q & H & He). rewrite H.
    cbn [list_ascii_of_string app lex]. change (lex_space " ") with true. cbn match.
    rewrite IH. cbn [res_bind]. by rewrite He.
Qed.

(** ** Writing the database *)

Lemma dict_find_set k v d k' : dict_find k' (dict_set k v d) = if decide (k' = k) then Some v else dict_find k' d.
Proof.
  induction d as [|[k1 v1] d IH]; cbn; [repeat case_decide; congruence|].
  destruct (decide (k1 = k)) as [->|]; cbn; [repeat case_decide; congruence|].
  rewrite IH. repeat case_decide; congruence.
Qed.
Lemma dict_set_keys k v d : (dict_set k v d).*1 = if decide (k ∈ d.*1) then d.*1 else d.*1 ++ [k].
Proof.
  induction d as [|[k1 v1] d IH]; [done|]. cbn. destruct (decide (k1 = k)) as [->|Hne].
  - by rewrite decide_True by by left.
  - cbn. rewrite IH. repeat case_decide; try done; set_solver.
Qed.
Lemma NoDup_dict_set k v d : NoDup d.*1 -> NoDup (dict_set k v d).*1.
Proof.
  intros Hd. rewrite dict_set_keys. case_decide; [done|]. apply NoDup_app. split; [done|].
  split; [|apply NoDup_singleton]. intros x Hx Hk. apply list_elem_of_singleton in Hk. by subst.
Qed.

Section Facts.
Context (cwd variant_dir : string).
(** The name of the file that a task has an entry for. *)
Definition task_file (t : task) : string := relpath cwd (default "" (head (inputs t))) (task_directory variant_dir t).
Definition task_entry (t : task) : option entry :=
  make_entry (task_directory variant_dir t) (task_file t) <$> last_cmd t.
(** The last task that has run its command for a file. *)
Definition last_entry (f : string) (l : list task) : option entry :=
  last (omap task_entry (filter (fun t => task_file t = f) l)).
Definition old_entry (f : string) (l : list entry) : option entry :=
  last (filter (fun x => x !! "file" = Some f) l).

Lemma add_old_all l d : Forall (fun x => is_Some (x !! "file")) l -> NoDup d.*1 ->
  exists d', for_each add_old l d = Ok d' /\ NoDup d'.*1 /\
    forall f, dict_find f d' = match old_entry f l with Some x => Some x | None => dict_find f d end.
Proof.
  intros Hl. revert d. induction Hl as [|x l [f0 Hx] _ IH]; intros d Hd; [by exists d|].
  cbn [for_each]. unfold add_old at 1. rewrite Hx. cbn [res_bind].
  destruct (IH (dict_set f0 x d)) as (d' & E & Hn & Hf); [by apply NoDup_dict_set|].
  exists d'. split_and!; [done..|]. intros f. rewrite Hf. unfold old_entry. rewrite filter_cons, Hx.
  rewrite dict_find_set. destruct (decide (Some f0 = Some f)) as [[= ->]|Hne].
  - rewrite decide_True by done. rewrite last_cons. by destruct (last _).
  - rewrite decide_False by congruence. done.
Qed.
Lemma add_task_all l d : Forall (fun t => is_Some (last_cmd t) -> inputs t <> []) l -> NoDup d.*1 ->
  exists d', for_each (add_task cwd variant_dir) l d = Ok d' /\ NoDup d'.*1 /\
    forall f, dict_find f d' = match last_entry f l with Some x => Some x | None => dict_find f d end.
Proof.
  intros Hl. revert d. induction Hl as [|t l Ht _ IH]; intros d Hd; [by exists d|].
  cbn [for_each]. unfold add_task at 1. destruct (last_cmd t) as [cmd|] eqn:Ec.
  - destruct (inputs t) as [|i ins] eqn:Ei; [exfalso; apply Ht; [by eexists|done]|]. cbn [res_bind].
    assert (Ef : relpath cwd i (task_directory variant_dir t) = task_file t) by (unfold task_file; by rewrite Ei).
    rewrite Ef. destruct (IH (dict_set (task_file t) (make_entry (task_directory variant_dir t) (task_file t) cmd) d))
      as (d' & E & Hn & Hf); [by apply NoDup_dict_set|].
    exists d'. split_and!; [done..|]. intros f. rewrite Hf. unfold last_entry. rewrite filter_cons, dict_find_set.
    destruct (decide (task_file t = f)) as [<-|Hne].
    + rewrite decide_True by done. cbn [omap list_omap]. unfold task_entry at 2. rewrite Ec. cbn [fmap option_fmap option_map].
      rewrite last_cons. by destruct (last _).
    + by rewrite decide_False by congruence.
  - cbn [res_bind]. destruct (IH d Hd) as (d' & E & Hn & Hf). exists d'. split_and!; [done..|].
    intros f. rewrite Hf. unfold last_entry. rewrite filter_cons. case_decide; [|done].
    cbn [omap list_omap]. unfold task_entry at 2. by rewrite Ec.
Qed.
End Facts.

(** C40: reading the command of an entry as a shell does gives back the command of the task, whatever
    its arguments are. *)
Theorem command_read_back (cwd variant_dir : string) (t : task) (x : entry) (cmd : list string)
    (Hx : task_entry cwd variant_dir t = Some x) (Hc : last_cmd t = Some cmd) :
  exists text, x !! "command" = Some text /\ shlex_split text = Ok cmd.
Proof.
  unfold task_entry in Hx. rewrite Hc in Hx. cbn in Hx. injection Hx as <-.
  exists (str_join " " (map quote cmd)). split; [|apply shlex_split_quoted].
  unfold make_entry. rewrite lookup_insert_ne by done. apply lookup_insert_eq.
Qed.

(** [write_compilation_database] writes one entry for each file: that of the last task that ran a command
    for it, or else the last one that was there; files that no task compiles keep their entries. *)
Theorem write_compilation_database_spec cwd variant_dir old b l
    (Hold : old = Entries l \/ old = NoFile /\ l = [])
    (Hl : Forall (fun x => is_Some (x !! "file")) l)
    (Ht : Forall (fun t => is_Some (last_cmd t) -> inputs t <> []) (default [] (db_tasks b))) :
  exists d : database, write_compilation_database cwd variant_dir old b = Ok d.*2 /\ NoDup d.*1 /\
    forall f, dict_find f d = match last_entry cwd variant_dir f (default [] (db_tasks b)) with
      | Some x => Some x
      | None => old_entry f l
      end.
Proof.
  destruct (add_old_all l [] Hl) as (d1 & E1 & Hn1 & Hf1); [constructor|].
  destruct (add_task_all cwd variant_dir _ d1 Ht Hn1) as (d2 & E2 & Hn2 & Hf2).
  exists d2. split_and!; [|done|].
  - unfold write_compilation_database.
    destruct Hold as [->|[-> ->]]; cbn [res_bind]; rewrite E1; cbn [res_bind]; by rewrite E2.
  - intros f. rewrite Hf2, Hf1. by destruct (last_entry _ _ f _), (old_entry f l).
Qed.
Definition demo_task (file : string) (cmd : list string) : task := mkTask true (Some cmd) None [file].
Definition demo_build : build := collect_compilation_db_tasks
  [demo_task "/src/a.cc" ["g++"; "-DX=a b"]; demo_task "/src/b.cc" ["g++"; "it's"]; mkTask false None None []]
  (mkBuild None 0).
Definition demo_old : list entry := [{[ "file" := "../src/a.cc"; "command" := "old" ]}; {[ "file" := "c.cc" ]}].
Lemma command_read_back_witness :
  exists text, shlex_split text = Ok ["g++"; "it's"] /\ text <> "g++ it's".
Proof.
  destruct (command_read_back "/" "/build" (demo_task "/src/b.cc" ["g++"; "it's"]) _ ["g++"; "it's"] eq_refl eq_refl)
    as (text & _ & H).
  exists text. split; [exact H|]. intros ->. vm_compute in H. discriminate H.
Defined.
Lemma write_compilation_database_spec_witness :
  (exists d : database, write_compilation_database "/" "/build" (Entries demo_old) demo_build = Ok d.*2 /\ NoDup d.*1) /\
  post_funs demo_build = 1 /\
  (fun r => match r with Ok l => length l | _ => 0 end)
    (write_compilation_database "/" "/build" (Entries demo_old) demo_build) = 3.
Proof.
  split; [|split; vm_compute; reflexivity].
  destruct (write_compilation_database_spec "/" "/build" (Entries demo_old) demo_build demo_old
    ltac:(by left) ltac:(repeat constructor; vm_compute; by eexists)
    ltac:(repeat constructor; vm_compute; discriminate)) as (d & E & Hn & _).
  by exists d.
Defined.

(** The names are relative to the directory of each task: sources in different places share an
    entry. *)
Lemma directories_collide :
  let t dir := mkTask true (Some ["g++"]) (Some dir) [dir +:+ "/main.cc"] in
  (fun r => match r with Ok l => length l | _ => 0 end)
    (write_compilation_database "/" "/build" NoFile (mkBuild (Some [t "/a"; t "/b"]) 1)) = 1.
Proof. vm_compute. reflexivity. Qed.
