(* ===== verification/StatusServer.v ===== *)
(** * The status page of NFD: [src/src/ndnSIM/NFD/tools/nfd-status-http-server.py]

    [NfdStatusHandler.do_GET] and the report it serves, as the effects on the connection and the log; the
    check of the port and the address the server prints.  The process [nfdc], what
    [SimpleHTTPRequestHandler] does with other paths and [ipaddress] are outside.  [urlsplit]
    of the Python library is written out for the part that is used. *)

From S2P Require Import Prelude PyLib.
From Stdlib Require Import Ascii String.
From stdpp Require Import strings.
Local Open Scope nat_scope.
Local Open Scope string_scope.
Local Open Scope list_scope.
Local Open Scope py_scope.

(** ** [urlsplit] *)

Inductive http_exn := ValueError | ArgumentTypeError (what : string).
(** The text up to the first character that satisfies [P], and the rest from there. *)
Fixpoint break_at (P : ascii -> bool) (s : string) : string * string :=
  match s with
  | "" => ("", "")
  | String c t => if P c then ("", s) else let '(a, b) := break_at P t in (String c a, b)
  end.
Definition is_letter (c : ascii) : bool := (in_range 65 90 c || in_range 97 122 c)%bool.
Definition scheme_char (c : ascii) : bool :=
  (is_letter c || in_range 48 57 c || bool_decide (c ∈ list_ascii_of_string "+-."))%bool.
Fixpoint all_chars (P : ascii -> bool) (s : string) : bool :=
  match s with "" => true | String c t => (P c && all_chars P t)%bool end.
Definition is_char (d c : ascii) : bool := bool_decide (c = d).
Definition has_char (d : ascii) (s : string) : bool := negb (all_chars (fun c => negb (is_char d c)) s).
(** Without the scheme, if there is one before the first colon. *)
Definition drop_scheme (url : string) : string :=
  match break_at (is_char ":") url with
  | (String c s, String _ rest) => if (is_letter c && all_chars scheme_char s)%bool then rest else url
  | _ => url
  end.
(** [urlsplit(url).path] *)
Definition urlsplit_path (url : string) : res http_exn string :=
  let url := drop_scheme url in
  let* url :=
    if starts_with "//" url then
      let '(netloc, url) := break_at (fun c => bool_decide (c ∈ list_ascii_of_string "/?#")) (str_drop 2 url) in
      if eqb (has_char "[" netloc) (has_char "]" netloc) then Ok url else Raise ValueError
    else Ok url in
  Ok (break_at (is_char "?") (break_at (is_char "#") url).1).1.

(** ** Requests *)

(** What [subprocess.check_output] does: it cannot run [nfdc], [nfdc] fails, or its output. *)
Inductive nfdc := OSError (err : string) | CalledProcessError (code : Z) (shown : string) | Output (xml : string).
Inductive effect :=
  | SendError (code : Z) (message : option string)
  | SendResponse (code : Z)
  | SendHeader (name value : string)
  | EndHeaders
  | Write (body : string)
  | ServeFile
  | LogMessage (text : string).
Definition STYLESHEET : string :=
  "<?xml-stylesheet type=" +:+ String quote "text/xsl" +:+ String quote " href=" +:+
  String quote "nfd-status.xsl" +:+ String quote "?>".
(** [output.index(">")] and the text with the stylesheet after it. *)
Definition add_stylesheet (output : string) : res http_exn string :=
  match break_at (is_char ">") output with
  | (_, "") => Raise ValueError
  | (before, String c rest) => Ok (before +:+ String c (STYLESHEET +:+ rest))
  end.
(** [__serveReport]: what it does, and what it raises. *)
Definition serve_report (n : nfdc) : list effect * res http_exn unit :=
  match n with
  | OSError err => ([LogMessage ("error invoking nfdc: " +:+ err); SendError 500 None], Ok tt)
  | CalledProcessError _ shown =>
      ([LogMessage ("error invoking nfdc: command exited with status " +:+ shown);
        SendError 504 (Some ("Cannot connect to NFD (code " +:+ shown +:+ ")"))], Ok tt)
  | Output output =>
      match add_stylesheet output with
      | Ok xml =>
          ([SendResponse 200; SendHeader "Content-Type" "text/xml; charset=UTF-8"; EndHeaders; Write xml], Ok tt)
      | Raise e => ([], Raise e)
      | OutOfFuel => ([], OutOfFuel)
      end
  end.
(** [do_GET] *)
Definition do_GET (allowRobots : bool) (n : nfdc) (path : string) : list effect * res http_exn unit :=
  match urlsplit_path path with
  | Ok path =>
      if decide (path = "/") then serve_report n
      else if (bool_decide (path = "/robots.txt") && allowRobots)%bool then ([SendError 404 None], Ok tt)
      else ([ServeFile], Ok tt)
  | Raise e => ([], Raise e)
  | OutOfFuel => ([], OutOfFuel)
  end.
(** [log_message], which the server calls for each response. *)
Definition log_message (verbose : bool) (text : string) : list effect := if verbose then [LogMessage text] else [].

(** ** The server *)

(** [ipaddress.ip_address]: the version and the text of an address. *)
Record address := mkAddress { version : nat; shown : string }.
Section Main.
Context (ip_address : string -> option address) (py_repr : string -> string).
Definition ipAddress (arg : string) : res http_exn address :=
  match ip_address arg with
  | Some a => Ok a
  | None => Raise (ArgumentTypeError (py_repr arg +:+ " is not a valid IP address"))
  end.
Definition portNumber (arg : string) : res http_exn Z :=
  let value := default (-1)%Z (py_int true arg) in
  if bool_decide (value < 0 \/ value > 65535)%Z
  then Raise (ArgumentTypeError (py_repr arg +:+ " is not a valid port number"))
  else Ok value.
Inductive family := AF_INET | AF_INET6.
Definition address_family (a : address) : family := if decide (version a = 6) then AF_INET6 else AF_INET.
(** What [main] prints before it serves. *)
Definition started (a : address) (port : N) : string :=
  "Server started at " +:+
  match address_family a with
  | AF_INET6 => "http://[" +:+ shown a +:+ "]:" +:+ show_number port
  | AF_INET => "http://" +:+ shown a +:+ ":" +:+ show_number port
  end.
End Main.

(** ** What is served *)

Lemma break_at_spec P s : let '(a, b) := break_at P s in
  s = a +:+ b /\ all_chars (fun c => negb (P c)) a = true /\ match b with "" => True | String c _ => P c = true end.
Proof.
  induction s as [|c s IH]; [done|]. cbn. destruct (P c) eqn:Hc; [by split_and!|].
  destruct (break_at P s) as [a b]. destruct IH as (-> & Ha & Hb). cbn. by rewrite Hc, Ha.
Qed.
Lemma break_at_unique P a c rest : all_chars (fun c => negb (P c)) a = true -> P c = true ->
  break_at P (a +:+ String c rest) = (a, String c rest).
Proof.
  induction a as [|d a IH].
  - intros _ Hc. change ("" +:+ String c rest) with (String c rest). cbn. by rewrite Hc.
  - cbn [all_chars]. intros [Hd Ha]%andb_true_iff Hc. change (String d a +:+ String c rest) with (String d (a +:+ String c rest)). cbn.
    apply negb_true_iff in Hd. by rewrite Hd, IH.
Qed.
Definition no_gt (s : string) : Prop := all_chars (fun c => negb (is_char ">" c)) s = true.

(** What has been sent when a request is over. *)
Definition is_response (e : effect) : bool :=
  match e with SendError _ _ | SendResponse _ | ServeFile => true | _ => false end.
Definition responses (es : list effect) : nat := length (filter (fun e => is_response e = true) es).
Lemma add_stylesheet_spec output :
  (exists before rest, output = before +:+ String ">" rest /\ no_gt before /\
     add_stylesheet output = Ok (before +:+ String ">" (STYLESHEET +:+ rest))) \/
  (no_gt output /\ add_stylesheet output = Raise ValueError).
Proof.
  unfold add_stylesheet. assert (H := break_at_spec (is_char ">") output).
  destruct (break_at _ output) as [a [|c rest]]; destruct H as (-> & Ha & Hb).
  - right. split; [|done]. unfold no_gt. by rewrite str_append_nil_r.
  - left. apply bool_decide_eq_true in Hb as ->. by exists a, rest.
Qed.

(** a request that is served gets exactly one response, and the only one that is not served is for
    a report without a greater-than sign, which gets none.  The report is what [nfdc] wrote with the
    style sheet after the first greater-than sign; when [nfdc] cannot be run or fails the status is 500 or 504. *)
Theorem do_GET_spec (robots : bool) (n : nfdc) (path p : string) (Hp : urlsplit_path path = Ok p) :
  let '(effects, r) := do_GET robots n path in
  match r with
  | Ok _ => responses effects = 1
  | Raise e => e = ValueError /\ effects = [] /\ p = "/" /\ exists xml, n = Output xml /\ no_gt xml
  | OutOfFuel => False
  end /\
  (p = "/" -> match n with
   | OSError _ => SendError 500 None ∈ effects
   | CalledProcessError _ s => SendError 504 (Some ("Cannot connect to NFD (code " +:+ s +:+ ")")) ∈ effects
   | Output xml => forall before rest, xml = before +:+ String ">" rest -> no_gt before ->
       effects = [SendResponse 200; SendHeader "Content-Type" "text/xml; charset=UTF-8"; EndHeaders;
                  Write (before +:+ String ">" (STYLESHEET +:+ rest))]
   end) /\
  (p <> "/" -> effects = [if (bool_decide (p = "/robots.txt") && robots)%bool then SendError 404 None else ServeFile]).
Proof.
  unfold do_GET. rewrite Hp. case_decide as Hr.
  - unfold serve_report. destruct n as [err|code s|xml]; [split_and!; [done| |done]; intros _; set_solver..|].
    destruct (add_stylesheet_spec xml) as [(a & rest & -> & Ha & ->)|[Hx ->]].
    + split_and!; [done| |done]. intros _ before rest' E Hb. unfold no_gt in *.
      assert (E1 := break_at_unique (is_char ">") a ">" rest Ha eq_refl).
      rewrite E, (break_at_unique (is_char ">") before ">" rest' Hb eq_refl) in E1. by injection E1 as -> ->.
    + split_and!; [by eauto|done|done|by exists xml| |done]. intros _ before rest -> _. exfalso.
      unfold no_gt in Hx. clear -Hx. induction before as [|c before IH]; [done|].
      change (String c before +:+ String ">" rest) with (String c (before +:+ String ">" rest)) in Hx.
      cbn in Hx. apply andb_true_iff in Hx as [_ Hx]. by apply IH.
  - destruct (_ && _)%bool; by split_and!.
Qed.
Lemma do_GET_spec_witness :
  do_GET false (Output "<?xml?><nfd/>") "/?refresh" =
    ([SendResponse 200; SendHeader "Content-Type" "text/xml; charset=UTF-8"; EndHeaders;
      Write ("<?xml?>" +:+ STYLESHEET +:+ "<nfd/>")], Ok tt).
Proof.
  assert (H := do_GET_spec false (Output "<?xml?><nfd/>") "/?refresh" "/" eq_refl).
  assert (E : (do_GET false (Output "<?xml?><nfd/>") "/?refresh").2 = Ok tt) by (vm_compute; reflexivity).
  destruct (do_GET _ _ _) as [effects r]. destruct H as (_ & H & _). cbn in E. subst r. f_equal.
  exact (H eq_refl "<?xml?" "<nfd/>" eq_refl eq_refl).
Defined.

(** What follows a question mark or a number sign does not matter. *)
Lemma root_path_query c q : c = "?"%char \/ c = "#"%char -> urlsplit_path ("/" +:+ String c q) = Ok "/".
Proof.
  intros Hc. unfold urlsplit_path.
  assert (E : drop_scheme ("/" +:+ String c q) = "/" +:+ String c q).
  { unfold drop_scheme. change ("/" +:+ String c q) with (String "/" (String c q)).
    destruct Hc as [-> | ->]; cbn; by destruct (break_at (is_char ":") q) as [a []]. }
  rewrite E. change ("/" +:+ String c q) with (String "/" (String c q)).
  assert (Es : starts_with "//" (String "/" (String c q)) = false) by (by destruct Hc as [-> | ->]).
  rewrite Es. cbn [res_bind]. destruct Hc as [-> | ->].
  - cbn. destruct (break_at (is_char "#") q) as [a b]. done.
  - done.
Qed.

(** A port number is accepted exactly when it is from 0 to 65535. *)
Theorem portNumber_spec (py_repr : string -> string) :
  (forall arg v, portNumber py_repr arg = Ok v -> (0 <= v <= 65535)%Z /\ py_int true arg = Some v) /\
  forall n : N, portNumber py_repr (show_number n) =
    if decide (n <= 65535)%N then Ok (Z.of_N n)
    else Raise (ArgumentTypeError (py_repr (show_number n) +:+ " is not a valid port number")).
Proof.
  unfold portNumber. split.
  - intros arg v. case_bool_decide as H; [done|]. intros [= <-]. destruct (py_int true arg) as [v|]; cbn in *;
      [split; [lia|done]|lia].
  - intros n. rewrite py_int_show_number. cbn [default].
    case_bool_decide as H; case_decide; try done; cbn in H; lia.
Qed.
