(* ===== verification/FlowStats.v ===== *)
(** * Flow monitor reports: [src/src/flow-monitor/examples/flowmon-parse-results.py]

    The reader of the XML that the flow monitor writes, and what it prints; and the writer of the flows, in C++
    ([src/src/flow-monitor/model/flow-monitor.cc] and [histogram.cc]).  The program is for
    Python 2.  Elements are trees, and the parser's events are those of a tree; flows are named
    by their place in the list, since [flow_map] shares them.  Floating point numbers
    are rationals; [float] of a text, the format [%.2f] and the text that C++ prints of a [double] are parameters. *)

From S2P Require Import Prelude PyLib.
From Stdlib Require Import Ascii String QArith.
From stdpp Require Import strings.
Local Open Scope nat_scope.
Local Open Scope string_scope.
Local Open Scope list_scope.
Local Open Scope py_scope.

Inductive flow_exn := ValueError | TypeError | KeyError (id : Z) | AttributeError.

(** ** Elements *)

Inductive element := Element (tag : string) (attributes : list (string * string)) (children : list element).
Definition tag (e : element) : string := let 'Element t _ _ := e in t.
Definition attributes (e : element) : list (string * string) := let 'Element _ a _ := e in a.
Definition children (e : element) : list element := let 'Element _ _ c := e in c.
(** [el.get(name)]; a missing attribute is [None], of which most users make a [TypeError]. *)
Fixpoint attribute (name : string) (l : list (string * string)) : option string :=
  match l with [] => None | (k, v) :: l => if decide (k = name) then Some v else attribute name l end.
Definition get_or (x : flow_exn) (e : element) (name : string) : res flow_exn string :=
  match attribute name (attributes e) with Some v => Ok v | None => Raise x end.
Definition get : element -> string -> res flow_exn string := get_or TypeError.
(** [el.findall] with one step or two, [el.find]. *)
Definition findall (name : string) (e : element) : list element := filter (fun c => tag c = name) (children e).
Definition findall2 (name1 name2 : string) (e : element) : list element := findall name1 e ≫= findall name2.
Definition find (name : string) (e : element) : option element := head (findall name e).

Definition long (s : string) : res flow_exn Z :=
  match py_int false s with Some n => Ok n | None => Raise ValueError end.
Definition get_int (e : element) (name : string) : res flow_exn Z := let* s := get e name in long s.
(** [s[:-4]] *)
Definition without_last_4 (s : string) : string := substring 0 (String.length s - 4) s.
Definition get_time (e : element) (name : string) : res flow_exn Z :=
  let* s := get e name in long (without_last_4 s).
Definition ends_with_ns (s : string) : bool :=
  bool_decide (2 <= String.length s /\ substring (String.length s - 2) 2 s = "ns").
Definition parse_time_ns (tm : string) : res flow_exn Z :=
  if ends_with_ns tm then long (without_last_4 tm) else Raise ValueError.

(** ** Flows *)

Record FiveTuple := mkFiveTuple {
  sourceAddress : option string; destinationAddress : option string; sourcePort : Z; destinationPort : Z;
  protocol : Z }.
Record ProbeFlowStats := mkProbe { probeId : Z; packets : Z; bytes : Z; delayFromFirstProbe : Q }.
(** [fiveTuple] is not set until a classifier is read. *)
Record Flow := mkFlow {
  flowId : Z; delayMean : option Q; packetLossRatio : option Q; rxBitrate : option Q; txBitrate : option Q;
  fiveTuple : option FiveTuple; packetSizeMean : option Q; probe_stats_unsorted : list ProbeFlowStats;
  hopCount : Q; flowInterruptionsHistogram : option (list (Q * Q * Z)); rx_duration : Q }.
Definition set_five_tuple (t : FiveTuple) (f : Flow) : Flow :=
  mkFlow (flowId f) (delayMean f) (packetLossRatio f) (rxBitrate f) (txBitrate f) (Some t) (packetSizeMean f)
    (probe_stats_unsorted f) (hopCount f) (flowInterruptionsHistogram f) (rx_duration f).
Definition add_probe (s : ProbeFlowStats) (f : Flow) : Flow :=
  mkFlow (flowId f) (delayMean f) (packetLossRatio f) (rxBitrate f) (txBitrate f) (fiveTuple f)
    (packetSizeMean f) (probe_stats_unsorted f ++ [s]) (hopCount f) (flowInterruptionsHistogram f) (rx_duration f).

Section Read.
(** [float] of a text. *)
Context (py_float : string -> option Q).
Definition float_of (s : string) : res flow_exn Q :=
  match py_float s with Some q => Ok q | None => Raise ValueError end.
Definition get_float (e : element) (name : string) : res flow_exn Q := let* s := get e name in float_of s.

(** [FiveTuple.__init__] *)
Definition read_five_tuple (e : element) : res flow_exn FiveTuple :=
  let* sport := get_int e "sourcePort" in
  let* dport := get_int e "destinationPort" in
  let* proto := get_int e "protocol" in
  Ok (mkFiveTuple (attribute "sourceAddress" (attributes e)) (attribute "destinationAddress" (attributes e)) sport dport proto).
(** [Histogram.__init__] *)
Definition read_bin (e : element) : res flow_exn (Q * Q * Z) :=
  let* start := get_float e "start" in
  let* width := get_float e "width" in
  let* count := get_int e "count" in
  Ok (start, width, count).
Definition read_histogram (e : element) : res flow_exn (list (Q * Q * Z)) := map_res read_bin (findall "bin" e).

Definition nano : Q := 1 # 1000000000.
(** A duration from two attributes, in seconds. *)
Definition duration (e : element) (first last : string) : res flow_exn Q :=
  let* b := get_time e last in
  let* a := get_time e first in
  Ok (inject_Z (b - a) * nano)%Q.
(** [bytes * 8 / duration], if the duration is positive. *)
Definition bitrate (e : element) (name : string) (d : Q) : res flow_exn (option Q) :=
  if Qle_bool d 0 then Ok None
  else let* bytes := get_int e name in Ok (Some (inject_Z (bytes * 8) / d)%Q).
(** [Flow.__init__] *)
Definition read_flow (e : element) : res flow_exn Flow :=
  let* id := get_int e "flowId" in
  let* rxPackets := get_int e "rxPackets" in
  let* _ := get_int e "txPackets" in
  let* tx_duration := duration e "timeFirstTxPacket" "timeLastTxPacket" in
  let* rx_duration := duration e "timeFirstRxPacket" "timeLastRxPacket" in
  let* hops :=
    if decide (rxPackets = 0)%Z then Ok (-1000)%Q
    else let* n := get_float e "timesForwarded" in Ok (n / inject_Z rxPackets + 1)%Q in
  let* means :=
    if decide (rxPackets = 0)%Z then Ok (None, None)
    else
      let* delay := get e "delaySum" in
      let* delay := float_of (without_last_4 delay) in
      let* rxBytes := get_float e "rxBytes" in
      Ok (Some (delay / inject_Z rxPackets * nano)%Q, Some (rxBytes / inject_Z rxPackets)%Q) in
  let* rx := bitrate e "rxBytes" rx_duration in
  let* tx := bitrate e "txBytes" tx_duration in
  let* lost := get_float e "lostPackets" in
  let ratio := if decide (rxPackets = 0)%Z then None else Some (lost / (inject_Z rxPackets + lost))%Q in
  let* hist :=
    match find "flowInterruptionsHistogram" e with
    | None => Ok None
    | Some h => let* bins := read_histogram h in Ok (Some bins)
    end in
  Ok (mkFlow id means.1 ratio rx tx None means.2 [] hops hist rx_duration).

(** ** Simulations *)

(** The list of flows, and which of them [flow_map] has for an id. *)
Record flows := mkFlows { flow_list : list Flow; flow_map : gmap Z nat }.
Definition add_flow (fs : flows) (e : element) : res flow_exn flows :=
  let* f := read_flow e in
  Ok (mkFlows (flow_list fs ++ [f]) (<[flowId f := length (flow_list fs)]> (flow_map fs))).
(** [flow_map[id]], changed. *)
Definition change_flow (id : Z) (g : Flow -> Flow) (fs : flows) : res flow_exn flows :=
  match flow_map fs !! id with
  | Some i => Ok (mkFlows (alter g i (flow_list fs)) (flow_map fs))
  | None => Raise (KeyError id)
  end.
(** The id and the addresses of a flow of the classifier. *)
Definition read_class (e : element) : res flow_exn (Z * FiveTuple) :=
  let* id := get_int e "flowId" in let* t := read_five_tuple e in Ok (id, t).
(** The right side of the assignment, [FiveTuple(flow_cls)], is evaluated before [flow_map[flowId]]. *)
Definition classify (fs : flows) (e : element) : res flow_exn flows :=
  let* x := read_class e in change_flow x.1 (set_five_tuple x.2) fs.
(** The id of a flow and what a probe has counted of it. *)
Definition read_probe_stats (probe : Z) (e : element) : res flow_exn (Z * ProbeFlowStats) :=
  let* id := get_int e "flowId" in
  let* packets := get_int e "packets" in
  let* bytes := get_int e "bytes" in
  let* delay :=
    if decide (packets > 0)%Z then
      let* tm := get_or AttributeError e "delayFromFirstProbeSum" in
      let* t := parse_time_ns tm in Ok (inject_Z t / inject_Z packets)%Q
    else Ok 0%Q in
  Ok (id, mkProbe probe packets bytes delay).
Definition read_probe (probe : Z) (fs : flows) (e : element) : res flow_exn flows :=
  let* x := read_probe_stats probe e in change_flow x.1 (add_probe x.2) fs.
Definition read_probes (fs : flows) (e : element) : res flow_exn flows :=
  let* index := get_int e "index" in for_each (read_probe index) (findall "FlowStats" e) fs.
(** [Simulation.__init__] *)
Definition read_simulation (e : element) : res flow_exn (list Flow) :=
  match findall "Ipv4FlowClassifier" e with
  | [classifier] =>
      let* fs := for_each add_flow (findall2 "FlowStats" "Flow" e) (mkFlows [] ∅) in
      let* fs := for_each classify (findall "Flow" classifier) fs in
      let* fs := for_each read_probes (findall2 "FlowProbes" "FlowProbe" e) fs in
      Ok (flow_list fs)
  | _ => Raise ValueError
  end.

(** ** [main] *)

Inductive event := Start (e : element) | End (e : element).
(** The loop over [iterparse]: the level and the simulations. *)
Definition main_event (s : Z * list (list Flow)) (ev : event) : res flow_exn (Z * list (list Flow)) :=
  let '(level, sims) := s in
  match ev with
  | Start _ => Ok ((level + 1)%Z, sims)
  | End e =>
      let level := (level - 1)%Z in
      if decide (level = 0%Z /\ tag e = "FlowMonitor")
      then let* sim := read_simulation e in Ok (level, sims ++ [sim])
      else Ok (level, sims)
  end.
Definition main_read (events : list event) : res flow_exn (list (list Flow)) :=
  let* s := for_each main_event events (0%Z, []) in Ok s.2.
End Read.

Section Print.
(** The format [%.2f]. *)
Context (show_2f : Q -> string).
Definition show_str (s : option string) : string := default "None" s.
Definition show_value (name : string) (v : option Q) (factor : Q) (unit : string) : string :=
  String (ascii_of_nat 9) name +:+ ": " +:+
  match v with None => "None" | Some q => show_2f (q * factor)%Q +:+ unit end.
Definition print_flow (f : Flow) : res flow_exn (list string) :=
  match fiveTuple f with
  | None => Raise AttributeError
  | Some t =>
      let* proto :=
        if decide (protocol t = 6)%Z then Ok "TCP"
        else if decide (protocol t = 17)%Z then Ok "UDP" else Raise (KeyError (protocol t)) in
      Ok ["FlowID: " +:+ show_int (flowId f) +:+ " (" +:+ proto +:+ " " +:+ show_str (sourceAddress t) +:+ "/" +:+
            show_int (sourcePort t) +:+ " --> " +:+ show_str (destinationAddress t) +:+ "/" +:+
            show_int (destinationPort t) +:+ ")";
          show_value "TX bitrate" (txBitrate f) (1 # 1000) " kbit/s";
          show_value "RX bitrate" (rxBitrate f) (1 # 1000) " kbit/s";
          show_value "Mean Delay" (delayMean f) 1000 " ms";
          show_value "Packet Loss Ratio" (packetLossRatio f) 100 " %"]
  end.
(** The lines until a flow cannot be printed. *)
Fixpoint print_flows (fs : list Flow) : list string * res flow_exn unit :=
  match fs with
  | [] => ([], Ok tt)
  | f :: fs =>
      match print_flow f with
      | Ok lines => let '(more, r) := print_flows fs in (lines ++ more, r)
      | Raise e => ([], Raise e)
      | OutOfFuel => ([], OutOfFuel)
      end
  end.
(** [main], with the events of the parser: the lines about flows that it prints. *)
Definition main (py_float : string -> option Q) (events : list event) : list string * res flow_exn unit :=
  match main_read py_float events with
  | Ok sims => print_flows (concat sims)
  | Raise e => ([], Raise e)
  | OutOfFuel => ([], OutOfFuel)
  end.
End Print.

(** ** The events of a document *)

Fixpoint events_of (e : element) : list event :=
  match e with Element _ _ cs => Start e :: concat (map events_of cs) ++ [End e] end.
Lemma element_induction (P : element -> Prop) :
  (forall t a cs, Forall P cs -> P (Element t a cs)) -> forall e, P e.
Proof.
  intros H. fix IH 1. intros [t a cs]. apply H. induction cs as [|c cs IHcs]; constructor; [apply IH|exact IHcs].
Qed.

Section Facts.
Context (py_float : string -> option Q).

(** Below the root nothing is read. *)
Lemma main_event_below e : forall level sims, (1 <= level)%Z ->
  for_each (main_event py_float) (events_of e) (level, sims) = Ok (level, sims).
Proof.
  induction e as [t a cs IH] using element_induction. intros level sims Hl. cbn [events_of for_each].
  cbn [main_event res_bind]. rewrite for_each_app.
  assert (Hcs : for_each (main_event py_float) (concat (map events_of cs)) ((level + 1)%Z, sims) = Ok ((level + 1)%Z, sims)).
  { induction IH as [|c cs Hc _ IHcs]; [done|]. cbn [map concat]. rewrite for_each_app, Hc by lia. exact IHcs. }
  rewrite Hcs. cbn [res_bind for_each main_event]. replace (level + 1 - 1)%Z with level by lia.
  by rewrite decide_False by (intros [-> _]; lia).
Qed.

(** Of a document, [main] reads the root, if it is a flow monitor, and nothing else. *)
Theorem main_read_document (e : element) :
  main_read py_float (events_of e) =
    if decide (tag e = "FlowMonitor") then let* sim := read_simulation py_float e in Ok [sim] else Ok [].
Proof.
  destruct e as [t a cs]. unfold main_read. cbn [events_of for_each main_event res_bind]. rewrite for_each_app.
  assert (Hcs : for_each (main_event py_float) (concat (map events_of cs)) ((0 + 1)%Z, []) = Ok ((0 + 1)%Z, [])).
  { induction cs as [|c cs IH]; [done|]. cbn [map concat]. by rewrite for_each_app, main_event_below by lia. }
  rewrite Hcs. cbn [res_bind for_each main_event tag]. change (0 + 1 - 1)%Z with 0%Z.
  case_decide as H1; case_decide as H2; try (exfalso; tauto); [|done].
  by destruct (read_simulation _ _).
Qed.
End Facts.

(** ** Reading what the monitor writes *)

(** The counts of the bins, and their width. *)
Record Histogram := mkHistogram { m_histogram : list N; m_binWidth : Q }.
(** What the monitor knows of a flow; times are in nanoseconds, the default resolution. *)
Record FlowStats := mkStats {
  timeFirstTxPacket : N; timeFirstRxPacket : N; timeLastTxPacket : N; timeLastRxPacket : N;
  delaySum : N; jitterSum : N; lastDelay : N;
  txBytes : N; rxBytes : N; txPackets : N; rxPackets : N; lostPackets : N; timesForwarded : N;
  packetsDropped : list N; bytesDropped : list N;
  delayHistogram : Histogram; jitterHistogram : Histogram; packetSizeHistogram : Histogram;
  flowInterruptions : Histogram }.
Definition write_time (n : N) : string := "+" +:+ show_number n +:+ ".0ns".
Section Write.
(** The text of a [double]: six significant digits. *)
Context (show_double : Q -> string).
(** The loop of [Histogram::SerializeToXmlStream]: empty bins are left out. *)
Fixpoint write_bins (w : Q) (index : N) (counts : list N) : list element :=
  match counts with
  | [] => []
  | count :: counts =>
      (if decide (count = 0)%N then []
       else [Element "bin" [("index", show_number index); ("start", show_double (inject_Z (Z.of_N index) * w)%Q);
               ("width", show_double w); ("count", show_number count)] []])
      ++ write_bins w (N.succ index) counts
  end.
Definition write_histogram (elementName : string) (h : Histogram) : element :=
  Element elementName [("nBins", show_number (N.of_nat (length (m_histogram h))))]
    (write_bins (m_binWidth h) 0 (m_histogram h)).
(** The counters of what was dropped, by the code of the reason. *)
Definition write_dropped (name attribute : string) (counts : list N) : list element :=
  imap (fun reasonCode n => Element name [("reasonCode", show_number (N.of_nat reasonCode)); (attribute, show_number n)] [])
    counts.
(** What [FlowMonitor::SerializeToXmlStream] writes of a flow. *)
Definition write_flow (enableHistograms : bool) (id : N) (st : FlowStats) : element :=
  Element "Flow" [("flowId", show_number id);
    ("timeFirstTxPacket", write_time (timeFirstTxPacket st)); ("timeFirstRxPacket", write_time (timeFirstRxPacket st));
    ("timeLastTxPacket", write_time (timeLastTxPacket st)); ("timeLastRxPacket", write_time (timeLastRxPacket st));
    ("delaySum", write_time (delaySum st)); ("jitterSum", write_time (jitterSum st));
    ("lastDelay", write_time (lastDelay st)); ("txBytes", show_number (txBytes st));
    ("rxBytes", show_number (rxBytes st)); ("txPackets", show_number (txPackets st));
    ("rxPackets", show_number (rxPackets st)); ("lostPackets", show_number (lostPackets st));
    ("timesForwarded", show_number (timesForwarded st))]
   (write_dropped "packetsDropped" "number" (packetsDropped st) ++
    write_dropped "bytesDropped" "bytes" (bytesDropped st) ++
    if enableHistograms then
      [write_histogram "delayHistogram" (delayHistogram st); write_histogram "jitterHistogram" (jitterHistogram st);
       write_histogram "packetSizeHistogram" (packetSizeHistogram st);
       write_histogram "flowInterruptionsHistogram" (flowInterruptions st)]
    else []).
End Write.

Lemma substring_all s t : substring 0 (String.length s) (s +:+ t) = s.
Proof. induction s as [|c s IH]; [by destruct t|]. change (String c s +:+ t) with (String c (s +:+ t)). cbn. by rewrite IH. Qed.
Lemma without_suffix s t : String.length t = 4 -> without_last_4 (s +:+ t) = s.
Proof.
  intros Ht. unfold without_last_4.
  assert (E : String.length (s +:+ t) = String.length s + String.length t).
  { induction s as [|c s IH]; [done|]. change (String c s +:+ t) with (String c (s +:+ t)). cbn. by rewrite IH. }
  rewrite E, Ht. replace (String.length s + 4 - 4) with (String.length s) by lia. apply substring_all.
Qed.
Lemma time_digits n : without_last_4 (write_time n) = "+" +:+ show_number n.
Proof. unfold write_time. change ("+" +:+ show_number n +:+ ".0ns") with (("+" +:+ show_number n) +:+ ".0ns"). by apply without_suffix. Qed.
Lemma long_plus n : long ("+" +:+ show_number n) = Ok (Z.of_N n).
Proof.
  unfold long, py_int. change ("+" +:+ show_number n) with (String "+" (show_number n)).
  rewrite strip_no_space.
  - cbn [list_ascii_of_string]. by rewrite int_show_number.
  - cbn. constructor; [done|]. eapply Forall_impl; [apply show_number_digits|]. intros c Hc. by apply digit_not_space.
Qed.
Lemma long_number n : long (show_number n) = Ok (Z.of_N n).
Proof. unfold long. by rewrite py_int_show_number. Qed.

Definition seconds (a b : N) : Q := (inject_Z (Z.of_N b - Z.of_N a) * nano)%Q.
Definition rate_of (bytes : N) (d : Q) : option Q :=
  if Qle_bool d 0 then None else Some (inject_Z (Z.of_N bytes * 8) / d)%Q.
Section RoundTrip.
Context (py_float : string -> option Q).
(** [float] reads numbers, with a sign or without. *)
Context (py_float_number : forall n, py_float (show_number n) = Some (inject_Z (Z.of_N n)) /\
  py_float ("+" +:+ show_number n) = Some (inject_Z (Z.of_N n))).
(** [float] reads what was printed of a [double], as far as its digits go. *)
Context (show_double : Q -> string) (rounded : Q -> Q) (py_float_double : forall q, py_float (show_double q) = Some (rounded q)).

Lemma get_int_written e name n : attribute name (attributes e) = Some (show_number n) ->
  get_int e name = Ok (Z.of_N n) /\ get_float py_float e name = Ok (inject_Z (Z.of_N n)).
Proof.
  intros E. unfold get_int, get_float, get, get_or. rewrite E. cbn [res_bind]. rewrite long_number.
  unfold float_of. by rewrite (proj1 (py_float_number n)).
Qed.
Lemma get_time_written e name n : attribute name (attributes e) = Some (write_time n) -> get_time e name = Ok (Z.of_N n).
Proof. intros E. unfold get_time, get, get_or. rewrite E. cbn [res_bind]. by rewrite time_digits, long_plus. Qed.
Lemma duration_written e first last a b : attribute first (attributes e) = Some (write_time a) ->
  attribute last (attributes e) = Some (write_time b) -> duration e first last = Ok (seconds a b).
Proof. intros Ea Eb. unfold duration. by rewrite (get_time_written _ _ _ Ea), (get_time_written _ _ _ Eb). Qed.
Lemma bitrate_written e name n d : attribute name (attributes e) = Some (show_number n) ->
  bitrate e name d = Ok (rate_of n d).
Proof.
  intros E. unfold bitrate, rate_of. rewrite (proj1 (get_int_written _ _ _ E)). by destruct (Qle_bool d 0).
Qed.

Lemma get_double_written e name q : attribute name (attributes e) = Some (show_double q) ->
  get_float py_float e name = Ok (rounded q).
Proof. intros E. unfold get_float, get, get_or, float_of. rewrite E. cbn [res_bind]. by rewrite py_float_double. Qed.

(** The bins that are not empty: start, width and count. *)
Definition bins_of (h : Histogram) : list (Q * Q * Z) :=
  (fun x => (rounded (inject_Z (Z.of_N x.1) * m_binWidth h)%Q, rounded (m_binWidth h), Z.of_N x.2)) <$>
    filter (fun x => x.2 <> 0%N) (imap (fun i count => (N.of_nat i, count)) (m_histogram h)).
Lemma read_histogram_written name h : read_histogram py_float (write_histogram show_double name h) = Ok (bins_of h).
Proof.
  destruct h as [counts w]. unfold read_histogram, write_histogram, bins_of, findall. cbn [children m_histogram m_binWidth].
  enough (H : forall k, map_res (read_bin py_float) (filter (fun c => tag c = "bin") (write_bins show_double w (N.of_nat k) counts)) =
    Ok ((fun x : N * N => (rounded (inject_Z (Z.of_N x.1) * w)%Q, rounded w, Z.of_N x.2)) <$>
      filter (fun x => x.2 <> 0%N) (imap (fun i count => (N.of_nat (k + i), count)) counts))) by apply (H 0).
  induction counts as [|c counts IH]; intros k; [done|]. cbn [write_bins]. rewrite <- Nat2N.inj_succ, imap_cons, filter_cons, Nat.add_0_r.
  rewrite (imap_ext (_ ∘ S) (fun i count => (N.of_nat (S k + i), count))) by (intros; cbn; do 2 f_equal; lia).
  case_decide as Hc.
  - rewrite decide_False by (cbn; auto). apply IH.
  - rewrite decide_True by done. cbn [app]. rewrite filter_cons_True by done. cbn [map_res].
    unfold read_bin at 1. erewrite !get_double_written by reflexivity. cbn [res_bind].
    match goal with |- context [get_int ?b "count"] => rewrite (proj1 (get_int_written b "count" c eq_refl)) end.
    cbn [res_bind]. by rewrite IH.
Qed.
Lemma find_written name k children : k <> name ->
  forall attr counts, filter (fun c => tag c = name) (write_dropped k attr counts ++ children) = filter (fun c => tag c = name) children.
Proof.
  intros Hk attr counts. rewrite filter_app.
  assert (H : forall f : nat -> N -> element, (forall i n, tag (f i n) = k) -> filter (fun c => tag c = name) (imap f counts) = []).
  { induction counts as [|c counts IH]; intros f Hf; [done|]. rewrite imap_cons, filter_cons_False by by rewrite Hf.
    apply IH. intros i n. apply Hf. }
  unfold write_dropped. by rewrite H.
Qed.

(** C36: the flow that the monitor writes, with the histograms or without them, is read back: its durations, rates, delay, size, hops and losses are
    those of its counters, what needs a received packet is missing without one, and the histogram of the
    interruptions is there exactly if the histograms were written, and has the bins that are not empty.  The start and the
    width of a bin have the digits that were printed. *)
Theorem read_flow_written (enableHistograms : bool) (id : N) (st : FlowStats) :
  let rx := inject_Z (Z.of_N (rxPackets st)) in
  let lost := inject_Z (Z.of_N (lostPackets st)) in
  let received (q : Q) := if decide (rxPackets st = 0)%N then None else Some q in
  let tx_time := seconds (timeFirstTxPacket st) (timeLastTxPacket st) in
  let rx_time := seconds (timeFirstRxPacket st) (timeLastRxPacket st) in
  read_flow py_float (write_flow show_double enableHistograms id st) = Ok
    {| flowId := Z.of_N id;
       delayMean := received (inject_Z (Z.of_N (delaySum st)) / rx * nano)%Q;
       packetLossRatio := received (lost / (rx + lost))%Q;
       rxBitrate := rate_of (rxBytes st) rx_time; txBitrate := rate_of (txBytes st) tx_time;
       fiveTuple := None;
       packetSizeMean := received (inject_Z (Z.of_N (rxBytes st)) / rx)%Q;
       probe_stats_unsorted := [];
       hopCount := if decide (rxPackets st = 0)%N then (-1000)%Q
                   else (inject_Z (Z.of_N (timesForwarded st)) / rx + 1)%Q;
       flowInterruptionsHistogram := if enableHistograms then Some (bins_of (flowInterruptions st)) else None;
       rx_duration := rx_time |}.
Proof.
  intros rx lost received tx_time rx_time. unfold read_flow.
  set (e := write_flow show_double enableHistograms id st).
  assert (Edelay : get e "delaySum" = Ok (write_time (delaySum st))) by done.
  assert (Ehist : match find "flowInterruptionsHistogram" e with
      | None => Ok None | Some h => let* bins := read_histogram py_float h in Ok (Some bins) end
    = Ok (if enableHistograms then Some (bins_of (flowInterruptions st)) else None)).
  { unfold find, findall, e. cbn [children write_flow]. rewrite !find_written by done.
    destruct enableHistograms; [|done]. rewrite !filter_cons_False, filter_cons_True by done. cbn [head].
    by rewrite read_histogram_written. }
  rewrite (proj1 (get_int_written e "flowId" id eq_refl)), (proj1 (get_int_written e "rxPackets" (rxPackets st) eq_refl)),
    (proj1 (get_int_written e "txPackets" (txPackets st) eq_refl)). cbn [res_bind].
  rewrite (duration_written e "timeFirstTxPacket" "timeLastTxPacket" _ _ eq_refl eq_refl),
    (duration_written e "timeFirstRxPacket" "timeLastRxPacket" _ _ eq_refl eq_refl). cbn [res_bind].
  rewrite (proj2 (get_int_written e "timesForwarded" (timesForwarded st) eq_refl)), Edelay,
    (proj2 (get_int_written e "rxBytes" (rxBytes st) eq_refl)). cbn [res_bind]. rewrite time_digits.
  unfold float_of. rewrite (proj2 (py_float_number (delaySum st))). cbn [res_bind].
  rewrite (bitrate_written e "rxBytes" (rxBytes st) _ eq_refl), (bitrate_written e "txBytes" (txBytes st) _ eq_refl),
    (proj2 (get_int_written e "lostPackets" (lostPackets st) eq_refl)).
  unfold received. destruct (decide (rxPackets st = 0)%N) as [H0|H0].
  - rewrite !(decide_True (P := Z.of_N (rxPackets st) = 0%Z)) by lia. cbn [res_bind]. setoid_rewrite Ehist. cbn [res_bind].
    by rewrite decide_True by lia.
  - rewrite !(decide_False (P := Z.of_N (rxPackets st) = 0%Z)) by lia. cbn [res_bind]. setoid_rewrite Ehist. cbn [res_bind].
    by rewrite decide_False by lia.
Qed.
End RoundTrip.

(** A reader of integers for [float]. *)
Definition demo_float (s : string) : option Q := inject_Z <$> py_int false s.
Lemma demo_float_number n : demo_float (show_number n) = Some (inject_Z (Z.of_N n)) /\
  demo_float ("+" +:+ show_number n) = Some (inject_Z (Z.of_N n)).
Proof.
  unfold demo_float. rewrite py_int_show_number. split; [done|].
  assert (H := long_plus n). unfold long in H. destruct (py_int false _); [|done]. by injection H as ->.
Qed.
Definition demo_stats : FlowStats :=
  mkStats 0 500000000 1000000000 2500000000 30000000 1000000 15000000 2000 1000 4 2 2 2 [0; 2]%N [0; 512]%N
    (mkHistogram [] 1) (mkHistogram [] 1) (mkHistogram [] 1) (mkHistogram [0; 2; 1]%N 2).
(** A printer of whole numbers for [double]. *)
Definition demo_double (q : Q) : string := show_number (Z.to_N (Qnum q / Zpos (Qden q))).
Definition demo_rounded (q : Q) : Q := inject_Z (Z.of_N (Z.to_N (Qnum q / Zpos (Qden q)))).
Lemma read_flow_written_witness : exists f, read_flow demo_float (write_flow demo_double true 7 demo_stats) = Ok f /\ flowId f = 7%Z /\
  (match rxBitrate f with Some q => q == 4000 | None => False end)%Q /\
  flowInterruptionsHistogram f = Some [(2, 2, 2%Z); (4, 2, 1%Z)]%Q.
Proof.
  eexists. split; [exact (read_flow_written demo_float demo_float_number demo_double demo_rounded
    (fun q => proj1 (demo_float_number _)) true 7 demo_stats)|].
  split; [reflexivity|]. split; vm_compute; reflexivity.
Defined.

(** ** The flows of a simulation *)

Section Simulation.
Context (py_float : string -> option Q).
Definition change : Type := Z * (Flow -> Flow).
Definition apply_change (f : Flow) (c : change) : Flow := if decide (c.1 = flowId f) then c.2 f else f.
Definition change_all (cs : list change) (fs : flows) : res flow_exn flows :=
  for_each (fun fs c => change_flow c.1 c.2 fs) cs fs.
(** All the changes of a flow, in order. *)
Definition apply_changes (cs : list change) (f : Flow) : Flow := foldl apply_change f cs.
(** The first id that is not of a flow. *)
Definition unknown (ids : list Z) (cs : list change) : option Z :=
  List.find (fun id => negb (bool_decide (id ∈ ids))) (map fst cs).
(** [flow_map] leads to the flows of the list. *)
Definition map_ok (l : list Flow) (m : gmap Z nat) : Prop :=
  forall id i, m !! id = Some i <-> exists f, l !! i = Some f /\ flowId f = id.
Definition class_change (x : Z * FiveTuple) : change := (x.1, set_five_tuple x.2).
Definition probe_change (x : Z * ProbeFlowStats) : change := (x.1, add_probe x.2).
(** What the probes of an element have counted. *)
Definition probe_stats (e : element) : res flow_exn (list (Z * ProbeFlowStats)) :=
  let* index := get_int e "index" in map_res (read_probe_stats index) (findall "FlowStats" e).

Lemma map_res_cons_ok {A B} (f : A -> res flow_exn B) x l ys : map_res f (x :: l) = Ok ys ->
  exists y ys', ys = y :: ys' /\ f x = Ok y /\ map_res f l = Ok ys'.
Proof.
  cbn. destruct (f x) as [y| |]; try done. cbn. destruct (map_res f l) as [ys'| |]; try done. cbn. intros [= <-].
  by exists y, ys'.
Qed.
Lemma map_ok_snoc l m f : map_ok l m -> flowId f ∉ map flowId l -> map_ok (l ++ [f]) (<[flowId f := length l]> m).
Proof.
  intros Hm Hf id i. split.
  - destruct (decide (id = flowId f)) as [->|Hne]; [rewrite lookup_insert_eq|rewrite lookup_insert_ne by done].
    + intros [= <-]. exists f. by rewrite lookup_app_r, Nat.sub_diag by lia.
    + intros (g & Hg & <-)%Hm. exists g. split; [by apply lookup_app_l_Some|done].
  - intros (g & [Hg|[Hi Hg]]%lookup_app_Some & <-).
    + rewrite lookup_insert_ne; [apply Hm; by exists g|]. intros E. apply Hf. rewrite E.
      apply list_elem_of_fmap. exists g. split; [done|]. by eapply list_elem_of_lookup_2.
    + apply list_lookup_singleton_Some in Hg as [Hi' <-]. rewrite lookup_insert_eq. f_equal. lia.
Qed.
Lemma add_flows es : forall l m fl, map_res (read_flow py_float) es = Ok fl -> map_ok l m ->
  NoDup (map flowId (l ++ fl)) ->
  exists m', for_each (add_flow py_float) es (mkFlows l m) = Ok (mkFlows (l ++ fl) m') /\ map_ok (l ++ fl) m'.
Proof.
  induction es as [|e es IH]; intros l m fl Hes Hm Hnd.
  { injection Hes as <-. exists m. by rewrite app_nil_r. }
  apply map_res_cons_ok in Hes as (f & fl' & -> & Ef & Hes). cbn [for_each]. unfold add_flow at 1. rewrite Ef.
  cbn [res_bind flow_list flow_map]. rewrite (cons_middle f l fl'), app_assoc in Hnd |- *.
  apply IH; [done| |exact Hnd]. apply map_ok_snoc; [done|].
  rewrite !map_app in Hnd. apply NoDup_app in Hnd as (Hnd & _ & _). apply NoDup_app in Hnd as (_ & Hnd & _).
  intros H. apply (Hnd _ H). by left.
Qed.

(** Changes reach the flow of their id, or fail at the first id without one. *)
Lemma changes_spec cs : forall l m, map_ok l m -> NoDup (map flowId l) ->
  (forall c f, c ∈ cs -> flowId (c.2 f) = flowId f) ->
  change_all cs (mkFlows l m) =
    match unknown (map flowId l) cs with
    | Some id => Raise (KeyError id)
    | None => Ok (mkFlows (map (apply_changes cs) l) m)
    end.
Proof.
  induction cs as [|[id g] cs IH]; intros l m Hm Hnd Hg. { unfold unknown. cbn. by rewrite map_id. }
  unfold change_all. cbn [for_each]. fold (change_all cs). unfold change_flow at 1, unknown. cbn [map List.find fst snd flow_map flow_list].
  destruct (m !! id) as [i|] eqn:Ei.
  - pose proof (proj1 (Hm _ _) Ei) as (f & Hi & <-). rewrite bool_decide_eq_true_2
      by (apply list_elem_of_fmap; exists f; split; [done|by eapply list_elem_of_lookup_2]).
    cbn [negb res_bind].
    assert (E : alter g i l = map (fun f' => apply_change f' (flowId f, g)) l).
    { apply list_eq. intros j. change (map ?h l) with (h <$> l). rewrite list_lookup_fmap. unfold apply_change. cbn.
      destruct (decide (j = i)) as [->|Hj]; [rewrite list_lookup_alter_eq, Hi; cbn; by rewrite decide_True|].
      rewrite list_lookup_alter_ne by done. destruct (l !! j) as [f'|] eqn:Ej; [|done]. cbn.
      rewrite decide_False; [done|]. intros E. apply Hj. eapply (NoDup_lookup (map flowId l)); [done| |];
        change (map flowId l) with (flowId <$> l); rewrite list_lookup_fmap; [rewrite Ej|rewrite Hi]; cbn; [done|by rewrite E]. }
    assert (Eid : map flowId (alter g i l) = map flowId l).
    { rewrite E, map_map. apply map_ext. intros f'. unfold apply_change. case_decide; [|done].
      apply (Hg (flowId f, g) f'). by left. }
    rewrite IH, Eid.
    + unfold unknown. destruct (List.find _ _); [done|]. do 2 f_equal. rewrite E, map_map. by apply map_ext.
    + intros id j. rewrite (Hm id j). split; intros (f' & Hj & <-).
      * assert (Hj' : map flowId (alter g i l) !! j = Some (flowId f')).
        { rewrite Eid. change (map flowId l) with (flowId <$> l). by rewrite list_lookup_fmap, Hj. }
        apply list_lookup_fmap_Some in Hj' as (f'' & E' & Hj'). by exists f''.
      * assert (Hj' : map flowId l !! j = Some (flowId f')).
        { rewrite <- Eid. change (map flowId (alter g i l)) with (flowId <$> alter g i l). by rewrite list_lookup_fmap, Hj. }
        apply list_lookup_fmap_Some in Hj' as (f'' & E' & Hj'). by exists f''.
    + by rewrite Eid.
    + intros c f' Hc. apply Hg. by right.
  - rewrite bool_decide_eq_false_2; [done|]. intros (f & -> & [i Hi]%list_elem_of_lookup_1)%list_elem_of_fmap.
    assert (m !! flowId f = Some i) by (apply Hm; by exists f). congruence.
Qed.

Lemma change_all_app cs1 cs2 fs :
  change_all (cs1 ++ cs2) fs = let* fs := change_all cs1 fs in change_all cs2 fs.
Proof. apply for_each_app. Qed.

Lemma classify_changes es : forall cl fs, map_res read_class es = Ok cl ->
  for_each classify es fs = change_all (map class_change cl) fs.
Proof.
  induction es as [|e es IH]; intros cl fs Hes; [by injection Hes as <-|].
  apply map_res_cons_ok in Hes as (x & cl' & -> & Ex & Hes). cbn [for_each map]. unfold classify at 1. rewrite Ex. cbn.
  destruct (change_flow _ _ _); [|done|done]. by apply IH.
Qed.
Lemma probe_changes index es : forall pl fs, map_res (read_probe_stats index) es = Ok pl ->
  for_each (read_probe index) es fs = change_all (map probe_change pl) fs.
Proof.
  induction es as [|e es IH]; intros pl fs Hes; [by injection Hes as <-|].
  apply map_res_cons_ok in Hes as (x & cl' & -> & Ex & Hes). cbn [for_each map]. unfold read_probe at 1. rewrite Ex. cbn.
  destruct (change_flow _ _ _); [|done|done]. by apply IH.
Qed.
Lemma probes_changes es : forall pls fs, map_res probe_stats es = Ok pls ->
  for_each read_probes es fs = change_all (map probe_change (concat pls)) fs.
Proof.
  induction es as [|e es IH]; intros pls fs Hes; [by injection Hes as <-|].
  apply map_res_cons_ok in Hes as (pl & pls' & -> & Ex & Hes). cbn [for_each concat]. rewrite map_app, change_all_app.
  unfold read_probes at 1. unfold probe_stats in Ex. destruct (get_int e "index") as [index| |]; try done. cbn in Ex |- *.
  rewrite (probe_changes _ _ _ _ Ex). destruct (change_all (map probe_change pl) fs); [|done|done]. by apply IH.
Qed.

(** a simulation has the flows of the monitor in order, each with what the classifier and the probes say of
    its id; the first id of theirs that no flow has is an error. *)
Theorem read_simulation_spec (e classifier : element) fl cl pls :
  findall "Ipv4FlowClassifier" e = [classifier] ->
  map_res (read_flow py_float) (findall2 "FlowStats" "Flow" e) = Ok fl ->
  map_res read_class (findall "Flow" classifier) = Ok cl ->
  map_res probe_stats (findall2 "FlowProbes" "FlowProbe" e) = Ok pls ->
  NoDup (map flowId fl) ->
  let changes := map class_change cl ++ map probe_change (concat pls) in
  read_simulation py_float e =
    match unknown (map flowId fl) changes with
    | Some id => Raise (KeyError id)
    | None => Ok (map (apply_changes changes) fl)
    end.
Proof.
  intros Ec Efl Ecl Ep Hnd changes. unfold read_simulation. rewrite Ec.
  assert (H0 : map_ok [] ∅) by (intros id i; rewrite lookup_empty; split; [done|by intros (f & Hf & _)]).
  destruct (add_flows _ [] ∅ fl Efl H0 Hnd) as (m & Em & Hm). rewrite Em. change ([] ++ fl) with fl in *. cbn [res_bind].
  rewrite (classify_changes _ _ _ Ecl).
  assert (E : forall fs, (let* fs := change_all (map class_change cl) fs in
      let* fs := for_each read_probes (findall2 "FlowProbes" "FlowProbe" e) fs in Ok (flow_list fs)) =
    let* fs := change_all changes fs in Ok (flow_list fs)).
  { intros fs. unfold changes. rewrite change_all_app. destruct (change_all (map class_change cl) fs) as [fs'| |]; [|done|done].
    cbn. by rewrite (probes_changes _ _ _ Ep). }
  rewrite E, (changes_spec changes fl m Hm Hnd).
  - by destruct (unknown _ _).
  - intros c f [(x & -> & _)%list_elem_of_fmap|(x & -> & _)%list_elem_of_fmap]%elem_of_app; reflexivity.
Qed.
End Simulation.

Definition demo_class (id : string) : element :=
  Element "Flow" [("flowId", id); ("sourceAddress", "10.1.1.1"); ("destinationAddress", "10.1.1.2");
    ("protocol", "17"); ("sourcePort", "49153"); ("destinationPort", "9")] [].
Definition demo_probe : element :=
  Element "FlowProbe" [("index", "0")] [Element "FlowStats" [("flowId", "2"); ("packets", "0"); ("bytes", "0")] []].
Definition demo_monitor (id : string) : element :=
  Element "FlowMonitor" [] [Element "FlowStats" [] [write_flow demo_double false 1 demo_stats; write_flow demo_double true 2 demo_stats];
    Element "Ipv4FlowClassifier" [] [demo_class "1"; demo_class id]; Element "FlowProbes" [] [demo_probe]].
Lemma read_simulation_spec_witness :
  (exists fl, read_simulation demo_float (demo_monitor "2") = Ok fl /\ map flowId fl = [1; 2]%Z /\
     map (fun f => destinationPort <$> fiveTuple f) fl = [Some 9; Some 9]%Z /\
     map (fun f => map probeId (probe_stats_unsorted f)) fl = [[]; [0%Z]]) /\
  read_simulation demo_float (demo_monitor "3") = Raise (KeyError 3).
Proof.
  split.
  - eexists. split; [etrans; [eapply (read_simulation_spec demo_float (demo_monitor "2"));
      [reflexivity|vm_compute; reflexivity..|] |vm_compute; reflexivity]|].
    + apply (bool_decide_unpack _). vm_compute. reflexivity.
    + vm_compute. done.
  - vm_compute; reflexivity.
Defined.
