(* ===== verification/VizAxes.v ===== *)
(** * The axes of the visualizer: [src/src/visualizer/visualizer/hud.py]

    [Axes]: the choice of the divisions, the marks and their labels, which are used again from one
    drawing to the next, and [set_visible].  Floating point numbers are rationals, with the power of
    ten closest to a length computed from squares; what the window shows, the font and
    the format [%G] are parameters. *)

From S2P Require Import Prelude State Rationals VizCanvas.
From Stdlib Require Import QArith Qround Qabs Qpower Lqa String.
From stdpp Require Import strings.
Local Open Scope nat_scope.
Local Open Scope list_scope.
Local Open Scope py_scope.

Inductive axes_exn := AssertionError.

(** ** Divisions *)

(** [rint(math.log10(d))] of the root [d] of [s]: the square is brought between one tenth and ten. *)
Fixpoint round_log10 (fuel : nat) (s : Q) : Z :=
  match fuel with
  | O => 0
  | S fuel =>
      if lt_bool s (1 # 10) then round_log10 fuel (s * 100) - 1
      else if Qle_bool 10 s then round_log10 fuel (s / 100) + 1
      else 0
  end%Z.
Definition log_fuel (d : Q) : nat := Pos.size_nat (Z.to_pos (Qnum d)) + Pos.size_nat (Qden d).
Definition rint_log10 (d : Q) : Z := round_log10 (log_fuel d) (d * d).

(** The power of ten closest to a length, or its half, or its double. *)
Definition choose_div (dx_over_ndiv : Q) : Q :=
  let div := Qpower 10 (rint_log10 dx_over_ndiv) in
  if lt_bool (Qabs (div / 2 - dx_over_ndiv)) (Qabs (div - dx_over_ndiv)) then (div / 2)%Q
  else if lt_bool (Qabs (div * 2 - dx_over_ndiv)) (Qabs (div - dx_over_ndiv)) then (div * 2)%Q
  else div.
Definition rint (x : Q) : Q := inject_Z (Qfloor (x + (1 # 2))).
(** The body of the loop: [ndiv], [x0] and [div]. *)
Definition division (xi dx text_width dx_over_ndiv : Q) (s : Q * (Q * Q)) (n : nat) : Q * (Q * Q) :=
  let div := choose_div dx_over_ndiv in
  let x0 := (div * inject_Z (Qceiling (xi / div)) - div)%Q in
  (if 1 <? n then rint (dx / text_width) else s.1, (x0, div)).
(** [_compute_divisions] *)
Definition compute_divisions (xi xf : Q) : res axes_exn (Q * Q) :=
  if lt_bool xi xf then
    let dx := (xf - xi)%Q in
    Ok (foldl (division xi dx (dx / 5 / 2) (dx / 5)) (5%Q, (0%Q, 0%Q)) (seq 0 5)).2
  else Raise AssertionError.

(** [while x < sim_x2], with the values of [x]. *)
Definition axis_ticks (xi xf : Q) : res axes_exn (list Q) :=
  let* d := compute_divisions xi xf in progression (progression_fuel d.1 xf d.2) d.1 xf d.2.

(** ** The view *)

Inductive alignment := CENTER | LEFT.
(** A label with its properties, once they are set. *)
Record look := mkLook { font : Z; text : string; align : alignment; at_point : point }.
Record label := mkLabel { shown : bool; props : option look }.
Definition hide (l : label) : label := mkLabel false (props l).
(** A path with the width of its line. *)
Record lines := mkLines { line_width : Q; data : list (point * point) }.
Record axes := mkAxes { visible : bool; lines_shown : bool; hlines : lines; vlines : lines; labels : list label }.

Definition set_hlines (l : lines) (a : axes) : axes := mkAxes (visible a) (lines_shown a) l (vlines a) (labels a).
Definition set_vlines (l : lines) (a : axes) : axes := mkAxes (visible a) (lines_shown a) (hlines a) l (labels a).
Definition set_labels (l : list label) (a : axes) : axes := mkAxes (visible a) (lines_shown a) (hlines a) (vlines a) l.
(** [set_visible] *)
Definition set_visible (b : bool) (a : axes) : axes :=
  mkAxes b b (hlines a) (vlines a) (if b then labels a else map hide (labels a)).

Section View.
Context (format_G : Q -> string).
(** [viz.zoom], once there is one, and two corners of the canvas that is seen. *)
Context (zoom : option Q) (corner1 corner2 : point).
(** The labels in use and the unused ones. *)
Definition label_pool : Type := list label * list label.
(** [get_label], whose label is given its properties. *)
Definition put_label (k : look) (p : label_pool) : label_pool := (p.1 ++ [mkLabel true (Some k)], tail p.2).
(** The labels of the marks of an axis. *)
Definition put_labels (k : Q -> look) (ts : list Q) (p : label_pool) : label_pool :=
  foldl (fun p x => put_label (k x) p) p ts.
(** The marks of the two axes, and their labels. *)
Definition hmark (yc offset x : Q) : point * point :=
  ((PIXELS_PER_METER * x, yc - offset), (PIXELS_PER_METER * x, yc))%Q.
Definition vmark (xc offset y : Q) : point * point :=
  ((xc, PIXELS_PER_METER * y), (xc + offset, PIXELS_PER_METER * y))%Q.
Definition label_font (zoom : Q) : Z := Qfloor (12 / zoom).
Definition hlook (zoom yc offset x : Q) : look :=
  mkLook (label_font zoom) (format_G x) CENTER (PIXELS_PER_METER * x, yc - offset)%Q.
Definition vlook (zoom xc offset y : Q) : look :=
  mkLook (label_font zoom) (format_G y) LEFT (xc + offset, PIXELS_PER_METER * y)%Q.
(** [update_view] *)
Definition update_view : st axes axes_exn unit :=
  match zoom with
  | None => ret tt
  | Some zoom =>
      let! unused := reads (fun a => map hide (labels a)) in
      let! _ := modify (set_labels []) in
      let offset := (10 / zoom)%Q in
      let '(x1, y1) := corner1 in
      let '(x2, y2) := corner2 in
      let width := (5 / zoom)%Q in
      let! _ := modify (fun a => set_hlines (mkLines width (data (hlines a))) a) in
      let yc := (y2 - width / 2)%Q in
      let! ts := lift (axis_ticks (x1 / PIXELS_PER_METER) (x2 / PIXELS_PER_METER)) in
      let p := put_labels (hlook zoom yc offset) ts ([], unused) in
      let! _ := modify (set_labels p.1) in
      let! _ := modify (set_hlines (mkLines width (((x1, yc), (x2, yc)) :: map (hmark yc offset) ts))) in
      let! _ := modify (fun a => set_vlines (mkLines width (data (vlines a))) a) in
      let xc := (x1 + width / 2)%Q in
      let! ts := lift (axis_ticks (y1 / PIXELS_PER_METER) (y2 / PIXELS_PER_METER)) in
      let p := put_labels (vlook zoom xc offset) ts p in
      let! _ := modify (set_labels p.1) in
      let! _ := modify (set_vlines (mkLines width (((xc, y1), (xc, y2)) :: map (vmark xc offset) ts))) in
      modify (set_labels (p.1 ++ p.2))
  end.
End View.

(** ** The power of ten closest to a length *)

Local Open Scope Q_scope.
Lemma ten_step n : Qpower 10 (n + 1) == 10 * Qpower 10 n.
Proof. rewrite Qpower_plus by discriminate. rewrite Qpower_1_r. ring. Qed.
Lemma hundred_step f : Qpower 100 (Z.of_nat (S f)) == 100 * Qpower 100 (Z.of_nat f).
Proof. rewrite Nat2Z.inj_succ. unfold Z.succ. rewrite Qpower_plus by discriminate. rewrite Qpower_1_r. ring. Qed.
Lemma round_log10_spec f : forall s, 1 <= 10 * s * Qpower 100 (Z.of_nat f) -> s < 10 * Qpower 100 (Z.of_nat f) ->
  let p := Qpower 10 (round_log10 f s) in p * p <= 10 * s /\ s < 10 * (p * p).
Proof.
  induction f as [|f IH]; intros s Hlo Hhi.
  { change (Qpower 100 (Z.of_nat 0)) with 1 in *. cbn [round_log10]. change (Qpower 10 0) with 1. cbv zeta. lra. }
  rewrite hundred_step in Hlo, Hhi. cbn [round_log10]. destruct (lt_bool s (1 # 10)) eqn:E1.
  - apply lt_bool_true in E1. destruct (IH (s * 100)) as [H1 H2]; [lra|..].
    { assert (0 < Qpower 100 (Z.of_nat f)) by (by apply Qpower_0_lt). 
      assert (1 <= Qpower 100 (Z.of_nat f)) by (apply Qpower_1_le; [lra|lia]). lra. }
    pose proof (ten_step (round_log10 f (s * 100) - 1)) as E. rewrite Z.sub_add in E. cbv zeta.
    rewrite E in H1, H2. lra.
  - apply lt_bool_false in E1. destruct (Qle_bool 10 s) eqn:E2.
    + apply Qle_bool_iff in E2. assert (Es : s / 100 * 100 == s) by field.
      destruct (IH (s / 100)) as [H1 H2]; [|lra|].
      { assert (1 <= Qpower 100 (Z.of_nat f)) by (apply Qpower_1_le; [lra|lia]). 
        assert (1 * 1 <= 10 * (s / 100) * Qpower 100 (Z.of_nat f)) by (apply Qmult_le_compat_nonneg; lra). lra. }
      pose proof (ten_step (round_log10 f (s / 100))) as E. cbv zeta. rewrite E. lra.
    + assert (s < 10) by (apply lt_bool_true; unfold lt_bool; by rewrite E2). change (Qpower 10 0) with 1. cbv zeta. lra.
Qed.
Lemma size_bound p : (Z.pos p < 2 ^ Z.of_nat (Pos.size_nat p))%Z.
Proof. induction p as [p IH|p IH|]; [..|done]; cbn [Pos.size_nat]; rewrite Nat2Z.inj_succ, Z.pow_succ_r by lia; lia. Qed.
Lemma ten_fuel d : 0 < d -> let f := Z.of_nat (log_fuel d) in d < Qpower 10 f /\ 1 <= d * Qpower 10 f.
Proof.
  destruct d as [a b]. intros Ha. assert (Ha' : (0 < a)%Z) by (unfold Qlt in Ha; cbn in Ha; lia).
  assert (Hb : (Z.of_nat (log_fuel (a # b)) = Z.of_nat (Pos.size_nat (Z.to_pos a)) + Z.of_nat (Pos.size_nat b))%Z)
    by (unfold log_fuel; cbn [Qnum Qden]; lia).
  set (f := Z.of_nat (log_fuel (a # b))) in *. cbv zeta.
  change (Qpower 10 f) with (Qpower (inject_Z 10) f). rewrite <- (Zpower_Qpower 10 f) by lia.
  assert (Hf : (2 ^ f <= 10 ^ f)%Z) by (apply Z.pow_le_mono_l; lia).
  assert (Hfa : (2 ^ Z.of_nat (Pos.size_nat (Z.to_pos a)) <= 2 ^ f)%Z) by (apply Z.pow_le_mono_r; lia).
  assert (Hfb : (2 ^ Z.of_nat (Pos.size_nat b) <= 2 ^ f)%Z) by (apply Z.pow_le_mono_r; lia).
  pose proof (size_bound (Z.to_pos a)) as Sa. pose proof (size_bound b) as Sb. rewrite Z2Pos.id in Sa by lia.
  unfold Qlt, Qle, inject_Z. cbn [Qnum Qden Qmult]. nia.
Qed.
Lemma rint_log10_spec d : 0 < d -> let p := Qpower 10 (rint_log10 d) in 0 < p /\ p * p <= 10 * (d * d) /\ d * d < 10 * (p * p).
Proof.
  intros Hd. destruct (ten_fuel d Hd) as [H1 H2]. cbv zeta. split; [by apply Qpower_0_lt|].
  unfold rint_log10. set (f := log_fuel d) in *. set (t := Qpower 10 (Z.of_nat f)) in *.
  assert (E : Qpower 100 (Z.of_nat f) == t * t).
  { change 100 with (10 * 10). rewrite Qmult_power. reflexivity. }
  assert (0 < t) by (by apply Qpower_0_lt). apply round_log10_spec; rewrite E; nra.
Qed.
(** The division is a half, one or two powers of ten, and the length is between three and eight of it. *)
Lemma choose_div_spec dx : 0 < dx -> let div := choose_div (dx / 5) in
  (exists n, div == Qpower 10 n \/ div == 2 * Qpower 10 n \/ div == 5 * Qpower 10 n) /\
  0 < div /\ 3 * div < dx /\ dx < 8 * div.
Proof.
  intros Hdx. assert (E : dx / 5 * 5 == dx) by field. assert (Hd : 0 < dx / 5) by lra.
  destruct (rint_log10_spec _ Hd) as (Hp & H1 & H2). cbv zeta in *. unfold choose_div.
  set (d := dx / 5) in *. pose proof (ten_step (rint_log10 d - 1)) as Et. rewrite Z.sub_add in Et.
  set (p := Qpower 10 (rint_log10 d)) in *.
  assert (3 * p < 10 * d) by (apply Qnot_le_lt; intros ?; nra).
  assert (10 * d < 32 * p) by (apply Qnot_le_lt; intros ?; nra).
  assert (Eh : p / 2 * 2 == p) by field.
  destruct (lt_bool (Qabs (p / 2 - d)) (Qabs (p - d))) eqn:E1.
  { apply lt_bool_true in E1. assert (4 * d < 3 * p).
    { apply Qnot_le_lt. intros ?. apply (Qlt_irrefl 0). revert E1.
      apply Qabs_case; intros ?; apply Qabs_case; intros ? ?; lra. }
    split; [exists (rint_log10 d - 1)%Z; right; right; lra|lra]. }
  apply lt_bool_false in E1. destruct (lt_bool (Qabs (p * 2 - d)) (Qabs (p - d))) eqn:E2.
  - apply lt_bool_true in E2. split; [exists (rint_log10 d); right; left; fold p; lra|].
    revert E2. apply Qabs_case; intros ?; apply Qabs_case; intros ? ?; lra.
  - apply lt_bool_false in E2. split; [exists (rint_log10 d); left; fold p; lra|].
    revert E1 E2. apply Qabs_case; intros ?; apply Qabs_case; intros ?; apply Qabs_case; intros ? ? ?; lra.
Qed.

(** ** The marks of an axis *)

(** The loop gives what its first round gives: [dx_over_ndiv] is from before the loop. *)
Lemma compute_divisions_once xi xf : xi < xf ->
  let div := choose_div ((xf - xi) / 5) in
  compute_divisions xi xf = Ok (div * inject_Z (Qceiling (xi / div)) - div, div).
Proof. intros H. unfold compute_divisions. by rewrite (proj2 (lt_bool_true _ _) H). Qed.

Lemma axis_ticks_total xi xf : xi < xf -> exists ts, axis_ticks xi xf = Ok ts.
Proof.
  intros H. unfold axis_ticks. rewrite (compute_divisions_once _ _ H). cbn [res_bind fst snd].
  destruct (choose_div_spec (xf - xi) ltac:(lra)) as (_ & Hd & _ & _). cbv zeta in *.
  set (div := choose_div ((xf - xi) / 5)) in *. pose proof (Qceiling_lt (xi / div)) as Hc.
  replace (Qceiling (xi / div) - 1)%Z with (Qceiling (xi / div) + -1)%Z in Hc by lia.
  rewrite inject_Z_plus in Hc. apply (Qmult_lt_r _ _ div) in Hc; [|done].
  assert (Exi : xi / div * div == xi) by (field; lra). change (inject_Z (-1)) with (-1) in Hc.
  destruct (progression_spec (Exn:=axes_exn) (div * inject_Z (Qceiling (xi / div)) - div) xf div Hd ltac:(lra)) as (ts & E & _).
  by exists ts.
Qed.

(** C39: the marks of an axis are four to nine, in order at successive multiples of a round number of meters; all that are seen are
    marked, and just one more before them: the first mark is the last multiple before the visible ones. *)
Theorem axis_ticks_spec (xi xf : Q) (H : xi < xf) :
  exists ts div, axis_ticks xi xf = Ok ts /\
    (exists n, div == Qpower 10 n \/ div == 2 * Qpower 10 n \/ div == 5 * Qpower 10 n) /\
    (4 <= length ts <= 9)%nat /\
    (forall t, t ∈ ts -> xi - div <= t < xf /\ exists k, t == inject_Z k * div) /\
    (forall k, xi <= inject_Z k * div < xf -> exists t, t ∈ ts /\ t == inject_Z k * div) /\
    exists c, inject_Z (c - 1) * div < xi <= inject_Z c * div /\
      (forall k t, ts !! k = Some t -> t == inject_Z (c - 1 + Z.of_nat k) * div) /\
      forall k, (k < length ts)%nat <-> inject_Z (c - 1 + Z.of_nat k) * div < xf.
Proof.
  unfold axis_ticks. rewrite (compute_divisions_once _ _ H). cbn [res_bind fst snd].
  destruct (choose_div_spec (xf - xi) ltac:(lra)) as (Hn & Hd & H3 & H8). cbv zeta in *.
  set (div := choose_div ((xf - xi) / 5)) in *. set (c := Qceiling (xi / div)).
  assert (Exi : xi / div * div == xi) by (field; lra).
  pose proof (Qle_ceiling (xi / div)) as Hc1. pose proof (Qceiling_lt (xi / div)) as Hc2. fold c in Hc1, Hc2.
  replace (c - 1)%Z with (c + -1)%Z in Hc2 by lia. rewrite inject_Z_plus in Hc2. change (inject_Z (-1)) with (-1) in Hc2.
  assert (H0 : xi - div <= div * inject_Z c - div < xi).
  { apply (Qmult_le_compat_r _ _ div) in Hc1; [|lra]. apply (Qmult_lt_r _ _ div) in Hc2; [|done]. lra. }
  set (x0 := div * inject_Z c - div) in *.
  destruct (progression_spec (Exn:=axes_exn) x0 xf div Hd ltac:(lra)) as (ts & E & Hlo & Hhi & Hts). exists ts, div. rewrite E. clear E.
  split; [done|]. split; [done|]. set (N := inject_Z (Z.of_nat (length ts))) in *.
  assert (Ex0 : x0 + div == inject_Z c * div) by (unfold x0; ring).
  assert (Hx0 : forall k, x0 + inject_Z k * div == inject_Z (c + -1 + k) * div).
  { intros k. rewrite !inject_Z_plus. change (inject_Z (-1)) with (-1). unfold x0. ring. }
  assert (Hend : forall k, (k < length ts)%nat <-> inject_Z (c + -1 + Z.of_nat k) * div < xf).
  { intros k. rewrite <- Hx0. split.
    - intros [t Ht]%lookup_lt_is_Some_2. by destruct (Hts _ _ Ht) as [<- ?].
    - intros Hk. apply Nat2Z.inj_lt. rewrite Zlt_Qlt. fold N. apply Qnot_le_lt. intros HN.
      apply (Qmult_le_compat_r _ _ div) in HN; lra. }
  split; [|split; [|split]].
  4: { exists c. replace (c - 1)%Z with (c + -1)%Z by lia. split; [|split; [|exact Hend]].
       - rewrite inject_Z_plus. change (inject_Z (-1)) with (-1). lra.
       - intros k t Hk. destruct (Hts _ _ Hk) as [-> _]. by rewrite Hx0. }
  - assert (HN : 3 < N < 10).
    { split; apply Qnot_le_lt; intros HN; apply (Qmult_le_compat_r _ _ div) in HN; lra. } destruct HN as [HN1 HN2]. unfold N in *.
    change 3 with (inject_Z 3) in HN1. change 10 with (inject_Z 10) in HN2. rewrite <- Zlt_Qlt in HN1, HN2. lia.
  - intros t [k Hk]%list_elem_of_lookup_1. destruct (Hts _ _ Hk) as [Et Ht].
    assert (Hk0 : (0 <= Z.of_nat k)%Z) by lia. rewrite Zle_Qle in Hk0. change (inject_Z 0) with 0 in Hk0.
    apply (Qmult_le_compat_r _ _ div) in Hk0; [|lra].
    split; [lra|]. exists (c + -1 + Z.of_nat k)%Z. by rewrite Et, Hx0.
  - intros k [Hk1 Hk2].
    assert (Hck : (c <= k)%Z).
    { apply Z.lt_succ_r. rewrite Zlt_Qlt. unfold Z.succ. rewrite inject_Z_plus. change (inject_Z 1) with 1.
      apply Qnot_le_lt. intros Hck. apply (Qmult_le_compat_r _ _ div) in Hck; lra. }
    pose proof (Hx0 (k - (c + -1))%Z) as Ek. replace (c + -1 + (k - (c + -1)))%Z with k in Ek by lia.
    assert (HkN : (k - (c + -1) < Z.of_nat (length ts))%Z).
    { rewrite <- (Z2Nat.id (k - (c + -1))) by lia. apply Nat2Z.inj_lt, Hend. rewrite Z2Nat.id by lia.
      by replace (c + -1 + (k - (c + -1)))%Z with k by lia. }
    destruct (lookup_lt_is_Some_2 ts (Z.to_nat (k - (c + -1)))) as [t Ht]; [lia|].
    exists t. split; [by eapply list_elem_of_lookup_2|]. destruct (Hts _ _ Ht) as [-> _].
    by rewrite Z2Nat.id, Ek by lia.
Qed.
Lemma axis_ticks_spec_witness : exists ts, axis_ticks (-7 # 2) 100 = Ok ts /\ (4 <= length ts <= 9)%nat /\
  exists t, ts !! 0%nat = Some t /\ t < -7 # 2.
Proof.
  destruct (axis_ticks_spec (-7 # 2) 100 eq_refl) as (ts & div & E & _ & Hl & _ & _ & c & [Hc _] & Ht & _).
  exists ts. split; [exact E|split; [exact Hl|]]. destruct (lookup_lt_is_Some_2 ts 0) as [t Hk]; [lia|].
  exists t. split; [exact Hk|]. rewrite (Ht 0%nat t Hk), Z.add_0_r. exact Hc.
Defined.

(** ** The view *)

Lemma put_labels_spec k ts : forall p,
  put_labels k ts p = (p.1 ++ map (fun x => mkLabel true (Some (k x))) ts, drop (length ts) p.2).
Proof.
  induction ts as [|x ts IH]; intros [used unused]; cbn [put_labels foldl map length fst snd]; [by rewrite app_nil_r|].
  unfold put_labels in IH. rewrite IH. unfold put_label. cbn [fst snd]. rewrite <- app_assoc. destruct unused; cbn [tail]; rewrite ?drop_nil; reflexivity.
Qed.

Section Facts.
Context (format_G : Q -> string) (zoom : Q) (x1 y1 x2 y2 : Q) (Hx : x1 < x2) (Hy : y1 < y2).
(** Drawing the view marks both axes and shows a label for each mark; the labels that are left over are
    hidden and kept. *)
Theorem update_view_spec (a : axes) :
  let width := 5 / zoom in
  let offset := 10 / zoom in
  let yc := y2 - width / 2 in
  let xc := x1 + width / 2 in
  exists xs ys,
    axis_ticks (x1 / PIXELS_PER_METER) (x2 / PIXELS_PER_METER) = Ok xs /\
    axis_ticks (y1 / PIXELS_PER_METER) (y2 / PIXELS_PER_METER) = Ok ys /\
    update_view format_G (Some zoom) (x1, y1) (x2, y2) a =
      (Ok tt,
       {| visible := visible a; lines_shown := lines_shown a;
          hlines := mkLines width (((x1, yc), (x2, yc)) :: map (hmark yc offset) xs);
          vlines := mkLines width (((xc, y1), (xc, y2)) :: map (vmark xc offset) ys);
          labels := map (fun k => mkLabel true (Some k))
                      (map (hlook format_G zoom yc offset) xs ++ map (vlook format_G zoom xc offset) ys) ++
                    map hide (drop (length xs + length ys) (labels a)) |}).
Proof.
  intros width offset yc xc.
  assert (Hscale : forall a b : Q, a < b -> a / PIXELS_PER_METER < b / PIXELS_PER_METER).
  { intros b c Hbc. apply (Qmult_lt_r _ _ (/ PIXELS_PER_METER)); [reflexivity|done]. }
  destruct (axis_ticks_total _ _ (Hscale _ _ Hx)) as [xs Exs], (axis_ticks_total _ _ (Hscale _ _ Hy)) as [ys Eys].
  exists xs, ys. split; [done|]. split; [done|]. unfold update_view, bind, reads, modify, lift. rewrite Exs, Eys.
  rewrite !put_labels_spec. cbn [fst snd app]. unfold set_labels, set_hlines, set_vlines.
  cbn [visible lines_shown hlines vlines labels data]. rewrite drop_drop, map_app, !map_map.
  by rewrite <- fmap_drop.
Qed.
End Facts.
Lemma update_view_spec_witness : forall a, exists b, update_view (fun _ => "") (Some 1) (0, 0) (600, 450) a = (Ok tt, b).
Proof.
  intros a. destruct (update_view_spec (fun _ => "") 1 0 0 600 450 eq_refl eq_refl a) as (xs & ys & _ & _ & E).
  eexists. exact E.
Defined.
(** The labels of axes that are shown again stay hidden until the next drawing. *)
Lemma shown_again_hides a : map shown (labels (set_visible true (set_visible false a))) = map (fun _ => false) (labels a).
Proof. cbn. by rewrite map_map. Qed.
(** A window without an area makes the drawing fail, and its labels are lost. *)
Lemma empty_window f z p a : exists b, update_view f (Some z) p p a = (Raise AssertionError, b) /\ labels b = [].
Proof.
  destruct p as [x y]. unfold update_view, bind, reads, modify, lift, axis_ticks, compute_divisions.
  rewrite (proj2 (lt_bool_false (x / PIXELS_PER_METER) (x / PIXELS_PER_METER))) by lra. by eexists.
Qed.
