(* ===== verification/VizWifi.v ===== *)
(** * Links of wireless stations: [src/src/visualizer/visualizer/plugins/wifi_intrastructure_link.py]

    [WifiLink], a dashed line from a station to its access point, and [WifiLinkMonitor], the plugin that
    makes the links when the topology is scanned and follows the access points during the simulation.
    Links are named by their numbers; of the links at a node the model keeps those of this
    plugin, next to the canvas of [VizCanvas].  The devices of the simulation are data. *)

From S2P Require Import Prelude State VizCanvas.
From Stdlib Require Import QArith.
From stdpp Require Import strings.
Local Open Scope nat_scope.
Local Open Scope list_scope.
Local Open Scope py_scope.
Local Open Scope string_scope.
Local Open Scope list_scope.

Inductive wifi_exn := KeyError (bssid : string) | ValueError | AttributeError.

(** ** Links *)

(** [node1] and [node2] are the station and the access point, [points] the ends of the two lines once they are set. *)
Record WifiLink := mkWifiLink {
  node1 : option nat; dev : nat; node2 : option nat; hidden : bool; points : option (point * point); destroyed : bool }.
(** The plugin's links, which of them each node has in [links], and the monitor. *)
Record wifi := mkWifi {
  wifi_links : list WifiLink; links_of : gmap nat (list nat);
  access_points : gmap string nat; stations : list (nat * nat * nat) }.
Abbreviation M := (st wifi wifi_exn).

Definition change_link (i : nat) (f : WifiLink -> WifiLink) (w : wifi) : wifi :=
  mkWifi (alter f i (wifi_links w)) (links_of w) (access_points w) (stations w).
Definition set_links_of (n : nat) (l : list nat) (w : wifi) : wifi :=
  mkWifi (wifi_links w) (<[n := l]> (links_of w)) (access_points w) (stations w).
Definition links_at_node (n : nat) (w : wifi) : list nat := default [] (links_of w !! n).
(** [Node.add_link], [Node.remove_link] *)
Definition add_link (n i : nat) : M unit := modify (fun w => set_links_of n (links_at_node n w ++ [i]) w).
Fixpoint list_remove (i : nat) (l : list nat) : option (list nat) :=
  match l with
  | [] => None
  | j :: l => if decide (j = i) then Some l else cons j <$> list_remove i l
  end.
Definition remove_link (n i : nat) : M unit := fun w =>
  match list_remove i (links_at_node n w) with
  | Some l => (Ok tt, set_links_of n l w)
  | None => (Raise ValueError, w)
  end.
Definition set_node2 (a : option nat) (l : WifiLink) : WifiLink :=
  mkWifiLink (node1 l) (dev l) a (hidden l) (points l) (destroyed l).
Definition set_hidden (b : bool) (l : WifiLink) : WifiLink :=
  mkWifiLink (node1 l) (dev l) (node2 l) b (points l) (destroyed l).
Definition set_points (p : point * point) (l : WifiLink) : WifiLink :=
  mkWifiLink (node1 l) (dev l) (node2 l) (hidden l) (Some p) (destroyed l).

Section Canvas.
(** The nodes of the visualizer, for their positions. *)
Context (cv : canvas).
(** [WifiLink.update_points] *)
Definition update_points (i : nat) : M unit := fun w =>
  match wifi_links w !! i with
  | Some l =>
      match node2 l, node1 l with
      | None, _ => (Ok tt, w)
      | Some _, None => (Raise AttributeError, w)
      | Some a, Some s => (Ok tt, change_link i (set_points (position (NodeEnd s) cv, position (NodeEnd a) cv)) w)
      end
  | None => (Ok tt, w)
  end.
(** [WifiLink.set_ap] *)
Definition set_ap (i : nat) (ap : option nat) : M unit :=
  let! old := reads (fun w => wifi_links w !! i ≫= node2) in
  if decide (ap = old) then ret tt
  else
    let! _ := match old with Some o => remove_link o i | None => ret tt end in
    let! _ := modify (change_link i (set_node2 ap)) in
    let! _ := match ap with
              | None => modify (change_link i (set_hidden true))
              | Some a => let! _ := add_link a i in modify (change_link i (set_hidden false))
              end in
    update_points i.
End Canvas.
(** [WifiLink.__init__]: [set_ap(None)] finds nothing to do. *)
Definition new_link (sta dev : nat) : WifiLink := mkWifiLink (Some sta) dev None false None false.
(** [WifiLink.destroy] *)
Definition destroy (i : nat) (w : wifi) : wifi :=
  change_link i (fun l => mkWifiLink None (dev l) None (hidden l) (points l) true) w.

(** ** The monitor *)

(** The kinds of devices that the scan tells apart. *)
Inductive device := OtherDevice | StaDevice | ApDevice (bssid : string) | OtherMac.
Definition scan_device (node : nat) (w : wifi) (d : nat * device) : wifi :=
  match d.2 with
  | StaDevice =>
      mkWifi (wifi_links w ++ [new_link node d.1]) (links_of w) (access_points w)
        (stations w ++ [(d.1, node, length (wifi_links w))])
  | ApDevice bssid => mkWifi (wifi_links w) (links_of w) (<[bssid := node]> (access_points w)) (stations w)
  | OtherDevice | OtherMac => w
  end.
(** [scan_nodes], with the nodes in the order of the dictionary and their devices by number. *)
Definition scan_nodes (nodes : list (nat * list (nat * device))) (w : wifi) : wifi :=
  let w := foldl (fun w st => destroy st.2 w) w (stations w) in
  let w := mkWifi (wifi_links w) (links_of w) ∅ [] in
  foldl (fun w n => foldl (scan_device n.1) w n.2) w nodes.

Definition NO_BSSID : string := "00:00:00:00:00:00".
Section Simulation.
Context (cv : canvas).
(** Whether the link of a device is up, and the BSSID of its MAC. *)
Context (IsLinkUp : nat -> bool) (GetBssid : nat -> string).
(** The access point of a station, as the monitor knows it. *)
Definition access_point (aps : gmap string nat) (dev : nat) : res wifi_exn (option nat) :=
  if IsLinkUp dev then
    let bssid := GetBssid dev in
    if decide (bssid = NO_BSSID) then Ok None
    else match aps !! bssid with Some a => Ok (Some a) | None => Raise (KeyError bssid) end
  else Ok None.
(** [simulation_periodic_update] *)
Definition follow (st : nat * nat * nat) : M unit :=
  let! aps := reads access_points in
  let! ap := lift (access_point aps st.1.1) in
  set_ap cv st.2 ap.
Definition simulation_periodic_update : M unit :=
  let! l := reads stations in iter_m follow l.
(** [update_view] *)
Definition update_view : M unit :=
  let! l := reads stations in iter_m (fun st : nat * nat * nat => update_points cv st.2) l.
End Simulation.
(** A node that moves draws its links again. *)
Definition node_moved (cv : canvas) (n : nat) : M unit :=
  let! l := reads (links_at_node n) in iter_m (update_points cv) l.

(** ** What the links and the nodes know of each other *)

(** A link is drawn if it is seen and has points. *)
Definition drawn (l : WifiLink) : Prop := hidden l = false /\ is_Some (points l).
Record link_ok (l : WifiLink) : Prop := {
  live_station : destroyed l = false -> is_Some (node1 l);
  dead_alone : destroyed l = true -> node2 l = None;
  drawn_with_ap : destroyed l = false -> drawn l <-> is_Some (node2 l) }.
Record wifi_ok (w : wifi) : Prop := {
  every_link i l : wifi_links w !! i = Some l -> link_ok l;
  links_known i l a : wifi_links w !! i = Some l -> destroyed l = false ->
    node2 l = Some a <-> i ∈ links_at_node a w;
  links_valid a i : i ∈ links_at_node a w -> i < length (wifi_links w);
  links_once a : NoDup (links_at_node a w) }.

Lemma list_remove_spec i l : i ∈ l -> NoDup l ->
  exists l', list_remove i l = Some l' /\ NoDup l' /\ forall j, j ∈ l' <-> j ∈ l /\ j <> i.
Proof.
  induction l as [|k l IH]; intros Hi Hnd; [by apply not_elem_of_nil in Hi|].
  apply NoDup_cons in Hnd as [Hk Hnd]. cbn. case_decide as E.
  - subst k. exists l. split; [done|]. split; [done|]. intros j. rewrite elem_of_cons. split.
    + intros Hj. split; [by right|]. intros ->. done.
    + by intros [[?|?] ?].
  - apply elem_of_cons in Hi as [?|Hi]; [by destruct E|]. destruct (IH Hi Hnd) as (l' & -> & Hnd' & Hl').
    exists (k :: l'). split; [done|]. split.
    + apply NoDup_cons. split; [|done]. by intros [? _]%Hl'.
    + intros j. rewrite !elem_of_cons, Hl'. naive_solver.
Qed.
Lemma links_at_set n l w m : links_at_node m (set_links_of n l w) = if decide (m = n) then l else links_at_node m w.
Proof.
  unfold links_at_node, set_links_of. cbn. case_decide as E; [subst m; by rewrite lookup_insert_eq|by rewrite lookup_insert_ne].
Qed.

(** The links of the nodes once link [i] has a new access point, and all else as before. *)
Record moved (i : nat) (ap : option nat) (w w' : wifi) : Prop := {
  moved_links a j : j ∈ links_at_node a w' <-> j ∈ links_at_node a w /\ j <> i \/ j = i /\ ap = Some a;
  moved_once a : NoDup (links_at_node a w');
  moved_others j : j <> i -> wifi_links w' !! j = wifi_links w !! j;
  moved_length : length (wifi_links w') = length (wifi_links w);
  moved_monitor : access_points w' = access_points w /\ stations w' = stations w }.
Lemma moved_ok i ap w w' l l' : wifi_ok w -> moved i ap w w' -> wifi_links w !! i = Some l ->
  wifi_links w' !! i = Some l' -> node2 l' = ap -> destroyed l' = false -> link_ok l' -> wifi_ok w'.
Proof.
  intros [Hl Hk Hv Ho] [Ml Mo Mj Mn _] Hi Hi' Hap Hd Hl'. split.
  - intros j lj Hj. destruct (decide (j = i)) as [->|Hne]; [by simplify_eq|]. rewrite Mj in Hj by done. by eapply Hl.
  - intros j lj a Hj Hdj. rewrite Ml. destruct (decide (j = i)) as [->|Hne].
    + simplify_eq. naive_solver.
    + rewrite Mj in Hj by done. rewrite (Hk _ _ a Hj Hdj). naive_solver.
  - intros a j. rewrite Ml, Mn. intros [[Hj _]|[-> _]]; [by eapply Hv|by eapply lookup_lt_Some].
  - done.
Qed.

(** What [set_ap] leaves of its link. *)
Record has_ap (cv : canvas) (ap : option nat) (l l' : WifiLink) : Prop := {
  same_station : node1 l' = node1 l /\ dev l' = dev l /\ destroyed l' = destroyed l;
  new_ap : node2 l' = ap;
  points_now : node2 l <> ap -> forall s a, node1 l = Some s -> ap = Some a ->
    points l' = Some (position (NodeEnd s) cv, position (NodeEnd a) cv) }.
Section SetAp.
Context (cv : canvas) (i : nat) (l : WifiLink) (w : wifi) (Hok : wifi_ok w) (Hi : wifi_links w !! i = Some l)
  (Hd : destroyed l = false).
Lemma leave_ap : exists w1,
  match node2 l with Some o => remove_link o i | None => ret tt end w = (Ok tt, w1) /\
  wifi_links w1 = wifi_links w /\ access_points w1 = access_points w /\ stations w1 = stations w /\
  forall a, NoDup (links_at_node a w1) /\ forall j, j ∈ links_at_node a w1 <-> j ∈ links_at_node a w /\ j <> i.
Proof.
  destruct Hok as [_ Hk _ Ho]. destruct (node2 l) as [o|] eqn:E.
  - assert (Ho' : i ∈ links_at_node o w) by (by apply (Hk i l)).
    destruct (list_remove_spec _ _ Ho' (Ho o)) as (l' & El & Hnd & Hl'). unfold remove_link. rewrite El.
    eexists. split; [reflexivity|]. split_and!; [done..|]. intros a. rewrite links_at_set. case_decide as Ea; [by subst a|].
    split; [apply Ho|]. intros j. split; [|by intros [? _]]. intros Hj. split; [done|]. intros ->.
    apply Ea. apply (Hk i l a Hi Hd) in Hj. congruence.
  - exists w. split_and!; [done..|]. intros a. split; [apply Ho|]. intros j. split; [|by intros [? _]].
    intros Hj. split; [done|]. intros ->. apply (Hk i l a Hi Hd) in Hj. congruence.
Qed.
Lemma set_ap_spec ap : exists w' l', set_ap cv i ap w = (Ok tt, w') /\ moved i ap w w' /\
  wifi_links w' !! i = Some l' /\ has_ap cv ap l l' /\ link_ok l'.
Proof.
  pose proof (every_link _ Hok _ _ Hi) as Hl. destruct (live_station _ Hl Hd) as [s Hs].
  unfold set_ap, bind, reads. rewrite Hi. cbn [option_bind mbind]. case_decide as E.
  { exists w, l. split; [done|]. split; [|split; [done|split; [|done]; split; [done|done|congruence]]].
    split; [|apply (links_once _ Hok)|done..]. intros a j. pose proof (links_known _ Hok i l a Hi Hd) as H.
    rewrite E. split.
    - intros Hj. destruct (decide (j = i)) as [->|Hne]; [right; split; [done|by apply H]|by left].
    - intros [[Hj _]|[-> Ha]]; [done|by apply H]. }
  destruct leave_ap as (w1 & -> & E1 & E2 & E3 & Hat). unfold modify at 1.
  destruct ap as [a|].
  - unfold add_link, modify, bind. unfold update_points. cbn [wifi_links change_link set_links_of]. rewrite E1.
    rewrite !list_lookup_alter_eq, Hi. cbn. rewrite Hs. eexists _, _. split; [reflexivity|].
    split; [|split; [cbn; rewrite !list_lookup_alter_eq, E1, Hi; reflexivity|]].
    + split; cbn.
      * intros b j. unfold change_link, links_at_node. cbn.
        assert (Hb := proj2 (Hat b)). assert (Ha := proj2 (Hat a)).
        destruct (decide (b = a)) as [->|Hne]; [rewrite lookup_insert_eq|rewrite lookup_insert_ne by done].
        -- cbn. rewrite elem_of_app, list_elem_of_singleton. unfold links_at_node in Ha. rewrite Ha. naive_solver.
        -- unfold links_at_node in Hb. rewrite Hb. naive_solver.
      * intros b. unfold links_at_node. cbn.
        destruct (decide (b = a)) as [->|Hne]; [rewrite lookup_insert_eq|rewrite lookup_insert_ne by done; apply Hat].
        cbn. apply NoDup_app. split; [apply Hat|]. split; [|apply NoDup_singleton].
        intros j Hj ->%list_elem_of_singleton. by apply (proj2 (Hat a)) in Hj as [_ ?].
      * intros j Hj. by rewrite !list_lookup_alter_ne, E1 by done.
      * by rewrite !length_alter, E1.
      * done.
    + split; [split; cbn; [done|done|congruence]|]. split; cbn; [by rewrite Hs|congruence|].
      intros _. unfold drawn. cbn. split; intros _; [by eexists|split; [done|by eexists]].
  - unfold modify, update_points. cbn [wifi_links change_link]. rewrite E1. rewrite !list_lookup_alter_eq, Hi. cbn.
    eexists _, _. split; [reflexivity|]. split; [|split; [cbn; rewrite !list_lookup_alter_eq, E1, Hi; reflexivity|]].
    + split; cbn.
      * intros b j. etrans; [apply (proj2 (Hat b))|]. naive_solver.
      * intros b. apply Hat.
      * intros j Hj. by rewrite !list_lookup_alter_ne, E1 by done.
      * by rewrite !length_alter, E1.
      * done.
    + split; [split; cbn; [done|done|congruence]|]. split; cbn; [by rewrite Hs|congruence|].
      intros _. unfold drawn. cbn. split; [by intros [? _]|by intros [? ?]].
Qed.
End SetAp.

(** ** The monitor and the simulation *)

Definition station : Type := nat * nat * nat.
(** The link of a station is there, at its node. *)
Definition live (w : wifi) (st : station) : Prop :=
  exists l, wifi_links w !! st.2 = Some l /\ destroyed l = false /\ node1 l = Some st.1.2.
(** The monitor has the links that are not destroyed, each once. *)
Record monitor_ok (w : wifi) : Prop := {
  links_ok : wifi_ok w;
  stations_once : NoDup (map snd (stations w));
  stations_live st : st ∈ stations w -> live w st;
  stations_all i l : wifi_links w !! i = Some l -> destroyed l = false -> i ∈ map snd (stations w) }.

(** A step that leaves the links as they are, but for the access points and the points of live links. *)
Record steady (w w' : wifi) : Prop := {
  steady_monitor : access_points w' = access_points w /\ stations w' = stations w;
  steady_links i : match wifi_links w !! i, wifi_links w' !! i with
    | Some l, Some l' => node1 l' = node1 l /\ destroyed l' = destroyed l
    | None, None => True
    | _, _ => False
    end }.
Lemma steady_refl w : steady w w.
Proof. split; [done|]. intros i. by destruct (wifi_links w !! i). Qed.
Lemma steady_trans w1 w2 w3 : steady w1 w2 -> steady w2 w3 -> steady w1 w3.
Proof.
  intros [[A1 A2] L1] [[B1 B2] L2]. split; [by rewrite B1, B2|]. intros i. specialize (L1 i). specialize (L2 i).
  destruct (wifi_links w1 !! i), (wifi_links w2 !! i), (wifi_links w3 !! i); try done.
  destruct L1, L2. split; congruence.
Qed.
Lemma steady_live w w' st : steady w w' -> live w st -> live w' st.
Proof.
  intros [_ L] (l & Hl & Hd & Hs). specialize (L st.2). rewrite Hl in L.
  destruct (wifi_links w' !! st.2) as [l'|] eqn:E; [|done]. destruct L as [Es Ed]. exists l'. by rewrite Es, Ed.
Qed.
Lemma steady_ok w w' : steady w w' -> wifi_ok w' -> monitor_ok w -> monitor_ok w'.
Proof.
  intros Hst Hw [_ H1 H2 H3]. pose proof (steady_monitor _ _ Hst) as [_ E]. split; [done|..]; rewrite ?E; [done|..].
  - intros st Hin. eapply steady_live; [done|by apply H2].
  - intros i l Hi Hd. pose proof (steady_links _ _ Hst i) as L. rewrite Hi in L.
    destruct (wifi_links w !! i) as [l0|] eqn:E0; [|done]. apply (H3 _ l0); [done|]. by rewrite <- (proj2 L).
Qed.
Lemma moved_steady i ap w w' l l' : moved i ap w w' -> wifi_links w !! i = Some l -> wifi_links w' !! i = Some l' ->
  node1 l' = node1 l -> destroyed l' = destroyed l -> steady w w'.
Proof.
  intros [_ _ Mj _ Mm] Hi Hi' H1 H2. split; [done|]. intros j. destruct (decide (j = i)) as [->|Hne].
  - by rewrite Hi, Hi'.
  - rewrite Mj by done. by destruct (wifi_links w !! j).
Qed.

Section Follow.
Context (cv : canvas) (IsLinkUp : nat -> bool) (GetBssid : nat -> string).
Abbreviation aim := (access_point IsLinkUp GetBssid).
(** The access point of a station is that of its device. *)
Definition follows (aps : gmap string nat) (w : wifi) (st : station) : Prop :=
  exists l, wifi_links w !! st.2 = Some l /\ aim aps st.1.1 = Ok (node2 l).
Lemma follow_live st w : wifi_ok w -> live w st ->
  match aim (access_points w) st.1.1 with
  | Ok _ => exists w', follow cv IsLinkUp GetBssid st w = (Ok tt, w') /\ wifi_ok w' /\ steady w w' /\
      follows (access_points w) w' st /\ (forall i, i <> st.2 -> wifi_links w' !! i = wifi_links w !! i)
  | Raise e => follow cv IsLinkUp GetBssid st w = (Raise e, w)
  | OutOfFuel => False
  end.
Proof.
  intros Hok (l & Hl & Hd & Hs). unfold follow, bind, reads, lift.
  destruct (aim (access_points w) st.1.1) as [ap|e|] eqn:E; [|done|].
  - destruct (set_ap_spec cv st.2 l w Hok Hl Hd ap) as (w' & l' & -> & Hm & Hl' & [(S1 & S2 & S3) Hap Hp] & Hl'ok).
    exists w'. split; [done|]. split; [|split; [|split]].
    + eapply moved_ok; try done. by rewrite S3.
    + by eapply moved_steady.
    + exists l'. split; [done|]. by rewrite E, Hap.
    + apply Hm.
  - unfold access_point in E. destruct (IsLinkUp _); [|done]. case_decide; [done|]. by destruct (access_points w !! _).
Qed.

Lemma follow_all l : forall w0, wifi_ok w0 -> NoDup (map snd l) -> (forall st, st ∈ l -> live w0 st) ->
    let '(r, w') := iter_m (follow cv IsLinkUp GetBssid) l w0 in wifi_ok w' /\ steady w0 w' /\
    exists before after, l = before ++ after /\ Forall (follows (access_points w0) w') before /\
      (forall i, i ∉ map snd before -> wifi_links w' !! i = wifi_links w0 !! i) /\
      match after with
      | [] => r = Ok tt
      | st :: _ => exists e, aim (access_points w0) st.1.1 = Raise e /\ r = Raise e
      end.
Proof.
  induction l as [|st l IH]; intros w0 Hok Hnd Hlive.
  { cbn. split; [done|]. split; [apply steady_refl|]. by exists [], []. }
  apply NoDup_cons in Hnd as [Hst Hnd]. cbn [iter_m]. unfold bind.
  pose proof (follow_live st w0 Hok (Hlive st ltac:(by left))) as Hf.
  destruct (aim (access_points w0) st.1.1) as [ap|e|] eqn:E; [|rewrite Hf|done].
  - destruct Hf as (w1 & -> & Hok1 & Hs1 & Hf1 & Ho1). pose proof (proj1 (steady_monitor _ _ Hs1)) as Ea.
    specialize (IH w1 Hok1 Hnd). destruct (iter_m _ l w1) as [r w'].
    destruct IH as (Hok' & Hs' & before & after & -> & Hb & Ho' & Hr).
    { intros st' Hin. eapply steady_live; [done|]. apply Hlive. by right. }
    rewrite Ea in Hb, Hr. split; [done|]. split; [by eapply steady_trans|].
    assert (Hst' : st.2 ∉ map snd before).
    { intros Hin. apply Hst. change (st.2 ∈ map snd (before ++ after)). rewrite map_app. apply elem_of_app. by left. }
    exists (st :: before), after. split; [done|]. split; [|split; [|done]].
    + constructor; [|done]. destruct Hf1 as (l1 & Hl1 & E1). exists l1. split; [|done]. by rewrite Ho'.
    + cbn. intros i [Hi1 Hi2]%not_elem_of_cons. by rewrite Ho', Ho1.
  - split; [done|]. split; [apply steady_refl|]. exists [], (st :: l). split_and!; [done..|]. by exists e.
Qed.

(** A device that is associated: its link is up and it has the address of an access point. *)
Definition associated (dev : nat) : Prop := IsLinkUp dev = true /\ GetBssid dev <> NO_BSSID.
Lemma access_point_cases aps dev :
  match aim aps dev with
  | Ok ap => (associated dev -> is_Some (aps !! GetBssid dev)) /\
      forall a, ap = Some a <-> associated dev /\ aps !! GetBssid dev = Some a
  | Raise e => associated dev /\ aps !! GetBssid dev = None /\ e = KeyError (GetBssid dev)
  | OutOfFuel => False
  end.
Proof.
  unfold access_point, associated. destruct (IsLinkUp dev); [|split; [by intros [? _]|by split; [|intros [[? _] _]]]].
  case_decide as Hb; [split; [by intros [_ ?]|by split; [|intros [[_ ?] _]]]|].
  destruct (aps !! GetBssid dev) as [a|] eqn:E; [|done]. split; [by eexists|]. intros b. naive_solver.
Qed.

(** C37: each period the stations are served in order until one of them is associated (its link is up and it has an address
    that is not zero) with an address that no known access point has: then the update raises [KeyError] with this address, and the
    links of this station and of those after it are as before.  The link of every station before it leads to the access point that has the address, if the
    station is associated, and to none otherwise.  A link is drawn just when its station has an access point. *)
Theorem simulation_periodic_update_spec (w : wifi) (H : monitor_ok w) :
  let '(r, w') := simulation_periodic_update cv IsLinkUp GetBssid w in
  monitor_ok w' /\ stations w' = stations w /\
  exists before after, stations w = before ++ after /\
    Forall (fun st => exists l, wifi_links w' !! st.2 = Some l /\ (drawn l <-> is_Some (node2 l)) /\
      (associated st.1.1 -> is_Some (access_points w !! GetBssid st.1.1)) /\
      forall a, node2 l = Some a <-> associated st.1.1 /\ access_points w !! GetBssid st.1.1 = Some a) before /\
    Forall (fun st => wifi_links w' !! st.2 = wifi_links w !! st.2) after /\
    match after with
    | [] => r = Ok tt
    | st :: _ => associated st.1.1 /\ access_points w !! GetBssid st.1.1 = None /\ r = Raise (KeyError (GetBssid st.1.1))
    end.
Proof.
  unfold simulation_periodic_update, bind, reads.
  pose proof (follow_all (stations w) w (links_ok _ H) (stations_once _ H) (stations_live _ H)) as Hrun.
  destruct (iter_m _ (stations w) w) as [r w']. destruct Hrun as (Hok & Hs & before & after & E & Hb & Ho & Hr).
  pose proof (steady_ok _ _ Hs Hok H) as Hm. pose proof (proj2 (steady_monitor _ _ Hs)) as Est.
  split; [done|]. split; [done|]. exists before, after. split; [done|]. split; [|split].
  - rewrite Forall_forall in Hb |- *. intros st Hin. destruct (Hb st Hin) as (l & Hl & Ea). exists l. split; [done|].
    pose proof (access_point_cases (access_points w) st.1.1) as Hc. rewrite Ea in Hc. split; [|done].
    destruct (stations_live _ Hm st) as (l' & Hl' & Hd & _); [rewrite Est, E; apply elem_of_app; by left|].
    simplify_eq. by apply (every_link _ Hok _ _ Hl).
  - apply Forall_forall. intros st Hin. apply Ho. pose proof (stations_once _ H) as Hnd.
    rewrite E, map_app in Hnd. apply NoDup_app in Hnd as (_ & Hnd & _). intros Hst. apply (Hnd _ Hst).
    apply list_elem_of_fmap. by exists st.
  - destruct after as [|st after]; [done|]. destruct Hr as (e & Ee & ->).
    pose proof (access_point_cases (access_points w) st.1.1) as Hc. rewrite Ee in Hc. by destruct Hc as (? & ? & ->).
Qed.
End Follow.

(** ** Drawing the links again *)

Definition between (cv : canvas) (w : wifi) (st : station) : Prop :=
  forall l a, wifi_links w !! st.2 = Some l -> node2 l = Some a ->
    points l = Some (position (NodeEnd st.1.2) cv, position (NodeEnd a) cv).
Lemma update_points_live cv w st : wifi_ok w -> live w st ->
  exists w', update_points cv st.2 w = (Ok tt, w') /\ wifi_ok w' /\ steady w w' /\ between cv w' st /\
    links_of w' = links_of w /\ forall i, i <> st.2 -> wifi_links w' !! i = wifi_links w !! i.
Proof.
  intros Hok (l & Hl & Hd & Hs). unfold update_points. rewrite Hl.
  destruct (node2 l) as [a|] eqn:Ea.
  2:{ exists w. split; [done|]. split; [done|]. split; [apply steady_refl|]. split; [|done].
      intros l' b Hl' Hb. simplify_eq. }
  rewrite Hs. set (l' := set_points (position (NodeEnd st.1.2) cv, position (NodeEnd a) cv) l). eexists. split; [reflexivity|].
  assert (Hi : wifi_links (change_link st.2 (set_points (position (NodeEnd st.1.2) cv, position (NodeEnd a) cv)) w) !! st.2 = Some l')
    by (cbn; by rewrite list_lookup_alter_eq, Hl).
  assert (Hm : moved st.2 (Some a) w (change_link st.2 (set_points (position (NodeEnd st.1.2) cv, position (NodeEnd a) cv)) w)).
  { split; [|apply (links_once _ Hok)| |cbn; by rewrite length_alter|done].
    - intros b j. change (links_at_node b (change_link _ _ w)) with (links_at_node b w).
      pose proof (links_known _ Hok _ l b Hl Hd) as Hk. rewrite Ea in Hk. split.
      + intros Hj. destruct (decide (j = st.2)) as [->|]; [right; split; [done|by apply Hk]|by left].
      + intros [[Hj _]|[-> Hb]]; [done|by apply Hk].
    - intros j Hj. cbn. by rewrite list_lookup_alter_ne. }
  pose proof (every_link _ Hok _ _ Hl) as Hlk. split; [|split; [|split]].
  - eapply moved_ok; try done. destruct Hlk as [L1 L2 L3]. split; [done|done|]. intros _. cbn. rewrite Ea.
    specialize (L3 Hd). rewrite Ea in L3. destruct (proj2 L3) as [Hh _]; [by eexists|].
    split; intros _; [by eexists|]. by split; [|eexists].
  - by eapply moved_steady.
  - intros l1 b Hl1 Hb. rewrite Hi in Hl1. injection Hl1 as <-. cbn in *. congruence.
  - split; [done|]. intros i Hne. cbn. by rewrite list_lookup_alter_ne.
Qed.
Lemma update_points_all cv l : forall w, wifi_ok w -> NoDup (map snd l) -> (forall st, st ∈ l -> live w st) ->
  exists w', iter_m (fun st : station => update_points cv st.2) l w = (Ok tt, w') /\ wifi_ok w' /\ steady w w' /\
    (forall i, i ∉ map snd l -> wifi_links w' !! i = wifi_links w !! i) /\ Forall (between cv w') l.
Proof.
  induction l as [|st l IH]; intros w Hok Hnd Hlive.
  { exists w. split_and!; [done|done|apply steady_refl|done|done]. }
  apply NoDup_cons in Hnd as [Hst Hnd]. cbn [iter_m]. unfold bind.
  destruct (update_points_live cv w st Hok (Hlive st ltac:(by left))) as (w1 & -> & Hok1 & Hs1 & Hb1 & _ & Ho1).
  destruct (IH w1 Hok1 Hnd) as (w' & -> & Hok' & Hs' & Ho' & Hb).
  { intros st' Hin. eapply steady_live; [done|]. apply Hlive. by right. }
  exists w'. split; [done|]. split; [done|]. split; [by eapply steady_trans|]. split.
  - cbn. intros i [Hi1 Hi2]%not_elem_of_cons. by rewrite Ho', Ho1.
  - constructor; [|done]. intros l1 a Hl1. rewrite Ho' in Hl1 by done. by apply Hb1.
Qed.
(** Drawing the view draws the link of each associated station between where it and its access point
    are now. *)
Theorem update_view_draws (cv : canvas) (w : wifi) (H : monitor_ok w) :
  exists w', update_view cv w = (Ok tt, w') /\ monitor_ok w' /\ stations w' = stations w /\
    Forall (between cv w') (stations w).
Proof.
  destruct (update_points_all cv (stations w) w (links_ok _ H) (stations_once _ H) (stations_live _ H))
    as (w' & E & Hok & Hs & _ & Hb).
  exists w'. split; [exact E|]. split; [by eapply steady_ok|]. split; [apply (steady_monitor _ _ Hs)|done].
Qed.

(** ** Scanning *)

Definition dead (l : WifiLink) : WifiLink := mkWifiLink None (dev l) None (hidden l) (points l) true.
Lemma destroy_all (sts : list station) : forall w, let w' := foldl (fun w st => destroy st.2 w) w sts in
  links_of w' = links_of w /\ length (wifi_links w') = length (wifi_links w) /\
  forall i, wifi_links w' !! i = (if decide (i ∈ map snd sts) then dead else id) <$> wifi_links w !! i.
Proof.
  induction sts as [|st sts IH]; intros w.
  { split; [done|]. split; [done|]. intros i. cbn [map]. rewrite decide_False by apply not_elem_of_nil. by destruct (_ !! i). }
  cbn [foldl]. destruct (IH (destroy st.2 w)) as (E1 & E2 & E3). split; [by rewrite E1|].
  split; [rewrite E2; cbn; by rewrite length_alter|]. intros i. rewrite E3. cbn.
  destruct (decide (i = st.2)) as [->|Hne].
  - rewrite list_lookup_alter_eq, (decide_True (P := st.2 ∈ st.2 :: map snd sts)) by by left.
    destruct (wifi_links w !! st.2) as [l|]; [|done]. cbn. by case_decide.
  - rewrite list_lookup_alter_ne by done. f_equal. destruct (decide (i ∈ map snd sts)) as [Hin|Hin].
    + by rewrite decide_True by by right.
    + rewrite decide_False; [done|]. by intros [?|?]%elem_of_cons.
Qed.
(** Forgetting the stations. *)
Lemma forget_ok w : monitor_ok w ->
  let w1 := foldl (fun w st => destroy st.2 w) w (stations w) in
  monitor_ok (mkWifi (wifi_links w1) (links_of w1) ∅ []) /\
  (forall i l, wifi_links w1 !! i = Some l -> destroyed l = true) /\ length (wifi_links w1) = length (wifi_links w).
Proof.
  intros [Hok H1 H2 H3] w1. destruct (destroy_all (stations w) w) as (E1 & E2 & E3). fold w1 in E1, E2, E3.
  assert (Hdead : forall i l, wifi_links w1 !! i = Some l -> destroyed l = true /\ link_ok l).
  { intros i l Hi. rewrite E3 in Hi. apply fmap_Some in Hi as (l0 & Hl0 & ->). pose proof (every_link _ Hok _ _ Hl0).
    case_decide as Hin; [split; [done|by split]|]. cbn. split; [|done].
    destruct (destroyed l0) eqn:Hd; [done|]. destruct Hin. by eapply H3. }
  split; [|split; [by intros i l [? _]%Hdead|done]].
  split; cbn; [|by apply NoDup_nil|by intros st ?%not_elem_of_nil|intros i l [Hd _]%Hdead ?; congruence].
  split; cbn; [by intros i l [_ ?]%Hdead|intros i l a [Hd _]%Hdead ?; congruence| |].
  - intros a i. unfold links_at_node. cbn. rewrite E1, E2. apply (links_valid _ Hok).
  - intros a. unfold links_at_node. cbn. rewrite E1. apply (links_once _ Hok).
Qed.
Lemma scan_station_ok n d w : monitor_ok w -> monitor_ok (scan_device n w (d, StaDevice)).
Proof.
  intros [[Hl Hk Hv Ho] H1 H2 H3]. unfold scan_device. cbn [fst snd].
  assert (Hnew : forall i l, (wifi_links w ++ [new_link n d]) !! i = Some l ->
    wifi_links w !! i = Some l \/ i = length (wifi_links w) /\ l = new_link n d).
  { intros i l [Hi|[Hi E]]%lookup_app_Some; [by left|]. apply list_lookup_singleton_Some in E as [E ->]. right. split; [lia|done]. }
  split; [split|..]; cbn.
  - intros i l [Hi|[-> ->]]%Hnew; [by eapply Hl|]. split; cbn; [by eexists|done|]. intros _. unfold drawn. cbn.
    split; [by intros [_ [? ?]]|by intros [? ?]].
  - intros i l a [Hi|[-> ->]]%Hnew Hd; [by apply Hk|]. cbn. split; [done|]. intros Hin%Hv. lia.
  - intros a i Hin. rewrite length_app. cbn. change (i ∈ links_at_node a w) in Hin. apply Hv in Hin. lia.
  - exact Ho.
  - rewrite map_app. apply NoDup_app. split; [done|]. split; [|apply NoDup_singleton].
    intros i (st & -> & Hin)%list_elem_of_fmap Hi%list_elem_of_singleton.
    destruct (H2 _ Hin) as (l & Hl' & _). apply lookup_lt_Some in Hl'. rewrite Hi in Hl'. cbn in Hl'. lia.
  - intros st [Hin|Hin%list_elem_of_singleton]%elem_of_app.
    + destruct (H2 _ Hin) as (l & Hi & Hd). exists l. split; [|done]. cbn. by apply lookup_app_l_Some.
    + subst st. exists (new_link n d). cbn. rewrite lookup_app_r, Nat.sub_diag by done. done.
  - intros i l [Hi|[-> ->]]%Hnew Hd; rewrite map_app, elem_of_app; [left; by eapply H3|right; by left].
Qed.
(** The devices of the nodes, and which of them are stations or access points. *)
Definition devices_of (nodes : list (nat * list (nat * device))) : list (nat * (nat * device)) :=
  concat (map (fun n => map (pair n.1) n.2) nodes).
Definition sta_of (x : nat * (nat * device)) : option (nat * nat) :=
  match x.2.2 with StaDevice => Some (x.2.1, x.1) | _ => None end.
Definition ap_of (x : nat * (nat * device)) : option (string * nat) :=
  match x.2.2 with ApDevice b => Some (b, x.1) | _ => None end.
Lemma scan_nodes_devices nodes : forall w, foldl (fun w n => foldl (scan_device n.1) w n.2) w nodes =
  foldl (fun w x => scan_device x.1 w x.2) w (devices_of nodes).
Proof.
  induction nodes as [|[n ds] nodes IH]; intros w; [done|]. unfold devices_of in *. cbn [foldl map concat fst snd].
  rewrite foldl_app, <- IH. f_equal. revert w. induction ds as [|d ds IHd]; intros w; [done|]. cbn. apply IHd.
Qed.
Definition last_ap (b : string) (l : list (string * nat)) : option nat := last (map snd (filter (fun p => p.1 = b) l)).
Lemma scan_devices_ok l : forall w, monitor_ok w ->
  let w' := foldl (fun w x => scan_device x.1 w x.2) w l in
  monitor_ok w' /\ links_of w' = links_of w /\ map fst (stations w') = map fst (stations w) ++ omap sta_of l /\
  (forall b, access_points w' !! b = match last_ap b (omap ap_of l) with Some n => Some n | None => access_points w !! b end) /\
  forall i lk, wifi_links w !! i = Some lk -> wifi_links w' !! i = Some lk.
Proof.
  induction l as [|[n [d k]] l IH]; intros w Hw. { cbn. rewrite app_nil_r. done. }
  cbn [foldl fst snd]. assert (Hw' : monitor_ok (scan_device n w (d, k))).
  { destruct k; [done|by apply scan_station_ok| |done]. destruct Hw as [[] ? ? ?]. by split; [split|..]. }
  destruct (IH _ Hw') as (H1 & H2 & H3 & H4 & H5). clear IH.
  split; [done|]. split; [rewrite H2; by destruct k|]. split; [|split].
  - rewrite H3. destruct k; cbn; rewrite ?map_app, <- ?app_assoc; done.
  - intros b. rewrite H4. destruct k as [| |bssid|]; try done. cbn. unfold last_ap. rewrite filter_cons. cbn.
    case_decide as E; [|by destruct (last _); rewrite ?lookup_insert_ne]. cbn. rewrite last_cons. destruct (last _); [done|].
    by rewrite E, lookup_insert_eq.
  - intros i lk Hi. apply H5. destruct k; [done| |done..]. cbn. by apply lookup_app_l_Some.
Qed.
(** a scan makes a link for each station device, in order, none of them associated; an address leads to the
    last node with such an access point; the links of the scan before are destroyed but not taken from the nodes. *)
Theorem scan_nodes_spec (nodes : list (nat * list (nat * device))) (w : wifi) (H : monitor_ok w) :
  let w' := scan_nodes nodes w in
  monitor_ok w' /\ map fst (stations w') = omap sta_of (devices_of nodes) /\
  (forall b, access_points w' !! b = last_ap b (omap ap_of (devices_of nodes))) /\
  (forall i l, wifi_links w !! i = Some l -> exists l', wifi_links w' !! i = Some l' /\ destroyed l' = true) /\
  forall a, links_at_node a w' = links_at_node a w.
Proof.
  unfold scan_nodes. rewrite scan_nodes_devices. destruct (forget_ok w H) as (H0 & Hd & Hlen). cbv zeta in *.
  destruct (scan_devices_ok (devices_of nodes) _ H0) as (H1 & H2 & H3 & H4 & H5).
  set (w0 := mkWifi _ _ ∅ []) in *. set (w' := foldl _ w0 _) in *. split; [done|]. split; [done|]. split; [|split].
  - intros b. rewrite H4. by destruct (last_ap _ _).
  - intros i l Hi. destruct (lookup_lt_is_Some_2 (wifi_links w0) i) as [l0 Hl0].
    { cbn. rewrite Hlen. by eapply lookup_lt_Some. }
    exists l0. split; [by apply H5|]. by eapply Hd.
  - intros a. unfold links_at_node. rewrite H2. cbn. by rewrite (proj1 (destroy_all _ _)).
Qed.

(** ** A station and two access points *)

Definition no_wifi : wifi := mkWifi [] ∅ ∅ [].
Lemma no_wifi_ok : monitor_ok no_wifi.
Proof.
  split; [split|..]; cbn; [done|done| |intros a; apply NoDup_nil_2|apply NoDup_nil_2|by intros st ?%not_elem_of_nil|done].
  intros a i Hin. unfold links_at_node in Hin. cbn in Hin. rewrite lookup_empty in Hin. by apply not_elem_of_nil in Hin.
Qed.
Definition demo_nodes : list (nat * list (nat * device)) :=
  [(0, [(10, StaDevice); (11, OtherDevice)]); (1, [(12, ApDevice "a")]); (2, [(13, ApDevice "b")])].
Definition demo_canvas : canvas := mkCanvas (<[0 := new_node]> (<[1 := new_node]> ∅)) ∅ [] None.
Definition demo_period (bssid : string) : wifi -> res wifi_exn unit * wifi :=
  simulation_periodic_update demo_canvas (fun _ => true) (fun _ => bssid).
Lemma scan_nodes_spec_witness : access_points (scan_nodes demo_nodes no_wifi) !! "b" = Some 2 /\
  stations (scan_nodes demo_nodes no_wifi) = [(10, 0, 0)].
Proof.
  destruct (scan_nodes_spec demo_nodes no_wifi no_wifi_ok) as (_ & _ & H & _). split; [exact (H "b")|reflexivity].
Defined.
Lemma demo_scanned : monitor_ok (scan_nodes demo_nodes no_wifi).
Proof.
  unfold scan_nodes. rewrite scan_nodes_devices. destruct (forget_ok _ no_wifi_ok) as (H0 & _). by apply (scan_devices_ok _ _ H0).
Qed.
(** The station goes to an access point, and to one that is not known. *)
Lemma simulation_periodic_update_spec_witness :
  monitor_ok (demo_period "b" (scan_nodes demo_nodes no_wifi)).2 /\
  (demo_period "b" (scan_nodes demo_nodes no_wifi)).1 = Ok tt /\
  (demo_period "c" (scan_nodes demo_nodes no_wifi)).1 = Raise (KeyError "c") /\
  (node2 <$> wifi_links (demo_period "b" (scan_nodes demo_nodes no_wifi)).2) = [Some 2].
Proof.
  split; [|split; [reflexivity|split; [|reflexivity]]].
  - generalize (simulation_periodic_update_spec demo_canvas (fun _ => true) (fun _ => "b") _ demo_scanned).
    unfold demo_period. destruct (simulation_periodic_update _ _ _ _) as [r w]. by intros [H _].
  - generalize (simulation_periodic_update_spec demo_canvas (fun _ => true) (fun _ => "c") _ demo_scanned).
    unfold demo_period. destruct (simulation_periodic_update _ _ _ _) as [r w] eqn:E.
    vm_compute in E. injection E as <- <-. reflexivity.
Defined.
Lemma update_view_draws_witness : exists w, update_view demo_canvas (scan_nodes demo_nodes no_wifi) = (Ok tt, w).
Proof. destruct (update_view_draws demo_canvas _ demo_scanned) as (w & E & _). by exists w. Defined.
(** A station does not know its link: moving it leaves the link where it was. *)
Lemma moving_station_stale : let w := (demo_period "a" (scan_nodes demo_nodes no_wifi)).2 in
  node_moved (set_position 0 (30, 30)%Q demo_canvas) 0 w = (Ok tt, w) /\
  (points <$> wifi_links w) = [Some ((0, 0), (0, 0))%Q].
Proof. split; vm_compute; reflexivity. Qed.
(** A second scan leaves the destroyed link with its access point. *)
Lemma destroyed_link_stays : let w := scan_nodes demo_nodes (demo_period "a" (scan_nodes demo_nodes no_wifi)).2 in
  links_at_node 1 w = [0] /\ (destroyed <$> wifi_links w) = [true; false].
Proof. split; vm_compute; reflexivity. Qed.
