(* ===== verification/VizTables.v ===== *)
(** * The information windows of the visualizer: [src/src/visualizer/visualizer/plugins/]

    [interface_statistics.py], whose collector keeps the last ten samples of each node and makes rates of them;
    [show_last_packets.py] with its filter; the tables of [ipv4_routing_table.py] and [olsr.py].  A table is the
    list of its rows.  Rates are rationals; how they are written, and the objects of the
    simulator, are parameters or data. *)

From S2P Require Import Prelude PyLib VizArrows.
From Stdlib Require Import QArith.
From stdpp Require Import strings.
Local Open Scope nat_scope.
Local Open Scope string_scope.
Local Open Scope list_scope.
Local Open Scope py_scope.

Inductive table_exn := AssertionError | IndexError | AttributeError.

(** ** Statistics of interfaces *)

Definition NODE_STATISTICS_MEMORY : nat := 10.
Record raw := mkRaw { transmittedPackets : Z; transmittedBytes : Z; receivedPackets : Z; receivedBytes : Z }.
(** [node_statistics]: the samples of a node, each with a value for each interface. *)
Abbreviation collector := (gmap nat (list (list raw))).
Definition add_statistics (c : collector) (s : nat * list raw) : collector :=
  <[s.1 := keep_last NODE_STATISTICS_MEMORY (default [] (c !! s.1) ++ [s.2])]> c.
(** [StatisticsCollector.simulation_periodic_update] *)
Definition collect (c : collector) (nodes_statistics : list (nat * list raw)) : collector :=
  foldl add_statistics c nodes_statistics.

Record NetDevStats := mkStats {
  txPackets : Z; txBytes : Z; rxPackets : Z; rxBytes : Z;
  txPacketRate : Q; rxPacketRate : Q; txBitRate : Q; rxBitRate : Q }.
Section Statistics.
Context (sample_period : Q).
(** The rates of an interface between two samples. *)
Definition rates (first last : raw) : NetDevStats :=
  let k := (sample_period * inject_Z (Z.of_nat (NODE_STATISTICS_MEMORY - 1)))%Q in
  {| txPackets := transmittedPackets last; txBytes := transmittedBytes last;
     rxPackets := receivedPackets last; rxBytes := receivedBytes last;
     txPacketRate := inject_Z (transmittedPackets last - transmittedPackets first) / k;
     rxPacketRate := inject_Z (receivedPackets last - receivedPackets first) / k;
     txBitRate := inject_Z ((transmittedBytes last - transmittedBytes first) * 8) / k;
     rxBitRate := inject_Z ((receivedBytes last - receivedBytes first) * 8) / k |}.
Definition interface_rates (first : list raw) (x : nat * raw) : res table_exn NetDevStats :=
  match first !! x.1 with Some f => Ok (rates f x.2) | None => Raise IndexError end.
(** [get_interface_statistics] *)
Definition get_interface_statistics (node : nat) (c : collector) : res table_exn (list NetDevStats) :=
  match c !! node with
  | None => Ok []
  | Some l =>
      if (length l <? NODE_STATISTICS_MEMORY)%nat then Ok []
      else if (length l =? NODE_STATISTICS_MEMORY)%nat then
        map_res (interface_rates (default [] (head l))) (imap pair (default [] (last l)))
      else Raise AssertionError
  end.
End Statistics.

(** ** Rows *)

Section Rows.
Context {device : Type} (FindName : device -> string) (show_Q : Q -> string).
(** The name of a device, or the number of its interface. *)
Definition interface_name (d : device) (i : nat) : string :=
  let name := FindName d in if decide (name = "") then "(interface " +:+ show_nat i +:+ ")" else name.
(** [ShowInterfaceStatistics.update]: the rows of its table. *)
Definition statistics_row (GetDevice : nat -> device) (x : nat * NetDevStats) : list string :=
  let s := x.2 in
  [interface_name (GetDevice x.1) x.1; show_int (txPackets s); show_int (txBytes s); show_Q (txPacketRate s);
   show_Q (txBitRate s); show_int (rxPackets s); show_int (rxBytes s); show_Q (rxPacketRate s); show_Q (rxBitRate s)].
Definition update_statistics (sample_period : Q) (GetDevice : nat -> device) (node : nat) (c : collector)
    : res table_exn (list (list string)) :=
  let* stats := get_interface_statistics sample_period node c in
  Ok (map (statistics_row GetDevice) (imap pair stats)).

(** The interface of a route, of which the loopback has no device. *)
Definition route_interface (GetNetDevice : nat -> option device) (i : nat) : string :=
  match GetNetDevice i with None => "lo" | Some d => interface_name d i end.
(** [ShowIpv4RoutingTable.update] *)
Record route := mkRoute { GetDest : string; GetGateway : string; GetInterface : nat }.
Inductive routing :=
  | Ipv4StaticRouting (routes : list route) | Ipv4GlobalRouting (routes : list route)
  | Ipv4ListRouting (l : list (routing * Z)) | OtherRouting.
Definition listed_protocol (x : routing * Z) : option (list route * string * Z) :=
  match x.1 with
  | Ipv4StaticRouting routes => Some (routes, "static", x.2)
  | Ipv4GlobalRouting routes => Some (routes, "global", x.2)
  | _ => None
  end.
Definition routing_protocols (r : routing) : list (list route * string * Z) :=
  match r with
  | Ipv4StaticRouting routes => [(routes, "static", 0%Z)]
  | Ipv4ListRouting l => omap listed_protocol l
  | _ => []
  end.
Record ipv4_row := mkIpv4Row { destination : string; next_hop : string; interface : string; type_string : string; prio : Z }.
Definition ipv4_rows (GetNetDevice : nat -> option device) (p : list route * string * Z) : list ipv4_row :=
  map (fun r => mkIpv4Row (GetDest r) (GetGateway r) (route_interface GetNetDevice (GetInterface r)) p.1.2 p.2) p.1.1.
Definition update_ipv4 (GetNetDevice : nat -> option device) (r : option routing) (table : list ipv4_row) : list ipv4_row :=
  match r with
  | None => table
  | Some r =>
      match routing_protocols r with
      | [] => table
      | ps => concat (map (ipv4_rows GetNetDevice) ps)
      end
  end.
(** [ShowOlsrRoutingTable.update]: of an entry, the addresses, the interface and the distance. *)
Definition update_olsr (GetNetDevice : nat -> option device) (entries : option (list (string * string * nat * Z)))
    (table : list (string * string * string * Z)) : list (string * string * string * Z) :=
  match entries with
  | None => table
  | Some l => map (fun '(dest, next, i, distance) => (dest, next, route_interface GetNetDevice i, distance)) l
  end.
(** [PacketList.update]: a sample has its time, its device with its index, and the size and the text of its packet. *)
Record packet_sample := mkSample { time : Q; sample_device : option (device * nat); packet_size : nat; packet_text : string }.
Definition packet_row (s : packet_sample) : list string :=
  [show_Q (time s);
   match sample_device s with None => "(unknown)" | Some (d, i) => interface_name d i end;
   show_nat (packet_size s); packet_text s].
End Rows.

(** ** The filter of packets *)

Record TypeIdConfig := mkConfig { name : string; is_selected : bool; typeid : nat }.
Section Filter.
(** The registered types, by number: their names and the types that they extend. *)
Context (registered : nat) (type_name : nat -> string) (GetParent : nat -> option nat) (Header Trailer : nat).
(** The loop over the parents of a type. *)
Fixpoint type_is_good (fuel : nat) (t : nat) : res table_exn bool :=
  match fuel with
  | O => OutOfFuel
  | S fuel =>
      if decide (t = Header \/ t = Trailer) then Ok true
      else match GetParent t with Some p => type_is_good fuel p | None => Ok false end
  end.
Definition add_type (l : list TypeIdConfig) (t : nat) : res table_exn (list TypeIdConfig) :=
  let* good := type_is_good registered t in
  if good && negb (bool_decide (t ∈ [Header; Trailer])) then Ok (l ++ [mkConfig (type_name t) true t]) else Ok l.
(** [packet_filter_list] *)
Definition packet_filter_list : res table_exn (list TypeIdConfig) := for_each add_type (seq 0 registered) [].
End Filter.

Inductive capture_mode := PACKET_CAPTURE_FILTER_HEADERS_AND | PACKET_CAPTURE_FILTER_HEADERS_OR.
Record capture_options := mkCapture { mode : capture_mode; numLastPackets : nat; headers : list nat }.
(** The filter, whether AND is active, and the options that the simulator was given last. *)
Record last_packets := mkLast { filter_list : list TypeIdConfig; op_AND_active : bool; options : option capture_options }.
Definition update_capture_options (w : last_packets) : last_packets :=
  mkLast (filter_list w) (op_AND_active w)
    (Some (mkCapture (if op_AND_active w then PACKET_CAPTURE_FILTER_HEADERS_AND else PACKET_CAPTURE_FILTER_HEADERS_OR)
       100 (map typeid (filter (fun c => is_selected c = true) (filter_list w))))).
Definition select (b : bool) (c : TypeIdConfig) : TypeIdConfig := mkConfig (name c) b (typeid c).
Definition set_filter (l : list TypeIdConfig) (w : last_packets) : last_packets := mkLast l (op_AND_active w) (options w).
(** The handlers of the window: the two buttons, a cell of the list, the two operators, of which a change is
    a toggling of AND. *)
Inductive filter_event := SelAll | SelNone | CellEdited (i : nat) (b : bool) | Operator (is_and : bool).
Definition handle (w : last_packets) (e : filter_event) : last_packets :=
  match e with
  | SelAll => update_capture_options (set_filter (map (select true) (filter_list w)) w)
  | SelNone => update_capture_options (set_filter (map (select false) (filter_list w)) w)
  | CellEdited i b => update_capture_options (set_filter (alter (select b) i (filter_list w)) w)
  | Operator b => if decide (b = op_AND_active w) then w else update_capture_options (mkLast (filter_list w) b (options w))
  end.
(** The window when it is made. *)
Definition open_last_packets (l : list TypeIdConfig) : last_packets := update_capture_options (mkLast l false None).

(** ** What the collector keeps *)

Definition samples (node : nat) (l : list (nat * list raw)) : list (list raw) := map snd (filter (fun s => s.1 = node) l).
Lemma keep_last_some {A} k (l : list A) x : 0 < k -> exists y l', keep_last k (l ++ [x]) = y :: l'.
Proof.
  intros Hk. destruct (keep_last k (l ++ [x])) as [|y l'] eqn:E; [|by exists y, l'].
  rewrite keep_last_drop in E. apply (f_equal length) in E. rewrite length_drop, length_app in E. cbn in E. lia.
Qed.
Lemma collect_concat hs c : foldl collect c hs = collect c (concat hs).
Proof. revert c. induction hs as [|h hs IH]; intros c; [done|]. cbn. unfold collect in *. by rewrite foldl_app, IH. Qed.
Lemma collect_samples l node : collect ∅ l !! node =
  if decide (samples node l = []) then None else Some (keep_last NODE_STATISTICS_MEMORY (samples node l)).
Proof.
  induction l as [|s l IH] using rev_ind; [apply lookup_empty|].
  unfold collect, samples in *. rewrite foldl_app, filter_app, map_app. cbn [foldl]. unfold add_statistics at 1.
  rewrite filter_cons. cbn [filter list_filter]. destruct (decide (s.1 = node)) as [<-|Hne]; cycle 1.
  { rewrite lookup_insert_ne, IH by done. cbn. by rewrite app_nil_r. }
  rewrite lookup_insert_eq, IH. cbn [map]. rewrite (decide_False (P := _ ++ _ = [])) by (by intros [_ ?]%app_nil).
  f_equal. case_decide as E; [by rewrite E|].
  change (default [] (Some ?x)) with x. by rewrite keep_last_snoc.
Qed.

Section Rates.
Context (sample_period : Q).
Lemma interface_rates_spec first last : forall k, map_res (interface_rates sample_period first) (imap (fun i x => (k + i, x)) last) =
  if decide (length last <= length first - k) then Ok (zip_with (rates sample_period) (drop k first) last)
  else Raise IndexError.
Proof.
  induction last as [|x last IH]; intros k.
  { rewrite decide_True by (cbn; lia). cbn. by destruct (drop k first). }
  rewrite imap_cons. cbn [map_res length]. unfold interface_rates at 1. cbn [fst snd]. rewrite Nat.add_0_r.
  destruct (first !! k) as [f|] eqn:E.
  - cbn [res_bind]. pose proof (lookup_lt_Some _ _ _ E).
    rewrite (imap_ext _ (fun i y => (S k + i, y))) by (intros i y _; cbn; f_equal; lia).
    rewrite IH, (drop_S _ _ _ E). repeat case_decide; try lia; done.
  - apply lookup_ge_None in E. rewrite decide_False by lia. done.
Qed.

(** once a node has been sampled ten times, the rates of its interfaces are those between the last sample and
    the one nine before it; an interface that the older sample does not have is an error. *)
Theorem get_interface_statistics_spec (history : list (list (nat * list raw))) (node : nat) :
  let l := samples node (concat history) in
  get_interface_statistics sample_period node (foldl collect ∅ history) =
    if decide (length l < NODE_STATISTICS_MEMORY) then Ok []
    else
      let first := default [] (l !! (length l - NODE_STATISTICS_MEMORY)) in
      let latest := default [] (last l) in
      if decide (length latest <= length first) then Ok (zip_with (rates sample_period) first latest)
      else Raise IndexError.
Proof.
  intros l. unfold get_interface_statistics. rewrite collect_concat, collect_samples. fold l. clearbody l.
  destruct (decide (l = [])) as [->|Hl].
  { reflexivity. }
  rewrite keep_last_drop, length_drop. case_decide as Hn.
  { rewrite (proj2 (Nat.ltb_lt _ _)); [done|]. lia. }
  unfold NODE_STATISTICS_MEMORY in *. rewrite (proj2 (Nat.ltb_ge _ _)) by lia.
  replace (length l - (length l - 10)) with 10 by lia. change (10 =? 10)%nat with true. cbv iota.
  rewrite (imap_ext _ (fun i x => (0 + i, x))) by done. rewrite (interface_rates_spec _ _ 0), drop_0, Nat.sub_0_r.
  assert (EL : last (drop (length l - 10) l) = last l) by (rewrite !last_lookup, lookup_drop, length_drop; f_equal; lia).
  rewrite EL. by rewrite head_lookup, lookup_drop, Nat.add_0_r.
Qed.
End Rates.
(** An interface that is added later is an error until the older sample has it. *)
Lemma late_interface : let s := mkRaw 0 0 0 0 in
  get_interface_statistics 1 0 (foldl collect ∅ (replicate 9 [(0, [s])] ++ [[(0, [s; s])]])) = Raise IndexError.
Proof. reflexivity. Qed.

(** ** The filter is of the headers and trailers *)

Section FilterFacts.
Context (registered : nat) (type_name : nat -> string) (GetParent : nat -> option nat) (Header Trailer : nat).
(** Types are registered, and no type extends itself: a type is deeper than its parent. *)
Context (depth : nat -> nat) (deeper : forall t p, GetParent t = Some p -> depth p < depth t /\ p < registered).
Definition extends (t p : nat) : Prop := GetParent t = Some p.
Definition is_header (t : nat) : Prop := rtc extends t Header \/ rtc extends t Trailer.
Lemma is_header_step t : t <> Header -> t <> Trailer ->
  is_header t <-> exists p, GetParent t = Some p /\ is_header p.
Proof.
  intros H1 H2. unfold is_header. split.
  - intros [H|H]; (inversion H as [|? p ? Hp Hr]; [done|]); exists p; (split; [done|]); [by left|by right].
  - intros (p & Hp & [H|H]); [left|right]; by eapply rtc_l.
Qed.
(** The types that were visited are distinct: there is fuel for all of them. *)
Lemma type_is_good_spec fuel : forall t visited, t < registered -> Forall (fun v => v < registered) visited ->
  NoDup (t :: visited) -> Forall (fun v => depth t < depth v) visited -> registered <= length visited + fuel ->
  exists b, type_is_good GetParent Header Trailer fuel t = Ok b /\ (b = true <-> is_header t).
Proof.
  induction fuel as [|fuel IH]; intros t visited Ht Hv Hnd Hd Hf.
  { assert (Hle : length (t :: visited) <= length (seq 0 registered)).
    { apply submseteq_length, NoDup_submseteq; [done|]. intros x Hx. apply elem_of_seq.
      apply elem_of_cons in Hx as [?|Hx]; [lia|]. rewrite Forall_forall in Hv. apply Hv in Hx. lia. }
    rewrite length_seq in Hle. cbn in Hle. lia. }
  cbn [type_is_good]. case_decide as E.
  { exists true. split; [done|]. split; [intros _|done]. unfold is_header.
    destruct E; subst t; [left|right]; apply rtc_refl. }
  assert (E' : t <> Header /\ t <> Trailer) by tauto. destruct E' as [E1 E2]. pose proof (is_header_step t E1 E2) as Hs.
  destruct (GetParent t) as [p|] eqn:Ep.
  - destruct (deeper t p Ep) as [Hp1 Hp2].
    destruct (IH p (t :: visited)) as (b & Eb & Hb); [done|by constructor| | |cbn; lia|].
    + apply NoDup_cons. split; [|done]. intros Hin. apply elem_of_cons in Hin as [Epq|Hin]; [subst p; lia|].
      rewrite Forall_forall in Hd. apply Hd in Hin. lia.
    + constructor; [done|]. eapply Forall_impl; [exact Hd|]. cbn. lia.
    + exists b. split; [done|]. rewrite Hb, Hs. split; [intros H; by exists p|by intros (q & [= <-] & ?)].
  - exists false. split; [done|]. rewrite Hs. split; [done|by intros (q & ? & _)].
Qed.

(** the list of the filter has the types that extend a header or a trailer, other than the two, in their
    order, all selected; the loop over the parents of a type ends. *)
Theorem packet_filter_list_spec : exists types,
  packet_filter_list registered type_name GetParent Header Trailer =
    Ok (map (fun t => mkConfig (type_name t) true t) types) /\
  types `sublist_of` seq 0 registered /\
  forall t, t ∈ types <-> t < registered /\ is_header t /\ t <> Header /\ t <> Trailer.
Proof.
  unfold packet_filter_list.
  destruct (for_each_ok (add_type registered type_name GetParent Header Trailer)
    (fun dn rest l => dn ++ rest = seq 0 registered /\ exists types, l = map (fun t => mkConfig (type_name t) true t) types /\
       types `sublist_of` dn /\ forall t, t ∈ types <-> t ∈ dn /\ is_header t /\ t <> Header /\ t <> Trailer)
    (seq 0 registered) []) as (l & E & _ & types & -> & Hsub & Ht).
  - split; [done|]. exists []. split; [done|]. split; [done|]. intros t. split; [by intros Ht%not_elem_of_nil|].
    by intros (Ht%not_elem_of_nil & _).
  - intros dn x rest l (Hdn & types & -> & Hsub & Ht).
    assert (Hx : x < registered).
    { assert (Hx : x ∈ seq 0 registered) by (rewrite <- Hdn; apply elem_of_app; right; by left). apply elem_of_seq in Hx. lia. }
    destruct (type_is_good_spec registered x [] Hx) as (b & Eb & Hb); [done|apply NoDup_singleton|done|cbn; lia|].
    unfold add_type. rewrite Eb. cbn [res_bind].
    destruct (b && negb (bool_decide (x ∈ [Header; Trailer]))) eqn:Ec.
    + apply andb_true_iff in Ec as [Hb' Hn]. rewrite negb_true_iff, bool_decide_eq_false in Hn.
      eexists. split; [reflexivity|]. split; [by rewrite <- app_assoc|]. exists (types ++ [x]).
      split; [by rewrite map_app|]. split; [by apply sublist_app|]. intros t. rewrite !elem_of_app, Ht, list_elem_of_singleton.
      split; [|tauto]. intros [?|Ex]; [tauto|subst t]. split; [by right|]. split; [by apply Hb|].
      split; intros ->; apply Hn; [by left|right; by left].
    + eexists. split; [reflexivity|]. split; [by rewrite <- app_assoc|]. exists types. split; [done|].
      split; [by apply sublist_inserts_r|]. intros t. rewrite elem_of_app, Ht, list_elem_of_singleton. split; [tauto|].
      intros ([?|Hx2] & H1 & H2 & H3); [tauto|subst t]. exfalso. apply Hb in H1. rewrite H1 in Ec. cbn in Ec.
      rewrite negb_false_iff, bool_decide_eq_true in Ec. apply elem_of_cons in Ec as [?|Ec]; [done|by apply list_elem_of_singleton in Ec].
  - rewrite E. exists types. split; [done|]. split; [done|]. intros t. rewrite Ht, elem_of_seq. split; intros (H1 & H2); (split; [lia|done]).
Qed.
End FilterFacts.
(** The types: an object, a header and a trailer, two kinds of headers, one of them of the other. *)
Definition demo_parent (t : nat) : option nat := match t with 0 => None | 3 => Some 1 | 4 => Some 3 | _ => Some 0 end.
Lemma packet_filter_list_spec_witness :
  packet_filter_list 6 (fun _ => "") demo_parent 1 2 = Ok [mkConfig "" true 3; mkConfig "" true 4] /\
  exists types, packet_filter_list 6 (fun _ => "") demo_parent 1 2 = Ok (map (fun t => mkConfig "" true t) types).
Proof.
  split; [reflexivity|].
  destruct (packet_filter_list_spec 6 (fun _ => "") demo_parent 1 2 (fun t => t)) as (types & E & _).
  - intros [|[|[|[|[|t]]]]] p; cbn; intros [= <-]; lia.
  - by exists types.
Defined.

(** After each event of the window the simulator has the options that the window shows, and the events
    neither add nor remove types. *)
Theorem capture_options_follow (l : list TypeIdConfig) (events : list filter_event) :
  let w := foldl handle (open_last_packets l) events in
  options w = Some (mkCapture
    (if op_AND_active w then PACKET_CAPTURE_FILTER_HEADERS_AND else PACKET_CAPTURE_FILTER_HEADERS_OR) 100
    (map typeid (filter (fun c => is_selected c = true) (filter_list w)))) /\
  map typeid (filter_list w) = map typeid l.
Proof.
  induction events as [|e events IH] using rev_ind; [done|]. cbv zeta in *. rewrite foldl_app.
  set (w := foldl handle (open_last_packets l) events) in *. destruct IH as [IH1 IH2]. destruct e as [| |i b|b]; cbn.
  - split; [done|]. by rewrite map_map.
  - split; [done|]. by rewrite map_map.
  - split; [done|]. rewrite <- IH2. change (map typeid ?x) with (typeid <$> x). apply list_eq. intros j.
    rewrite !list_lookup_fmap. destruct (decide (j = i)) as [->|Hne].
    + rewrite list_lookup_alter_eq. by destruct (filter_list w !! i).
    + by rewrite list_lookup_alter_ne.
  - case_decide; done.
Qed.
