(* ===== verification/SmallTools.v ===== *)
(** * Small tools

    [src/utils/tests/TestBase.py], which runs a list of commands as tests;
    [src/src/ndnSIM/docs/redmine_issue.py], the links to issues in the documentation;
    [src/src/visualizer/visualizer/svgitem.py], the size of an icon; [src/waf-tools/relocation.py], which moves
    the tree of waf to a new directory.  The shell and docutils are parameters. *)

From S2P Require Import Prelude PyLib.
From Stdlib Require Import Ascii String QArith Lqa.
From stdpp Require Import strings.
Local Open Scope string_scope.
Local Open Scope nat_scope.
Local Open Scope list_scope.
Local Open Scope py_scope.

(** ** [TestBase.py] *)

(** [cmd.replace(sys.executable, '')] *)
Fixpoint remove_all (fuel : nat) (old s : string) : string :=
  match fuel, s with
  | S fuel, String c t =>
      if starts_with old s then remove_all fuel old (str_drop (String.length old) s) else String c (remove_all fuel old t)
  | _, _ => s
  end.
Definition without_executable (executable cmd : string) : string :=
  if decide (executable = "") then cmd else remove_all (String.length cmd) executable cmd.
Section Tests.
(** The shell, [%.2f] and [sys.executable]. *)
Context (call : string -> Z) (show_2f : Q -> string) (executable : string).
(** The variables of the loop, with the commands that were run and the lines that were printed. *)
Record progress := mkProgress {
  passed : nat; done : nat; final_return : Z; failed_cases : list string; ran : list string; printed : list string }.
Definition run_case (total : nat) (p : progress) (cmd : string) : progress :=
  let case_string := without_executable executable cmd in
  let ret := call cmd in
  let ok := bool_decide (ret = 0%Z) in
  let passed := if ok then passed p + 1 else passed p in
  {| passed := passed; done := done p + 1; final_return := if ok then final_return p else 1%Z;
     failed_cases := if ok then failed_cases p else failed_cases p ++ [case_string];
     ran := ran p ++ [cmd];
     printed := printed p ++ ["running test case: " +:+ case_string;
       "[ " +:+ show_nat passed +:+ " out of " +:+ show_nat total +:+ " ] test cases passed; Progress = " +:+
       show_2f (inject_Z (Z.of_nat (done p + 1) * 100) / inject_Z (Z.of_nat total))%Q +:+ "% "] |}.
(** [runtests], which with [-c] only lists the commands and returns nothing. *)
Definition runtests (cmds_only : bool) (cmds : list string) : option Z * progress :=
  if cmds_only then
    (None, mkProgress 0 0 0%Z [] [] ("Commands to be executed:" :: map (without_executable executable) cmds))
  else
    let p := foldl (run_case (length cmds)) (mkProgress 0 0 0%Z [] [] []) cmds in
    (Some (final_return p),
     mkProgress (passed p) (done p) (final_return p) (failed_cases p) (ran p)
       (printed p ++ if decide (final_return p = 0%Z) then ["All cases passed"] else "Failed Cases:" :: failed_cases p)).
End Tests.

(** ** [redmine_issue.py] *)

Inductive redmine_result := Problem (msg : string) | Link (text refuri : string).
Inductive redmine_exn := ConfigError.
Definition make_link_node (base : option string) (type slug : string) : res redmine_exn redmine_result :=
  match base with
  | None | Some "" => Raise ConfigError
  | Some base =>
      let slash := if ends_with_slash base then "" else "/" in
      Ok (Link ("Issue #" +:+ slug) (base +:+ slash +:+ type +:+ "/" +:+ slug +:+ "/"))
  end.
Definition invalid_issue (text : string) : redmine_result :=
  Problem ("Redmine issue number must be a number greater than or equal to 1; " +:+
    String quote (text +:+ String quote " is invalid.")).
Definition redmine_role (base : option string) (text : string) : res redmine_exn redmine_result :=
  match py_int true text with
  | Some issue_num =>
      if decide (issue_num <= 0)%Z then Ok (invalid_issue text) else make_link_node base "issues" (show_int issue_num)
  | None => Ok (invalid_issue text)
  end.

(** ** [svgitem.py] *)

Section Svg.
(** The size of the picture. *)
Context (picture_width picture_height : Q).
Record SvgItem := mkSvgItem {
  x : Q; y : Q; sx : Q; sy : Q; width : Q; height : Q; custom_width : option Q; custom_height : option Q }.
Definition new_svg_item (x y : Q) : SvgItem := mkSvgItem x y 1 1 picture_width picture_height None None.
(** [_size_changed] *)
Definition size_changed (s : SvgItem) : SvgItem :=
  match custom_width s, custom_height s with
  | None, None => mkSvgItem (x s) (y s) 1 1 picture_width picture_height None None
  | Some w, None =>
      let k := (w / picture_width)%Q in mkSvgItem (x s) (y s) k k w (picture_height * k) (Some w) None
  | None, Some h =>
      let k := (h / picture_height)%Q in mkSvgItem (x s) (y s) k k (picture_width * k) h None (Some h)
  | Some w, Some h => mkSvgItem (x s) (y s) (w / picture_width) (h / picture_height) w h (Some w) (Some h)
  end.
Inductive svg_property := PropX | PropY | PropWidth | PropHeight.
(** [do_set_property], [do_get_property] *)
Definition set_property (p : svg_property) (value : Q) (s : SvgItem) : SvgItem :=
  match p with
  | PropX => mkSvgItem value (y s) (sx s) (sy s) (width s) (height s) (custom_width s) (custom_height s)
  | PropY => mkSvgItem (x s) value (sx s) (sy s) (width s) (height s) (custom_width s) (custom_height s)
  | PropWidth => size_changed (mkSvgItem (x s) (y s) (sx s) (sy s) (width s) (height s) (Some value) (custom_height s))
  | PropHeight => size_changed (mkSvgItem (x s) (y s) (sx s) (sy s) (width s) (height s) (custom_width s) (Some value))
  end.
Definition get_property (p : svg_property) (s : SvgItem) : Q * SvgItem :=
  match p with
  | PropX => (x s, s)
  | PropY => (y s, s)
  | PropWidth =>
      (picture_width, mkSvgItem (x s) (y s) (sx s) (sy s) picture_width picture_height (custom_width s) (custom_height s))
  | PropHeight => (height s, s)
  end.
(** [do_simple_update], [do_simple_is_item_at] *)
Definition item_bounds (s : SvgItem) : Q * Q * Q * Q := (x s, y s, x s + width s, y s + height s)%Q.
Definition is_item_at (px py : Q) (s : SvgItem) : bool :=
  Qle_bool (x s) px && Qle_bool px (x s + width s) && Qle_bool (y s) py && Qle_bool py (y s + height s).
(** Where [do_simple_paint] draws the picture: its corners, moved and scaled. *)
Definition painted (s : SvgItem) : Q * Q * Q * Q :=
  (x s, y s, x s + sx s * picture_width, y s + sy s * picture_height)%Q.
End Svg.

(** ** [relocation.py] *)

(** The nodes of waf by number: the node above and the nodes below, by name. *)
Record node := mkNode { parent : option nat; children : gmap string nat }.
Abbreviation tree := (gmap nat node).
Definition node_children (n : nat) (t : tree) : gmap string nat := from_option children ∅ (t !! n).
Definition set_children (n : nat) (c : gmap string nat) (t : tree) : tree := alter (fun nd => mkNode (parent nd) c) n t.
Definition set_parent (n p : nat) (t : tree) : tree := alter (fun nd => mkNode (Some p) (children nd)) n t.
Definition move_child (srcnode : nat) (t : tree) (kv : string * nat) : tree :=
  set_parent kv.2 srcnode (set_children srcnode (<[kv.1 := kv.2]> (node_children srcnode t)) t).
(** What [init_dirs] does with the node of the old directory and the node of the new one. *)
Definition relocate (d srcnode : nat) (t : tree) : tree :=
  let t := set_children srcnode ∅ t in
  let t := foldl (move_child srcnode) t (map_to_list (node_children d t)) in
  set_children d ∅ t.
Inductive relocation_exn := WafError.
Section InitDirs.
(** [find_node] of a path, and [make_node], which may add nodes. *)
Context (find_node : string -> tree -> option nat) (make_node : string -> tree -> nat * tree).
Definition init_dirs (srcdir : option string) (top_dir out_dir : string) (t : tree) : res relocation_exn tree :=
  if negb (starts_with "/" top_dir && starts_with "/" out_dir) then Raise WafError
  else
    match srcdir with
    | None | Some "" => Ok t
    | Some srcdir =>
        match find_node srcdir t with
        | Some d =>
            if decide (srcdir <> top_dir /\ node_children d t <> ∅) then
              let '(srcnode, t) := make_node top_dir t in Ok (relocate d srcnode t)
            else Ok t
        | None => Ok t
        end
    end.
End InitDirs.

(** ** Running tests *)

Section TestFacts.
Context (call : string -> Z) (show_2f : Q -> string) (executable : string).
Definition succeeds (cmd : string) : bool := bool_decide (call cmd = 0%Z).
Lemma run_cases total cmds : forall p, let p' := foldl (run_case call show_2f executable total) p cmds in
  passed p' = passed p + length (List.filter succeeds cmds) /\ ran p' = ran p ++ cmds /\
  failed_cases p' = failed_cases p ++ map (without_executable executable) (List.filter (fun c => negb (succeeds c)) cmds) /\
  final_return p' = if forallb succeeds cmds then final_return p else 1%Z.
Proof.
  induction cmds as [|c cmds IH]; intros p; cbn; [rewrite !app_nil_r; split_and!; [lia|done..]|].
  destruct (IH (run_case call show_2f executable total p c)) as (H1 & H2 & H3 & H4). rewrite H1, H2, H3, H4.
  unfold run_case, succeeds. cbn. case_bool_decide; cbn; rewrite <- ?app_assoc; split_and!; try done; [lia|].
  by destruct (forallb _ _).
Qed.
(** All the tests are run, in order, whatever the others do; those that fail are counted out and listed, and
    the status is zero just when there is none. *)
Theorem runtests_spec (cmds : list string) :
  let '(status, p) := runtests call show_2f executable false cmds in
  status = Some (if forallb succeeds cmds then 0%Z else 1%Z) /\ ran p = cmds /\
  passed p = length (List.filter succeeds cmds) /\
  failed_cases p = map (without_executable executable) (List.filter (fun c => negb (succeeds c)) cmds) /\
  (passed p = length cmds <-> status = Some 0%Z).
Proof.
  unfold runtests. cbn [passed ran failed_cases].
  destruct (run_cases (length cmds) cmds (mkProgress 0 0 0%Z [] [] [])) as (H1 & H2 & H3 & H4).
  rewrite H1, H2, H3, H4. cbn. split_and!; try done.
  clear. induction cmds as [|c cmds IH]; [done|]. cbn. pose proof (List.filter_length_le succeeds cmds) as Hle.
  destruct (succeeds c); cbn; [rewrite <- IH; lia|]. split; [lia|done].
Qed.
End TestFacts.

(** ** Links to issues *)

(** The text of a link, and where it leads, depend on the number alone, however it is written. *)
Lemma redmine_number base text n : py_int true text = Some n -> (0 < n)%Z -> redmine_role base text = redmine_role base (show_int n).
Proof.
  intros E Hn. unfold redmine_role. rewrite E. unfold show_int at 2. rewrite bool_decide_eq_false_2 by lia.
  change ("" +:+ show_number (Z.abs_N n)) with (show_number (Z.abs_N n)). rewrite py_int_show_number.
  rewrite N2Z.inj_abs_N, Z.abs_eq, !decide_False by lia. done.
Qed.

(** ** Icons *)

Section SvgFacts.
Local Open Scope Q_scope.
Context (pw ph : Q) (Hw : 0 < pw) (Hh : 0 < ph).
Definition same_rect (a b : Q * Q * Q * Q) : Prop :=
  let '(a1, a2, a3, a4) := a in let '(b1, b2, b3, b4) := b in a1 == b1 /\ a2 == b2 /\ a3 == b3 /\ a4 == b4.
Definition scaled (s : SvgItem) : Prop := sx s * pw == width s /\ sy s * ph == height s.
Lemma size_changed_scaled s : scaled (size_changed pw ph s).
Proof. unfold scaled, size_changed. destruct (custom_width s), (custom_height s); cbn; split; field; lra. Qed.
(** However the properties of an icon are set, it is painted within the bounds that it reports, which are the
    width and the height that were set last, or in proportion if only one was. *)
Theorem svg_painted_in_bounds (x0 y0 : Q) (sets : list (svg_property * Q)) :
  let s := foldl (fun s pv => set_property pw ph pv.1 pv.2 s) (new_svg_item pw ph x0 y0) sets in
  same_rect (painted pw ph s) (item_bounds s) /\
  match custom_width s, custom_height s with
  | Some w, Some h => width s == w /\ height s == h
  | Some w, None => width s == w /\ height s * pw == w * ph
  | None, Some h => height s == h /\ width s * ph == h * pw
  | None, None => width s == pw /\ height s == ph
  end.
Proof.
  intros s. assert (H : scaled s /\ match custom_width s, custom_height s with
    | Some w, Some h => width s == w /\ height s == h
    | Some w, None => width s == w /\ height s * pw == w * ph
    | None, Some h => height s == h /\ width s * ph == h * pw
    | None, None => width s == pw /\ height s == ph
    end).
  { unfold s. induction sets as [|[p v] sets IH] using rev_ind.
    - cbn. unfold scaled. cbn. repeat split; ring.
    - rewrite foldl_app. cbn [foldl fst snd]. set (s0 := foldl _ _ sets) in *. destruct p; cbn [set_property]; try exact IH;
        (split; [apply size_changed_scaled|]); unfold size_changed; cbn;
        [destruct (custom_height s0)|destruct (custom_width s0)]; cbn; split; try reflexivity; field; lra. }
  destruct H as [[H1 H2] H3]. split; [|exact H3]. unfold same_rect, painted, item_bounds. rewrite H1, H2. repeat split; reflexivity.
Qed.
End SvgFacts.
Lemma svg_painted_in_bounds_witness : let s := set_property 40 20 PropWidth 10 (new_svg_item 40 20 0 0) in
  same_rect (painted 40 20 s) (item_bounds s) /\ (height s == 5)%Q.
Proof.
  destruct (svg_painted_in_bounds 40 20 eq_refl eq_refl 0 0 [(PropWidth, 10%Q)]) as [H _].
  split; [exact H|reflexivity].
Defined.
(** Reading the width makes the item forget its size, but not its scale. *)
Lemma reading_width_resizes : let s := (get_property 40 20 PropWidth (set_property 40 20 PropWidth 10 (new_svg_item 40 20 0 0))).2 in
  (painted 40 20 s, item_bounds s) = ((0, 0, 0 + (10 / 40) * 40, 0 + (10 / 40) * 20), (0, 0, 0 + 40, 0 + 20))%Q.
Proof. reflexivity. Qed.

(** ** Moving the tree *)

Lemma node_children_alter (f : node -> node) n m t : (forall nd, children (f nd) = children nd) ->
  node_children m (alter f n t) = node_children m t.
Proof.
  intros Hf. unfold node_children. destruct (decide (m = n)) as [->|Hne]; [|by rewrite lookup_alter_ne].
  rewrite lookup_alter_eq. destruct (t !! n); [apply Hf|done].
Qed.
Lemma node_children_set n c m t : is_Some (t !! n) ->
  node_children m (set_children n c t) = if decide (m = n) then c else node_children m t.
Proof.
  intros [nd Hn]. unfold node_children, set_children. case_decide as E; [subst m; by rewrite lookup_alter_eq, Hn|].
  by rewrite lookup_alter_ne.
Qed.
Lemma parent_set_children n c m t : parent <$> set_children n c t !! m = parent <$> t !! m.
Proof.
  unfold set_children. destruct (decide (m = n)) as [->|Hne]; [|by rewrite lookup_alter_ne].
  rewrite lookup_alter_eq. by destruct (t !! n).
Qed.
Lemma set_children_some n c m t : is_Some (set_children n c t !! m) <-> is_Some (t !! m).
Proof. unfold set_children. by rewrite lookup_alter_is_Some. Qed.

Section Move.
Context (d srcnode : nat) (Hds : d <> srcnode).
Lemma move_children (l : list (string * nat)) : forall t, is_Some (t !! srcnode) -> NoDup l.*1 ->
  (forall k, k ∈ l.*1 -> node_children srcnode t !! k = None) ->
  let t' := foldl (move_child srcnode) t l in
  (forall n, is_Some (t' !! n) <-> is_Some (t !! n)) /\
  node_children srcnode t' = list_to_map l ∪ node_children srcnode t /\
  (forall n, n <> srcnode -> node_children n t' = node_children n t) /\
  forall n, parent <$> t' !! n = if decide (n ∈ l.*2) then (fun _ => Some srcnode) <$> t !! n else parent <$> t !! n.
Proof.
  induction l as [|[k v] l IH]; intros t Hs Hnd Hk.
  { cbn. split; [done|]. split; [by rewrite (left_id_L ∅ (∪))|]. split; [done|]. done. }
  cbn [foldl]. apply NoDup_cons in Hnd as [Hkl Hnd].
  assert (Hs1 : forall n, is_Some (move_child srcnode t (k, v) !! n) <-> is_Some (t !! n)).
  { intros n. unfold move_child, set_parent. by rewrite lookup_alter_is_Some, set_children_some. }
  assert (Hc1 : forall n, node_children n (move_child srcnode t (k, v)) =
    if decide (n = srcnode) then <[k := v]> (node_children srcnode t) else node_children n t).
  { intros n. unfold move_child, set_parent. cbn. rewrite node_children_alter by done. by rewrite node_children_set. }
  destruct (IH (move_child srcnode t (k, v))) as (I1 & I2 & I3 & I4); [by apply Hs1|done| |].
  { intros j Hj. rewrite Hc1, decide_True, lookup_insert_ne; [apply Hk; by right| |done]. intros ->. done. }
  split; [intros n; by rewrite I1|]. split; [|split].
  - rewrite I2, Hc1, decide_True by done. cbn. rewrite <- insert_union_l, insert_union_r; [done|].
    apply not_elem_of_list_to_map. done.
  - intros n Hn. by rewrite I3, Hc1, decide_False.
  - intros n. rewrite I4. cbn. unfold move_child, set_parent. cbn.
    destruct (decide (n = v)) as [->|Hne].
    + rewrite lookup_alter_eq, (decide_True (P := v ∈ v :: l.*2)) by by left.
      assert (E := parent_set_children srcnode (<[k := v]> (node_children srcnode t)) v t).
      destruct (set_children _ _ t !! v) as [nd|] eqn:E1, (t !! v) as [nd'|] eqn:E2; cbn in *; try done; by case_decide.
    + rewrite lookup_alter_ne by done. rewrite parent_set_children.
      assert (E3 : is_Some (set_children srcnode (<[k := v]> (node_children srcnode t)) t !! n) <-> is_Some (t !! n))
        by apply set_children_some.
      destruct (decide (n ∈ l.*2)) as [Hin|Hin].
      * rewrite decide_True by by right.
        destruct (set_children _ _ t !! n), (t !! n); cbn; try done; [destruct (proj1 E3)|destruct (proj2 E3)]; by eauto.
      * rewrite decide_False; [done|]. by intros [?|?]%elem_of_cons.
Qed.
(** relocating a project moves everything below the old directory below the new one, and nothing else. *)
Theorem relocate_moves (t : tree) (Hd : is_Some (t !! d)) (Hs : is_Some (t !! srcnode))
    (Hout : forall k, node_children d t !! k <> Some srcnode) :
  let t' := relocate d srcnode t in
  node_children srcnode t' = node_children d t /\ node_children d t' = ∅ /\
  (forall n, n <> d -> n <> srcnode -> node_children n t' = node_children n t) /\
  (forall k n, node_children d t !! k = Some n -> is_Some (t !! n) -> parent <$> t' !! n = Some (Some srcnode)) /\
  (forall n, (forall k, node_children d t !! k <> Some n) -> parent <$> t' !! n = parent <$> t !! n) /\
  parent <$> t' !! srcnode = parent <$> t !! srcnode.
Proof.
  unfold relocate. set (t1 := set_children srcnode ∅ t).
  assert (Ed : node_children d t1 = node_children d t) by (unfold t1; by rewrite node_children_set, decide_False).
  assert (Es : node_children srcnode t1 = ∅) by (unfold t1; by rewrite node_children_set, decide_True).
  rewrite Ed. set (l := map_to_list (node_children d t)).
  destruct (move_children l t1) as (H1 & H2 & H3 & H4).
  { by apply set_children_some. } { apply NoDup_fst_map_to_list. } { intros k _. by rewrite Es. }
  cbv zeta in *. set (t2 := foldl (move_child srcnode) t1 l) in *.
  assert (Hd2 : is_Some (t2 !! d)) by (by apply H1, set_children_some).
  assert (Hl : forall n, n ∈ l.*2 <-> exists k, node_children d t !! k = Some n).
  { intros n. unfold l. rewrite list_elem_of_fmap. split.
    - intros ([k m] & -> & Hkm%elem_of_map_to_list). by exists k.
    - intros [k Hkn]. exists (k, n). split; [done|]. by apply elem_of_map_to_list. }
  split; [|split; [|split; [|split; [|split]]]].
  - rewrite node_children_set, decide_False, H2, Es by done. rewrite (right_id_L ∅ (∪)). apply list_to_map_to_list.
  - by rewrite node_children_set, decide_True.
  - intros n Hnd Hns. rewrite node_children_set, decide_False, H3 by done. unfold t1. by rewrite node_children_set, decide_False.
  - intros k n Hkn [nd Hn]. rewrite parent_set_children, H4, decide_True by (apply Hl; by exists k).
    destruct (proj2 (set_children_some srcnode ∅ n t)) as [nd1 E1]; [by exists nd|]. fold t1 in E1. by rewrite E1.
  - intros n Hn. rewrite parent_set_children, H4, decide_False by (intros [k Hk]%Hl; by eapply Hn).
    unfold t1. by rewrite parent_set_children.
  - rewrite parent_set_children, H4, decide_False by (intros [k Hk]%Hl; by eapply Hout).
    unfold t1. by rewrite parent_set_children.
Qed.
End Move.
(** The root, with an old directory that has one file, and a new directory. *)
Definition demo_tree : tree :=
  <[0 := mkNode None (<["old" := 1]> (<["new" := 2]> ∅))]> (<[1 := mkNode (Some 0) (<["f" := 3]> ∅)]>
  (<[2 := mkNode (Some 0) ∅]> (<[3 := mkNode (Some 1) ∅]> ∅))).
Lemma relocate_moves_witness : node_children 2 (relocate 1 2 demo_tree) = node_children 1 demo_tree /\
  parent <$> relocate 1 2 demo_tree !! 3 = Some (Some 2).
Proof.
  destruct (relocate_moves 1 2 ltac:(done) demo_tree) as (H & _ & _ & Hp & _); [by eexists|by eexists| |].
  - intros k. change (node_children 1 demo_tree) with (<["f" := 3]> (∅ : gmap string nat)).
    destruct (decide (k = "f")) as [->|Hne]; [by rewrite lookup_insert_eq|by rewrite lookup_insert_ne].
  - split; [exact H|]. apply (Hp "f"); [reflexivity|by eexists].
Defined.
(** A project that moves into a directory below its old one becomes its own parent. *)
Lemma relocate_below : let t := <[0 := mkNode None (<["old" := 1]> ∅)]> (<[1 := mkNode (Some 0) (<["sub" := 2]> ∅)]>
    (<[2 := mkNode (Some 1) ∅]> ∅)) in
  relocate 1 2 t !! 2 = Some (mkNode (Some 2) (<["sub" := 2]> ∅)).
Proof. reflexivity. Qed.
