(* ===== verification/VizWindow.v ===== *)
(** * The window of the visualizer: [src/src/visualizer/visualizer/core.py]

    What the canvas shows: panning with the middle button, the zoom, [center_on_node], the node that is
    followed, [autoscale_view]; then the tooltips and [_take_screenshot].  [Toolkit] is the interface
    to Gtk and GooCanvas, with what their documentation promises in [ToolkitLaws]; [plain] is
    a canvas that has these laws.  The registry of [VizGraph] is a part of the window. *)

From S2P Require Import Prelude State PyLib Rationals VizCanvas VizGraph.
From Stdlib Require Import QArith Qminmax Lqa Setoid.
From stdpp Require Import strings.
Local Open Scope nat_scope.
Local Open Scope list_scope.
Local Open Scope py_scope.

(** ** Gtk and GooCanvas *)

(** [Gtk.Adjustment] *)
Record adjustment := mkAdj { value : Q; lower : Q; upper : Q; page_size : Q }.
Abbreviation box := (Q * Q * Q * Q)%type.
(** A canvas in its scrolled window, whose state is [S]. *)
Class Toolkit (S : Type) := {
  set_value : adjustment -> Q -> adjustment;
  hadjustment : S -> adjustment;
  vadjustment : S -> adjustment;
  put_hadjustment : adjustment -> S -> S;
  put_vadjustment : adjustment -> S -> S;
  scale : S -> Q;
  set_scale : Q -> S -> S;
  set_canvas_bounds : box -> S -> S;
  convert_to_pixels : S -> point -> point;
  convert_from_pixels : S -> point -> point;
  scroll_to : point -> S -> S }.

(** Points with the same coordinates. *)
Definition same (p q : point) : Prop := p.1 == q.1 /\ p.2 == q.2.
#[export] Instance same_equivalence : Equivalence same.
Proof. unfold same. split; [intros p|intros p q []|intros p q r [] []]; split; by try (etransitivity; eassumption). Qed.
Infix "=~" := same (at level 70) : py_scope.
#[export] Instance pair_same : Proper (Qeq ==> Qeq ==> same) (@pair Q Q).
Proof. intros x x' Hx y y' Hy. by split. Qed.
#[export] Instance fst_same : Proper (same ==> Qeq) fst.
Proof. by intros p q [H H']. Qed.
#[export] Instance snd_same : Proper (same ==> Qeq) snd.
Proof. by intros p q [H H']. Qed.

(** The values that an adjustment can take. *)
Definition attainable (a : adjustment) (x : Q) : Prop := (lower a <= x <= upper a - page_size a)%Q.
(** Same limits and page. *)
Definition same_range (a b : adjustment) : Prop :=
  (lower a == lower b /\ upper a == upper b /\ page_size a == page_size b)%Q.

Local Open Scope Q_scope.
Class ToolkitLaws (S : Type) `{!Toolkit S} := {
  set_value_range a x : same_range (set_value a x) a;
  set_value_attained a x : attainable a x -> value (set_value a x) == x;
  set_value_bounds a x : lower a <= upper a - page_size a -> attainable a (value (set_value a x));
  put_h a s : hadjustment (put_hadjustment a s) = a /\ vadjustment (put_hadjustment a s) = vadjustment s /\
    scale (put_hadjustment a s) = scale s /\
    forall p, convert_to_pixels (put_hadjustment a s) p = convert_to_pixels s p;
  put_v a s : vadjustment (put_vadjustment a s) = a /\ hadjustment (put_vadjustment a s) = hadjustment s /\
    scale (put_vadjustment a s) = scale s /\
    forall p, convert_to_pixels (put_vadjustment a s) p = convert_to_pixels s p;
  set_scale_scale x s : scale (set_scale x s) = x;
  set_scale_pages x s : page_size (hadjustment (set_scale x s)) == page_size (hadjustment s) /\
    page_size (vadjustment (set_scale x s)) == page_size (vadjustment s);
  bounds_scale b s : scale (set_canvas_bounds b s) = scale s;
  pixels_distance s p q :
    (convert_to_pixels s p).1 - (convert_to_pixels s q).1 == scale s * (p.1 - q.1) /\
    (convert_to_pixels s p).2 - (convert_to_pixels s q).2 == scale s * (p.2 - q.2);
  to_from_pixels s p : ~ scale s == 0 -> convert_to_pixels s (convert_from_pixels s p) =~ p;
  scroll_to_range p s : same_range (hadjustment (scroll_to p s)) (hadjustment s) /\
    same_range (vadjustment (scroll_to p s)) (vadjustment s) /\ scale (scroll_to p s) = scale s /\
    forall q, convert_to_pixels (scroll_to p s) q = convert_to_pixels s q;
  scroll_to_attained p s : attainable (hadjustment s) (convert_to_pixels s p).1 ->
    attainable (vadjustment s) (convert_to_pixels s p).2 ->
    (value (hadjustment (scroll_to p s)), value (vadjustment (scroll_to p s))) =~ convert_to_pixels s p }.
Local Close Scope Q_scope.

(** ** The window *)

Inductive window_exn := AssertionError | KeyError (n : nat) | TypeError.
(** [_PanningState]; the cursor of the canvas is a fleur between [_begin_panning] and [_end_panning]. *)
Record PanningState := mkPan { initial_mouse_pos : point; initial_canvas_pos : point; motion_signal : nat }.
(** [handlers] are the handlers of [motion-notify-event] of the canvas, in the order of their
    connection; [tracebacks] counts the exceptions of handlers, which Gtk prints. *)
Record window (S : Type) := mkWindow {
  screen : S; vis : visualizer; zoom : adjustment; panning_state : option PanningState; fleur : bool;
  handlers : list nat; next_handler : nat; follow_node : option nat; tracebacks : nat }.
Arguments mkWindow {_}. Arguments screen {_}. Arguments vis {_}. Arguments zoom {_}.
Arguments panning_state {_}. Arguments fleur {_}. Arguments handlers {_}. Arguments next_handler {_}.
Arguments follow_node {_}. Arguments tracebacks {_}.

Section Window.
Context {S : Type} `{!Toolkit S}.
Implicit Types (w : window S) (s : S) (p : point).

Definition on_screen (f : S -> S) w : window S :=
  mkWindow (f (screen w)) (vis w) (zoom w) (panning_state w) (fleur w) (handlers w) (next_handler w)
    (follow_node w) (tracebacks w).
Definition put_vis (v : visualizer) w : window S :=
  mkWindow (screen w) v (zoom w) (panning_state w) (fleur w) (handlers w) (next_handler w)
    (follow_node w) (tracebacks w).
Definition put_zoom (a : adjustment) w : window S :=
  mkWindow (screen w) (vis w) a (panning_state w) (fleur w) (handlers w) (next_handler w)
    (follow_node w) (tracebacks w).
Definition print_traceback w : window S :=
  mkWindow (screen w) (vis w) (zoom w) (panning_state w) (fleur w) (handlers w) (next_handler w)
    (follow_node w) (Datatypes.S (tracebacks w)).

(** [hadj.set_value], [vadj.set_value]: the two of them together. *)
Definition scroll (p : point) s : S :=
  let s := put_hadjustment (set_value (hadjustment s) p.1) s in
  put_vadjustment (set_value (vadjustment s) p.2) s.
Definition scroll_values s : point := (value (hadjustment s), value (vadjustment s)).

(** [_begin_panning], [_end_panning] *)
Definition begin_panning (pointer : point) w : window S :=
  mkWindow (screen w) (vis w) (zoom w)
    (Some (mkPan pointer (scroll_values (screen w)) (next_handler w))) true
    (handlers w ++ [next_handler w]) (Datatypes.S (next_handler w)) (follow_node w) (tracebacks w).
Definition end_panning w : window S :=
  match panning_state w with
  | None => w
  | Some st =>
      mkWindow (screen w) (vis w) (zoom w) None false (filter (fun i => i <> motion_signal st) (handlers w))
        (next_handler w) (follow_node w) (tracebacks w)
  end.
(** A motion: the position in the event and that of the device, which a hint makes the handler ask. *)
Record motion := mkMotion { is_hint : bool; event_pos : point; device_pos : point }.
Definition motion_point (m : motion) : point := if is_hint m then device_pos m else event_pos m.
(** [_panning_motion] *)
Definition panning_motion (m : motion) : st (window S) window_exn bool := fun w =>
  match panning_state w with
  | None => (Raise AssertionError, w)
  | Some st =>
      let '(x, y) := motion_point m in
      let dx := (x - (initial_mouse_pos st).1)%Q in
      let dy := (y - (initial_mouse_pos st).2)%Q in
      (Ok true, on_screen (scroll ((initial_canvas_pos st).1 - dx, (initial_canvas_pos st).2 - dy)%Q) w)
  end.
(** The emission of a signal: a handler that returns true ends it, one that raises does not. *)
Fixpoint emit (f : st (window S) window_exn bool) (hs : list nat) w : window S :=
  match hs with
  | [] => w
  | _ :: hs =>
      match f w with
      | (Ok true, w) => w
      | (Ok false, w) => emit f hs w
      | (_, w) => emit f hs (print_traceback w)
      end
  end.
(** [_canvas_button_press], [_canvas_button_release] *)
Definition canvas_button_press (button : nat) (pointer : point) w : bool * window S :=
  if (button =? 2)%nat then (true, begin_panning pointer w) else (false, w).
Definition canvas_button_release (button : nat) w : bool * window S :=
  if (button =? 2)%nat then (true, end_panning w) else (false, w).

(** [zoom.set_value]: [_zoom_changed] runs when the value has changed. *)
Definition set_zoom (x : Q) w : window S :=
  let a := set_value (zoom w) x in
  if Qeq_bool (value a) (value (zoom w)) then w else on_screen (set_scale (value a)) (put_zoom a w).
Inductive scroll_direction := UP | DOWN | OTHER_DIRECTION.
(** [_canvas_scroll_event] *)
Definition canvas_scroll_event (d : scroll_direction) w : bool * window S :=
  match d with
  | UP => (true, set_zoom (value (zoom w) * (5 # 4)) w)
  | DOWN => (true, set_zoom (value (zoom w) / (5 # 4)) w)
  | OTHER_DIRECTION => (false, w)
  end.

(** *** Nodes in the window *)

(** The scrolling that puts a point in the middle. *)
Definition center_view (p : point) w : window S :=
  let s := screen w in
  let px := convert_to_pixels s p in
  on_screen (scroll (px.1 - page_size (hadjustment s) / 2, px.2 - page_size (vadjustment s) / 2)%Q) w.
(** What [center_on_node] and [set_follow_node] take. *)
Inductive node_arg := Ns3Node (id : nat) | Index (i : nat) | VizNode (n : nat) | OtherObject.
#[export] Instance node_arg_eq_dec : EqDecision node_arg.
Proof. solve_decision. Defined.
Definition known_node (i : nat) w : res window_exn nat :=
  match nodes (cv (vis w)) !! i with Some _ => Ok i | None => Raise (KeyError i) end.
(** [center_on_node] *)
Definition center_on_node (a : node_arg) : st (window S) window_exn unit := fun w =>
  match (match a with
         | Ns3Node i | Index i => known_node i w
         | VizNode n => Ok n
         | OtherObject => Raise TypeError
         end) with
  | Ok n => (Ok tt, center_view (position (NodeEnd n) (cv (vis w))) w)
  | Raise e => (Raise e, w)
  | OutOfFuel => (OutOfFuel, w)
  end.
(** [set_follow_node] with a node of ns-3, a node of the visualizer or [None].  Any other object is kept
    too, but no node is that object. *)
Definition put_follow (n : option nat) w : window S :=
  mkWindow (screen w) (vis w) (zoom w) (panning_state w) (fleur w) (handlers w) (next_handler w)
    n (tracebacks w).
Definition set_follow_node (a : option node_arg) : st (window S) window_exn unit := fun w =>
  match a with
  | Some (Ns3Node i) =>
      match known_node i w with
      | Ok n => (Ok tt, put_follow (Some n) w)
      | Raise e => (Raise e, w)
      | OutOfFuel => (OutOfFuel, w)
      end
  | Some (VizNode n) => (Ok tt, put_follow (Some n) w)
  | _ => (Ok tt, put_follow None w)
  end.

(** The end of [Node.set_position]: new bounds reach the canvas. *)
Definition same_box (a b : box) : bool :=
  let '(x1, y1, x2, y2) := a in
  let '(x1', y1', x2', y2') := b in
  Qeq_bool x1 x1' && Qeq_bool y1 y1' && Qeq_bool x2 x2' && Qeq_bool y2 y2'.
Definition rebound (old new : option box) s : S :=
  match old, new with
  | Some a, Some b => if same_box a b then s else set_canvas_bounds b s
  | _, _ => s
  end.
(** The body of the loop of [_update_node_positions]. *)
Definition update_position w (n : nat) : window S :=
  match mobility (vis w) !! n with
  | None => w
  | Some pos =>
      let p := transform_point_simulation_to_canvas pos in
      let v := on_canvas (set_position n p) (vis w) in
      let w := on_screen (rebound (bounds (cv (vis w))) (bounds (cv v))) (put_vis v w) in
      if decide (follow_node w = Some n) then center_view p w else w
  end.
(** [_update_node_positions] *)
Definition update_positions `{!DictOrder nat} w : window S :=
  foldl update_position w (dict_keys (nodes (cv (vis w)))).

(** [autoscale_view] *)
Fixpoint q_min (x : Q) (l : list Q) : Q := match l with [] => x | y :: l => q_min (py_min x y) l end.
Fixpoint q_max (x : Q) (l : list Q) : Q := match l with [] => x | y :: l => q_max (py_max x y) l end.
Definition node_positions `{!DictOrder nat} w : list point :=
  (fun n => position (NodeEnd n) (cv (vis w))) <$> dict_keys (nodes (cv (vis w))).
Definition corners (q : point) (l : list point) : point * point :=
  ((q_min q.1 l.*1, q_min q.2 l.*2), (q_max q.1 l.*1, q_max q.2 l.*2)).
(** The zoom that is asked for, and then the point that is put at the top left. *)
Definition fit_zoom (c1 c2 : point) w : Q :=
  let px1 := convert_to_pixels (screen w) c1 in
  let px2 := convert_to_pixels (screen w) c2 in
  py_min (page_size (hadjustment (screen w)) / (3 / 2 * (px2.1 - px1.1)))
         (page_size (vadjustment (screen w)) / (3 / 2 * (px2.2 - px1.2))).
Definition fit_corner (c1 c2 : point) w : point :=
  let h := hadjustment (screen w) in
  let v := vadjustment (screen w) in
  let p1 := convert_from_pixels (screen w) (value h, value v) in
  let p2 := convert_from_pixels (screen w) (value h + page_size h, value v + page_size v)%Q in
  ((c1.1 + c2.1) / 2 - (p2.1 - p1.1) / 2, (c1.2 + c2.2) / 2 - (p2.2 - p1.2) / 2)%Q.
Definition fit_view (c1 c2 : point) w : window S :=
  let px1 := convert_to_pixels (screen w) c1 in
  let px2 := convert_to_pixels (screen w) c2 in
  if Qeq_bool (3 / 2 * (px2.1 - px1.1)) 0 || Qeq_bool (3 / 2 * (px2.2 - px1.2)) 0 then w
  else
    let w := set_zoom (fit_zoom c1 c2 w) w in
    on_screen (scroll_to (fit_corner c1 c2 w)) w.
Definition autoscale_view `{!DictOrder nat} w : window S :=
  match dict_keys (nodes (cv (vis w))) with
  | [] => w
  | _ :: _ =>
      let w := update_positions w in
      match node_positions w with
      | [] => w
      | q :: l => fit_view (corners q l).1 (corners q l).2 w
      end
  end.

(** ** Events *)

Inductive event :=
  | Press (button : nat) (pointer : point) | Release (button : nat) | Move (m : motion)
  | Scroll (d : scroll_direction) | Zoom (x : Q) | ScrollTo (p : point) | Tick
  | Follow (a : option node_arg) | Center (a : node_arg) | Autoscale.
Definition handle `{!DictOrder nat} w (e : event) : window S :=
  match e with
  | Press b p => (canvas_button_press b p w).2
  | Release b => (canvas_button_release b w).2
  | Move m => emit (panning_motion m) (handlers w) w
  | Scroll d => (canvas_scroll_event d w).2
  | Zoom x => set_zoom x w
  | ScrollTo p => on_screen (scroll p) w
  | Tick => update_positions w
  | Follow a => (set_follow_node a w).2
  | Center a => (center_on_node a w).2
  | Autoscale => autoscale_view w
  end.
(** [create_gui] has called [_zoom_changed]. *)
Definition initial_zoom : adjustment := mkAdj 1 (1 # 100) 10 1.
Definition new_window s (v : visualizer) : window S :=
  mkWindow (set_scale (value initial_zoom) s) v initial_zoom None false [] 0 None 0.
(** The middle button goes down while it is down. *)
Definition leaks w (e : event) : Prop :=
  match e with Press b _ => b = 2 /\ is_Some (panning_state w) | _ => False end.
Fixpoint no_leak `{!DictOrder nat} w (es : list event) : Prop :=
  match es with [] => True | e :: es => ~ leaks w e /\ no_leak (handle w e) es end.

(** ** Lemmas *)

Context `{!ToolkitLaws S}.

Lemma scroll_frame p s : scale (scroll p s) = scale s /\
  (forall q, convert_to_pixels (scroll p s) q = convert_to_pixels s q) /\
  same_range (hadjustment (scroll p s)) (hadjustment s) /\ same_range (vadjustment (scroll p s)) (vadjustment s).
Proof.
  unfold scroll. set (s1 := put_hadjustment _ s).
  destruct (put_h (set_value (hadjustment s) p.1) s) as (Hh & Hv & Hs & Hp). fold s1 in Hh, Hv, Hs, Hp.
  destruct (put_v (set_value (vadjustment s1) p.2) s1) as (Hv' & Hh' & Hs' & Hp').
  split; [by rewrite Hs', Hs|]. split; [intros q; by rewrite Hp', Hp|].
  rewrite Hh', Hh, Hv', Hv. split; apply set_value_range.
Qed.

(** Scrolling to where the adjustments can go. *)
Lemma scroll_attained p s : attainable (hadjustment s) p.1 -> attainable (vadjustment s) p.2 ->
  scroll_values (scroll p s) =~ p.
Proof.
  intros H1 H2. unfold scroll, scroll_values. set (s1 := put_hadjustment _ s).
  destruct (put_h (set_value (hadjustment s) p.1) s) as (Hh & Hv & _). fold s1 in Hh, Hv.
  destruct (put_v (set_value (vadjustment s1) p.2) s1) as (Hv' & Hh' & _).
  rewrite Hh', Hh, Hv', Hv. by split; cbn; apply set_value_attained.
Qed.

Lemma attainable_range x a b : same_range a b -> attainable b x -> attainable a x.
Proof. intros (Hl & Hu & Hp) [H1 H2]. unfold attainable. split; lra. Qed.

Lemma emit_panning m w i hs st : panning_state w = Some st -> handlers w = i :: hs ->
  emit (panning_motion m) (handlers w) w =
  on_screen (scroll ((initial_canvas_pos st).1 - ((motion_point m).1 - (initial_mouse_pos st).1),
                     (initial_canvas_pos st).2 - ((motion_point m).2 - (initial_mouse_pos st).2))%Q) w.
Proof. intros Hp Hh. rewrite Hh. cbn. unfold panning_motion. rewrite Hp. by destruct (motion_point m). Qed.

(** Motions while the canvas is being moved. *)
Lemma motions_pan ms : forall w i st, panning_state w = Some st -> handlers w = [i] ->
  let w1 := foldl (fun w m => emit (panning_motion m) (handlers w) w) w ms in
  panning_state w1 = Some st /\ handlers w1 = [i] /\ tracebacks w1 = tracebacks w /\ vis w1 = vis w /\
  (forall q, convert_to_pixels (screen w1) q = convert_to_pixels (screen w) q) /\
  same_range (hadjustment (screen w1)) (hadjustment (screen w)) /\
  same_range (vadjustment (screen w1)) (vadjustment (screen w)).
Proof.
  induction ms as [|m ms IH]; intros w i st Hp Hh; cbn; [by repeat split|].
  rewrite (emit_panning m w i [] st) by done. set (w0 := on_screen _ w).
  destruct (IH w0 i st) as (H1 & H2 & H3 & H4 & H5 & H6 & H7); [done..|].
  destruct (scroll_frame ((initial_canvas_pos st).1 - ((motion_point m).1 - (initial_mouse_pos st).1),
    (initial_canvas_pos st).2 - ((motion_point m).2 - (initial_mouse_pos st).2))%Q (screen w)) as (_ & G2 & G3 & G4).
  split; [done|]. split; [done|]. split; [done|]. split; [done|].
  split; [intros q; rewrite H5; apply G2|]. unfold same_range in *.
  split; repeat split; etransitivity; try apply H6; try apply H7; try apply G3; apply G4.
Qed.

Lemma foldl_moves `{!DictOrder nat} ms w : foldl handle w (Move <$> ms) =
  foldl (fun w m => emit (panning_motion m) (handlers w) w) w ms.
Proof. revert w. induction ms as [|m ms IH]; intros w; cbn; [done|apply IH]. Qed.

(** While the middle button is down the point of the canvas under the pointer stays under it: after any
    motions, the last of them to where the adjustments can go, the pixel of the canvas under the
    pointer is the one that was under it when the button went down, and the pixels of the points of the
    canvas are the same; the release leaves no handler and no state. *)
Theorem pan_spec `{!DictOrder nat} w p ms m :
  panning_state w = None -> handlers w = [] ->
  let pressed := (canvas_button_press 2 p w).2 in
  let moved := foldl handle pressed (Move <$> ms ++ [m]) in
  attainable (hadjustment (screen w)) (value (hadjustment (screen w)) - ((motion_point m).1 - p.1)) ->
  attainable (vadjustment (screen w)) (value (vadjustment (screen w)) - ((motion_point m).2 - p.2)) ->
  (value (hadjustment (screen moved)) + (motion_point m).1 == value (hadjustment (screen w)) + p.1)%Q /\
  (value (vadjustment (screen moved)) + (motion_point m).2 == value (vadjustment (screen w)) + p.2)%Q /\
  (forall q, convert_to_pixels (screen moved) q = convert_to_pixels (screen w) q) /\
  tracebacks moved = tracebacks w /\
  let released := (canvas_button_release 2 moved).2 in
  screen released = screen moved /\ panning_state released = None /\ handlers released = [] /\ ~ fleur released.
Proof.
  intros Hp Hh pressed moved Ha1 Ha2.
  assert (Hpr : panning_state pressed = Some (mkPan p (scroll_values (screen w)) (next_handler w)) /\
    handlers pressed = [next_handler w]) by (unfold pressed; cbn; by rewrite Hh).
  destruct Hpr as [Hs Hi]. subst moved. rewrite fmap_app, foldl_app, !foldl_moves.
  destruct (motions_pan ms pressed _ _ Hs Hi) as (M1 & M2 & M3 & _ & M5 & M6 & M7).
  destruct (motions_pan [m] _ _ _ M1 M2) as (N1 & N2 & N3 & _ & N5 & _ & _).
  set (w1 := foldl _ pressed ms) in *. set (w2 := foldl _ w1 [m]) in *.
  assert (Hv : scroll_values (screen w2) =~ (value (hadjustment (screen w)) - ((motion_point m).1 - p.1),
    value (vadjustment (screen w)) - ((motion_point m).2 - p.2))%Q).
  { subst w2. cbn [foldl]. rewrite (emit_panning m w1 (next_handler w) [] _ M1 M2).
    apply scroll_attained; cbn; eapply attainable_range; eauto. }
  destruct Hv as [Hv1 Hv2]; cbn [fst snd scroll_values] in Hv1, Hv2. split; [lra|]. split; [lra|].
  split; [intros q; rewrite N5; apply M5|]. split; [by rewrite N3, M3|].
  clearbody w2. cbn. unfold end_panning. rewrite N1. cbn [screen panning_state handlers fleur motion_signal]. rewrite N2.
  split; [done|]. split; [done|]. split; [by rewrite filter_cons_False by auto|by destruct 1].
Qed.

(** *** What holds of the window after any events *)

(** The canvas is drawn at the zoom that is shown, and that is between 0.01 and 9. *)
Definition zoom_ok w : Prop :=
  scale (screen w) = value (zoom w) /\ same_range (zoom w) initial_zoom /\ attainable (zoom w) (value (zoom w)).
(** The handlers are distinct and that of the panning is one of them, with its cursor. *)
Definition pan_ok w : Prop :=
  NoDup (handlers w) /\ Forall (fun i => i < next_handler w) (handlers w) /\
  fleur w = bool_decide (is_Some (panning_state w)) /\
  match panning_state w with Some st => motion_signal st ∈ handlers w | None => True end.
(** No handler but that of the panning is connected, and no handler has raised. *)
Definition pan_clean w : Prop :=
  handlers w = match panning_state w with Some st => [motion_signal st] | None => [] end /\ tracebacks w = 0.

(** What panning knows of the window. *)
Definition pan_part w := (panning_state w, fleur w, handlers w, next_handler w).
Lemma pan_ok_part w w' : pan_part w' = pan_part w -> pan_ok w -> pan_ok w'.
Proof. unfold pan_ok, pan_part. intros H. injection H as -> -> -> ->. done. Qed.
Lemma pan_clean_part w w' : pan_part w' = pan_part w -> tracebacks w' = tracebacks w -> pan_clean w -> pan_clean w'.
Proof. unfold pan_clean, pan_part. intros H ->. injection H as -> _ -> _. done. Qed.
Lemma zoom_ok_on_screen f w : scale (f (screen w)) = scale (screen w) -> zoom_ok w -> zoom_ok (on_screen f w).
Proof. unfold zoom_ok. cbn. by intros ->. Qed.

(** What [Tick], [Center] and the scrolling do not change. *)
Definition keeps w w' : Prop :=
  pan_part w' = pan_part w /\ tracebacks w' = tracebacks w /\ (zoom_ok w -> zoom_ok w').
Lemma keeps_refl w : keeps w w.
Proof. unfold keeps. auto. Qed.
Lemma keeps_trans w1 w2 w3 : keeps w1 w2 -> keeps w2 w3 -> keeps w1 w3.
Proof. intros (H1 & H2 & H3) (G1 & G2 & G3). split; [congruence|]. split; [congruence|auto]. Qed.
Lemma keeps_screen f w : scale (f (screen w)) = scale (screen w) -> keeps w (on_screen f w).
Proof. intros H. split; [done|]. split; [done|]. by apply zoom_ok_on_screen. Qed.
Lemma keeps_scroll p w : keeps w (on_screen (scroll p) w).
Proof. apply keeps_screen, scroll_frame. Qed.
Lemma rebound_scale a b s : scale (rebound a b s) = scale s.
Proof. destruct a as [a|], b as [b|]; cbn; try done. destruct (same_box a b); [done|apply bounds_scale]. Qed.
Lemma keeps_update_position w n : keeps w (update_position w n).
Proof.
  unfold update_position. destruct (mobility (vis w) !! n) as [pos|]; [|apply keeps_refl].
  set (v := on_canvas _ _). set (w1 := on_screen _ (put_vis v w)).
  assert (H : keeps w w1).
  { split; [done|]. split; [done|]. apply (zoom_ok_on_screen _ (put_vis v w)), rebound_scale. }
  destruct (decide (follow_node w1 = Some n)); [|done].
  eapply keeps_trans; [apply H|apply keeps_scroll].
Qed.
Lemma keeps_update_positions `{!DictOrder nat} w : keeps w (update_positions w).
Proof.
  unfold update_positions. generalize (dict_keys (nodes (cv (vis w)))) as l. intros l. revert w.
  induction l as [|n l IH]; intros w; cbn; [apply keeps_refl|].
  eapply keeps_trans; [apply keeps_update_position|apply IH].
Qed.
Lemma keeps_set_zoom x w : keeps w (set_zoom x w).
Proof.
  unfold set_zoom. destruct (Qeq_bool _ _); [apply keeps_refl|].
  split; [done|]. split; [done|]. intros (_ & (Hl & Hu & Hp) & Ha).
  destruct (set_value_range (zoom w) x) as (Rl & Ru & Rp).
  assert (Hb : (lower (zoom w) <= upper (zoom w) - page_size (zoom w))%Q) by (unfold attainable in Ha; lra).
  apply (set_value_bounds _ x) in Hb. unfold zoom_ok. cbn. rewrite set_scale_scale. split; [done|].
  unfold same_range, attainable in *. split; [split; [lra|split; lra]|]. lra.
Qed.
Lemma keeps_center a w : keeps w (center_on_node a w).2.
Proof.
  unfold center_on_node, known_node. destruct a as [i|i|n|]; cbn; try destruct (nodes _ !! i); cbn;
    first [apply keeps_scroll|apply keeps_refl].
Qed.
Lemma keeps_follow a w : keeps w (set_follow_node a w).2.
Proof.
  unfold set_follow_node, known_node. destruct a as [[i|i|n|]|]; cbn; try destruct (nodes _ !! i); cbn;
    unfold keeps; auto.
Qed.
Lemma keeps_fit c1 c2 w : keeps w (fit_view c1 c2 w).
Proof.
  unfold fit_view. destruct (_ || _); [apply keeps_refl|].
  eapply keeps_trans; [apply keeps_set_zoom|]. apply keeps_screen, scroll_to_range.
Qed.
Lemma keeps_autoscale `{!DictOrder nat} w : keeps w (autoscale_view w).
Proof.
  unfold autoscale_view. destruct (dict_keys _); [apply keeps_refl|].
  eapply keeps_trans; [apply keeps_update_positions|].
  destruct (node_positions _); [apply keeps_refl|apply keeps_fit].
Qed.

(** The emission of a motion: every handler asks the same, so the first one that does not raise ends it. *)
Lemma emit_no_panning m hs w : panning_state w = None ->
  emit (panning_motion m) hs w = Nat.iter (length hs) print_traceback w.
Proof.
  revert w. induction hs as [|i hs IH]; intros w Hw; [done|]. cbn [emit length].
  unfold panning_motion at 1. rewrite Hw. cbn [snd]. rewrite IH by done.
  by rewrite Nat.iter_succ_r.
Qed.
Lemma iter_traceback n w : pan_part (Nat.iter n print_traceback w) = pan_part w /\
  tracebacks (Nat.iter n print_traceback w) = n + tracebacks w /\
  screen (Nat.iter n print_traceback w) = screen w /\ zoom (Nat.iter n print_traceback w) = zoom w.
Proof. induction n as [|n (H1 & H2 & H3 & H4)]; [done|]. rewrite Nat.iter_succ. cbn. by rewrite H2. Qed.
Lemma move_part m w : pan_part (emit (panning_motion m) (handlers w) w) = pan_part w /\
  (zoom_ok w -> zoom_ok (emit (panning_motion m) (handlers w) w)).
Proof.
  destruct (panning_state w) as [st|] eqn:Hp.
  - destruct (handlers w) as [|i hs] eqn:Hh; [done|]. rewrite <- Hh, (emit_panning m w i hs st) by done.
    destruct (keeps_scroll ((initial_canvas_pos st).1 - ((motion_point m).1 - (initial_mouse_pos st).1),
      (initial_canvas_pos st).2 - ((motion_point m).2 - (initial_mouse_pos st).2))%Q w) as (H1 & _ & H2). done.
  - rewrite emit_no_panning by done.
    destruct (iter_traceback (length (handlers w)) w) as (H1 & _ & H2 & H3). split; [done|].
    unfold zoom_ok. by rewrite H2, H3.
Qed.

Lemma pan_ok_begin p w : pan_ok w -> pan_ok (begin_panning p w).
Proof.
  intros (Hn & Hl & _ & _). unfold pan_ok. cbn. split.
  - apply NoDup_app. split; [done|]. split; [|apply NoDup_singleton].
    intros i Hi ->%list_elem_of_singleton. rewrite Forall_forall in Hl. specialize (Hl _ Hi). lia.
  - split; [|split; [done|set_solver]]. apply Forall_app. split; [|constructor; [lia|constructor]].
    eapply Forall_impl; [apply Hl|]. cbn. lia.
Qed.
Lemma pan_ok_end w : pan_ok w -> pan_ok (end_panning w).
Proof.
  intros (Hn & Hl & Hf & Hs). unfold end_panning. destruct (panning_state w) as [st|] eqn:Hp.
  - unfold pan_ok. cbn. split; [by apply NoDup_filter|]. split; [|done].
    rewrite Forall_forall in *. intros i Hi. apply list_elem_of_filter in Hi. apply Hl, Hi.
  - split; [done|]. split; [done|]. by rewrite Hp.
Qed.
Lemma handle_ok `{!DictOrder nat} w e : zoom_ok w -> pan_ok w -> zoom_ok (handle w e) /\ pan_ok (handle w e).
Proof.
  intros Hz Hp.
  assert (Hk : forall w', keeps w w' -> zoom_ok w' /\ pan_ok w').
  { intros w' (H1 & _ & H2). split; [auto|by eapply pan_ok_part]. }
  destruct e as [b p|b|m|d|x|p| |a|a|]; cbn.
  - unfold canvas_button_press. destruct (b =? 2); [split; [done|by apply pan_ok_begin]|done].
  - unfold canvas_button_release. destruct (b =? 2); [split; [|by apply pan_ok_end]|done].
    unfold end_panning. by destruct (panning_state w).
  - destruct (move_part m w) as [H1 H2]. split; [auto|by eapply pan_ok_part].
  - destruct d; cbn; [apply Hk, keeps_set_zoom..|done].
  - apply Hk, keeps_set_zoom.
  - apply Hk, keeps_scroll.
  - apply Hk, keeps_update_positions.
  - apply Hk, keeps_follow.
  - apply Hk, keeps_center.
  - apply Hk, keeps_autoscale.
Qed.
Lemma handle_clean `{!DictOrder nat} w e : pan_clean w -> ~ leaks w e -> pan_clean (handle w e).
Proof.
  intros Hc Hl.
  assert (Hk : forall w', keeps w w' -> pan_clean w').
  { intros w' (H1 & H2 & _). by eapply pan_clean_part. }
  destruct e as [b p|b|m|d|x|p| |a|a|]; cbn.
  - unfold canvas_button_press. cbn in Hl. destruct (Nat.eqb_spec b 2) as [->|]; [|done]. cbn.
    destruct Hc as [Hh Ht]. destruct (panning_state w) as [st|]; [destruct Hl; by eauto|].
    split; [|done]. cbn. by rewrite Hh.
  - unfold canvas_button_release. destruct (b =? 2); [|done]. cbn. unfold end_panning.
    destruct Hc as [Hh Ht]. destruct (panning_state w) as [st|] eqn:E; [|split; [by rewrite E|done]].
    split; [|done]. cbn [handlers panning_state]. rewrite Hh. by rewrite filter_cons_False by auto.
  - destruct Hc as [Hh Ht]. destruct (panning_state w) as [st|] eqn:Hp.
    + rewrite (emit_panning m w (motion_signal st) [] st) by done.
      by apply Hk, keeps_scroll.
    + rewrite emit_no_panning by done. rewrite Hh. cbn. split; [by rewrite Hp|done].
  - destruct d; cbn; [apply Hk, keeps_set_zoom..|done].
  - apply Hk, keeps_set_zoom.
  - apply Hk, keeps_scroll.
  - apply Hk, keeps_update_positions.
  - apply Hk, keeps_follow.
  - apply Hk, keeps_center.
  - apply Hk, keeps_autoscale.
Qed.

Lemma events_ok `{!DictOrder nat} es : forall w, zoom_ok w -> pan_ok w -> pan_clean w ->
  zoom_ok (foldl handle w es) /\ pan_ok (foldl handle w es) /\ (no_leak w es -> pan_clean (foldl handle w es)).
Proof.
  enough (H : forall w, zoom_ok w -> pan_ok w -> zoom_ok (foldl handle w es) /\ pan_ok (foldl handle w es) /\
    (pan_clean w -> no_leak w es -> pan_clean (foldl handle w es))).
  { intros w Hz Hp Hc. destruct (H w Hz Hp) as (H1 & H2 & H3). auto. }
  induction es as [|e es IH]; intros w Hz Hp; cbn; [auto|].
  destruct (handle_ok w e Hz Hp) as [Hz1 Hp1]. destruct (IH _ Hz1 Hp1) as (H1 & H2 & H3).
  split; [done|]. split; [done|]. intros Hc [Hl Hn]. apply H3; [by apply handle_clean|done].
Qed.

(** C38: After any events on a new window the canvas is drawn at the zoom that the button shows,
    which is between 0.01 and 9; the handlers of the motion are distinct, and that of the panning
    is one of them; and when the middle button never goes down while the canvas is being moved,
    no other handler is connected and no handler has raised. *)
Theorem window_events `{!DictOrder nat} s (v : visualizer) (es : list event) :
  let w := foldl handle (new_window s v) es in
  zoom_ok w /\ pan_ok w /\ (no_leak (new_window s v) es -> pan_clean w).
Proof.
  apply events_ok.
  - split; [apply set_scale_scale|]. split; [done|split; cbn; lra].
  - split; [constructor|]. split; [constructor|done].
  - done.
Qed.

Lemma pan_part_eq w a b c d : pan_part w = (a, b, c, d) ->
  panning_state w = a /\ fleur w = b /\ handlers w = c /\ next_handler w = d.
Proof. unfold pan_part. intros H. injection H as -> -> -> ->. done. Qed.
(** A release disconnects the handler that was connected last. *)
Lemma end_panning_last st l w : panning_state w = Some st -> handlers w = l ++ [motion_signal st] ->
  motion_signal st ∉ l ->
  pan_part (end_panning w) = (None, false, l, next_handler w) /\ tracebacks (end_panning w) = tracebacks w.
Proof.
  intros Hp Hh Hl. unfold end_panning. rewrite Hp. split; [|done]. unfold pan_part.
  cbn [panning_state fleur handlers next_handler]. rewrite Hh. do 3 f_equal.
  rewrite filter_app, (filter_cons_False _ (motion_signal st)) by auto. rewrite app_nil_r.
  clear Hh. induction l as [|i l IH]; [done|]. apply not_elem_of_cons in Hl as [Hi Hl].
  by rewrite filter_cons_True, IH by auto.
Qed.
Lemma moves_no_panning `{!DictOrder nat} ms : forall w, panning_state w = None ->
  pan_part (foldl handle w (Move <$> ms)) = pan_part w /\
  tracebacks (foldl handle w (Move <$> ms)) = tracebacks w + length (handlers w) * length ms.
Proof.
  induction ms as [|m ms IH]; intros w Hp; cbn; [split; [done|lia]|].
  rewrite emit_no_panning by done.
  destruct (iter_traceback (length (handlers w)) w) as (H1 & H2 & _).
  assert (Hp1 : panning_state (Nat.iter (length (handlers w)) print_traceback w) = None /\
    handlers (Nat.iter (length (handlers w)) print_traceback w) = handlers w) by (injection H1; intros; by split; congruence).
  destruct Hp1 as [Hp1 Hh1]. destruct (IH _ Hp1) as [G1 G2]. split; [congruence|]. rewrite G2, H2, Hh1. lia.
Qed.

(** A double click of the middle button is, for Gtk, a press, a release, a press, a press and a
    release.  The last two presses both connect a handler and the release disconnects one, so that
    every later motion with no button down is an exception in a handler and the middle button never
    again works alone: the handler left is still connected after any press, motions and release. *)
Theorem double_click_leaks `{!DictOrder nat} w p ms :
  panning_state w = None -> handlers w = [] ->
  let clicked := foldl handle w [Press 2 p; Release 2; Press 2 p; Press 2 p; Release 2] in
  handlers clicked = [Datatypes.S (next_handler w)] /\ panning_state clicked = None /\
  tracebacks (foldl handle clicked (Move <$> ms)) = tracebacks w + length ms /\
  forall q m, handlers (foldl handle clicked [Press 2 q; Move m; Release 2]) = [Datatypes.S (next_handler w)].
Proof.
  intros Hp Hh clicked. set (n := next_handler w) in *.
  set (w3 := begin_panning p (begin_panning p (end_panning (begin_panning p w)))).
  assert (Hc : clicked = end_panning w3) by done. clearbody clicked.
  destruct (end_panning_last (mkPan p (scroll_values (screen w)) n) [] (begin_panning p w)) as [E1 T1];
    [done|cbn; by rewrite Hh|set_solver|].
  apply pan_part_eq in E1 as (E1 & E2 & E3 & E4).
  change (next_handler (begin_panning p w)) with (Datatypes.S n) in E4.
  set (w2 := end_panning (begin_panning p w)) in *. clearbody w2.
  destruct (end_panning_last (mkPan p (scroll_values (screen w2)) (Datatypes.S (Datatypes.S n))) [Datatypes.S n] w3) as [E5 T5].
  { subst w3. cbn. by rewrite E4. }
  { subst w3. cbn. by rewrite E3, E4. }
  { cbn. set_solver by lia. }
  rewrite Hc. apply pan_part_eq in E5 as (E5 & E6 & E7 & E8).
  assert (T : tracebacks (end_panning w3) = tracebacks w) by (rewrite T5; subst w3; cbn; by rewrite T1).
  split; [done|]. split; [done|].
  destruct (moves_no_panning ms _ E5) as [_ M]. split; [rewrite M, T, E7; cbn; lia|].
  intros q m. set (w4 := end_panning w3) in *. cbn [foldl].
  change (handle w4 (Press 2 q)) with (begin_panning q w4).
  set (w5 := begin_panning q w4).
  change (handle (handle w5 (Move m)) (Release 2)) with (end_panning (emit (panning_motion m) (handlers w5) w5)).
  assert (H5 : handlers w5 = [Datatypes.S n] ++ [next_handler w4]) by (change (handlers w4 ++ [next_handler w4] = [Datatypes.S n; next_handler w4]); by rewrite E7).
  rewrite (emit_panning m w5 (Datatypes.S n) [next_handler w4] (mkPan q (scroll_values (screen w4)) (next_handler w4)))
    by done.
  set (w6 := on_screen _ w5).
  destruct (end_panning_last (mkPan q (scroll_values (screen w4)) (next_handler w4)) [Datatypes.S n] w6) as [H6 _];
    [done..| |by apply pan_part_eq in H6 as (_ & _ & H6 & _)].
  cbn [motion_signal]. rewrite E8. subst w3. cbn. rewrite E4. set_solver by lia.
Qed.

(** *** The nodes in the window *)

(** [center_on_node] puts the node in the middle, where the adjustments can go. *)
Lemma center_view_spec p w :
  let s := screen w in
  let w1 := center_view p w in
  let px := convert_to_pixels s p in
  attainable (hadjustment s) (px.1 - page_size (hadjustment s) / 2) ->
  attainable (vadjustment s) (px.2 - page_size (vadjustment s) / 2) ->
  convert_to_pixels (screen w1) p =~
    (value (hadjustment (screen w1)) + page_size (hadjustment (screen w1)) / 2,
     value (vadjustment (screen w1)) + page_size (vadjustment (screen w1)) / 2)%Q.
Proof.
  intros s w1 px Hh Hv. set (q := (px.1 - page_size (hadjustment s) / 2, px.2 - page_size (vadjustment s) / 2)%Q).
  assert (E : screen w1 = scroll q s) by done. rewrite E.
  destruct (scroll_frame q s) as (_ & F2 & (_ & _ & F3) & (_ & _ & F4)).
  destruct (scroll_attained q s Hh Hv) as [V1 V2]. rewrite F2.
  unfold scroll_values, q in V1, V2. cbn [fst snd] in V1, V2. fold q in V1, V2. fold px.
  split; cbn [fst snd]; [rewrite V1, F3|rewrite V2, F4]; ring.
Qed.

(** [update_position] acts on the registry as in [VizGraph]. *)
Lemma vis_update_position w n : vis (update_position w n) = update_node_position (vis w) n.
Proof.
  unfold update_position, update_node_position. destruct (mobility (vis w) !! n); [|done].
  by destruct (decide _).
Qed.
Lemma vis_update_positions `{!DictOrder nat} w : vis (update_positions w) = update_node_positions (vis w).
Proof.
  unfold update_positions, update_node_positions. generalize (dict_keys (nodes (cv (vis w)))) as l. intros l.
  revert w. induction l as [|n l IH]; intros w; cbn; [done|]. by rewrite IH, vis_update_position.
Qed.

(** The corners of some points. *)
Lemma py_min_le x y : (py_min x y <= x /\ py_min x y <= y)%Q.
Proof.
  unfold py_min. destruct (Qle_bool x y) eqn:E; [apply Qle_bool_iff in E; lra|].
  assert (H : lt_bool y x = true) by (unfold lt_bool; by rewrite E). apply lt_bool_true in H. lra.
Qed.
Lemma py_max_ge x y : (x <= py_max x y /\ y <= py_max x y)%Q.
Proof.
  unfold py_max. destruct (Qle_bool y x) eqn:E; [apply Qle_bool_iff in E; lra|].
  assert (H : lt_bool x y = true) by (unfold lt_bool; by rewrite E). apply lt_bool_true in H. lra.
Qed.
Lemma q_min_le l : forall x, Forall (fun y => q_min x l <= y)%Q (x :: l).
Proof.
  induction l as [|y l IH]; intros x; cbn; [constructor; [lra|constructor]|].
  specialize (IH (py_min x y)). apply Forall_cons in IH as [H1 H2]. destruct (py_min_le x y).
  constructor; [lra|]. constructor; [lra|done].
Qed.
Lemma q_max_ge l : forall x, Forall (fun y => y <= q_max x l)%Q (x :: l).
Proof.
  induction l as [|y l IH]; intros x; cbn; [constructor; [lra|constructor]|].
  specialize (IH (py_max x y)). apply Forall_cons in IH as [H1 H2]. destruct (py_max_ge x y).
  constructor; [lra|]. constructor; [lra|done].
Qed.
(** [p] is between two corners. *)
Definition between (c1 c2 p : point) : Prop := (c1.1 <= p.1 <= c2.1 /\ c1.2 <= p.2 <= c2.2)%Q.
Lemma corners_between q l p : p ∈ q :: l -> between (corners q l).1 (corners q l).2 p.
Proof.
  intros Hp. assert (H1 : p.1 ∈ q.1 :: l.*1) by (change (p.1 ∈ (q :: l).*1); by apply list_elem_of_fmap_2).
  assert (H2 : p.2 ∈ q.2 :: l.*2) by (change (p.2 ∈ (q :: l).*2); by apply list_elem_of_fmap_2).
  pose proof (proj1 (Forall_forall _ _) (q_min_le l.*1 q.1) _ H1).
  pose proof (proj1 (Forall_forall _ _) (q_min_le l.*2 q.2) _ H2).
  pose proof (proj1 (Forall_forall _ _) (q_max_ge l.*1 q.1) _ H1).
  pose proof (proj1 (Forall_forall _ _) (q_max_ge l.*2 q.2) _ H2).
  by repeat split.
Qed.

(** The zoom that is set is the one that is asked for, and the canvas is drawn at it. *)
Lemma set_zoom_attained x w : zoom_ok w -> attainable (zoom w) x ->
  (scale (screen (set_zoom x w)) == x)%Q /\
  (page_size (hadjustment (screen (set_zoom x w))) == page_size (hadjustment (screen w)))%Q /\
  (page_size (vadjustment (screen (set_zoom x w))) == page_size (vadjustment (screen w)))%Q.
Proof.
  intros (Hs & _) Ha. pose proof (set_value_attained _ _ Ha) as Hv. unfold set_zoom.
  destruct (Qeq_bool _ _) eqn:E.
  - apply Qeq_bool_iff in E. rewrite Hs. split; [lra|split; lra].
  - cbn. rewrite set_scale_scale. split; [done|]. apply set_scale_pages.
Qed.
(** What the canvas shows. *)
Definition in_window (p : point) s : Prop :=
  (value (hadjustment s) <= (convert_to_pixels s p).1 <= value (hadjustment s) + page_size (hadjustment s) /\
   value (vadjustment s) <= (convert_to_pixels s p).2 <= value (vadjustment s) + page_size (vadjustment s))%Q.

Lemma le_div_mult z a c : (0 < c -> z <= a / c -> z * c <= a)%Q.
Proof.
  intros Hc H. assert (E : (a / c * c == a)%Q) by (field; lra). rewrite <- E.
  apply Qmult_le_compat_r; [done|lra].
Qed.
(** One axis: what is between [a] and [b] is on a page that shows the lengths at the zoom [z], whose
    width on the canvas is [l] and whose middle is that of [a] and [b]. *)
Lemma fit_axis z k a b x l page : (0 < z -> 2 # 3 <= k -> a < b -> z * (3 / 2 * (k * (b - a))) <= page ->
  z * l == page -> a <= x <= b -> 0 <= z * (x - ((a + b) / 2 - l / 2)) <= page)%Q.
Proof.
  intros Hz Hs Hab Hp Hl [Ha Hb].
  assert (H1 : (0 <= z * (x - a))%Q) by (apply Qmult_le_0_compat; lra).
  assert (H2 : (0 <= z * (b - x))%Q) by (apply Qmult_le_0_compat; lra).
  assert (H3 : (0 <= z * ((k - (2 # 3)) * (b - a)))%Q) by (repeat apply Qmult_le_0_compat; lra).
  assert (E1 : (z * (x - ((a + b) / 2 - l / 2)) == (z * (x - a) - z * (b - x) + z * l) / 2)%Q) by field.
  assert (E2 : (z * (3 / 2 * (k * (b - a))) ==
    (3 # 2) * (z * ((k - (2 # 3)) * (b - a))) + z * (x - a) + z * (b - x))%Q) by field.
  rewrite E1. rewrite E2 in Hp. rewrite Hl.
  revert H1 H2 H3 Hp. generalize (z * (x - a))%Q (z * (b - x))%Q (z * ((k - (2 # 3)) * (b - a)))%Q.
  intros u v t H1 H2 H3 Hp. unfold Qdiv. change (/ 2)%Q with (1 # 2)%Q. split; lra.
Qed.
(** The width of the window on the canvas. *)
Lemma window_size s : ~ (scale s == 0)%Q ->
  let h := hadjustment s in
  let v := vadjustment s in
  let p1 := convert_from_pixels s (value h, value v) in
  let p2 := convert_from_pixels s (value h + page_size h, value v + page_size v)%Q in
  (scale s * (p2.1 - p1.1) == page_size h /\ scale s * (p2.2 - p1.2) == page_size v)%Q.
Proof.
  intros Hs h v p1 p2. destruct (pixels_distance s p2 p1) as [D1 D2].
  destruct (to_from_pixels s (value h, value v) Hs) as [A1 A2].
  destruct (to_from_pixels s (value h + page_size h, value v + page_size v)%Q Hs) as [B1 B2].
  fold p1 in A1, A2. fold p2 in B1, B2. cbn [fst snd] in *. rewrite <- D1, <- D2, A1, A2, B1, B2. split; ring.
Qed.
Lemma fit_view_spec c1 c2 w :
  let z := fit_zoom c1 c2 w in
  let w1 := set_zoom z w in
  let corner := fit_corner c1 c2 w1 in
  zoom_ok w -> (2 # 3 <= scale (screen w))%Q -> (c1.1 < c2.1)%Q -> (c1.2 < c2.2)%Q -> attainable (zoom w) z ->
  attainable (hadjustment (screen w1)) (convert_to_pixels (screen w1) corner).1 ->
  attainable (vadjustment (screen w1)) (convert_to_pixels (screen w1) corner).2 ->
  forall p, between c1 c2 p -> in_window p (screen (fit_view c1 c2 w)).
Proof.
  intros z w1 corner Hok Hs Hx Hy Hz Ah Av p [Hpx Hpy].
  destruct (set_zoom_attained z w Hok Hz) as (Z1 & Z2 & Z3). fold w1 in Z1, Z2, Z3.
  assert (Hz0 : (0 < z)%Q) by (destruct Hok as (_ & (Hl & _) & _), Hz as [Hz _]; cbn in Hl; lra).
  destruct (pixels_distance (screen w) c2 c1) as [D1 D2].
  set (dx := (3 / 2 * ((convert_to_pixels (screen w) c2).1 - (convert_to_pixels (screen w) c1).1))%Q).
  set (dy := (3 / 2 * ((convert_to_pixels (screen w) c2).2 - (convert_to_pixels (screen w) c1).2))%Q).
  assert (Ex : (dx == 3 / 2 * (scale (screen w) * (c2.1 - c1.1)))%Q) by (unfold dx; by rewrite D1).
  assert (Ey : (dy == 3 / 2 * (scale (screen w) * (c2.2 - c1.2)))%Q) by (unfold dy; by rewrite D2).
  assert (Px : (0 < dx)%Q) by (rewrite Ex; apply Qmult_lt_0_compat; [done|apply Qmult_lt_0_compat; lra]).
  assert (Py : (0 < dy)%Q) by (rewrite Ey; apply Qmult_lt_0_compat; [done|apply Qmult_lt_0_compat; lra]).
  assert (E : fit_view c1 c2 w = on_screen (scroll_to corner) w1).
  { unfold fit_view. fold dx dy. destruct (Qeq_bool dx 0) eqn:Ed; [apply Qeq_bool_iff in Ed; lra|].
    destruct (Qeq_bool dy 0) eqn:Ed'; [apply Qeq_bool_iff in Ed'; lra|done]. }
  rewrite E. change (screen (on_screen (scroll_to corner) w1)) with (scroll_to corner (screen w1)).
  destruct (scroll_to_range corner (screen w1)) as ((_ & _ & R1) & (_ & _ & R2) & _ & R3).
  destruct (scroll_to_attained corner (screen w1) Ah Av) as [V1 V2]. cbn [fst snd] in V1, V2.
  destruct (py_min_le (page_size (hadjustment (screen w)) / dx) (page_size (vadjustment (screen w)) / dy)) as [M1 M2].
  apply le_div_mult in M1; [|done]. apply le_div_mult in M2; [|done].
  destruct (pixels_distance (screen w1) p corner) as [G1 G2].
  destruct (window_size (screen w1)) as [W1 W2]; [rewrite Z1; lra|].
  rewrite Z1 in W1, W2. rewrite Z1 in G1, G2.
  change (py_min _ _) with z in M1, M2. rewrite Ex in M1. rewrite Ey in M2.
  rewrite <- Z2 in M1. rewrite <- Z3 in M2.
  pose proof (fit_axis _ _ _ _ _ _ _ Hz0 Hs Hx M1 W1 Hpx) as F1.
  pose proof (fit_axis _ _ _ _ _ _ _ Hz0 Hs Hy M2 W2 Hpy) as F2.
  change (p.1 - (_ - _))%Q with (p.1 - corner.1)%Q in F1. change (p.2 - (_ - _))%Q with (p.2 - corner.2)%Q in F2.
  unfold in_window. rewrite R3, R1, R2, V1, V2. split; split; lra.
Qed.

Lemma fit_view_vis c1 c2 w : vis (fit_view c1 c2 w) = vis w.
Proof. unfold fit_view. destruct (_ || _); [done|]. cbn. unfold set_zoom. by destruct (Qeq_bool _ _). Qed.
Lemma autoscale_positions `{!DictOrder nat} w q l : node_positions (update_positions w) = q :: l ->
  autoscale_view w = fit_view (corners q l).1 (corners q l).2 (update_positions w).
Proof.
  intros H. unfold autoscale_view. destruct (dict_keys (nodes (cv (vis w)))) as [|n ns] eqn:E; [|by rewrite H].
  unfold update_positions in H. rewrite E in H. unfold node_positions in H. cbn in H. by rewrite E in H.
Qed.

(** [autoscale_view] shows every node of the registry where it has just been placed: when the canvas
    is drawn at two thirds of its size or more, the nodes are not all in a line, and the zoom and the scrolling
    that are asked for can be attained, every node is inside the window after it. *)
Theorem autoscale_fits `{!DictOrder nat} w q l :
  let w1 := update_positions w in
  let '(c1, c2) := corners q l in
  let z := fit_zoom c1 c2 w1 in
  let w2 := set_zoom z w1 in
  let corner := convert_to_pixels (screen w2) (fit_corner c1 c2 w2) in
  zoom_ok w -> node_positions w1 = q :: l -> (2 # 3 <= scale (screen w1))%Q ->
  (c1.1 < c2.1)%Q -> (c1.2 < c2.2)%Q -> attainable (zoom w1) z ->
  attainable (hadjustment (screen w2)) corner.1 -> attainable (vadjustment (screen w2)) corner.2 ->
  vis (autoscale_view w) = update_node_positions (vis w) /\
  forall n, is_Some (nodes (cv (vis w1)) !! n) ->
    in_window (position (NodeEnd n) (cv (vis (autoscale_view w)))) (screen (autoscale_view w)).
Proof.
  intros w1. destruct (corners q l) as [c1 c2] eqn:Ec. intros z w2 corner Hz Hl Hs Hx Hy Ha Hh Hv.
  rewrite (autoscale_positions w q l Hl), Ec. cbn [fst snd]. fold w1. rewrite fit_view_vis.
  split; [apply vis_update_positions|]. intros n Hn.
  apply fit_view_spec; try done; [by apply keeps_update_positions|].
  replace c1 with (corners q l).1 by (by rewrite Ec). replace c2 with (corners q l).2 by (by rewrite Ec).
  apply corners_between. rewrite <- Hl. apply list_elem_of_fmap. exists n. split; [done|].
  by apply elem_of_dict_keys, elem_of_dom.
Qed.

(** [center_on_node] with a node, or the number of a known one, changes only what the canvas shows and
    puts the node in the middle of the window, where the adjustments can go there; an unknown number and
    any other object raise, and change nothing. *)
Theorem center_on_node_spec (a : node_arg) w :
  match a with
  | OtherObject => center_on_node a w = (Raise TypeError, w)
  | Ns3Node n | Index n | VizNode n =>
      let p := position (NodeEnd n) (cv (vis w)) in
      let s := screen w in
      let px := convert_to_pixels s p in
      let '(r, w1) := center_on_node a w in
      if decide (is_Some (nodes (cv (vis w)) !! n) \/ a = VizNode n) then
        r = Ok tt /\ w1 = on_screen (fun _ => screen w1) w /\
        (attainable (hadjustment s) (px.1 - page_size (hadjustment s) / 2) ->
         attainable (vadjustment s) (px.2 - page_size (vadjustment s) / 2) ->
         convert_to_pixels (screen w1) p =~
           (value (hadjustment (screen w1)) + page_size (hadjustment (screen w1)) / 2,
            value (vadjustment (screen w1)) + page_size (vadjustment (screen w1)) / 2)%Q)
      else r = Raise (KeyError n) /\ w1 = w
  end.
Proof.
  destruct a as [n|n|n|]; [..|done]; unfold center_on_node, known_node.
  1,2: destruct (nodes (cv (vis w)) !! n);
    [rewrite decide_True by eauto|rewrite decide_False by (intros [[? [=]]|[=]]); done].
  3: rewrite decide_True by auto.
  all: split; [done|]; split; [done|]; apply center_view_spec.
Qed.

(** *** The node that is followed *)

Definition within (b : box) (p : point) : Prop :=
  let '(x1, y1, x2, y2) := b in (x1 <= p.1 <= x2 /\ y1 <= p.2 <= y2)%Q.
Lemma py_min_eq x y : (y <= x -> py_min x y == y)%Q.
Proof. intros H. unfold py_min. destruct (Qle_bool x y) eqn:E; [apply Qle_bool_iff in E; lra|done]. Qed.
Lemma py_max_eq x y : (x <= y -> py_max x y == y)%Q.
Proof. intros H. unfold py_max. destruct (Qle_bool y x) eqn:E; [apply Qle_bool_iff in E; lra|done]. Qed.
Lemma same_box_iff x1 y1 x2 y2 x1' y1' x2' y2' : same_box (x1, y1, x2, y2) (x1', y1', x2', y2') = true <->
  (x1 == x1' /\ y1 == y1' /\ x2 == x2' /\ y2 == y2')%Q.
Proof. cbn. rewrite !andb_true_iff, !Qeq_bool_iff. tauto. Qed.
Lemma enlarge_within b p : within b p -> same_box b (enlarge p b) = true.
Proof.
  destruct b as [[[x1 y1] x2] y2]. intros [[H1 H2] [H3 H4]]. unfold enlarge. apply same_box_iff.
  rewrite (py_min_eq p.1 x1), (py_min_eq p.2 y1), (py_max_eq p.1 x2), (py_max_eq p.2 y2) by lra. done.
Qed.
(** The bounds have the same values as [b]. *)
Definition bounded (b : box) w : Prop := exists b', bounds (cv (vis w)) = Some b' /\ same_box b b' = true.
Lemma same_box_trans a b c : same_box a b = true -> same_box b c = true -> same_box a c = true.
Proof.
  destruct a as [[[? ?] ?] ?], b as [[[? ?] ?] ?], c as [[[? ?] ?] ?]. rewrite !same_box_iff.
  intros (H1 & H2 & H3 & H4) (G1 & G2 & G3 & G4). repeat split; by etransitivity.
Qed.
Lemma within_same b b' p : same_box b b' = true -> within b p -> within b' p.
Proof.
  destruct b as [[[? ?] ?] ?], b' as [[[? ?] ?] ?]. rewrite same_box_iff. unfold within.
  intros (H1 & H2 & H3 & H4) [[G1 G2] [G3 G4]]. rewrite <- H1, <- H2, <- H3, <- H4. done.
Qed.
Lemma bounds_update_links l c : bounds (update_links l c) = bounds c.
Proof. unfold update_links. revert c. induction l as [|i l IH]; intros c; cbn; [done|]. by rewrite IH. Qed.
Lemma bounds_set_position n p c : bounds (set_position n p c) = enlarge p <$> bounds c.
Proof. unfold set_position. cbn. by rewrite bounds_update_links. Qed.
(** A node inside the bounds of the canvas is drawn where it is; the canvas scrolls if it is followed. *)
Lemma update_position_inside b w n pos : bounded b w -> mobility (vis w) !! n = Some pos ->
  within b (transform_point_simulation_to_canvas pos) ->
  screen (update_position w n) =
    (if decide (follow_node w = Some n) then screen (center_view (transform_point_simulation_to_canvas pos) w)
     else screen w) /\ bounded b (update_position w n).
Proof.
  intros (b' & Hb & Hs) Hm Hi. unfold update_position. rewrite Hm.
  set (p := transform_point_simulation_to_canvas pos) in *.
  assert (Hr : rebound (bounds (cv (vis w))) (bounds (cv (on_canvas (set_position n p) (vis w)))) (screen w) = screen w).
  { cbn. rewrite bounds_update_links. cbn. rewrite Hb. cbn [fmap option_fmap option_map rebound].
    by rewrite enlarge_within by by eapply within_same. }
  assert (Hb1 : bounds (cv (on_canvas (set_position n p) (vis w))) = Some (enlarge p b')).
  { cbn [cv on_canvas]. by rewrite bounds_set_position, Hb. }
  assert (Hb2 : same_box b (enlarge p b') = true).
  { eapply same_box_trans; [apply Hs|]. by eapply enlarge_within, within_same. }
  set (w1 := on_screen _ _). change (follow_node w1) with (follow_node w).
  destruct (decide (follow_node w = Some n)).
  - split; [|by exists (enlarge p b')]. unfold center_view. cbn [screen on_screen].
    change (screen w1) with (rebound (bounds (cv (vis w))) (bounds (cv (on_canvas (set_position n p) (vis w)))) (screen w)).
    by rewrite Hr.
  - split; [|by exists (enlarge p b')]. apply Hr.
Qed.
Lemma update_position_frame w n : mobility (vis (update_position w n)) = mobility (vis w) /\
  follow_node (update_position w n) = follow_node w.
Proof.
  rewrite vis_update_position. unfold update_node_position, update_position.
  destruct (mobility (vis w) !! n); [|done]. by destruct (decide _).
Qed.
(** The loop of [_update_node_positions]. *)
Lemma update_loop b ns : forall w, NoDup ns -> bounded b w ->
  (forall n pos, mobility (vis w) !! n = Some pos -> within b (transform_point_simulation_to_canvas pos)) ->
  screen (foldl update_position w ns) =
    match follow_node w with
    | Some n =>
        match mobility (vis w) !! n with
        | Some pos => if decide (n ∈ ns) then screen (center_view (transform_point_simulation_to_canvas pos) w) else screen w
        | None => screen w
        end
    | None => screen w
    end.
Proof.
  induction ns as [|k ns IH]; intros w Hn Hb Hi; cbn [foldl].
  { destruct (follow_node w) as [n|]; [|done]. by destruct (mobility _ !! n). }
  apply NoDup_cons in Hn as [Hk Hn]. destruct (update_position_frame w k) as [F1 F2].
  destruct (mobility (vis w) !! k) as [pos|] eqn:Hm.
  - destruct (update_position_inside b w k pos Hb Hm (Hi _ _ Hm)) as [E1 E2].
    rewrite IH by (rewrite ?F1; done). rewrite F1, F2.
    destruct (follow_node w) as [n|] eqn:Hf; [|by rewrite E1, decide_False by done].
    destruct (decide (n = k)) as [->|Hne].
    + rewrite Hm. rewrite decide_False by done. rewrite E1, decide_True by done. by rewrite decide_True by set_solver.
    + destruct (mobility (vis w) !! n) as [pos'|]; [|by rewrite E1, decide_False by congruence].
      unfold center_view. cbn [screen on_screen]. rewrite E1. rewrite (decide_False (P := Some n = Some k)) by congruence.
      by destruct (decide (n ∈ ns)) as [Hin|Hin]; [rewrite decide_True by set_solver|rewrite decide_False by set_solver].
  - assert (E : update_position w k = w) by (unfold update_position; by rewrite Hm). rewrite E, IH by done.
    destruct (follow_node w) as [n|]; [|done]. destruct (decide (n = k)) as [->|Hne]; [by rewrite Hm|].
    destruct (mobility (vis w) !! n); [|done].
    by destruct (decide (n ∈ ns)) as [Hin|Hin]; [rewrite decide_True by set_solver|rewrite decide_False by set_solver].
Qed.

(** [_update_node_positions] changes the registry as [VizGraph] says, and while every node stays within
    the bounds of the canvas it scrolls only for the node that is followed, which it puts in the middle
    of the window where the adjustments can go. *)
Theorem follow_spec `{!DictOrder nat} b w n pos :
  bounds (cv (vis w)) = Some b ->
  (forall k q, mobility (vis w) !! k = Some q -> within b (transform_point_simulation_to_canvas q)) ->
  is_Some (nodes (cv (vis w)) !! n) -> mobility (vis w) !! n = Some pos -> follow_node w = Some n ->
  let p := transform_point_simulation_to_canvas pos in
  let s := screen w in
  let px := convert_to_pixels s p in
  let w1 := update_positions w in
  vis w1 = update_node_positions (vis w) /\ screen w1 = screen (center_view p w) /\
  (attainable (hadjustment s) (px.1 - page_size (hadjustment s) / 2) ->
   attainable (vadjustment s) (px.2 - page_size (vadjustment s) / 2) ->
   convert_to_pixels (screen w1) p =~
     (value (hadjustment (screen w1)) + page_size (hadjustment (screen w1)) / 2,
      value (vadjustment (screen w1)) + page_size (vadjustment (screen w1)) / 2)%Q).
Proof.
  intros Hb Hi Hn Hm Hf p s px w1.
  assert (E : screen w1 = screen (center_view p w)).
  { unfold w1, update_positions. rewrite (update_loop b).
    - rewrite Hf, Hm. by rewrite decide_True by by apply elem_of_dict_keys, elem_of_dom.
    - apply NoDup_dict_keys.
    - exists b. split; [done|]. destruct b as [[[? ?] ?] ?]. by apply same_box_iff.
    - done. }
  split; [apply vis_update_positions|]. split; [done|]. rewrite E. apply center_view_spec.
Qed.
End Window.

(** ** A canvas with these laws *)

Record plain := mkPlain { plain_scale : Q; plain_box : box; plain_h : adjustment; plain_v : adjustment }.
Definition clamp (a : adjustment) (x : Q) : adjustment :=
  mkAdj (if Qle_bool x (lower a) then lower a
         else if Qle_bool (upper a - page_size a) x then (upper a - page_size a)%Q else x)
    (lower a) (upper a) (page_size a).
(** The scrollbars of a canvas with these bounds at this scale. *)
Definition fit_bars (s : plain) : plain :=
  let '(x1, y1, x2, y2) := plain_box s in
  let k := plain_scale s in
  mkPlain k (plain_box s) (mkAdj (value (plain_h s)) 0 ((x2 - x1) * k) (page_size (plain_h s)))
    (mkAdj (value (plain_v s)) 0 ((y2 - y1) * k) (page_size (plain_v s))).
Definition plain_pixels (s : plain) (p : point) : point :=
  let '(x1, y1, _, _) := plain_box s in ((p.1 - x1) * plain_scale s, (p.2 - y1) * plain_scale s)%Q.
#[export] Instance plain_toolkit : Toolkit plain := {
  set_value := clamp;
  hadjustment := plain_h;
  vadjustment := plain_v;
  put_hadjustment a s := mkPlain (plain_scale s) (plain_box s) a (plain_v s);
  put_vadjustment a s := mkPlain (plain_scale s) (plain_box s) (plain_h s) a;
  scale := plain_scale;
  set_scale k s := fit_bars (mkPlain k (plain_box s) (plain_h s) (plain_v s));
  set_canvas_bounds b s := fit_bars (mkPlain (plain_scale s) b (plain_h s) (plain_v s));
  convert_to_pixels := plain_pixels;
  convert_from_pixels s p :=
    let '(x1, y1, _, _) := plain_box s in (p.1 / plain_scale s + x1, p.2 / plain_scale s + y1)%Q;
  scroll_to p s := mkPlain (plain_scale s) (plain_box s) (clamp (plain_h s) (plain_pixels s p).1)
    (clamp (plain_v s) (plain_pixels s p).2) }.
Lemma clamp_attained a x : attainable a x -> (value (clamp a x) == x)%Q.
Proof.
  intros [H1 H2]. cbn. destruct (Qle_bool x (lower a)) eqn:E1; [apply Qle_bool_iff in E1; lra|].
  destruct (Qle_bool _ x) eqn:E2; [apply Qle_bool_iff in E2; lra|done].
Qed.
Lemma clamp_bounds a x : (lower a <= upper a - page_size a)%Q -> attainable a (value (clamp a x)).
Proof.
  intros H. unfold attainable. cbn. destruct (Qle_bool x (lower a)) eqn:E1; [lra|].
  destruct (Qle_bool _ x) eqn:E2; [lra|].
  assert (L1 : lt_bool (lower a) x = true) by (unfold lt_bool; by rewrite E1). apply lt_bool_true in L1.
  assert (L2 : lt_bool x (upper a - page_size a) = true) by (unfold lt_bool; by rewrite E2). apply lt_bool_true in L2.
  split; lra.
Qed.
#[export] Instance plain_laws : ToolkitLaws plain.
Proof.
  split; cbn.
  - done.
  - apply clamp_attained.
  - apply clamp_bounds.
  - done.
  - done.
  - by intros x [k [[[? ?] ?] ?] h v].
  - by intros x [k [[[? ?] ?] ?] h v].
  - by intros [[[? ?] ?] ?] [k b h v].
  - intros [k [[[x1 y1] x2] y2] h v] p q. cbn. split; ring.
  - intros [k [[[x1 y1] x2] y2] h v] p Hk. cbn in *. split; cbn; field; done.
  - done.
  - intros p s H1 H2. split; by apply clamp_attained.
Qed.

(** ** Examples *)

(** A window of 600 by 600 pixels on a canvas of 20000 by 20000 at three times its size, then two nodes 300
    apart. *)
Definition demo_screen (k : Q) : plain :=
  mkPlain k (-10000, -10000, 10000, 10000)%Q (mkAdj 10000 0 (20000 * k) 600) (mkAdj 10000 0 (20000 * k) 600).
Definition demo_vis : visualizer :=
  mkVis (mkCanvas {[ 0 := new_node; 1 := new_node ]} ∅ [] (Some (-10000, -10000, 10000, 10000)%Q)) None ALL []
    None {[ 0 := (0, 0)%Q; 1 := (100, 100)%Q ]} 2.
Definition demo_window (k : Q) : window plain :=
  mkWindow (demo_screen k) demo_vis (mkAdj k (1 # 100) 10 1) None false [] 0 (Some 1) 0.

Lemma pan_spec_witness :
  let w := demo_window 1 in
  let moved := foldl handle (canvas_button_press 2 (7, 5)%Q w).2
    (Move <$> [mkMotion true (0, 0)%Q (9, 9)%Q] ++ [mkMotion false (17, 0)%Q (0, 0)%Q]) in
  (value (hadjustment (screen moved)) + 17 == 10007)%Q /\ handlers (canvas_button_release 2 moved).2 = [].
Proof.
  destruct (pan_spec (demo_window 1) (7, 5)%Q [mkMotion true (0, 0)%Q (9, 9)%Q]
    (mkMotion false (17, 0)%Q (0, 0)%Q)) as (H1 & _ & _ & _ & _ & _ & H2 & _);
    [done|done|split; cbn; lra|split; cbn; lra|].
  split; [exact H1|exact H2].
Defined.
Lemma double_click_leaks_witness :
  tracebacks (foldl handle (demo_window 1)
    [Press 2 (0, 0)%Q; Release 2; Press 2 (0, 0)%Q; Press 2 (0, 0)%Q; Release 2;
     Move (mkMotion false (1, 1)%Q (1, 1)%Q); Move (mkMotion false (1, 1)%Q (1, 1)%Q)]) = 2.
Proof.
  exact (proj1 (proj2 (proj2 (double_click_leaks (demo_window 1) (0, 0)%Q
    [mkMotion false (1, 1)%Q (1, 1)%Q; mkMotion false (1, 1)%Q (1, 1)%Q] eq_refl eq_refl)))).
Defined.
Lemma follow_spec_witness :
  screen (update_positions (demo_window 1)) = screen (center_view (300, 300)%Q (demo_window 1)) /\
  (value (hadjustment (screen (update_positions (demo_window 1)))) == 10000)%Q.
Proof.
  split; [|by vm_compute].
  refine (proj1 (proj2 (follow_spec (-10000, -10000, 10000, 10000)%Q (demo_window 1) 1 (100, 100)%Q
    eq_refl _ (ltac:(by eexists)) eq_refl eq_refl))).
  intros k q Hk. cbn in Hk. apply lookup_insert_Some in Hk as [[<- <-]|[_ Hk]]; [by vm_compute|].
  apply lookup_singleton_Some in Hk as [<- <-]. by vm_compute.
Defined.
Lemma demo_zoom_ok k : ((1 # 100) <= k <= 9)%Q -> zoom_ok (demo_window k).
Proof. intros Hk. split; [done|]. split; [done|]. split; cbn; lra. Qed.
Lemma autoscale_fits_witness :
  in_window (300, 300)%Q (screen (autoscale_view (demo_window 1))) /\
  in_window (0, 0)%Q (screen (autoscale_view (demo_window 1))).
Proof.
  assert (H : forall n, is_Some (nodes (cv (vis (update_positions (demo_window 1)))) !! n) ->
    in_window (position (NodeEnd n) (cv (vis (autoscale_view (demo_window 1))))) (screen (autoscale_view (demo_window 1)))).
  { refine (proj2 (autoscale_fits (demo_window 1) (300, 300)%Q [(0, 0)%Q] _ _ _ _ _ _ _ _));
      try (by vm_compute). }
  split; [exact (H 1 (ltac:(by vm_compute; eexists)))|exact (H 0 (ltac:(by vm_compute; eexists)))].
Defined.
(** From a third of its size, which the user may have chosen before, [autoscale_view] takes the lengths of then
    for those at full size, and both nodes are outside the window. *)
Example autoscale_misses : let w := autoscale_view (demo_window (1 # 3)) in
  zoom_ok (demo_window (1 # 3)) /\ Qeq_bool (value (zoom w)) 4 = true /\
  ~ in_window (300, 300)%Q (screen w) /\ ~ in_window (0, 0)%Q (screen w).
Proof.
  intros w. split; [apply demo_zoom_ok; lra|]. split; [by vm_compute|].
  split; intros [[H1 H2] _]; [apply Qle_bool_iff in H2|apply Qle_bool_iff in H1]; by vm_compute in *.
Qed.
Lemma window_events_witness :
  pan_clean (foldl handle (new_window (demo_screen 1) demo_vis)
    [Scroll UP; Press 2 (0, 0)%Q; Move (mkMotion false (3, 4)%Q (0, 0)%Q); Release 2; Autoscale]).
Proof.
  apply window_events. vm_compute. repeat split; try done; intros [? [? [=]]].
Defined.
