(* ===== verification/VizStart.v ===== *)
(** * Starting the visualizer: [src/src/visualizer/visualizer/core.py], [base.py]

    [load_plugins] with the modules that Python imports as parameters, the hooks of initialization and
    [start]; and two handlers of its window, [_canvas_tooltip_cb] and [_take_screenshot]. *)

From S2P Require Import Prelude State PyLib Format Rationals VizCanvas VizGraph VizWindow.
From Stdlib Require Import QArith Lqa Ascii String.
From stdpp Require Import strings.
Local Open Scope nat_scope.
Local Open Scope string_scope.
Local Open Scope list_scope.
Local Open Scope py_scope.

(** ** [os.path.splitext] *)

(** The string cut before the last [c], if there is one. *)
Fixpoint cut_last (c : ascii) (s : string) : option (string * string) :=
  match s with
  | EmptyString => None
  | String d t =>
      match cut_last c t with
      | Some (a, b) => Some (String d a, b)
      | None => if decide (d = c) then Some ("", s) else None
      end
  end.
Fixpoint leading_dots (s : string) : string * string :=
  match s with
  | String "."%char t => let '(a, b) := leading_dots t in (String "."%char a, b)
  | _ => ("", s)
  end.
(** The directory with its slash, the dots that begin the name, and the rest of the name. *)
Definition name_parts (p : string) : string * (string * string) :=
  match cut_last "/"%char p with
  | Some (dir, slash) => (dir +:+ "/", leading_dots (str_drop 1 slash))
  | None => ("", leading_dots p)
  end.
Definition splitext (p : string) : string * string :=
  let '(dir, (dots, name)) := name_parts p in
  match cut_last "."%char name with
  | Some (root, ext) => (dir +:+ dots +:+ root, ext)
  | None => (p, "")
  end.

(** ** Plugins *)

(** What importing a module by its name gives: the module, with its [register] if it has one and whether
    that can be called; [ImportError] with its message; or another exception. *)
Inductive imported := Module (register : option (string * bool)) | ImportError (message : string) | OtherError.
Inductive load_exn := AssertionError | ImportFailed.
Inductive warning := CouldNotLoad (file message : string) | NoRegister (name : string).
(** The globals of [base.py], [sys.path] and the standard error. *)
Record plugin_state := mkPlugins {
  plugins_loaded : bool; plugins : list string; plugin_modules : gmap string string;
  sys_path : list string; warnings : list warning }.
Definition set_loaded (s : plugin_state) : plugin_state :=
  mkPlugins true (plugins s) (plugin_modules s) (sys_path s) (warnings s).
Definition set_sys_path (l : list string) (s : plugin_state) : plugin_state :=
  mkPlugins (plugins_loaded s) (plugins s) (plugin_modules s) l (warnings s).
Definition warn (x : warning) (s : plugin_state) : plugin_state :=
  mkPlugins (plugins_loaded s) (plugins s) (plugin_modules s) (sys_path s) (warnings s ++ [x]).
(** [register_plugin]: the modules are kept under the names of the plugins. *)
Definition register_plugin (func : string * bool) (name module : string) : st plugin_state load_exn unit := fun s =>
  if func.2 then
    (Ok tt, mkPlugins (plugins_loaded s) (plugins s ++ [func.1]) (<[name := module]> (plugin_modules s))
              (sys_path s) (warnings s))
  else (Raise AssertionError, s).

Section Load.
Context (import_module : string -> imported).
(** The body of the loop of [load_plugins]. *)
Definition load_plugin (filename : string) : st plugin_state load_exn unit :=
  let '(name, ext) := splitext filename in
  if decide (ext = ".py") then
    match import_module name with
    | OtherError => raise ImportFailed
    | ImportError message => modify (warn (CouldNotLoad filename message))
    | Module None => modify (warn (NoRegister name))
    | Module (Some func) => register_plugin func name name
    end
  else ret tt.
(** [load_plugins], with what [os.listdir] gives. *)
Definition load_plugins (plugins_dir : string) (files : list string) : st plugin_state load_exn unit := fun s =>
  if plugins_loaded s then (Ok tt, s)
  else
    let s := set_loaded s in
    let old_path := sys_path s in
    match iter_m load_plugin files (set_sys_path (plugins_dir :: old_path) s) with
    | (Ok _, s) => (Ok tt, set_sys_path old_path s)
    | (r, s) => (r, s)
    end.
End Load.

(** ** [start] *)

(** [add_initialization_hook] and [set_bounds] of the module; a hook has a name and
    arguments, and the hook of [set_bounds] has its corners on the canvas. *)
Inductive hook := Hook (name : string) (args : list string) | SetBounds (b : box).
Definition add_initialization_hook (h : hook) (l : list hook) : list hook := l ++ [h].
Definition set_bounds (x1 y1 x2 y2 : Q) (l : list hook) : res load_exn (list hook) :=
  if lt_bool x1 x2 && lt_bool y1 y2 then
    let c1 := transform_point_simulation_to_canvas (x1, y1) in
    let c2 := transform_point_simulation_to_canvas (x2, y2) in
    Ok (add_initialization_hook (SetBounds (c1.1, c1.2, c2.1, c2.2)) l)
  else Raise AssertionError.
(** What [start] does: [Visualizer()] calls the plugins, the hooks wait for the loop of Gtk, which [viz.start]
    runs. *)
Inductive start_event := NoSupport (message : string) | SimulatorRun | CallPlugin (func : string) | IdleAdd (h : hook)
  | EnablePrinting | VizStart.
Definition start (import_module : string -> imported) (plugins_dir : string) (files : list string)
    (instance : bool) (import_error : option string) (hooks : list hook) (s : plugin_state)
    : res load_exn (list start_event) * plugin_state :=
  if instance then (Raise AssertionError, s)
  else
    match import_error with
    | Some message => (Ok [NoSupport message; SimulatorRun], s)
    | None =>
        match load_plugins import_module plugins_dir files s with
        | (Ok _, s) => (Ok (map CallPlugin (plugins s) ++ map IdleAdd hooks ++ [EnablePrinting; VizStart]), s)
        | (Raise e, s) => (Raise e, s)
        | (OutOfFuel, s) => (OutOfFuel, s)
        end
    end.

(** ** Handlers of the window *)

(** [_canvas_tooltip_cb]: the first of the item and its parents that has an object of the visualizer. *)
Record item_tree := mkItems { parent : nat -> option nat; pyviz_object : nat -> option string }.
Fixpoint tooltip_object (fuel : nat) (t : item_tree) (item : nat) : option (option string) :=
  match fuel with
  | O => None
  | S fuel =>
      match pyviz_object t item with
      | Some obj => Some (Some obj)
      | None => match parent t item with Some i => tooltip_object fuel t i | None => Some None end
      end
  end.

(** [_take_screenshot]: the surface with its size, how it is moved, the bounds and the scale that are
    drawn; or the message about the extension. *)
Inductive surface := PSSurface | PDFSurface | SVGSurface.
Inductive shot :=
  | Cancelled | UnknownExtension (extension : string)
  | Rendered (kind : surface) (file_name : string) (width height : Q) (translation : point) (bounds : point * point)
      (k : Q).
Definition surface_of (extension : string) : option surface :=
  if decide (extension = ".eps") then Some PSSurface
  else if decide (extension = ".pdf") then Some PDFSurface
  else if decide (extension = ".svg") then Some SVGSurface
  else None.
Section Screenshot.
Context {W : Type} `{!Toolkit W}.
Definition take_screenshot (file_name : option string) (w : window W) : shot :=
  match file_name with
  | None => Cancelled
  | Some f =>
      let h := hadjustment (screen w) in
      let v := vadjustment (screen w) in
      let b1 := convert_from_pixels (screen w) (value h, value v) in
      let b2 := convert_from_pixels (screen w) (value h + page_size h, value v + page_size v)%Q in
      let extension := Format.lower (splitext f).2 in
      match surface_of extension with
      | None => UnknownExtension extension
      | Some kind => Rendered kind f (b2.1 - b1.1) (b2.2 - b1.2) (- b1.1, - b1.2)%Q (b1, b2) (value (zoom w))
      end
  end.
(** [_canvas_tooltip_cb] with the item under the pointer. *)
Definition canvas_tooltip (fuel : nat) (t : item_tree) (get_item_at : point -> option nat) (p : point) (w : window W)
    : option (option string) :=
  let h := hadjustment (screen w) in
  let v := vadjustment (screen w) in
  match get_item_at (convert_from_pixels (screen w) (value h + p.1, value v + p.2)%Q) with
  | None => Some None
  | Some item => tooltip_object fuel t item
  end.
End Screenshot.

(** ** What they do *)

Lemma cut_last_spec c s : match cut_last c s with
  | Some (a, b) => s = a +:+ b /\ exists t, b = String c t /\ c ∉ list_ascii_of_string t
  | None => c ∉ list_ascii_of_string s
  end.
Proof.
  induction s as [|d s IH]; cbn; [set_solver|].
  destruct (cut_last c s) as [[a b]|].
  - destruct IH as [-> (t & -> & Ht)]. split; [done|]. by exists t.
  - destruct (decide (d = c)) as [->|Hd]; [|set_solver]. split; [done|]. by exists s.
Qed.
Lemma leading_dots_spec s : let '(a, b) := leading_dots s in (s = a +:+ b) /\
  Forall (fun x => x = "."%char) (list_ascii_of_string a) /\ forall t, b <> String "."%char t.
Proof.
  induction s as [|d s IH]; [by repeat split|]. cbn [leading_dots].
  destruct (decide (d = "."%char)) as [->|Hd].
  - destruct (leading_dots s) as [a b]. destruct IH as (-> & H1 & H2).
    split; [done|]. split; [|done]. cbn. by constructor.
  - assert (E : (match d with "."%char => let '(a, b) := leading_dots s in (String "."%char a, b) | _ => ("", String d s) end)
      = ("", String d s)) by (destruct d as [[] [] [] [] [] [] [] []]; done || by destruct Hd).
    rewrite E. split; [done|]. split; [constructor|]. intros t [= -> _]. done.
Qed.
Lemma name_parts_spec p : let '(dir, (dots, name)) := name_parts p in p = dir +:+ dots +:+ name /\
  "/"%char ∉ list_ascii_of_string (dots +:+ name).
Proof.
  unfold name_parts. pose proof (cut_last_spec "/"%char p) as H. destruct (cut_last _ p) as [[a b]|].
  - destruct H as [-> (t & -> & Ht)]. cbn [str_drop]. pose proof (leading_dots_spec t) as Hd.
    destruct (leading_dots t) as [x y]. destruct Hd as (-> & _). split; [|done].
    by rewrite string_app_assoc.
  - pose proof (leading_dots_spec p) as Hd. destruct (leading_dots p) as [x y]. by destruct Hd as (-> & _).
Qed.
(** [os.path.splitext] cuts a path in two; the extension is empty, or a dot and then neither dot nor slash. *)
Lemma splitext_spec p : let '(root, ext) := splitext p in p = root +:+ ext /\
  (ext = "" \/ exists t, ext = String "."%char t /\ ("."%char ∉ list_ascii_of_string t) /\ ("/"%char ∉ list_ascii_of_string t)).
Proof.
  unfold splitext. pose proof (name_parts_spec p) as H. destruct (name_parts p) as [dir [dots name]].
  destruct H as [Hp Hs]. pose proof (cut_last_spec "."%char name) as Hc.
  destruct (cut_last _ name) as [[root ext]|].
  - destruct Hc as [-> (t & -> & Ht)]. split; [by rewrite Hp, !string_app_assoc|]. right. exists t. split; [done|].
    split; [done|]. rewrite !list_ascii_app in Hs. cbn in Hs. set_solver.
  - split; [|by left]. clear. induction p as [|c p IH]; [done|exact (f_equal (String c) IH)].
Qed.
Example splitext_bashrc : splitext "a.b/.bashrc" = ("a.b/.bashrc", "") /\ splitext "c/x.tar.gz" = ("c/x.tar", ".gz").
Proof. by vm_compute. Qed.

Section LoadSpec.
Context (import_module : string -> imported).
(** The plugin that a file of the directory registers, if it does; and when it ends the loading. *)
Definition plugin_of (f : string) : option (string * string) :=
  let '(name, ext) := splitext f in
  if decide (ext = ".py") then
    match import_module name with Module (Some (func, true)) => Some (name, func) | _ => None end
  else None.
Definition fails (f : string) : bool :=
  let '(name, ext) := splitext f in
  bool_decide (ext = ".py") &&
  match import_module name with OtherError => true | Module (Some (_, false)) => true | _ => false end.
Definition loads (files : list string) : list (string * string) := omap plugin_of files.
Definition keep_modules (l : list (string * string)) (m : gmap string string) : gmap string string :=
  foldl (fun m (x : string * string) => <[x.1 := x.1]> m) m l.

Lemma load_plugin_spec f s :
  let '(r, s1) := load_plugin import_module f s in
  (r = Ok tt <-> fails f = false) /\ r <> OutOfFuel /\
  plugins s1 = plugins s ++ (loads [f]).*2 /\ plugin_modules s1 = keep_modules (loads [f]) (plugin_modules s) /\
  sys_path s1 = sys_path s /\ plugins_loaded s1 = plugins_loaded s.
Proof.
  unfold load_plugin, fails, loads, plugin_of, register_plugin, warn. cbn [omap list_omap].
  destruct (splitext f) as [name ext]. destruct (decide (ext = ".py")) as [->|He].
  - destruct (import_module name) as [[[func []]|]|m|]; cbn; rewrite ?app_nil_r; by repeat split.
  - rewrite bool_decide_eq_false_2 by done. cbn. rewrite app_nil_r. by repeat split.
Qed.
Lemma loads_cons f files : loads (f :: files) = loads [f] ++ loads files.
Proof. unfold loads. cbn. by destruct (plugin_of f). Qed.
Lemma load_loop files : forall s, Forall (fun f => fails f = false) files ->
  exists s1, iter_m (load_plugin import_module) files s = (Ok tt, s1) /\
    plugins s1 = plugins s ++ (loads files).*2 /\ plugin_modules s1 = keep_modules (loads files) (plugin_modules s) /\
    sys_path s1 = sys_path s /\ plugins_loaded s1 = plugins_loaded s.
Proof.
  induction files as [|f files IH]; intros s Hf.
  { exists s. cbn. by rewrite app_nil_r. }
  apply Forall_cons in Hf as [H1 H2]. pose proof (load_plugin_spec f s) as Hs. cbn [iter_m].
  destruct (load_plugin import_module f s) as [r s1] eqn:E. destruct Hs as (Hr & _ & E1 & E2 & E3 & E4).
  apply Hr in H1 as ->. rewrite (bind_ok _ _ s tt s1) by done.
  destruct (IH s1 H2) as (s2 & -> & F1 & F2 & F3 & F4). exists s2. split; [done|].
  rewrite loads_cons, fmap_app, F1, F2, F3, F4, E1, E2, E3, E4. unfold keep_modules. by rewrite foldl_app, <- app_assoc.
Qed.

(** [load_plugins] registers the plugins of the files [*.py] of its directory whose module has a [register],
    in the order of the listing, each module under its name, and leaves [sys.path] as it was; when a module raises another exception than
    [ImportError], or its [register] cannot be called, the plugins before it are registered, the exception
    is raised and the directory stays in [sys.path]; either way a second call does nothing. *)
Theorem load_plugins_spec plugins_dir before after s :
  plugins_loaded s = false -> Forall (fun f => fails f = false) before ->
  (forall f, head after = Some f -> fails f = true) ->
  let '(r, s1) := load_plugins import_module plugins_dir (before ++ after) s in
  (match after with [] => r = Ok tt | _ :: _ => exists e, r = Raise e end) /\
  plugins s1 = plugins s ++ (loads before).*2 /\
  plugin_modules s1 = keep_modules (loads before) (plugin_modules s) /\
  sys_path s1 = match after with [] => sys_path s | _ :: _ => plugins_dir :: sys_path s end /\
  forall dir files, load_plugins import_module dir files s1 = (Ok tt, s1).
Proof.
  intros Hl Hb Ha. unfold load_plugins at 1. rewrite Hl. cbn [sys_path set_loaded].
  set (s0 := set_sys_path _ _).
  destruct (load_loop before s0 Hb) as (s1 & E & E1 & E2 & E3 & E4).
  assert (Happ : iter_m (load_plugin import_module) (before ++ after) s0 = iter_m (load_plugin import_module) after s1).
  { clearbody s0. clear - E. revert s0 E. induction before as [|f before IH]; intros s; cbn; [by intros [= ->]|].
    unfold bind. destruct (load_plugin import_module f s) as [[[]| |] s']; [apply IH|done..]. }
  rewrite Happ. destruct after as [|f after].
  - cbn. repeat split; [done..|]. intros dir files. unfold load_plugins. cbn. by rewrite E4.
  - specialize (Ha f eq_refl). cbn [iter_m]. unfold bind. pose proof (load_plugin_spec f s1) as Hs.
    destruct (load_plugin import_module f s1) as [r s2]. destruct Hs as (Hr & Hr' & F1 & F2 & F3 & F4).
    assert (Hno : loads [f] = []).
    { unfold loads, plugin_of, fails in *. cbn. destruct (splitext f) as [name ext].
      destruct (decide (ext = ".py")) as [->|]; [|done]. by destruct (import_module name) as [[[? []]|]| |]. }
    destruct r as [[]|e|]; [by rewrite (proj1 Hr eq_refl) in Ha| |done].
    rewrite Hno in F1, F2. cbn in F1, F2. rewrite app_nil_r in F1.
    split; [by exists e|]. rewrite F1, F2, F3, E1, E2, E3. repeat split.
    intros dir files. unfold load_plugins. by rewrite F4, E4.
Qed.
End LoadSpec.

(** [start] of a first visualizer: without Gtk the simulator runs to its end; else each plugin that has been
    registered is called on the window, in the order of registration, before the hooks are queued in the order
    in which they were added, and the window is started last. *)
Lemma start_spec import_module dir files error hooks s :
  Forall (fun f => fails import_module f = false) files -> plugins_loaded s = false ->
  let '(r, s1) := start import_module dir files false error hooks s in
  match error with
  | Some message => r = Ok [NoSupport message; SimulatorRun] /\ s1 = s
  | None => sys_path s1 = sys_path s /\
      r = Ok (map CallPlugin (plugins s ++ (loads import_module files).*2) ++ map IdleAdd hooks ++ [EnablePrinting; VizStart])
  end.
Proof.
  intros Hf Hl. unfold start. destruct error; [done|]. unfold load_plugins. rewrite Hl.
  set (s0 := set_sys_path _ _).
  destruct (load_loop import_module files s0 Hf) as (s1 & -> & E1 & _). cbn. by rewrite E1.
Qed.

(** The ancestors of an item. *)
Fixpoint ancestor (t : item_tree) (k : nat) (i : nat) : option nat :=
  match k with O => Some i | S k => match parent t i with Some j => ancestor t k j | None => None end end.
(** With more fuel than the depth of the item, [_canvas_tooltip_cb] asks the nearest ancestor that has an
    object, and no one when there is none. *)
Lemma tooltip_object_spec t depth : (forall i j, parent t i = Some j -> depth j < depth i) ->
  forall fuel item, depth item < fuel ->
  exists k a, ancestor t k item = Some a /\ tooltip_object fuel t item = Some (pyviz_object t a) /\
    (forall j b, j < k -> ancestor t j item = Some b -> pyviz_object t b = None) /\
    (pyviz_object t a = None -> parent t a = None).
Proof.
  intros Hd. induction fuel as [|fuel IH]; intros item Hf; [lia|]. cbn [tooltip_object].
  destruct (pyviz_object t item) as [o|] eqn:Ho.
  { exists 0, item. rewrite Ho. repeat split; [lia|done]. }
  destruct (parent t item) as [p|] eqn:Hp.
  - specialize (Hd _ _ Hp). destruct (IH p) as (k & a & H1 & H2 & H3 & H4); [lia|].
    exists (S k), a. cbn [ancestor]. rewrite Hp. split; [done|]. split; [done|]. split; [|done].
    intros [|j] b Hj Hb; [by injection Hb as <-|]. cbn in Hb. rewrite Hp in Hb. apply (H3 j); [lia|done].
  - exists 0, item. rewrite Ho. repeat split; [lia|done].
Qed.

Section ScreenshotSpec.
Context {W : Type} `{!Toolkit W} `{!ToolkitLaws W}.
(** A snapshot is of the window: its extension, in any case, chooses the surface, which has the size of the window at
    full scale, and what is drawn of the canvas is moved so that any point that the window shows is on
    the surface, as far from its corner as from that of the window; nothing is drawn for another extension. *)
Theorem take_screenshot_spec (f : string) (w : window W) :
  zoom_ok w ->
  match take_screenshot (Some f) w with
  | Rendered kind g width height t _ k =>
      g = f /\ surface_of (Format.lower (splitext f).2) = Some kind /\ k = scale (screen w) /\
      (k * width == page_size (hadjustment (screen w)))%Q /\ (k * height == page_size (vadjustment (screen w)))%Q /\
      forall p, in_window p (screen w) ->
        (0 <= p.1 + t.1 <= width)%Q /\ (0 <= p.2 + t.2 <= height)%Q /\
        (k * (p.1 + t.1) == (convert_to_pixels (screen w) p).1 - value (hadjustment (screen w)))%Q /\
        (k * (p.2 + t.2) == (convert_to_pixels (screen w) p).2 - value (vadjustment (screen w)))%Q
  | UnknownExtension e => e = Format.lower (splitext f).2 /\ surface_of e = None
  | Cancelled => False
  end.
Proof.
  intros (Hs & (Hl & _) & Ha & _). unfold take_screenshot. cbv zeta.
  destruct (surface_of _) as [kind|] eqn:Hk; [|done]. rewrite <- Hs.
  set (s := screen w) in *. set (h := hadjustment s). set (v := vadjustment s).
  set (b1 := convert_from_pixels s (value h, value v)).
  set (b2 := convert_from_pixels s (value h + page_size h, value v + page_size v)%Q).
  assert (Hk0 : (0 < scale s)%Q) by (rewrite Hs; cbn in Hl; lra).
  destruct (window_size s) as [W1 W2]; [lra|]. fold h v in W1, W2. fold b1 b2 in W1, W2.
  do 5 (split; [done|]). intros p [[P1 P2] [P3 P4]]. fold h v in P1, P2, P3, P4.
  destruct (pixels_distance s p b1) as [D1 D2].
  destruct (to_from_pixels s (value h, value v)) as [B1 B2]; [lra|]. fold b1 in B1, B2. cbn [fst snd] in B1, B2.
  assert (E1 : (scale s * (p.1 + - b1.1) == (convert_to_pixels s p).1 - value h)%Q) by (rewrite <- B1, D1; ring).
  assert (E2 : (scale s * (p.2 + - b1.2) == (convert_to_pixels s p).2 - value v)%Q) by (rewrite <- B2, D2; ring).
  cbn [fst snd]. split; [|split; [|done]]; split; apply (Qmult_le_l _ _ _ Hk0); lra.
Qed.
End ScreenshotSpec.

(** ** Examples *)

Definition demo_import (name : string) : imported :=
  if decide (name = "olsr") then Module (Some ("olsr.register", true))
  else if decide (name = "broken") then OtherError
  else if decide (name = "helper") then Module None
  else ImportError "No module".
Lemma load_plugins_spec_witness :
  plugins (load_plugins demo_import "plugins" ["helper.py"; "olsr.py"; "README"; "broken.py"; "late.py"]
    (mkPlugins false [] ∅ ["/lib"] [])).2 = ["olsr.register"] /\
  sys_path (load_plugins demo_import "plugins" ["helper.py"; "olsr.py"; "README"; "broken.py"; "late.py"]
    (mkPlugins false [] ∅ ["/lib"] [])).2 = ["plugins"; "/lib"].
Proof.
  pose proof (load_plugins_spec demo_import "plugins" ["helper.py"; "olsr.py"; "README"] ["broken.py"; "late.py"]
    (mkPlugins false [] ∅ ["/lib"] []) eq_refl) as H.
  destruct (load_plugins demo_import "plugins" _ _) as [r s1].
  destruct H as (_ & H1 & _ & H2 & _);
    [by repeat constructor; vm_compute|by intros f [= <-]; vm_compute|].
  split; [exact H1|exact H2].
Defined.
Lemma take_screenshot_spec_witness :
  match take_screenshot (Some "view.PDF") (demo_window 1) with
  | Rendered kind g width _ _ _ k => kind = PDFSurface /\ g = "view.PDF" /\ (k * width == 600)%Q
  | _ => False
  end.
Proof.
  pose proof (take_screenshot_spec "view.PDF" (demo_window 1)) as H.
  destruct (take_screenshot (Some "view.PDF") (demo_window 1)) as [|e|kind g width height t bs k].
  - apply H, demo_zoom_ok. lra.
  - destruct H as [-> H]; [apply demo_zoom_ok; lra|discriminate H].
  - destruct H as (-> & [= <-] & _ & H & _); [apply demo_zoom_ok; lra|]. split; [done|]. split; [done|exact H].
Defined.
