(* ===== verification/WafBuild.v ===== *)
(** * What waf builds: the function [build] of [src/wscript]

    The modules that are built are the enabled ones and those they need; the task
    generators of all others, and the programs that need one of those, are taken out of
    waf's groups before the tasks are made, and the programs and scripts that are left are
    listed for [test.py].  A task generator is an object: [oid] is its identity.  What
    waf itself does is an argument: [recurse], a [build] of a wscript below,
    which may create task generators; [get_tgen_by_name]; the paths of nodes. *)

From S2P Require Import Prelude PyLib WafRun.
From Stdlib Require Import Ascii String Btauto.
From stdpp Require Import strings gmap relations.
Open Scope string_scope.
Open Scope nat_scope.
Open Scope list_scope.

(** ** Task generators *)

(** The attributes that the wscripts set.  [features] is the text that was given: waf
    splits it when the object is posted, after [build].  [ns3_module_dependencies] is an
    attribute of programs only; [env_set] has the changes of the object's environment. *)
Record tgen := Tgen {
  oid : nat; name : string; target : string; features : string; path : string;
  source : list string; includes : string; use : list string; installed : bool;
  env_set : list (string * string);
  module : string;
  ns3_module_dependencies : option (list string);
  is_ns3_module : bool; is_ns3_module_test_library : bool; module_name : string }.

(** The state of the build: waf's groups, the one that new objects join, the attribute [mode]
    of the objects that have one, and the lists in [bld.env]. *)
Record bld := Bld {
  groups : list (list tgen); current_group : nat; next_oid : nat; modes : gmap nat string;
  NS3_MODULES_WITH_TEST_LIBRARIES : list (string * string);
  NS3_ENABLED_MODULE_TEST_LIBRARIES : list string;
  NS3_SCRIPT_DEPENDENCIES : list (string * list string);
  NS3_RUNNABLE_PROGRAMS : list string; NS3_RUNNABLE_SCRIPTS : list string }.

Definition all_task_gen (b : bld) : list tgen := concat (groups b).

Definition with_groups (b : bld) (gs : list (list tgen)) : bld :=
  {| groups := gs; current_group := current_group b; next_oid := next_oid b; modes := modes b;
     NS3_MODULES_WITH_TEST_LIBRARIES := NS3_MODULES_WITH_TEST_LIBRARIES b;
     NS3_ENABLED_MODULE_TEST_LIBRARIES := NS3_ENABLED_MODULE_TEST_LIBRARIES b;
     NS3_SCRIPT_DEPENDENCIES := NS3_SCRIPT_DEPENDENCIES b;
     NS3_RUNNABLE_PROGRAMS := NS3_RUNNABLE_PROGRAMS b; NS3_RUNNABLE_SCRIPTS := NS3_RUNNABLE_SCRIPTS b |}.
(** [obj.mode = mode] *)
Definition set_mode (obj : tgen) (mode : string) (b : bld) : bld :=
  {| groups := groups b; current_group := current_group b; next_oid := next_oid b;
     modes := <[oid obj := mode]> (modes b);
     NS3_MODULES_WITH_TEST_LIBRARIES := NS3_MODULES_WITH_TEST_LIBRARIES b;
     NS3_ENABLED_MODULE_TEST_LIBRARIES := NS3_ENABLED_MODULE_TEST_LIBRARIES b;
     NS3_SCRIPT_DEPENDENCIES := NS3_SCRIPT_DEPENDENCIES b;
     NS3_RUNNABLE_PROGRAMS := NS3_RUNNABLE_PROGRAMS b; NS3_RUNNABLE_SCRIPTS := NS3_RUNNABLE_SCRIPTS b |}.
Definition add_runnable_program (p : string) (b : bld) : bld :=
  {| groups := groups b; current_group := current_group b; next_oid := next_oid b; modes := modes b;
     NS3_MODULES_WITH_TEST_LIBRARIES := NS3_MODULES_WITH_TEST_LIBRARIES b;
     NS3_ENABLED_MODULE_TEST_LIBRARIES := NS3_ENABLED_MODULE_TEST_LIBRARIES b;
     NS3_SCRIPT_DEPENDENCIES := NS3_SCRIPT_DEPENDENCIES b;
     NS3_RUNNABLE_PROGRAMS := NS3_RUNNABLE_PROGRAMS b ++ [p];
     NS3_RUNNABLE_SCRIPTS := NS3_RUNNABLE_SCRIPTS b |}.
(** [bld.env[...] = ...] for the lists that [build] makes. *)
Definition set_lists (libs scripts : list string) (b : bld) : bld :=
  {| groups := groups b; current_group := current_group b; next_oid := next_oid b; modes := modes b;
     NS3_MODULES_WITH_TEST_LIBRARIES := NS3_MODULES_WITH_TEST_LIBRARIES b;
     NS3_ENABLED_MODULE_TEST_LIBRARIES := libs; NS3_SCRIPT_DEPENDENCIES := NS3_SCRIPT_DEPENDENCIES b;
     NS3_RUNNABLE_PROGRAMS := NS3_RUNNABLE_PROGRAMS b; NS3_RUNNABLE_SCRIPTS := scripts |}.
(** The lists as [build] resets them. *)
Definition reset_lists (b : bld) : bld :=
  {| groups := groups b; current_group := current_group b; next_oid := next_oid b; modes := modes b;
     NS3_MODULES_WITH_TEST_LIBRARIES := []; NS3_ENABLED_MODULE_TEST_LIBRARIES := [];
     NS3_SCRIPT_DEPENDENCIES := []; NS3_RUNNABLE_PROGRAMS := []; NS3_RUNNABLE_SCRIPTS := [] |}.

(** The lists of enabled modules.  After the environment was read back from waf's cache
    they share nothing with the lists of all modules. *)
Record mods := Mods { modules : list string; contribModules : list string }.
Definition names (m : mods) : list string := modules m ++ contribModules m.
Definition enabled (m : mods) (dep : string) : bool :=
  bool_decide (dep ∈ modules m) || bool_decide (dep ∈ contribModules m).
(** [env['NS3_ENABLED_MODULES'] or env['NS3_ENABLED_CONTRIBUTED_MODULES']] *)
Definition any_enabled (m : mods) : bool := negb (bool_decide (names m = [])).

(** [SystemExit] with what [Logs.error] printed before it. *)
Inductive build_exn :=
  | ValueError (message : string) | WafError (message : string) | SystemExit (status : Z) (error : string)
  | UnboundLocalError.

Section Build.
(** [wutils.APPNAME], [wutils.VERSION], the working directory and the directory where waf was started. *)
Context (APPNAME VERSION cwd launch_dir : string).
(** From the configuration: the known modules, the features, the compiler and the platform. *)
Context (NS3_MODULES NS3_CONTRIBUTED_MODULES : list string).
Context (ENABLE_TESTS ENABLE_EXAMPLES ENABLE_STATIC_NS3 : bool) (BUILD_SUFFIX : string).
Context (platform DEST_BINFMT CXX_NAME CC_NAME : string).
(** The directories: what [os.listdir] gives, if it does, with what [os.path.isdir] says. *)
Context (listdir : string -> option (list (string * bool))).
(** Waf: a wscript below, the search for a name, [path.get_bld().abspath()], [path.ant_glob('*.cc')]. *)
Context (recurse : string -> bld -> res build_exn bld).
Context (get_tgen_by_name : bld -> string -> build_exn + option tgen).
Context (get_bld_abspath : string -> string) (ant_glob : string -> list string).

(** ** Creating task generators *)

(** [bld(...)]: a new object at the end of the current group. *)
Definition add_tgen (make : nat -> tgen) (b : bld) : bld :=
  {| groups := alter (fun g => g ++ [make (next_oid b)]) (current_group b) (groups b);
     current_group := current_group b; next_oid := S (next_oid b); modes := modes b;
     NS3_MODULES_WITH_TEST_LIBRARIES := NS3_MODULES_WITH_TEST_LIBRARIES b;
     NS3_ENABLED_MODULE_TEST_LIBRARIES := NS3_ENABLED_MODULE_TEST_LIBRARIES b;
     NS3_SCRIPT_DEPENDENCIES := NS3_SCRIPT_DEPENDENCIES b;
     NS3_RUNNABLE_PROGRAMS := NS3_RUNNABLE_PROGRAMS b; NS3_RUNNABLE_SCRIPTS := NS3_RUNNABLE_SCRIPTS b |}.

Definition program_file (name : string) : string := APPNAME +:+ VERSION +:+ "-" +:+ name +:+ BUILD_SUFFIX.
Definition linker_markers : list (string * string) :=
  if ENABLE_STATIC_NS3 then
    if decide (platform = "darwin") then [("STLIB_MARKER", "-Wl,-all_load")]
    else [("STLIB_MARKER", "-Wl,-Bstatic,--whole-archive"); ("SHLIB_MARKER", "-Wl,-Bdynamic,--no-whole-archive")]
  else if decide (DEST_BINFMT = "elf" /\ (CXX_NAME = "gcc" \/ CC_NAME = "gcc"))
  then [("SHLIB_MARKER", "-Wl,--no-as-needed")] else [].
(** [create_ns3_program], with the changes that the caller makes to the new object. *)
Definition create_ns3_program (prog : string) (dependencies : list string) (here : string) (id : nat) : tgen :=
  let deps := map (fun dep => "ns3-" +:+ dep) dependencies in
  {| oid := id; name := prog; target := program_file prog; features := "cxx cxxprogram"; path := here;
     source := []; includes := "#"; use := deps; installed := true; env_set := linker_markers;
     module := ""; ns3_module_dependencies := Some deps; is_ns3_module := false;
     is_ns3_module_test_library := false; module_name := "" |}.
Definition register_ns3_script (script : string) (dependencies : list string) (b : bld) : bld :=
  {| groups := groups b; current_group := current_group b; next_oid := next_oid b; modes := modes b;
     NS3_MODULES_WITH_TEST_LIBRARIES := NS3_MODULES_WITH_TEST_LIBRARIES b;
     NS3_ENABLED_MODULE_TEST_LIBRARIES := NS3_ENABLED_MODULE_TEST_LIBRARIES b;
     NS3_SCRIPT_DEPENDENCIES :=
       NS3_SCRIPT_DEPENDENCIES b ++ [(script, map (fun dep => "ns3-" +:+ dep) dependencies)];
     NS3_RUNNABLE_PROGRAMS := NS3_RUNNABLE_PROGRAMS b; NS3_RUNNABLE_SCRIPTS := NS3_RUNNABLE_SCRIPTS b |}.

Definition skipped (filename : string) : bool := starts_with "." filename || bool_decide (filename = "CVS").
Definition add_examples_programs (b : bld) : res build_exn bld :=
  if ENABLE_EXAMPLES then
    match listdir "examples" with
    | None => Ok b
    | Some l => for_each (fun b '(dir, isdir) =>
        if skipped dir then Ok b
        else if isdir : bool then recurse (path_join "examples" dir) b else Ok b) l b
    end
  else Ok b.

(** A program of the directory scratch: a file, or the files of a directory. *)
Definition scratch_program (all_modules : list string) (prog dir : string) (files : list string) (id : nat) : tgen :=
  let obj := create_ns3_program prog all_modules dir id in
  {| oid := oid obj; name := prog; target := prog; features := features obj; path := dir;
     source := files; includes := includes obj; use := use obj; installed := false; env_set := env_set obj;
     module := ""; ns3_module_dependencies := ns3_module_dependencies obj; is_ns3_module := false;
     is_ns3_module_test_library := false; module_name := "" |}.
Definition without_cc (filename : string) : option string :=
  match rev (list_ascii_of_string filename) with
  | "c"%char :: "c"%char :: "."%char :: r => Some (string_of_list_ascii (rev r))
  | _ => None
  end.
Definition add_scratch_programs (m : mods) (b : bld) : bld :=
  let all_modules := map (str_drop (String.length "ns3-")) (names m) in
  match listdir "scratch" with
  | None => b
  | Some l => foldl (fun b '(filename, isdir) =>
      if skipped filename then b
      else if isdir : bool then
        let dir := path_join "scratch" filename in
        add_tgen (scratch_program all_modules filename dir (ant_glob dir)) b
      else match without_cc filename with
           | Some prog => add_tgen (scratch_program all_modules prog "scratch" [filename]) b
           | None => b
           end) b l
  end.

(** ** The modules that are needed *)

(** What [Logs.error] says before the exit. *)
Definition no_dependency (modname dep : string) : build_exn :=
  SystemExit 1 ("Error:  Cannot find dependency '" +:+ str_drop 4 dep +:+ "' of module '"
                +:+ str_drop 4 modname +:+ "'; check the module wscript for errors.").
(** One module's loop over [module_obj.use]; [changed] tells whether a module was added. *)
Fixpoint add_needed (modname : string) (deps : list string) (changed : bool) (m : mods) : res build_exn (bool * mods) :=
  match deps with
  | [] => Ok (changed, m)
  | dep :: deps =>
      if negb (starts_with "ns3-" dep) then add_needed modname deps changed m
      else if negb (enabled m dep) then
        if decide (dep ∈ NS3_MODULES) then
          add_needed modname deps true {| modules := modules m ++ [dep]; contribModules := contribModules m |}
        else if decide (dep ∈ NS3_CONTRIBUTED_MODULES) then
          add_needed modname deps true {| modules := modules m; contribModules := contribModules m ++ [dep] |}
        else Raise (no_dependency modname dep)
      else add_needed modname deps changed m
  end.
(** [for module in modules + contribModules] *)
Fixpoint one_pass (b : bld) (l : list string) (changed : bool) (m : mods) : res build_exn (bool * mods) :=
  match l with
  | [] => Ok (changed, m)
  | modname :: l =>
      match get_tgen_by_name b modname with
      | inl e => Raise e
      | inr None => Raise (ValueError ("module " +:+ modname +:+ " not found"))
      | inr (Some module_obj) => let* (changed, m) := add_needed modname (use module_obj) changed m in one_pass b l changed m
      end
  end.
(** [while changed] *)
Fixpoint enable_needed (fuel : nat) (b : bld) (m : mods) : res build_exn mods :=
  match fuel with
  | O => OutOfFuel
  | S fuel =>
      let* (changed, m) := one_pass b (names m) false m in
      if changed : bool then enable_needed fuel b m else Ok m
  end.
Definition passes : nat := S (length (NS3_MODULES ++ NS3_CONTRIBUTED_MODULES)).

(** ** The task generators that are taken out *)

(** The first group that has the object loses it. *)
Fixpoint remove_object (obj : tgen) (group : list tgen) : option (list tgen) :=
  match group with
  | [] => None
  | tg1 :: group =>
      if oid tg1 =? oid obj then Some group
      else match remove_object obj group with Some g => Some (tg1 :: g) | None => None end
  end.
Fixpoint exclude_from (obj : tgen) (gs : list (list tgen)) : list (list tgen) :=
  match gs with
  | [] => []
  | group :: gs =>
      match remove_object obj group with
      | Some g => g :: gs
      | None => group :: exclude_from obj gs
      end
  end.
Definition _exclude_taskgen (obj : tgen) (b : bld) : bld := with_groups b (exclude_from obj (groups b)).

Definition object_relative_path (obj : tgen) : string :=
  path_join (relpath cwd (get_bld_abspath (path obj)) (abspath cwd launch_dir)) (program_file (name obj)).
(** One round of the loop over [bld.all_task_gen]. *)
Definition exclude_headers (m : mods) (feature : string) (obj : tgen) (b : bld) : bld :=
  if contains feature (features obj) && negb (enabled m ("ns3-" +:+ module obj)) then set_mode obj "remove" b else b.
Definition check_program (m : mods) (obj : tgen) (b : bld) : bld :=
  match ns3_module_dependencies obj with
  | None => b
  | Some deps =>
      if forallb (enabled m) deps then add_runnable_program (object_relative_path obj) b
      else _exclude_taskgen obj b
  end.
Definition exclude_if (disabled : bool) (obj : tgen) (b : bld) : bld :=
  if disabled then _exclude_taskgen obj b else b.
Definition exclude_disabled (m : mods) (b : bld) (obj : tgen) : bld :=
  let b := exclude_headers m "ns3moduleheader" obj b in
  let b := check_program m obj b in
  let b := exclude_if (is_ns3_module obj && negb (enabled m (name obj))) obj b in
  let b := exclude_if (is_ns3_module_test_library obj && (negb ENABLE_TESTS || negb (enabled m (module_name obj)))) obj b in
  let b := exclude_headers m "ns3header" obj b in
  let b := exclude_headers m "ns3privateheader" obj b in
  exclude_if (contains "ns3pcfile" (features obj) && negb (enabled m (module obj))) obj b.

(** ** Scripts and test libraries *)

(** [modules] is a variable of the function that only the branches for enabled modules set. *)
Fixpoint script_runnable (m : option mods) (deps : list string) : res build_exn bool :=
  match deps with
  | [] => Ok true
  | dep :: deps =>
      match m with
      | None => Raise UnboundLocalError
      | Some mm => if enabled mm dep then script_runnable m deps else Ok false
      end
  end.
Definition add_script (m : option mods) (acc : list string) (s : string * list string) : res build_exn (list string) :=
  let* ok := script_runnable m s.2 in Ok (if ok : bool then acc ++ [s.1] else acc).
Definition runnable_scripts (m : option mods) (l : list (string * list string)) : res build_exn (list string) :=
  for_each (add_script m) l [].
Definition enabled_test_libraries (m : mods) (l : list (string * string)) : list string :=
  map snd (List.filter (fun '(lib_module, _) => enabled m lib_module) l).

(** ** [build], from the resetting of the lists to the runnable scripts *)
Definition build (m : mods) (b : bld) : res build_exn (mods * bld) :=
  let* b := recurse "src" (reset_lists b) in
  let* b := recurse "contrib" b in
  let* m := if any_enabled m then enable_needed passes b m else Ok m in
  let libs := if any_enabled m && ENABLE_TESTS
              then enabled_test_libraries m (NS3_MODULES_WITH_TEST_LIBRARIES b) else [] in
  let* b := add_examples_programs (set_lists libs [] b) in
  let b := add_scratch_programs m b in
  let b := if any_enabled m then foldl (exclude_disabled m) b (all_task_gen b) else b in
  let* scripts := runnable_scripts (if any_enabled m then Some m else None) (NS3_SCRIPT_DEPENDENCIES b) in
  Ok (m, set_lists (NS3_ENABLED_MODULE_TEST_LIBRARIES b) scripts b).
#[local] Arguments starts_with : simpl never.
#[local] Arguments str_drop : simpl never.
#[local] Arguments contains : simpl never.

(** ** What the closure of the enabled modules is *)

(** What a module uses directly, what the enabled ones need, and why the search for it fails. *)
Definition needs (b : bld) (x y : string) : Prop :=
  exists obj, get_tgen_by_name b x = inr (Some obj) /\ y ∈ use obj /\ starts_with "ns3-" y = true.
Definition needed (b : bld) (m : mods) (x : string) : Prop := exists r, enabled m r = true /\ rtc (needs b) r x.
Definition known (x : string) : Prop := x ∈ NS3_MODULES ++ NS3_CONTRIBUTED_MODULES.
Definition unusable (b : bld) (m : mods) (x : string) (e : build_exn) : Prop :=
  get_tgen_by_name b x = inl e \/
  (get_tgen_by_name b x = inr None /\ e = ValueError ("module " +:+ x +:+ " not found")) \/
  exists dep, needs b x dep /\ ~ known dep /\ enabled m dep = false /\ e = no_dependency x dep.
(** New names, each once and in the list of its kind. *)
Definition added (P : string -> Prop) (m m' : mods) : Prop :=
  exists a c, modules m' = modules m ++ a /\ contribModules m' = contribModules m ++ c /\ NoDup (a ++ c) /\
    (forall x, x ∈ a -> x ∈ NS3_MODULES) /\
    (forall x, x ∈ c -> x ∈ NS3_CONTRIBUTED_MODULES /\ x ∉ NS3_MODULES) /\
    forall x, x ∈ a ++ c -> enabled m x = false /\ P x.
Definition missing (m : mods) : nat := count (fun x => enabled m x = false) (NS3_MODULES ++ NS3_CONTRIBUTED_MODULES).

Lemma enabled_true m x : enabled m x = true <-> x ∈ modules m \/ x ∈ contribModules m.
Proof. unfold enabled. by rewrite orb_true_iff, !bool_decide_eq_true. Qed.
Lemma enabled_false m x : enabled m x = false <-> ~ (x ∈ modules m) /\ ~ (x ∈ contribModules m).
Proof. unfold enabled. by rewrite orb_false_iff, !bool_decide_eq_false. Qed.
Lemma enabled_names m x : enabled m x = true <-> x ∈ names m.
Proof. unfold names. by rewrite enabled_true, elem_of_app. Qed.

Lemma added_refl P m : added P m m.
Proof.
  exists [], []. rewrite !app_nil_r. split_and!; try done; [constructor|..]; intros x Hx; by apply elem_of_nil in Hx.
Qed.
Lemma added_enabled P m m' x : added P m m' -> enabled m x = true -> enabled m' x = true.
Proof. intros (a & c & Ha & Hc & _). rewrite !enabled_true, Ha, Hc, !elem_of_app. tauto. Qed.
Lemma added_inv P m m' x : added P m m' -> enabled m' x = true -> enabled m x = true \/ P x.
Proof.
  intros (a & c & Ha & Hc & _ & _ & _ & HP). rewrite !enabled_true, Ha, Hc, !elem_of_app.
  intros [[?|Hx]|[?|Hx]]; auto; right; apply HP; rewrite elem_of_app; auto.
Qed.
Lemma added_known P m m' x : added P m m' -> enabled m' x = true -> enabled m x = false -> known x.
Proof.
  intros (a & c & Ha & Hc & _ & Hka & Hkc & _). rewrite enabled_true, enabled_false, Ha, Hc, !elem_of_app.
  unfold known. rewrite elem_of_app. naive_solver.
Qed.
Lemma added_trans P m m' m'' : added P m m' -> added P m' m'' -> added P m m''.
Proof.
  intros H1 (a' & c' & Ha' & Hc' & Hn' & Hk' & Hl' & HP'). pose proof H1 as (a & c & Ha & Hc & Hn & Hk & Hl & HP).
  exists (a ++ a'), (c ++ c'). rewrite Ha', Hc', Ha, Hc, <- !app_assoc.
  assert (Hfresh : forall x, x ∈ a' ++ c' -> x ∉ a ++ c).
  { intros x Hx' Hx. destruct (HP' x Hx') as [He _]. apply enabled_false in He.
    rewrite Ha, Hc, !elem_of_app in He. apply elem_of_app in Hx. tauto. }
  split_and!; [done|done|..].
  - assert (Hp : a ++ a' ++ c ++ c' ≡ₚ (a ++ c) ++ (a' ++ c')) by solve_Permutation.
    rewrite Hp. apply NoDup_app. naive_solver.
  - intros x [Hx|Hx]%elem_of_app; auto.
  - intros x [Hx|Hx]%elem_of_app; auto.
  - intros x Hx. assert (x ∈ a ++ c \/ x ∈ a' ++ c') as [Hx1|Hx1] by (rewrite !elem_of_app in *; tauto); [by apply HP|].
    destruct (HP' x Hx1) as [He HPx]. split; [|done]. destruct (enabled m x) eqn:E; [|done].
    by rewrite (added_enabled P m m' x H1 E) in He.
Qed.
Lemma added_impl (P Q : string -> Prop) m m' : (forall x, P x -> Q x) -> added P m m' -> added Q m m'.
Proof. intros HPQ (a & c & Ha & Hc & Hn & Hk & Hl & HP). exists a, c. naive_solver. Qed.

Lemma added_module (P : string -> Prop) m x : enabled m x = false -> x ∈ NS3_MODULES -> P x ->
  added P m {| modules := modules m ++ [x]; contribModules := contribModules m |}.
Proof.
  intros He Hk HP. exists [x], []. rewrite !app_nil_r. cbn [modules contribModules].
  split_and!; [done|done|apply NoDup_singleton|..]; intros y Hy; try by apply elem_of_nil in Hy.
  all: by apply list_elem_of_singleton in Hy as ->.
Qed.
Lemma added_contrib (P : string -> Prop) m x : enabled m x = false -> x ∈ NS3_CONTRIBUTED_MODULES -> x ∉ NS3_MODULES -> P x ->
  added P m {| modules := modules m; contribModules := contribModules m ++ [x] |}.
Proof.
  intros He Hk Hn HP. exists [], [x]. rewrite !app_nil_r. cbn [modules contribModules app].
  split_and!; [done|done|apply NoDup_singleton|..]; intros y Hy; try by apply elem_of_nil in Hy.
  all: by apply list_elem_of_singleton in Hy as ->.
Qed.
Lemma missing_added P m m' : added P m m' -> m' <> m -> missing m' < missing m.
Proof.
  intros Hadd Hne. pose proof Hadd as (a & c & Ha & Hc & _ & Hk & Hl & HP).
  assert (exists x, x ∈ a ++ c) as [x Hx].
  { destruct a as [|x a], c as [|y c].
    - destruct Hne. destruct m, m'. cbn in *. by rewrite Ha, Hc, !app_nil_r.
    - exists y. by left.
    - exists x. by left.
    - exists x. by left. }
  assert (Hin : known x).
  { unfold known. rewrite elem_of_app. apply elem_of_app in Hx as [Hx|Hx]; [left; by apply Hk|right; by apply Hl]. }
  unfold missing, known in *. apply list_elem_of_split in Hin as (l1 & l2 & ->).
  rewrite !count_app, !count_cons.
  assert (Hle : forall l, count (fun y => enabled m' y = false) l <= count (fun y => enabled m y = false) l).
  { intros l. induction l as [|y l IH]; [done|]. rewrite !count_cons.
    do 2 case_decide; try lia. destruct (enabled m y) eqn:E; [|done].
    by rewrite (added_enabled P m m' y Hadd E) in *. }
  pose proof (Hle l1). pose proof (Hle l2).
  rewrite decide_False by (rewrite (proj2 (enabled_true m' x)); [done|];
    rewrite Ha, Hc, !elem_of_app; apply elem_of_app in Hx; tauto).
  rewrite decide_True by (by apply HP). lia.
Qed.

(** What is known after a module's loop. *)
Definition use_done (modname : string) (deps : list string) (changed : bool) (m : mods) (r : res build_exn (bool * mods)) : Prop :=
  match r with
  | Ok (changed', m') =>
      added (fun y => y ∈ deps /\ starts_with "ns3-" y = true) m m' /\
      (forall y, y ∈ deps -> starts_with "ns3-" y = true -> enabled m' y = true) /\
      (m' = m /\ changed' = changed \/ m' <> m /\ changed' = true)
  | Raise e => exists dep, dep ∈ deps /\ starts_with "ns3-" dep = true /\ ~ known dep /\ enabled m dep = false /\
      e = no_dependency modname dep
  | OutOfFuel => False
  end.
Lemma use_done_skip modname dep deps changed m r : starts_with "ns3-" dep = false \/ enabled m dep = true ->
  use_done modname deps changed m r -> use_done modname (dep :: deps) changed m r.
Proof.
  intros Hd. destruct r as [[c' m']|e|]; cbn; [|naive_solver set_solver|done].
  intros (Hadd & Hdone & Hc). split_and!; [|..|done].
  - eapply added_impl; [|exact Hadd]. cbn. intros x [? ?]. split; [by right|done].
  - intros y [->|Hy]%elem_of_cons Hs; [|by auto]. destruct Hd as [Hd|Hd]; [congruence|]. by eapply added_enabled.
Qed.
Lemma use_done_new modname dep deps changed m m1 r :
  added (fun y => y = dep) m m1 -> m1 <> m -> enabled m1 dep = true -> starts_with "ns3-" dep = true ->
  use_done modname deps true m1 r -> use_done modname (dep :: deps) changed m r.
Proof.
  intros H1 Hne He Hs. destruct r as [[c' m']|e|]; cbn; [|..|done].
  - intros (Hadd & Hdone & Hc). split_and!.
    + eapply added_trans; [eapply added_impl; [|exact H1]|eapply added_impl; [|exact Hadd]]; cbn.
      * intros x ->. split; [by left|done].
      * intros x [? ?]. split; [by right|done].
    + intros y [->|Hy]%elem_of_cons Hy'; [by eapply added_enabled|by auto].
    + right. split; [|destruct Hc as [[_ ->]|[_ ->]]; done]. intros ?; subst m'.
      pose proof (missing_added _ _ _ H1 Hne). assert (m <> m1) as Hne' by congruence.
      pose proof (missing_added _ _ _ Hadd Hne'). lia.
  - intros (dep' & Hin & Hs' & Hk & He' & ->). exists dep'. split_and!; [by right|done|done|..|done].
    destruct (enabled m dep') eqn:E; [|done]. by rewrite (added_enabled _ _ _ _ H1 E) in He'.
Qed.

Lemma add_needed_spec modname deps : forall changed m,
  use_done modname deps changed m (add_needed modname deps changed m).
Proof.
  induction deps as [|dep deps IH]; intros changed m.
  { cbn. split_and!; [apply added_refl|..|by left]. intros y Hy. by apply elem_of_nil in Hy. }
  cbn [add_needed]. destruct (starts_with "ns3-" dep) eqn:Hs; cbn [negb].
  2: { apply use_done_skip; [by left|apply IH]. }
  destruct (enabled m dep) eqn:He; cbn [negb]; [apply use_done_skip; [by right|apply IH]|].
  assert (Hlong : forall x (l : list string), l ++ [x] <> l) by (intros x l Hl; apply (f_equal length) in Hl; rewrite length_app in Hl; cbn in Hl; lia).
  destruct (decide (dep ∈ NS3_MODULES)) as [Hk|Hk].
  { eapply use_done_new; [by apply added_module|..|done|apply IH].
    - destruct m; cbn. intros Heq. simplify_eq. eapply Hlong. eassumption.
    - apply enabled_true. cbn. rewrite elem_of_app, list_elem_of_singleton. tauto. }
  destruct (decide (dep ∈ NS3_CONTRIBUTED_MODULES)) as [Hc|Hc].
  { eapply use_done_new; [by apply added_contrib|..|done|apply IH].
    - destruct m; cbn. intros Heq. simplify_eq. eapply Hlong. eassumption.
    - apply enabled_true. cbn. rewrite elem_of_app, list_elem_of_singleton. tauto. }
  cbn. exists dep. split_and!; [by left|done|..|done|done]. unfold known. rewrite elem_of_app. tauto.
Qed.

(** What is known after a pass over [l]; [m0] are the modules that were enabled at first. *)
Definition closed_at (b : bld) (m : mods) (x : string) : Prop :=
  exists obj, get_tgen_by_name b x = inr (Some obj) /\ forall y, needs b x y -> enabled m y = true.
Lemma one_pass_spec b m0 l : forall changed m,
  added (needed b m0) m0 m -> (forall x, x ∈ l -> needed b m0 x) ->
  match one_pass b l changed m with
  | Ok (changed', m') =>
      added (needed b m0) m m' /\ (forall x, x ∈ l -> closed_at b m' x) /\
      (m' = m /\ changed' = changed \/ m' <> m /\ changed' = true)
  | Raise e => exists x, needed b m0 x /\ unusable b m0 x e
  | OutOfFuel => False
  end.
Proof.
  induction l as [|x l IH]; intros changed m Hm Hl.
  { cbn. split_and!; [apply added_refl|..|by left]. intros x Hx. by apply elem_of_nil in Hx. }
  pose proof (Hl x ltac:(by left)) as Hx. cbn [one_pass].
  destruct (get_tgen_by_name b x) as [e|[obj|]] eqn:E.
  { exists x. split; [done|]. by left. }
  2: { exists x. split; [done|]. right. by left. }
  pose proof (add_needed_spec x (use obj) changed m) as Hu.
  destruct (add_needed x (use obj) changed m) as [[c1 m1]|e|]; [|..|done].
  2: { destruct Hu as (dep & Hin & Hs & Hk & He & ->). exists x. split; [done|]. right; right. exists dep.
       split_and!; [by exists obj|done|..|done]. destruct (enabled m0 dep) eqn:E0; [|done].
       by rewrite (added_enabled _ _ _ _ Hm E0) in He. }
  destruct Hu as (Hadd & Hdone & Hc).
  assert (Hadd' : added (needed b m0) m m1).
  { eapply added_impl; [|exact Hadd]. intros y [Hin Hs]. destruct Hx as (r & Hr & Hrx). exists r. split; [done|].
    eapply rtc_r; [exact Hrx|]. by exists obj. }
  specialize (IH c1 m1 (added_trans _ _ _ _ Hm Hadd') ltac:(intros y Hy; apply Hl; by right)). cbn.
  destruct (one_pass b l c1 m1) as [[c2 m2]|e|]; [|done..].
  destruct IH as (Hadd2 & Hdone2 & Hc2). split_and!.
  - by eapply added_trans.
  - intros y [->|Hy]%elem_of_cons; [|by auto]. exists obj. split; [done|].
    intros z (obj' & E' & Hin & Hs). rewrite E in E'. simplify_eq. eapply added_enabled; [exact Hadd2|by auto].
  - destruct Hc as [[-> ->]|[Hne ->]]; [done|]. right. destruct Hc2 as [[-> ->]|[Hne2 ->]]; [done|]. split; [|done].
    intros ?; subst m2. pose proof (missing_added _ _ _ Hadd' Hne). assert (m <> m1) as Hne' by congruence.
    pose proof (missing_added _ _ _ Hadd2 Hne'). lia.
Qed.

Lemma enable_needed_ok b m0 fuel : forall m, added (needed b m0) m0 m -> missing m < fuel ->
  match enable_needed fuel b m with
  | Ok m' => added (needed b m0) m0 m' /\ forall x, enabled m' x = true -> closed_at b m' x
  | Raise e => exists x, needed b m0 x /\ unusable b m0 x e
  | OutOfFuel => False
  end.
Proof.
  induction fuel as [|fuel IH]; intros m Hm Hf; [lia|]. cbn [enable_needed].
  assert (Hl : forall x, x ∈ names m -> needed b m0 x).
  { intros x Hx%enabled_names. destruct (added_inv _ _ _ _ Hm Hx) as [H0|]; [|done]. exists x. split; [done|apply rtc_refl]. }
  pose proof (one_pass_spec b m0 (names m) false m Hm Hl) as Hp.
  destruct (one_pass b (names m) false m) as [[c m']|e|]; cbn; [|done..].
  destruct Hp as (Hadd & Hdone & [[-> ->]|[Hne ->]]).
  - split; [done|]. intros x Hx%enabled_names. by apply Hdone.
  - apply IH; [by eapply added_trans|]. pose proof (missing_added _ _ _ Hadd Hne). lia.
Qed.

Lemma missing_passes m : missing m < passes.
Proof.
  unfold missing, passes, count. apply Nat.lt_succ_r. apply length_filter.
Qed.

Lemma closed_needed b m m' : (forall x, enabled m x = true -> enabled m' x = true) ->
  (forall x, enabled m' x = true -> closed_at b m' x) -> forall x, needed b m x -> enabled m' x = true.
Proof.
  intros Hmon Hcl x (r & Hr & Hrx). apply Hmon in Hr. induction Hrx as [|x y z Hxy _ IH]; [done|].
  apply IH. destruct (Hcl x Hr) as (_ & _ & Hy). by apply Hy.
Qed.

Lemma enable_needed_closure b m m' : enable_needed passes b m = Ok m' ->
  added (needed b m) m m' /\ (forall x, enabled m' x = true <-> needed b m x) /\
  (forall x, enabled m' x = true -> closed_at b m' x).
Proof.
  intros E. pose proof (enable_needed_ok b m passes m (added_refl _ _) (missing_passes m)) as H.
  rewrite E in H. destruct H as [Hadd Hcl]. split_and!; [done| |done]. intros x. split.
  - intros Hx. destruct (added_inv _ _ _ _ Hadd Hx) as [H0|]; [|done]. exists x. split; [done|apply rtc_refl].
  - apply closed_needed; [|done]. intros y Hy. by eapply added_enabled.
Qed.

(** C14: The loop over the enabled modules ends after at most one round more than there are known
    modules.  The modules are then the ones that were enabled, first and in their order, and the modules
    that these need, directly or not, each once, among the modules or the contributed modules
    according to its kind, and all of them have a task generator.  If it fails, then with the
    exception for a module that is needed and has no task generator, or uses a module that is neither known
    nor enabled; the exception is raised exactly if there is one. *)
Theorem enable_needed_spec b m :
  match enable_needed passes b m with
  | Ok m' =>
      added (needed b m) m m' /\
      (forall x, enabled m' x = true <-> needed b m x) /\
      (forall x, needed b m x -> (enabled m x = true \/ known x) /\ exists obj, get_tgen_by_name b x = inr (Some obj)) /\
      (forall x e, needed b m x -> ~ unusable b m x e)
  | Raise e => exists x, needed b m x /\ unusable b m x e
  | OutOfFuel => False
  end.
Proof.
  pose proof (enable_needed_ok b m passes m (added_refl _ _) (missing_passes m)) as H.
  destruct (enable_needed passes b m) as [m'|e|] eqn:E; [|done..].
  destruct (enable_needed_closure b m m' E) as (Hadd & Hiff & Hcl). clear H.
  clear E. assert (Hk : forall x, needed b m x -> enabled m x = true \/ known x).
  { intros x Hx%Hiff. destruct (enabled m x) eqn:Ex; [by left|]. right. by eapply added_known. }
  split_and!; [done|done|..].
  - intros x Hx. split; [by apply Hk|]. apply Hiff in Hx. destruct (Hcl x Hx) as (obj & E & _). by exists obj.
  - intros x e Hx Hun. destruct (Hcl x (proj2 (Hiff x) Hx)) as (obj & Eo & _).
    destruct Hun as [Hun|[[Hun _]|(dep & Hdep & Hnk & He & _)]]; [congruence..|].
    destruct (Hk dep); [|congruence|done]. destruct Hx as (r & Hr & Hrx). exists r. split; [done|]. by eapply rtc_r.
Qed.

(** ** What is left in the groups *)

Definition built_program (m : mods) (obj : tgen) : bool :=
  match ns3_module_dependencies obj with Some deps => forallb (enabled m) deps | None => false end.
Definition kept (m : mods) (obj : tgen) : bool :=
  match ns3_module_dependencies obj with Some deps => forallb (enabled m) deps | None => true end
  && (negb (is_ns3_module obj) || enabled m (name obj))
  && (negb (is_ns3_module_test_library obj) || ENABLE_TESTS && enabled m (module_name obj))
  && (negb (contains "ns3pcfile" (features obj)) || enabled m (module obj)).
Definition header_removed (m : mods) (obj : tgen) : bool :=
  (contains "ns3moduleheader" (features obj) || contains "ns3header" (features obj)
   || contains "ns3privateheader" (features obj)) && negb (enabled m ("ns3-" +:+ module obj)).
Definition oids (l : list tgen) : list nat := map oid l.

Lemma remove_object_None obj g : oid obj ∉ oids g -> remove_object obj g = None.
Proof.
  induction g as [|tg g IH]; [done|]. cbn. rewrite not_elem_of_cons. intros [Hne Hg].
  rewrite (proj2 (Nat.eqb_neq _ _)) by done. by rewrite IH.
Qed.
Lemma filter_fresh obj g : oid obj ∉ oids g -> filter (fun o => oid o <> oid obj) g = g.
Proof.
  induction g as [|tg g IH]; [done|]. cbn [oids map]. rewrite not_elem_of_cons. intros [Hne Hg].
  rewrite filter_cons_True by done. by rewrite IH.
Qed.
Lemma remove_object_spec obj g : NoDup (oids g) ->
  remove_object obj g = if decide (oid obj ∈ oids g) then Some (filter (fun o => oid o <> oid obj) g) else None.
Proof.
  intros Hnd. case_decide as Hin; [|by apply remove_object_None]. revert Hnd Hin.
  induction g as [|tg g IH]; [by intros _ ?%elem_of_nil|]. cbn [oids map remove_object].
  intros [Hnin Hnd]%NoDup_cons Hin. destruct (Nat.eqb_spec (oid tg) (oid obj)) as [E|E].
  - rewrite filter_cons_False by (by intros []). rewrite filter_fresh; [done|]. by rewrite <- E.
  - rewrite filter_cons_True by done. apply elem_of_cons in Hin as [|Hin]; [congruence|].
    by rewrite (IH Hnd Hin).
Qed.
Lemma oid_inj l o o' : NoDup (oids l) -> o ∈ l -> o' ∈ l -> oid o = oid o' -> o = o'.
Proof.
  change (oids l) with (oid <$> l). intros Hnd Ho Ho' E. apply list_elem_of_lookup in Ho as [i Hi], Ho' as [j Hj].
  assert (i = j) as ->; [|congruence]. eapply NoDup_lookup; [exact Hnd|..].
  - rewrite list_lookup_fmap, Hi. done.
  - rewrite list_lookup_fmap, Hj. cbn. by rewrite E.
Qed.
Lemma oids_app l1 l2 : oids (l1 ++ l2) = oids l1 ++ oids l2.
Proof. apply map_app. Qed.
Lemma exclude_from_spec obj gs : NoDup (oids (concat gs)) ->
  exclude_from obj gs = map (filter (fun o => oid o <> oid obj)) gs.
Proof.
  induction gs as [|g gs IH]; [done|]. cbn [concat exclude_from map]. rewrite oids_app.
  intros (Hg & Hdisj & Hgs)%NoDup_app. rewrite remove_object_spec by done. case_decide as Hin.
  - f_equal. specialize (Hdisj _ Hin). clear - Hdisj. induction gs as [|g' gs IH]; [done|]. cbn in *.
    rewrite oids_app, not_elem_of_app in Hdisj. destruct Hdisj. by rewrite filter_fresh, <- IH.
  - by rewrite filter_fresh, IH.
Qed.
Lemma concat_filter P `{forall o : tgen, Decision (P o)} gs : concat (map (filter P) gs) = filter P (concat gs).
Proof. induction gs as [|g gs IH]; [done|]. cbn. by rewrite filter_app, IH. Qed.
Lemma NoDup_oids_filter P `{forall o : tgen, Decision (P o)} l : NoDup (oids l) -> NoDup (oids (filter P l)).
Proof. intros Hnd. eapply sublist_NoDup; [exact Hnd|]. apply (fmap_sublist oid), sublist_filter. Qed.
Lemma exclude_from_idem obj gs : NoDup (oids (concat gs)) -> exclude_from obj (exclude_from obj gs) = exclude_from obj gs.
Proof.
  intros Hnd. rewrite !exclude_from_spec; [..|done|]; rewrite ?exclude_from_spec by done.
  - rewrite map_map. apply map_ext. intros g. by rewrite list_filter_filter_l by done.
  - rewrite concat_filter. by apply NoDup_oids_filter.
Qed.

(** The changes that one round can make: whether the object leaves its group, whether its mode becomes [remove],
    and the names that are listed. *)
Definition update (obj : tgen) (ex rm : bool) (ps : list string) (b : bld) : bld :=
  {| groups := if ex then exclude_from obj (groups b) else groups b;
     current_group := current_group b; next_oid := next_oid b;
     modes := if rm then <[oid obj := "remove"]> (modes b) else modes b;
     NS3_MODULES_WITH_TEST_LIBRARIES := NS3_MODULES_WITH_TEST_LIBRARIES b;
     NS3_ENABLED_MODULE_TEST_LIBRARIES := NS3_ENABLED_MODULE_TEST_LIBRARIES b;
     NS3_SCRIPT_DEPENDENCIES := NS3_SCRIPT_DEPENDENCIES b;
     NS3_RUNNABLE_PROGRAMS := NS3_RUNNABLE_PROGRAMS b ++ ps;
     NS3_RUNNABLE_SCRIPTS := NS3_RUNNABLE_SCRIPTS b |}.
Lemma update_nothing obj b : b = update obj false false [] b.
Proof. destruct b. unfold update. cbn. by rewrite app_nil_r. Qed.
Lemma update_headers m feature obj ex rm ps b :
  exclude_headers m feature obj (update obj ex rm ps b) =
  update obj ex (rm || contains feature (features obj) && negb (enabled m ("ns3-" +:+ module obj))) ps b.
Proof.
  unfold exclude_headers. destruct (_ && _); [|by rewrite orb_false_r]. rewrite orb_true_r.
  unfold update, set_mode. cbn. by destruct rm; rewrite ?insert_insert_eq.
Qed.
Lemma update_exclude c obj ex rm ps b : NoDup (oids (all_task_gen b)) ->
  exclude_if c obj (update obj ex rm ps b) = update obj (ex || c) rm ps b.
Proof.
  intros Hnd. unfold exclude_if. destruct c; [|by rewrite orb_false_r]. rewrite orb_true_r.
  unfold _exclude_taskgen, with_groups, update. cbn. destruct ex; [|done]. by rewrite exclude_from_idem.
Qed.
Lemma update_program m obj rm b : NoDup (oids (all_task_gen b)) ->
  check_program m obj (update obj false rm [] b) =
  update obj (match ns3_module_dependencies obj with Some deps => negb (forallb (enabled m) deps) | None => false end) rm
    (if built_program m obj then [object_relative_path obj] else []) b.
Proof.
  intros Hnd. unfold check_program, built_program. destruct (ns3_module_dependencies obj) as [deps|]; [|done].
  destruct (forallb (enabled m) deps); [|by apply (update_exclude true obj false)].
  unfold add_runnable_program, update. cbn. by rewrite app_nil_r.
Qed.
Lemma exclude_disabled_spec m b obj : NoDup (oids (all_task_gen b)) ->
  exclude_disabled m b obj =
  update obj (negb (kept m obj)) (header_removed m obj) (if built_program m obj then [object_relative_path obj] else []) b.
Proof.
  intros Hnd. unfold exclude_disabled. rewrite (update_nothing obj b) at 1.
  rewrite update_headers, update_program, !update_exclude, !update_headers, update_exclude by done. f_equal.
  - unfold kept. destruct (ns3_module_dependencies obj) as [deps|]; btauto.
  - unfold header_removed. btauto.
Qed.

Lemma update_groups obj ex rm ps b : NoDup (oids (all_task_gen b)) ->
  groups (update obj ex rm ps b) = map (filter (fun o => ex = false \/ oid o <> oid obj)) (groups b).
Proof.
  intros Hnd. cbn. destruct ex.
  - rewrite exclude_from_spec by done. apply map_ext. intros g. apply list_filter_iff. naive_solver.
  - symmetry. rewrite <- (map_id (groups b)) at 2. apply map_ext. intros g.
    induction g as [|o g IH]; [done|]. rewrite filter_cons_True by auto. by rewrite IH.
Qed.
(** The loop over some of the objects. *)
Definition stays (m : mods) (l : list tgen) (o : tgen) : Prop :=
  Forall (fun obj => oid obj = oid o -> kept m obj = true) l.
#[local] Instance stays_dec m l o : Decision (stays m l o).
Proof. unfold stays. apply _. Defined.
Lemma exclude_loop m l : forall b, NoDup (oids (all_task_gen b)) -> NoDup (oids l) ->
  let b' := foldl (exclude_disabled m) b l in
  groups b' = map (filter (stays m l)) (groups b) /\
  NS3_RUNNABLE_PROGRAMS b' = NS3_RUNNABLE_PROGRAMS b
    ++ map object_relative_path (filter (fun obj => built_program m obj = true) l) /\
  (forall obj, obj ∈ l -> modes b' !! oid obj = (if header_removed m obj then Some "remove" else modes b !! oid obj)) /\
  (forall i, i ∉ oids l -> modes b' !! i = modes b !! i) /\
  NS3_SCRIPT_DEPENDENCIES b' = NS3_SCRIPT_DEPENDENCIES b /\
  NS3_ENABLED_MODULE_TEST_LIBRARIES b' = NS3_ENABLED_MODULE_TEST_LIBRARIES b.
Proof.
  induction l as [|obj l IH]; intros b Hb Hl; cbn [foldl].
  { cbn. rewrite app_nil_r. split_and!; try done; [|by intros ? ?%elem_of_nil].
    rewrite <- (map_id (groups b)) at 1. apply map_ext. intros g.
    induction g as [|o g IHg]; [done|]. rewrite filter_cons_True by constructor. by rewrite <- IHg. }
  cbn [oids map] in Hl. apply NoDup_cons in Hl as [Hnin Hl].
  pose proof (update_groups obj (negb (kept m obj)) (header_removed m obj)
    (if built_program m obj then [object_relative_path obj] else []) b Hb) as Hg.
  rewrite exclude_disabled_spec by done. set (b1 := update _ _ _ _ _) in *.
  destruct (IH b1) as (Hgs & Hps & Hms & Hfr & Hsd & Htl); [|done|].
  { unfold all_task_gen. rewrite Hg, concat_filter. by apply NoDup_oids_filter. }
  split_and!.
  - rewrite Hgs, Hg, map_map. apply map_ext. intros g. rewrite list_filter_filter. apply list_filter_iff.
    intros o. unfold stays. rewrite Forall_cons. destruct (kept m obj); cbn.
    + split; [intros [H _]; by split|intros [_ H]; split; [done|by left]].
    + split; [intros [H [|Hne]]; [done|]; by split; [intros E; destruct Hne|]|].
      intros [H1 H2]. split; [done|]. right. intros E. by specialize (H1 (eq_sym E)).
  - rewrite Hps. subst b1. cbn [update NS3_RUNNABLE_PROGRAMS]. rewrite <- app_assoc. f_equal.
    destruct (built_program m obj) eqn:Hp.
    + by rewrite filter_cons_True by done.
    + by rewrite filter_cons_False by (by rewrite Hp).
  - intros o [->|Ho]%elem_of_cons.
    + rewrite Hfr by done. subst b1. cbn. destruct (header_removed m obj); [by rewrite lookup_insert_eq|done].
    + rewrite Hms by done. subst b1. cbn. destruct (header_removed m o); [done|].
      destruct (header_removed m obj); [|done]. rewrite lookup_insert_ne; [done|]. intros E. apply Hnin. rewrite E.
      by apply list_elem_of_fmap_2.
  - intros i. cbn [oids map]. rewrite not_elem_of_cons. intros [Hne Hi]. rewrite Hfr by done. subst b1. cbn.
    destruct (header_removed m obj); [|done]. by rewrite lookup_insert_ne.
  - by rewrite Hsd.
  - by rewrite Htl.
Qed.

(** The whole loop, over the objects of all groups. *)
Lemma exclude_all m b : NoDup (oids (all_task_gen b)) ->
  let b' := foldl (exclude_disabled m) b (all_task_gen b) in
  groups b' = map (filter (fun o => kept m o = true)) (groups b) /\
  NS3_RUNNABLE_PROGRAMS b' = NS3_RUNNABLE_PROGRAMS b
    ++ map object_relative_path (filter (fun obj => built_program m obj = true) (all_task_gen b)) /\
  (forall obj, obj ∈ all_task_gen b -> modes b' !! oid obj = (if header_removed m obj then Some "remove" else modes b !! oid obj)) /\
  NS3_SCRIPT_DEPENDENCIES b' = NS3_SCRIPT_DEPENDENCIES b /\
  NS3_ENABLED_MODULE_TEST_LIBRARIES b' = NS3_ENABLED_MODULE_TEST_LIBRARIES b.
Proof.
  intros Hb. destruct (exclude_loop m (all_task_gen b) b Hb Hb) as (Hg & Hp & Hm & _ & Hs & Ht). split_and!; try done.
  rewrite Hg. clear Hg Hp Hm Hs Ht. apply map_ext_in. intros g Hin%list_elem_of_In.
  assert (Hsub : forall o, o ∈ g -> o ∈ all_task_gen b) by (intros o Ho; apply list_elem_of_In, in_concat; exists g; by rewrite <- !list_elem_of_In).
  assert (Hiff : forall o, o ∈ g -> stays m (all_task_gen b) o <-> kept m o = true).
  { intros o Ho%Hsub. unfold stays. rewrite Forall_forall. split; [by auto|]. intros Hk o' Ho' E.
    by rewrite (oid_inj (all_task_gen b) o' o). }
  clear Hin Hsub. induction g as [|o g IH]; [done|]. rewrite !filter_cons, IH by (intros o' Ho'; apply Hiff; by right).
  pose proof (Hiff o ltac:(by left)). by do 2 case_decide; try tauto.
Qed.

(** ** The build as a whole *)

(** A program's object is not one of a library or of a file for pkg-config. *)
Definition plain_program (o : tgen) : Prop :=
  is_Some (ns3_module_dependencies o) ->
  is_ns3_module o = false /\ is_ns3_module_test_library o = false /\ contains "ns3pcfile" (features o) = false.
Definition well_formed (b : bld) : Prop :=
  NoDup (oids (all_task_gen b)) /\ forall o, o ∈ all_task_gen b -> oid o < next_oid b /\ plain_program o.
Definition grows (b b' : bld) : Prop :=
  (forall o, o ∈ all_task_gen b -> o ∈ all_task_gen b') /\ NS3_RUNNABLE_PROGRAMS b' = NS3_RUNNABLE_PROGRAMS b.
(** A module's object, as [create_ns3_module] makes it. *)
Definition module_object (o : tgen) : Prop :=
  is_ns3_module o = true /\ is_ns3_module_test_library o = false /\ ns3_module_dependencies o = None /\
  contains "ns3pcfile" (features o) = false.
(** What is assumed of waf and of the wscripts below: they create objects and remove none, and leave
    the list of programs alone; a name is found only if an object has it, and the names of modules are those of
    their objects. *)
Record waf_laws : Prop := {
  recurse_grows : forall d b b', recurse d b = Ok b' -> well_formed b -> well_formed b' /\ grows b b';
  get_found : forall b x o, get_tgen_by_name b x = inr (Some o) -> o ∈ all_task_gen b /\ name o = x;
  get_module : forall b x o, known x -> get_tgen_by_name b x = inr (Some o) -> module_object o }.

Lemma bld_grows_refl b : grows b b.
Proof. by split. Qed.
Lemma bld_grows_trans b b' b'' : grows b b' -> grows b' b'' -> grows b b''.
Proof. intros [H1 E1] [H2 E2]. split; [auto|congruence]. Qed.

Lemma concat_alter (x : tgen) i gs :
  concat (alter (fun g => g ++ [x]) i gs) ≡ₚ (if decide (i < length gs) then [x] else []) ++ concat gs.
Proof.
  revert i. induction gs as [|g gs IH]; intros i; [done|]. destruct i as [|i].
  - cbn. rewrite decide_True by lia. cbn. rewrite <- app_assoc. cbn. by rewrite Permutation_middle.
  - change (concat (alter _ (S i) (g :: gs))) with (g ++ concat (alter (fun g => g ++ [x]) i gs)). rewrite IH.
    cbn [length concat]. destruct (decide (i < length gs)).
    + rewrite decide_True by lia. cbn. by rewrite Permutation_middle.
    + by rewrite decide_False by lia.
Qed.
Lemma add_tgen_ok make b : (forall i, oid (make i) = i) -> (forall i, plain_program (make i)) -> well_formed b ->
  well_formed (add_tgen make b) /\ grows b (add_tgen make b).
Proof.
  intros Hmake Hplain [Hnd Hlt]. unfold well_formed, grows, all_task_gen in *. cbn [add_tgen groups next_oid NS3_RUNNABLE_PROGRAMS].
  set (x := make (next_oid b)) in *. pose proof (concat_alter x (current_group b) (groups b)) as Hp.
  assert (Hx : oid x = next_oid b) by apply Hmake. split_and!; [..|done].
  - rewrite (fmap_Permutation oid _ _ Hp : oids _ ≡ₚ oids _). case_decide; [|done]. cbn. apply NoDup_cons. split; [|done].
    intros (o & Ho & Hin)%list_elem_of_fmap. destruct (Hlt o Hin). lia.
  - intros o. rewrite Hp, elem_of_app. intros [Ho|Ho]; [|destruct (Hlt o Ho); split; [lia|done]].
    case_decide; [|by apply elem_of_nil in Ho]. apply list_elem_of_singleton in Ho as ->. split; [lia|apply Hplain].
  - intros o Ho. rewrite Hp. apply elem_of_app. by right.
Qed.
Lemma foldl_grows {A} (f : bld -> A -> bld) l :
  (forall b x, well_formed b -> well_formed (f b x) /\ grows b (f b x)) ->
  forall b, well_formed b -> well_formed (foldl f b l) /\ grows b (foldl f b l).
Proof.
  intros Hf. induction l as [|x l IH]; intros b Hb; [by split; [|apply bld_grows_refl]|]. cbn.
  destruct (Hf b x Hb) as [H1 G1], (IH _ H1) as [H2 G2]. split; [done|by eapply bld_grows_trans].
Qed.
Lemma add_scratch_grows m b : well_formed b -> well_formed (add_scratch_programs m b) /\ grows b (add_scratch_programs m b).
Proof.
  unfold add_scratch_programs. destruct (listdir "scratch") as [l|]; [|by split; [|apply bld_grows_refl]].
  apply foldl_grows. intros b1 [filename isdir] Hb1.
  destruct (skipped filename); [by split; [|apply bld_grows_refl]|]. destruct isdir; [by apply add_tgen_ok|].
  destruct (without_cc filename); [by apply add_tgen_ok|by split; [|apply bld_grows_refl]].
Qed.
Lemma add_examples_grows b b' : waf_laws -> add_examples_programs b = Ok b' -> well_formed b -> well_formed b' /\ grows b b'.
Proof.
  intros W. unfold add_examples_programs. destruct ENABLE_EXAMPLES; [|intros [= <-] ?; by split; [|apply bld_grows_refl]].
  destruct (listdir "examples") as [l|]; [|intros [= <-] ?; by split; [|apply bld_grows_refl]].
  revert b. induction l as [|[dir isdir] l IH]; intros b; cbn [for_each]; [intros [= <-] ?; by split; [|apply bld_grows_refl]|].
  intros (b1 & H1 & H2)%res_bind_ok Hb.
  assert (well_formed b1 /\ grows b b1) as [Hb1 G1].
  { destruct (skipped dir); [simplify_eq; by split; [|apply bld_grows_refl]|].
    destruct isdir; [by apply (recurse_grows W (path_join "examples" dir))|simplify_eq; by split; [|apply bld_grows_refl]]. }
  destruct (IH b1 H2 Hb1) as [H3 G3]. split; [done|by eapply bld_grows_trans].
Qed.

(** What is left in the groups: see the theorem below. *)
Lemma build_left b b0 b1 m m' b' : waf_laws -> well_formed b ->
  (forall x, enabled m x = true -> known x) -> any_enabled m = true ->
  recurse "src" (reset_lists b) = Ok b0 -> recurse "contrib" b0 = Ok b1 -> build m b = Ok (m', b') ->
  (forall x, enabled m' x = true <-> needed b1 m x) /\
  (forall x, needed b1 m x -> exists o, o ∈ all_task_gen b' /\ name o = x /\ is_ns3_module o = true /\
     forall y, y ∈ use o -> starts_with "ns3-" y = true -> needed b1 m y) /\
  (forall o, o ∈ all_task_gen b' -> is_ns3_module o = true -> needed b1 m (name o)) /\
  (forall o deps, o ∈ all_task_gen b' -> ns3_module_dependencies o = Some deps -> forall dep, dep ∈ deps -> needed b1 m dep) /\
  NS3_RUNNABLE_PROGRAMS b' =
    map object_relative_path (filter (fun o => is_Some (ns3_module_dependencies o)) (all_task_gen b')) /\
  (forall o, o ∈ all_task_gen b' -> kept m' o = true).
Proof.
  intros W Hb Hknown Hany Hsrc Hcontrib H. unfold build in H. rewrite Hsrc in H. cbn in H. rewrite Hcontrib in H.
  cbn in H. rewrite Hany in H. apply res_bind_ok in H as (m1 & Hm & H).
  destruct (enable_needed_closure _ _ _ Hm) as (Hadd & Hiff & Hcl).
  assert (Hany1 : any_enabled m1 = true).
  { unfold any_enabled in *. apply negb_true_iff, bool_decide_eq_false in Hany. apply negb_true_iff, bool_decide_eq_false.
    intros E. apply Hany. destruct (names m) as [|x l] eqn:En; [done|].
    assert (Hx : x ∈ names m1). { apply enabled_names, (added_enabled _ m m1 x Hadd), enabled_names. rewrite En. by left. }
    rewrite E in Hx. by apply elem_of_nil in Hx. }
  cbv zeta in H. rewrite Hany1 in H. apply res_bind_ok in H as (b2 & Hex & H). apply res_bind_ok in H as (scripts & _ & H).
  simplify_eq. set (b3 := add_scratch_programs m' b2) in *.
  destruct (recurse_grows W _ _ _ Hsrc) as [Hb0 G0]; [by destruct Hb|].
  destruct (recurse_grows W _ _ _ Hcontrib Hb0) as [Hb1 G1].
  assert (Hb3 : well_formed b3 /\ grows b1 b3).
  { destruct (add_examples_grows _ _ W Hex Hb1) as [Hb2 G2]. destruct (add_scratch_grows m' b2 Hb2) as [Hb3 G3].
    split; [done|]. eapply bld_grows_trans; [exact G2|exact G3]. }
  destruct Hb3 as [[Hnd3 Hnd3'] G3]. destruct (exclude_all m' b3 Hnd3) as (Hg & Hp & _).
  assert (Hall : forall o, o ∈ concat (groups (foldl (exclude_disabled m') b3 (all_task_gen b3))) <->
    kept m' o = true /\ o ∈ all_task_gen b3) by (intros o; by rewrite Hg, concat_filter, list_elem_of_filter).
  set (b4 := foldl _ _ _) in *. unfold all_task_gen at 1 2 3 4 5. cbn [set_lists groups NS3_RUNNABLE_PROGRAMS].
  assert (Hx : forall x, needed b1 m x -> exists o, o ∈ all_task_gen b3 /\ name o = x /\ module_object o /\
    forall y, y ∈ use o -> starts_with "ns3-" y = true -> needed b1 m y).
  { intros x Hx. pose proof (proj2 (Hiff x) Hx) as Hen. destruct (Hcl x Hen) as (o & Ho & Huse).
    destruct (get_found W _ _ _ Ho) as [Hin Hname]. exists o. split_and!; [by apply G3|done|..].
    - apply (get_module W b1 x); [|done]. destruct (enabled m x) eqn:E; [by apply Hknown|].
      by eapply added_known.
    - intros y Hy Hs. apply Hiff, Huse. by exists o. }
  split_and!; [done|..].
  - intros x Hn. destruct (Hx x Hn) as (o & Hin & Hname & (H1 & H2 & H3 & H4) & Huse). exists o. split_and!; try done.
    apply Hall. split; [|done]. unfold kept. rewrite H1, H2, H3, H4, Hname. by rewrite (proj2 (Hiff x) Hn).
  - intros o [Hk _]%Hall Hmod. apply Hiff. unfold kept in Hk. rewrite Hmod, !andb_true_iff in Hk. by destruct Hk as [[[_ ?] _] _].
  - intros o deps [Hk _]%Hall Hdeps dep Hdep. apply Hiff. unfold kept in Hk. rewrite Hdeps, !andb_true_iff, forallb_forall in Hk.
    destruct Hk as [[[Hk _] _] _]. by apply Hk, list_elem_of_In.
  - rewrite Hp, (proj2 G3), (proj2 G1), (proj2 G0), Hg, concat_filter. cbn [app reset_lists NS3_RUNNABLE_PROGRAMS]. f_equal.
    rewrite list_filter_filter. change (concat (groups b3)) with (all_task_gen b3).
    assert (Hpl : forall o, o ∈ all_task_gen b3 -> plain_program o) by (intros o Ho; by apply Hnd3').
    clear - Hpl. induction (all_task_gen b3) as [|o l IH]; [done|]. rewrite !filter_cons, IH by (intros o' Ho'; apply Hpl; by right).
    assert (built_program m' o = true <-> is_Some (ns3_module_dependencies o) /\ kept m' o = true) as Hiff; [|by do 2 case_decide; try tauto].
    specialize (Hpl o ltac:(by left)). unfold built_program, kept, plain_program in *.
    destruct (ns3_module_dependencies o) as [deps|]; [|by split; [|intros [[] _]]].
    destruct Hpl as (-> & -> & ->); [done|]. cbn. rewrite !andb_true_r. split; [by split|by intros []].
  - by intros o [Hk _]%Hall.
Qed.


(** When nothing is enabled, nothing is taken out: all modules are built, and no program is listed. *)
Lemma build_nothing_enabled b b0 b1 b2 m' b' : recurse "src" (reset_lists b) = Ok b0 -> recurse "contrib" b0 = Ok b1 ->
  add_examples_programs (set_lists [] [] b1) = Ok b2 -> build (Mods [] []) b = Ok (m', b') ->
  m' = Mods [] [] /\ all_task_gen b' = all_task_gen (add_scratch_programs (Mods [] []) b2).
Proof.
  intros H0 H1 H2 H. unfold build in H. rewrite H0 in H. cbn in H. rewrite H1 in H. cbn in H. rewrite H2 in H.
  cbn [res_bind] in H. by apply res_bind_ok in H as (scripts & _ & [= <- <-]).
Qed.

Lemma script_runnable_enabled m deps : script_runnable (Some m) deps = Ok (forallb (enabled m) deps).
Proof. induction deps as [|dep deps IH]; [done|]. cbn. by destruct (enabled m dep). Qed.
Definition script_built (m : mods) (s : string * list string) : bool := forallb (enabled m) s.2.
(** The scripts are those whose dependencies are all enabled; without any enabled module the first
    dependency of a script stops the build. *)
Lemma runnable_scripts_enabled m l :
  runnable_scripts (Some m) l = Ok (map fst (List.filter (script_built m) l)).
Proof.
  unfold runnable_scripts. rewrite <- (app_nil_l (map fst _)). generalize (@nil string).
  induction l as [|s l IH]; intros acc; cbn; [by rewrite app_nil_r|].
  unfold add_script at 1. rewrite script_runnable_enabled. cbn. rewrite IH. unfold script_built at 2.
  destruct (forallb (enabled m) s.2); cbn; [|done]. by rewrite <- app_assoc.
Qed.
Lemma runnable_scripts_unbound l :
  (exists s, s ∈ l /\ s.2 <> []) -> runnable_scripts None l = Raise UnboundLocalError.
Proof.
  intros (s & Hin & Hs). unfold runnable_scripts. generalize (@nil string). revert Hin.
  induction l as [|[x deps] l IH]; intros Hin acc; [by apply elem_of_nil in Hin|]. cbn. unfold add_script at 1. cbn.
  destruct deps as [|dep deps]; cbn; [|done]. apply IH. apply elem_of_cons in Hin as [->|Hin]; [done|done].
Qed.

(** The programs of the scratch directory need all enabled modules, so they are always built; their entries
    in the list of programs have the name that other programs have, but their target has not. *)
Lemma scratch_kept m prog dir files id : (forall x, x ∈ names m -> exists y, x = "ns3-" +:+ y) ->
  kept m (scratch_program (map (str_drop (String.length "ns3-")) (names m)) prog dir files id) = true.
Proof.
  intros Hn. unfold kept. cbn. rewrite !andb_true_r, forallb_forall. intros x Hx.
  apply in_map_iff in Hx as (y & <- & Hy). apply in_map_iff in Hy as (z & <- & Hz). apply list_elem_of_In in Hz.
  destruct (Hn z Hz) as [w ->]. by apply enabled_names.
Qed.
Lemma scratch_listed_elsewhere mods prog dir files id : APPNAME <> "" ->
  target (scratch_program mods prog dir files id) <> program_file (name (scratch_program mods prog dir files id)).
Proof.
  intros Ha E. cbn in E. apply (f_equal String.length) in E. unfold program_file in E. rewrite !str_length_append in E.
  destruct APPNAME; cbn in E; [done|lia].
Qed.
End Build.

(** ** A concrete build *)

Definition sample_module (modname : string) (deps : list string) (id : nat) : tgen :=
  {| oid := id; name := "ns3-" +:+ modname; target := "lib/" +:+ modname; features := "cxx cxxshlib ns3module"; path := "src/" +:+ modname;
     source := []; includes := "#"; use := map (fun dep => "ns3-" +:+ dep) deps; installed := true; env_set := [];
     module := ""; ns3_module_dependencies := None; is_ns3_module := true; is_ns3_module_test_library := false; module_name := "" |}.
Definition sample_pcfile (modname : string) (id : nat) : tgen :=
  {| oid := id; name := ""; target := ""; features := "ns3pcfile"; path := ""; source := []; includes := ""; use := [];
     installed := true; env_set := []; module := "ns3-" +:+ modname; ns3_module_dependencies := None;
     is_ns3_module := false; is_ns3_module_test_library := false; module_name := "" |}.
Definition sample_program (prog : string) (deps : list string) : nat -> tgen :=
  create_ns3_program "ns" "3" false "-debug" "linux" "elf" "gcc" "gcc" prog deps "examples/tutorial".
Definition add_all (l : list (nat -> tgen)) (b : bld) : bld := foldl (fun b make => add_tgen make b) b l.
(** The wscripts of three modules, the third of which nothing needs, and of the directory of examples. *)
Definition sample_recurse (d : string) (b : bld) : res build_exn bld :=
  if decide (d = "src") then
    Ok (add_all
      [sample_module "core" []; sample_pcfile "core"; sample_module "network" ["core"]; sample_pcfile "network";
       sample_module "wifi" ["network"]; sample_pcfile "wifi"] b)
  else if decide (d = "examples/tutorial") then
    Ok (register_ns3_script "examples/tutorial/first.py" ["network"]
      (add_all [sample_program "first" ["core"; "network"]; sample_program "third" ["wifi"]] b))
  else Ok b.
Definition is_module_object (o : tgen) : bool :=
  is_ns3_module o && negb (is_ns3_module_test_library o) && bool_decide (ns3_module_dependencies o = None)
  && negb (contains "ns3pcfile" (features o)).
Definition sample_get (b : bld) (x : string) : build_exn + option tgen :=
  match List.find (fun o => bool_decide (name o = x) && is_module_object o) (all_task_gen b) with
  | Some o => inr (Some o)
  | None => inl (WafError ("Could not find a task generator for the name " +:+ x))
  end.
Definition sample_listdir (d : string) : option (list (string * bool)) :=
  if decide (d = "examples") then Some [("tutorial", true); ("README", false)]
  else if decide (d = "scratch") then Some [("scratch-simulator.cc", false); (".hidden", true); ("notes.txt", false)] else None.
Definition sample_modules : list string := ["ns3-core"; "ns3-network"; "ns3-wifi"].
Definition sample_bld : bld := Bld [[]] 0 0 ∅ [] [] [] [] [].
Definition sample_build (m : mods) : res build_exn (mods * bld) :=
  build "ns" "3" "/top" "/top" sample_modules [] true true false "-debug" "linux" "elf" "gcc" "gcc" sample_listdir sample_recurse
    sample_get (fun p => path_join "/top/build" p) (fun _ => []) m sample_bld.
(** What is built when only [network] is enabled: [core] too, and the programs and scripts that need no more. *)
Example sample_build_network : exists b, sample_build (Mods ["ns3-network"] []) = Ok (Mods ["ns3-network"; "ns3-core"] [], b) /\
  map name (all_task_gen b) = ["ns3-core"; ""; "ns3-network"; ""; "first"; "scratch-simulator"] /\
  NS3_RUNNABLE_PROGRAMS b = ["build/examples/tutorial/ns3-first-debug"; "build/scratch/ns3-scratch-simulator-debug"] /\
  NS3_RUNNABLE_SCRIPTS b = ["examples/tutorial/first.py"].
Proof. eexists. split; [vm_compute; reflexivity|]. split_and!; reflexivity. Qed.
(** A name that is not known, alone in [--enable-modules]. *)
Example sample_build_nothing : sample_build (Mods [] []) = Raise UnboundLocalError.
Proof. vm_compute. reflexivity. Qed.

Lemma add_all_ok l : Forall (fun make => forall i, oid (make i) = i /\ plain_program (make i)) l ->
  forall b, well_formed b -> well_formed (add_all l b) /\ grows b (add_all l b).
Proof.
  unfold add_all. induction l as [|make l IH]; intros Hl b1 Hb1; [by split; [|apply bld_grows_refl]|].
  apply Forall_cons in Hl as [Hm Hl]. destruct (add_tgen_ok make b1 ltac:(apply Hm) ltac:(apply Hm) Hb1) as [H1 G1].
  destruct (IH Hl _ H1) as [H2 G2]. split; [done|by eapply bld_grows_trans].
Qed.
Lemma sample_laws : waf_laws sample_modules [] sample_recurse sample_get.
Proof.
  split.
  - intros d b b' H Hb. unfold sample_recurse in H.
    case_decide; [|case_decide]; apply (f_equal (fun r => match r with Ok x => x | _ => b end)) in H; cbv beta iota in H; subst b'.
    + apply add_all_ok; [|done]. rewrite !Forall_cons. split_and!; try apply Forall_nil; try done; intros i; (split; [done|by intros [? [=]]]).
    + apply (add_all_ok [_; _]); [|done]. rewrite !Forall_cons. done.
    + by split; [|apply bld_grows_refl].
  - intros b x o H. unfold sample_get in H. destruct (List.find _ _) as [o'|] eqn:E; [|done]. simplify_eq.
    apply find_some in E as [Hin E]. apply andb_true_iff in E as [E%bool_decide_eq_true _]. by rewrite list_elem_of_In.
  - intros b x o _ H. unfold sample_get in H. destruct (List.find _ _) as [o'|] eqn:E; [|done]. simplify_eq.
    apply find_some in E as [_ E]. apply andb_true_iff in E as [_ E]. unfold is_module_object in E.
    rewrite !andb_true_iff, !negb_true_iff, bool_decide_eq_true in E. unfold module_object. tauto.
Qed.
