(* ===== verification/WafConfigure.v ===== *)
(** * What waf configures: [configure] of [src/wscript] and [src/src/wscript]

    Which modules exist and which are enabled, what is decided on tests and
    examples, the table of optional features with its summary, the profile that a later command reads from
    waf's lock file, and the check of an environment that [./waf shell] made.  [env[key] = other] shares a list: the
    list of enabled modules can be the list of all modules itself, see [module_list]. *)

From S2P Require Import Prelude PyLib Files WafRun WafBuild.
From Stdlib Require Import Ascii String.
From stdpp Require Import strings gmap sorting.
Open Scope string_scope.
Open Scope nat_scope.
Open Scope list_scope.

Inductive configure_exn :=
  | CannotBuild (not_built : string) | FeatureNotDeclared (name : string) | UnpackError | IndexError
  | WrongShell.

(** ** The modules of the tree *)

(** The directories below src that have a wscript. *)
Record dir_entry := { dirname : string; entry_isdir : bool; has_wscript : bool }.
Definition is_module_dir (e : dir_entry) : bool :=
  negb (starts_with "." (dirname e) || bool_decide (dirname e = "CVS")) && entry_isdir e && has_wscript e.
Definition find_modules (listing : list dir_entry) : list string :=
  merge_sort String.le (map dirname (List.filter is_module_dir listing)).
(** [conf.env['NS3_MODULES']] *)
Definition ns3_modules (all_modules : list string) : list string :=
  map (fun module => "ns3-" +:+ default "" (last (split_on "/" module))) all_modules.
(** [build] of src/wscript: the modules that are not built are not read; two of them are in a subdirectory. *)
Definition remove_module (all_modules : list string) (not_built : string) : list string :=
  let not_built := if decide (not_built = "ns3tcp" \/ not_built = "ns3wifi") then "test/" +:+ not_built else not_built in
  if decide (not_built ∈ all_modules) then list_remove not_built all_modules else all_modules.
Definition modules_to_read (MODULES_NOT_BUILT all_modules : list string) : list string :=
  foldl remove_module all_modules MODULES_NOT_BUILT.

(** ** The enabled modules *)

(** A list of the environment that may be the same object as the list of all modules of its kind. *)
Inductive module_list := Own (l : list string) | Shared.
Record module_env := { all_mods : list string; all_contrib : list string; en_mods : module_list; en_contrib : module_list }.
Definition list_of (own : list string) (l : module_list) : list string := match l with Own l => l | Shared => own end.
Definition enabled_mods (e : module_env) : list string := list_of (all_mods e) (en_mods e).
Definition enabled_contrib (e : module_env) : list string := list_of (all_contrib e) (en_contrib e).

(** One of the names that the user gave: unknown names are passed over. *)
Definition choose (e : module_env) (acc : list string * list string) (name : string) : list string * list string :=
  if decide (name ∈ all_mods e /\ starts_with "ns3-" name = true) then (acc.1 ++ [name], acc.2)
  else if decide ("ns3-" +:+ name ∈ all_mods e) then (acc.1 ++ ["ns3-" +:+ name], acc.2)
  else if decide (name ∈ all_contrib e /\ starts_with "ns3-" name = true) then (acc.1, acc.2 ++ [name])
  else if decide ("ns3-" +:+ name ∈ all_contrib e) then (acc.1, acc.2 ++ ["ns3-" +:+ name])
  else acc.
Definition enable (e : module_env) (l c : module_list) : module_env :=
  {| all_mods := all_mods e; all_contrib := all_contrib e; en_mods := l; en_contrib := c |}.
Definition choose_modules (e : module_env) (mods : list string) : module_env :=
  let '(l, c) := foldl (choose e) ([], []) mods in enable e (Own l) (Own c).
(** [--enable-modules], or the list of the configuration file. *)
Definition select_modules (enable_modules : option string) (modules_enabled : list string) (e : module_env)
    : res configure_exn module_env :=
  match enable_modules with
  | Some (String _ _ as s) => Ok (choose_modules e (split_on "," s))
  | _ =>
      match modules_enabled with
      | [] => Raise IndexError
      | first :: _ => Ok (if decide (first = "all_modules") then enable e Shared Shared else choose_modules e modules_enabled)
      end
  end.

(** [env['NS3_ENABLED_MODULES'].remove(name)]: from the list of all modules too, if it is that list. *)
Definition remove_enabled (e : module_env) (name : string) : module_env :=
  match en_mods e with
  | Own l => enable e (Own (list_remove name l)) (en_contrib e)
  | Shared => {| all_mods := list_remove name (all_mods e); all_contrib := all_contrib e;
                 en_mods := Shared; en_contrib := en_contrib e |}
  end.
Definition remove_contrib (e : module_env) (name : string) : module_env :=
  match en_contrib e with
  | Own l => enable e (en_mods e) (Own (list_remove name l))
  | Shared => {| all_mods := all_mods e; all_contrib := list_remove name (all_contrib e);
                 en_mods := en_mods e; en_contrib := Shared |}
  end.
Definition drop_not_built (e : module_env) (not_built : string) : res configure_exn module_env :=
  let not_built_name := "ns3-" +:+ not_built in
  if decide (not_built_name ∈ enabled_mods e) then
    let e := remove_enabled e not_built_name in
    if decide (enabled_mods e = []) then Raise (CannotBuild not_built) else Ok e
  else if decide (not_built_name ∈ enabled_contrib e) then Ok (remove_contrib e not_built_name)
  else Ok e.
(** The whole choice; the template module does not build statically on Darwin. *)
Definition configure_modules (ENABLE_STATIC_NS3 darwin : bool) (MODULES_NOT_BUILT : list string)
    (enable_modules : option string) (modules_enabled : list string) (e : module_env) : res configure_exn module_env :=
  let* e := select_modules enable_modules modules_enabled e in
  for_each drop_not_built (MODULES_NOT_BUILT ++ (if ENABLE_STATIC_NS3 && darwin then ["template"] else [])) e.

(** ** Optional features *)

Record feature := { f_name : string; caption : string; was_enabled : bool; reason_not_enabled : string }.
Definition report_optional_feature (l : list feature) (name caption : string) (was_enabled : bool) (reason : string) : list feature :=
  l ++ [{| f_name := name; caption := caption; was_enabled := was_enabled; reason_not_enabled := reason |}].
Fixpoint check_optional_feature (l : list feature) (name : string) : res configure_exn bool :=
  match l with
  | [] => Raise (FeatureNotDeclared name)
  | f :: l => if decide (f_name f = name) then Ok (was_enabled f) else check_optional_feature l name
  end.
(** Whether tests (or examples) are built, and the reason that is reported. *)
Definition decide_feature (what : string) (enable_option disable_option : bool) (config_file_exists rc_enabled : bool) : bool * string :=
  if enable_option then (true, "option --enable-" +:+ what +:+ " selected")
  else if disable_option then (false, "option --disable-" +:+ what +:+ " selected")
  else (rc_enabled,
        if config_file_exists then "based on configuration file"
        else if rc_enabled then "defaults to enabled" else "defaults to disabled").

(** [sorted(l, key=...)] keeps the order of equal keys. *)
Fixpoint insert_by (key : feature -> string) (x : feature) (l : list feature) : list feature :=
  match l with
  | [] => [x]
  | y :: l => if decide (String.le (key x) (key y)) then x :: y :: l else y :: insert_by key x l
  end.
Definition sorted_by (key : feature -> string) (l : list feature) : list feature := foldr (insert_by key) [] l.
(** [s.ljust(n)], ['%-30s' % s] *)
Fixpoint spaces (n : nat) : string := match n with O => "" | S n => String " " (spaces n) end.
Definition ljust (n : nat) (s : string) : string := s +:+ spaces (n - String.length s).
(** The summary; [colors] are the terminal's, or empty. *)
Definition status_line (colors : string -> string) (f : feature) : string :=
  let '(status, color) := if was_enabled f then ("enabled", "GREEN")
                          else ("not enabled (" +:+ reason_not_enabled f +:+ ")", "RED") in
  ljust 30 (caption f) +:+ ": " +:+ colors color +:+ status +:+ colors "NORMAL".
Definition print_config (colors : string -> string) (profile out_dir : string) (features : list feature) : list string :=
  ["---- Summary of optional NS-3 features:";
   ljust 30 "Build profile" +:+ ": " +:+ colors "GREEN" +:+ profile +:+ colors "NORMAL";
   ljust 30 "Build directory" +:+ ": " +:+ colors "GREEN" +:+ out_dir +:+ colors "NORMAL"]
  ++ map (status_line colors) (sorted_by caption features).

(** The names in three columns: every name is padded and followed by a space, [i] counts the column. *)
Fixpoint print_columns (i : nat) (names : list string) : string :=
  match names with
  | [] => if i =? 1 then "" else String newline ""
  | name :: names =>
      ljust 25 name +:+ " " +:+ (if i =? 3 then String newline (print_columns 1 names) else print_columns (i + 1) names)
  end.
Definition print_module_names (names : list string) : string := print_columns 1 (merge_sort String.le names).
(** The names that [shutdown] prints. *)
Definition built_names (MODULAR_BINDINGS_MODULES : list string) (m : mods) : list string :=
  map (fun name => str_drop (String.length "ns3-") name
         +:+ (if decide (name ∈ MODULAR_BINDINGS_MODULES) then "" else " (no Python)")) (names m).

(** ** The profile in the lock file *)

Definition remove_quotes (s : string) : string :=
  string_of_list_ascii (List.filter (fun c => negb (bool_decide (c = ascii_of_nat 39))) (list_ascii_of_string s)).
Fixpoint find_profile (options : list string) : res configure_exn (option string) :=
  match options with
  | [] => Ok None
  | x :: options =>
      match split_on ":" x with
      | [optkey; optval] =>
          if decide (lstrip optkey = "'build_profile'") then Ok (Some (remove_quotes (lstrip optval))) else find_profile options
      | _ => Raise UnpackError
      end
  end.
Fixpoint get_build_profile (lines : list string) : res configure_exn string :=
  match lines with
  | [] => Ok "not found"
  | line :: lines =>
      if starts_with "options =" line then
        let* found := find_profile (split_on "," (default "" (snd (split_once "=" line)))) in
        match found with Some p => Ok p | None => get_build_profile lines end
      else get_build_profile lines
  end.

(** ** Shells *)

(** The environment that [./waf shell] adds, and the check of the next command in that shell. *)
Definition shell_env (pathsep : string) (module_path executable_path : list string) : gmap string string :=
  <["NS3_MODULE_PATH" := str_join pathsep module_path]> {["NS3_EXECUTABLE_PATH" := str_join pathsep executable_path]}.
Definition check_shell (pathsep : string) (module_path executable_path : list string) (environ : gmap string string)
    : res configure_exn unit :=
  match environ !! "NS3_MODULE_PATH", environ !! "NS3_EXECUTABLE_PATH" with
  | Some found_modpath, Some found_execpath =>
      if decide (found_modpath <> str_join pathsep module_path \/ str_join pathsep executable_path <> found_execpath)
      then Raise WrongShell else Ok tt
  | _, _ => Ok tt
  end.

(** ** Properties of the choice *)

Lemma list_remove_ne (x : string) l : NoDup l -> list_remove x l = filter (fun y => y <> x) l.
Proof.
  induction 1 as [|y l Hy _ IH]; [done|]. cbn [list_remove]. case_decide as E.
  - subst y. rewrite filter_cons_False by (by intros []). symmetry.
    clear IH. induction l as [|z l IH]; [done|]. apply not_elem_of_cons in Hy as [Hz Hl].
    rewrite filter_cons_True by done. by rewrite IH.
  - rewrite filter_cons_True by done. by rewrite IH.
Qed.
Definition not_built_names (nbs : list string) : list string := map (fun nb => "ns3-" +:+ nb) nbs.
Definition without (nbs : list string) (l : list string) : list string := filter (fun x => x ∉ not_built_names nbs) l.
Lemma without_nil l : without [] l = l.
Proof. unfold without. induction l as [|x l IH]; [done|]. rewrite filter_cons_True by apply not_elem_of_nil. by rewrite IH. Qed.
Lemma without_cons nb nbs l : without (nb :: nbs) l = without nbs (filter (fun y => y <> "ns3-" +:+ nb) l).
Proof.
  unfold without. rewrite list_filter_filter. apply list_filter_iff. intros x. cbn. rewrite not_elem_of_cons. tauto.
Qed.
Lemma filter_absent (x : string) (l : list string) : x ∉ l -> filter (fun y => y <> x) l = l.
Proof.
  induction l as [|y l IH]; [done|]. rewrite not_elem_of_cons. intros [Hy Hl]. rewrite filter_cons_True by done. by rewrite IH.
Qed.
Lemma without_elem nbs l x : x ∈ without nbs l <-> (x ∉ not_built_names nbs) /\ x ∈ l.
Proof. unfold without. by rewrite list_elem_of_filter. Qed.

(** What the two lists of enabled modules may look like. *)
Definition distinct (e : module_env) : Prop :=
  NoDup (enabled_mods e) /\ NoDup (enabled_contrib e) /\ forall x, x ∈ enabled_mods e -> x ∉ enabled_contrib e.
(** The enabled modules are among all modules. *)
Definition within (e : module_env) : Prop :=
  (forall x, x ∈ enabled_mods e -> x ∈ all_mods e) /\ (forall x, x ∈ enabled_contrib e -> x ∈ all_contrib e).
Lemma remove_enabled_spec e x : enabled_mods (remove_enabled e x) = list_remove x (enabled_mods e) /\
  enabled_contrib (remove_enabled e x) = enabled_contrib e.
Proof. unfold remove_enabled, enabled_mods, enabled_contrib. by destruct (en_mods e) eqn:E; cbn. Qed.
Lemma remove_contrib_spec e x : enabled_contrib (remove_contrib e x) = list_remove x (enabled_contrib e) /\
  enabled_mods (remove_contrib e x) = enabled_mods e.
Proof. unfold remove_contrib, enabled_mods, enabled_contrib. by destruct (en_contrib e) eqn:E; cbn. Qed.
Lemma remove_enabled_within e x : NoDup (enabled_mods e) -> within e -> within (remove_enabled e x).
Proof.
  intros Hnd [Hm Hc]. unfold within. destruct (remove_enabled_spec e x) as [-> ->].
  rewrite list_remove_ne by done. revert Hnd Hm Hc. unfold remove_enabled, enabled_mods, enabled_contrib.
  destruct (en_mods e); cbn; intros Hnd Hm Hc; split; try done; intros y.
  - rewrite list_elem_of_filter. intros [_ ?]. by apply Hm.
  - by rewrite list_remove_ne.
Qed.
Lemma remove_contrib_within e x : NoDup (enabled_contrib e) -> within e -> within (remove_contrib e x).
Proof.
  intros Hnd [Hm Hc]. unfold within. destruct (remove_contrib_spec e x) as [-> ->].
  rewrite list_remove_ne by done. revert Hnd Hm Hc. unfold remove_contrib, enabled_mods, enabled_contrib.
  destruct (en_contrib e); cbn; intros Hnd Hm Hc; split; try done; intros y.
  - rewrite list_elem_of_filter. intros [_ ?]. by apply Hc.
  - by rewrite list_remove_ne.
Qed.

Lemma drop_not_built_spec nbs : forall e, distinct e -> within e ->
  match for_each drop_not_built nbs e with
  | Ok e' => enabled_mods e' = without nbs (enabled_mods e) /\ enabled_contrib e' = without nbs (enabled_contrib e) /\
      (enabled_mods e' = [] -> enabled_mods e = []) /\ within e'
  | Raise (CannotBuild nb) => nb ∈ nbs /\ "ns3-" +:+ nb ∈ enabled_mods e /\ without nbs (enabled_mods e) = []
  | _ => False
  end.
Proof.
  induction nbs as [|nb nbs IH]; intros e (Hm & Hc & Hd) Hw; [by cbn; rewrite !without_nil|].
  cbn [for_each]. unfold drop_not_built at 1. rewrite !without_cons.
  set (x := "ns3-" +:+ nb) in *. destruct (decide (x ∈ enabled_mods e)) as [Hx|Hx].
  - cbv zeta. destruct (remove_enabled_spec e x) as [Em Ec]. rewrite list_remove_ne in Em by done.
    rewrite (filter_absent x (enabled_contrib e)) by (by apply Hd).
    rewrite <- Em. destruct (decide (enabled_mods (remove_enabled e x) = [])) as [E|E]; cbn [res_bind].
    + split_and!; [by left|done|]. by rewrite E.
    + specialize (IH (remove_enabled e x)). rewrite Ec in IH.
      assert (H1 : distinct (remove_enabled e x)).
      { unfold distinct. rewrite Ec, Em. split_and!; [by apply NoDup_filter|done|].
        intros y [_ Hy]%list_elem_of_filter. by apply Hd. }
      specialize (IH H1 (remove_enabled_within e x Hm Hw)).
      destruct (for_each drop_not_built nbs (remove_enabled e x)) as [e'|[nb'| | | | ]|]; try done.
      * destruct IH as (? & ? & Hne & ?). split_and!; try done. intros Hnil. by destruct (E (Hne Hnil)).
      * destruct IH as (? & Hin & ?). split_and!; [by right| |done]. rewrite Em in Hin. by apply list_elem_of_filter in Hin as [_ ?].
  - rewrite (filter_absent x (enabled_mods e)) by done.
    destruct (decide (x ∈ enabled_contrib e)) as [Hx'|Hx']; cbn [res_bind].
    + destruct (remove_contrib_spec e x) as [Ec Em]. rewrite list_remove_ne in Ec by done.
      specialize (IH (remove_contrib e x)). rewrite Em, Ec in IH.
      assert (H1 : distinct (remove_contrib e x)).
      { unfold distinct. rewrite Ec, Em. split_and!; [done|by apply NoDup_filter|].
        intros y Hy [_ Hy']%list_elem_of_filter. by apply (Hd y). }
      specialize (IH H1 (remove_contrib_within e x Hc Hw)).
      destruct (for_each drop_not_built nbs (remove_contrib e x)) as [e'|[nb'| | | | ]|]; try done.
      destruct IH as (? & ? & ?). split_and!; [by right|done..].
    + rewrite (filter_absent x (enabled_contrib e)) by done. specialize (IH e (conj Hm (conj Hc Hd)) Hw).
      destruct (for_each drop_not_built nbs e) as [e'|[nb'| | | | ]|]; try done.
      destruct IH as (? & ? & ?). split_and!; [by right|done..].
Qed.

(** The module of a list that a name stands for: the one that has the name, if it begins with [ns3-], or the one that
    has it after [ns3-]. *)
Definition resolve_in (modules : list string) (name : string) : option string :=
  head (filter (fun x => x ∈ modules) ((if starts_with "ns3-" name then [name] else []) ++ ["ns3-" +:+ name])).
(** The modules and contributed modules that the user's option or, without one, the configuration file asks for. *)
Definition named (e : module_env) (names : list string) : list string * list string :=
  (omap (resolve_in (all_mods e)) names,
   omap (resolve_in (all_contrib e)) (filter (fun n => resolve_in (all_mods e) n = None) names)).
Definition wanted (opt : option string) (rc : list string) (e : module_env) : option (list string * list string) :=
  if decide (default "" opt <> "") then Some (named e (split_on "," (default "" opt)))
  else if decide (head rc = Some "all_modules") then Some (all_mods e, all_contrib e)
  else if decide (rc = []) then None else Some (named e rc).

Lemma resolve_in_elem l n x : resolve_in l n = Some x -> x ∈ l.
Proof. intros Hx%head_Some_elem_of. by apply list_elem_of_filter in Hx as [? _]. Qed.
Lemma resolve_in_cases l n : resolve_in l n =
  if decide (n ∈ l /\ starts_with "ns3-" n = true) then Some n
  else if decide ("ns3-" +:+ n ∈ l) then Some ("ns3-" +:+ n) else None.
Proof.
  unfold resolve_in. destruct (starts_with "ns3-" n); cbn [app].
  - destruct (decide (n ∈ l)) as [Hn|Hn].
    + by rewrite filter_cons_True, decide_True.
    + rewrite filter_cons_False, (decide_False (P := _ /\ _)) by tauto. cbn [filter list_filter]. by case_decide.
  - rewrite (decide_False (P := _ /\ _)) by (by intros []). cbn [filter list_filter]. by case_decide.
Qed.
Lemma choose_resolve e acc n : choose e acc n =
  (acc.1 ++ option_list (resolve_in (all_mods e) n),
   acc.2 ++ if decide (resolve_in (all_mods e) n = None) then option_list (resolve_in (all_contrib e) n) else []).
Proof.
  unfold choose. rewrite !resolve_in_cases.
  destruct (decide (n ∈ all_mods e /\ _)); [by rewrite (decide_False (P := Some _ = _)), app_nil_r|].
  destruct (decide ("ns3-" +:+ n ∈ all_mods e)); [by rewrite (decide_False (P := Some _ = _)), app_nil_r|].
  rewrite (decide_True (P := None = None)) by done. destruct acc as [l c]. cbn [option_list fst snd]. rewrite app_nil_r.
  destruct (decide (n ∈ all_contrib e /\ _)); [done|]. case_decide; [done|]. cbn. by rewrite app_nil_r.
Qed.
Lemma choose_modules_named e names :
  choose_modules e names = enable e (Own (named e names).1) (Own (named e names).2).
Proof.
  unfold choose_modules, named. cut (forall acc, foldl (choose e) acc names =
    (acc.1 ++ omap (resolve_in (all_mods e)) names,
     acc.2 ++ omap (resolve_in (all_contrib e)) (filter (fun n => resolve_in (all_mods e) n = None) names))).
  { intros H. by rewrite H. }
  induction names as [|n names IH]; intros acc; cbn [foldl]; [by destruct acc; cbn; rewrite !app_nil_r|].
  rewrite IH, choose_resolve. cbn [fst snd]. rewrite filter_cons. case_decide as Hn; cbn [omap list_omap].
  - rewrite Hn, <- !app_assoc. cbn. by destruct (resolve_in (all_contrib e) n).
  - rewrite <- !app_assoc. cbn. by destruct (resolve_in (all_mods e) n).
Qed.
(** The lists that are selected, and what is forgotten with them. *)
Lemma select_wanted opt rc e :
  match wanted opt rc e with
  | None => select_modules opt rc e = Raise IndexError
  | Some (l, c) => exists chosen, select_modules opt rc e = Ok chosen /\
      enabled_mods chosen = l /\ enabled_contrib chosen = c /\ within chosen
  end.
Proof.
  assert (Hn : forall names, enabled_mods (choose_modules e names) = (named e names).1 /\
    enabled_contrib (choose_modules e names) = (named e names).2 /\ within (choose_modules e names)).
  { intros names. rewrite choose_modules_named. unfold within. cbn [enable all_mods all_contrib enabled_mods enabled_contrib
      en_mods en_contrib list_of]. split_and!; [done..| |]; intros x (n & Hn & Hx)%list_elem_of_omap;
      by apply resolve_in_elem in Hx. }
  assert (Hrc : match (if decide (head rc = Some "all_modules") then Some (all_mods e, all_contrib e)
                 else if decide (rc = []) then None else Some (named e rc)) with
    | None => match rc with [] => Raise IndexError | first :: _ =>
        Ok (if decide (first = "all_modules") then enable e Shared Shared else choose_modules e rc) end = Raise IndexError
    | Some (l, c) => exists chosen, match rc with [] => Raise IndexError | first :: _ =>
        Ok (if decide (first = "all_modules") then enable e Shared Shared else choose_modules e rc) end = Ok chosen /\
      enabled_mods chosen = l /\ enabled_contrib chosen = c /\ within chosen
    end).
  { destruct rc as [|first rc]; [done|]. cbn [head]. destruct (decide (first = "all_modules")) as [->|Hf].
    - rewrite decide_True by done. exists (enable e Shared Shared). by repeat split.
    - rewrite decide_False, decide_False by congruence. specialize (Hn (first :: rc)).
      destruct (named e (first :: rc)). by eexists. }
  unfold wanted, select_modules. destruct opt as [[|c s]|]; cbn [default from_option id];
    [by rewrite decide_False by auto| |by rewrite decide_False by auto].
  rewrite decide_True by done. specialize (Hn (split_on "," (String c s))). destruct (named _ _). by eexists.
Qed.

Definition sample_env : module_env :=
  {| all_mods := ["ns3-brite"; "ns3-core"; "ns3-wifi"]; all_contrib := ["ns3-extra"]; en_mods := Shared; en_contrib := Shared |}.

(** A name given twice survives the removal of its module. *)
Example duplicate_stays :
  match configure_modules false false ["brite"] (Some "brite,brite") ["all_modules"] sample_env with
  | Ok e' => enabled_mods e' = ["ns3-brite"]
  | _ => False
  end.
Proof. reflexivity. Qed.
(** With all modules enabled, a module that cannot be built is forgotten by the list of all modules too. *)
Example all_modules_shared :
  match configure_modules false false ["brite"] None ["all_modules"] sample_env with
  | Ok e' => all_mods e' = ["ns3-core"; "ns3-wifi"]
  | _ => False
  end.
Proof. reflexivity. Qed.
Example unknown_name :
  match configure_modules false false [] (Some "wfi") ["all_modules"] sample_env with
  | Ok e' => enabled_mods e' = [] /\ enabled_contrib e' = []
  | _ => False
  end.
Proof. split; reflexivity. Qed.

(** ** Features *)

(** The first report of a name is the one that counts. *)
Lemma check_reported l name cap b reason : Forall (fun f => f_name f <> name) l -> forall more,
  check_optional_feature (report_optional_feature l name cap b reason ++ more) name = Ok b.
Proof.
  intros Hl more. unfold report_optional_feature. rewrite <- app_assoc. induction Hl as [|f l Hf _ IH]; cbn.
  - by rewrite decide_True.
  - by rewrite decide_False.
Qed.
Lemma check_declared l name :
  match check_optional_feature l name with
  | Ok b => exists pre f post, l = pre ++ f :: post /\ Forall (fun g => f_name g <> name) pre /\ f_name f = name /\ was_enabled f = b
  | Raise e => e = FeatureNotDeclared name /\ Forall (fun g => f_name g <> name) l
  | OutOfFuel => False
  end.
Proof.
  induction l as [|f l IH]; cbn; [by split|]. case_decide as Hf.
  - exists [], f, l. by repeat constructor.
  - destruct (check_optional_feature l name) as [b|e|]; [|..|done].
    + destruct IH as (pre & g & post & -> & Hpre & Hg & Hb). exists (f :: pre), g, post. by repeat constructor.
    + destruct IH as [-> Hl]. by repeat constructor.
Qed.

Lemma insert_by_perm key x l : insert_by key x l ≡ₚ x :: l.
Proof. induction l as [|y l IH]; cbn; [done|]. case_decide; [done|]. rewrite IH. constructor. Qed.
Lemma insert_by_sorted key x l : StronglySorted (fun f g => String.le (key f) (key g)) l ->
  StronglySorted (fun f g => String.le (key f) (key g)) (insert_by key x l).
Proof.
  induction 1 as [|y l Hl IH Hy]; cbn; [repeat constructor|]. case_decide as E.
  - constructor; [by constructor|]. constructor; [done|]. eapply Forall_impl; [exact Hy|]. cbn. intros g Hg. by etrans.
  - constructor; [done|]. rewrite insert_by_perm. constructor; [|done].
    destruct (total String.le (key x) (key y)); [done|done].
Qed.
(** The summary lists every feature once, by its caption, and reports with the same caption in their order. *)
Lemma sorted_by_spec key l :
  sorted_by key l ≡ₚ l /\ StronglySorted (fun f g => String.le (key f) (key g)) (sorted_by key l) /\
  forall k, filter (fun f => key f = k) (sorted_by key l) = filter (fun f => key f = k) l.
Proof.
  induction l as [|x l (Hp & Hs & Hk)]; [by repeat constructor|]. cbn [sorted_by foldr]. fold (sorted_by key l). split_and!.
  - by rewrite insert_by_perm, Hp.
  - by apply insert_by_sorted.
  - intros k. rewrite filter_cons, <- Hk. clear Hp Hk. induction Hs as [|y l' Hs IH Hy]; [done|]. cbn [insert_by].
    destruct (decide (String.le (key x) (key y))) as [E|E]; [by rewrite filter_cons|].
    rewrite filter_cons, IH. destruct (decide (key x = k)) as [Hx|Hx].
    + rewrite (filter_cons _ y). destruct (decide (key y = k)) as [Hy'|]; [|done]. destruct E. rewrite Hx, Hy'. done.
    + by rewrite (filter_cons _ y).
Qed.

(** ** The tree *)

Lemma find_modules_spec listing x :
  (x ∈ find_modules listing <-> exists e, e ∈ listing /\ is_module_dir e = true /\ dirname e = x) /\
  StronglySorted String.le (find_modules listing).
Proof.
  unfold find_modules. split; [|apply StronglySorted_merge_sort; apply _].
  rewrite merge_sort_Permutation, list_elem_of_In, in_map_iff. split.
  - intros (e & <- & [He Hd]%filter_In). exists e. by rewrite list_elem_of_In.
  - intros (e & He & Hd & <-). exists e. split; [done|]. apply filter_In. by rewrite <- list_elem_of_In.
Qed.
Definition tree_name (not_built : string) : string :=
  if decide (not_built = "ns3tcp" \/ not_built = "ns3wifi") then "test/" +:+ not_built else not_built.
Lemma remove_module_filter all_modules nb : NoDup all_modules ->
  remove_module all_modules nb = filter (fun x => x <> tree_name nb) all_modules.
Proof.
  intros Hnd. unfold remove_module. fold (tree_name nb). cbv zeta.
  case_decide as Hin; [by apply list_remove_ne|by rewrite filter_absent].
Qed.
(** The modules that are read are those that can be built. *)
Lemma modules_to_read_spec nbs : forall all_modules, NoDup all_modules ->
  modules_to_read nbs all_modules = filter (fun x => x ∉ map tree_name nbs) all_modules.
Proof.
  unfold modules_to_read. induction nbs as [|nb nbs IH]; intros l Hl; cbn [foldl map].
  - induction l as [|x l IHl]; [done|]. apply NoDup_cons in Hl as [_ Hl]. rewrite filter_cons_True by apply not_elem_of_nil.
    by rewrite <- IHl.
  - rewrite remove_module_filter, IH by (done || by apply NoDup_filter). rewrite list_filter_filter. apply list_filter_iff.
    intros x. rewrite not_elem_of_cons. tauto.
Qed.

(** ** The profile in the lock file *)

Lemma split_on_plain c s : no_char c s -> split_on c s = [s].
Proof. apply split_on_free. Qed.
(** The line of the lock file that holds waf's options: the texts of the names and values of a dictionary. *)
Definition item_text (kv : string * string) : string := kv.1 +:+ ": " +:+ kv.2.
Definition options_line (items : list (string * string)) : string :=
  "options = {" +:+ str_join ", " (map item_text items) +:+ "}" +:+ String newline "".
Definition item_ok (kv : string * string) : Prop :=
  no_char "," kv.1 /\ no_char ":" kv.1 /\ no_char "," kv.2 /\ no_char ":" kv.2 /\ lstrip kv.1 = kv.1.
#[local] Instance item_ok_dec kv : Decision (item_ok kv).
Proof. unfold item_ok. apply _. Defined.
Lemma item_no_comma kv : item_ok kv -> no_char "," (item_text kv).
Proof.
  intros (H1 & _ & H2 & _). unfold item_text. rewrite !no_char_app. split_and!; [done| |done].
  decided.
Qed.
(** The pieces between the commas, and between the colons of one of them. *)
Fixpoint pieces (c last : string) (items : list (string * string)) : list string :=
  match items with
  | [] => []
  | [kv] => [c +:+ item_text kv +:+ last]
  | kv :: items => (c +:+ item_text kv) :: pieces " " last items
  end.
Lemma split_items last : no_char "," last -> forall items kv c, no_char "," c -> Forall item_ok (kv :: items) ->
  split_on "," (c +:+ str_join ", " (map item_text (kv :: items)) +:+ last) = pieces c last (kv :: items).
Proof.
  intros Hl. induction items as [|kv' items IH]; intros kv c Hc [Hkv Hit]%Forall_cons.
  - apply split_on_plain. rewrite !no_char_app. split_and!; try done. by apply item_no_comma.
  - change (str_join ", " (map item_text (kv :: kv' :: items))) with
      (item_text kv +:+ ", " +:+ str_join ", " (map item_text (kv' :: items))).
    rewrite !str_append_assoc, <- (str_append_assoc c).
    change (", " +:+ ?x) with (String "," (" " +:+ x)). rewrite split_on_app, split_on_plain.
    + rewrite IH; [done| |done]. decided.
    + rewrite no_char_app. split; [done|by apply item_no_comma].
Qed.
Lemma split_piece c kv last : no_char ":" c -> no_char ":" last -> item_ok kv ->
  split_on ":" (c +:+ item_text kv +:+ last) = [c +:+ kv.1; " " +:+ kv.2 +:+ last].
Proof.
  intros Hc Hl (_ & H1 & _ & H2 & _). unfold item_text. rewrite !str_append_assoc, <- (str_append_assoc c).
  change (": " +:+ ?x) with (String ":" (" " +:+ x)). rewrite split_on_app, !split_on_plain; [done|..]; rewrite !no_char_app.
  - split_and!; [|done|done]. decided.
  - by split.
Qed.
Lemma find_profile_pieces last v post : no_char ":" last -> item_ok ("'build_profile'", v) -> Forall item_ok post ->
  forall pre, Forall item_ok pre -> Forall (fun kv => kv.1 <> "'build_profile'") pre ->
  find_profile (pieces " " last (pre ++ ("'build_profile'", v) :: post)) =
  Ok (Some (remove_quotes (lstrip (" " +:+ v +:+ if decide (post = []) then last else "")))).
Proof.
  intros Hl Hv Hpost. assert (Hsp : no_char ":" " ") by (decided).
  induction pre as [|kv pre IH]; intros Hpre Hne.
  - destruct post as [|kv' post].
    + cbn [app pieces find_profile]. by rewrite split_piece.
    + cbn [app pieces find_profile]. rewrite <- (str_append_nil_r (item_text _)).
      rewrite (split_piece " " _ "") by (done || apply not_elem_of_nil). done.
  - apply Forall_cons in Hpre as [Hkv Hpre], Hne as [Hk Hne].
    assert (E : pieces " " last ((kv :: pre) ++ ("'build_profile'", v) :: post) =
      (" " +:+ item_text kv) :: pieces " " last (pre ++ ("'build_profile'", v) :: post)) by (by destruct pre).
    rewrite E. cbn [find_profile]. rewrite <- (str_append_nil_r (item_text _)).
    rewrite (split_piece " " _ "") by (done || apply not_elem_of_nil). cbv beta iota.
    change (lstrip (" " +:+ kv.1)) with (lstrip kv.1). destruct Hkv as (_ & _ & _ & _ & ->).
    rewrite decide_False by done. by apply IH.
Qed.

Lemma remove_quotes_app a b : remove_quotes (a +:+ b) = remove_quotes a +:+ remove_quotes b.
Proof. unfold remove_quotes. by rewrite list_ascii_app, List.filter_app, string_of_list_ascii_app. Qed.
Lemma remove_quotes_plain p : no_char (ascii_of_nat 39) p -> remove_quotes p = p.
Proof.
  unfold no_char, remove_quotes. intros Hp. rewrite <- (string_of_list_ascii_of_string p) at 2. f_equal.
  induction (list_ascii_of_string p) as [|c l IH]; [done|]. apply not_elem_of_cons in Hp as [Hc Hl]. cbn [List.filter].
  rewrite bool_decide_eq_false_2 by (by intros ->). cbn [negb]. by rewrite IH.
Qed.
(** The profile that a command after the configuration finds in the lock file, when the options before it and the
    profile itself hold no comma and no colon: the value of that option without quotes, if it is neither the first nor
    the last one of the options; after the last value the closing brace and the end of the line are left. *)
Theorem get_build_profile_spec before first pre p post after :
  Forall (fun l => starts_with "options =" l = false) before ->
  Forall item_ok (first :: pre ++ ("'build_profile'", "'" +:+ p +:+ "'") :: post) ->
  Forall (fun kv => kv.1 <> "'build_profile'") pre -> no_char (ascii_of_nat 39) p ->
  get_build_profile (before ++ options_line (first :: pre ++ ("'build_profile'", "'" +:+ p +:+ "'") :: post) :: after) =
  Ok (p +:+ if decide (post = []) then "}" +:+ String newline "" else "").
Proof.
  intros Hb Hok Hpre Hp. induction Hb as [|l before Hl _ IH]; [|cbn [app get_build_profile]; by rewrite Hl].
  cbn [app get_build_profile]. apply Forall_cons in Hok as [Hfirst Hok].
  apply Forall_app in Hok as [Hprek [Hv Hpost]%Forall_cons].
  change (starts_with "options =" (options_line _)) with true. cbv iota.
  set (items := pre ++ _) in *. set (last := "}" +:+ String newline "").
  change (default "" (split_once "=" (options_line (first :: items))).2)
    with (" {" +:+ str_join ", " (map item_text (first :: items)) +:+ last).
  rewrite split_items.
  2: { decided. }
  2: { decided. }
  2: { apply Forall_cons. split; [done|]. apply Forall_app. split; [done|]. by apply Forall_cons. }
  assert (E : pieces " {" last (first :: items) = (" {" +:+ item_text first) :: pieces " " last items)
    by (subst items; by destruct pre).
  rewrite E. cbn [find_profile]. rewrite <- (str_append_nil_r (item_text first)).
  rewrite (split_piece " {" first "").
  2: { decided. }
  2: { apply not_elem_of_nil. }
  2: { done. }
  cbv beta iota. rewrite decide_False by done. subst items. rewrite find_profile_pieces; try done.
  2: { decided. }
  cbn [res_bind]. f_equal. change (lstrip (" " +:+ ("'" +:+ p +:+ "'") +:+ ?t)) with (("'" +:+ p +:+ "'") +:+ t).
  rewrite !remove_quotes_app, (remove_quotes_plain p) by done. rewrite !str_append_assoc.
  change (remove_quotes "'" +:+ ?x) with x. f_equal. by case_decide.
Qed.
Lemma get_build_profile_spec_witness :
  get_build_profile ["argv = ['./waf']" +:+ String newline "";
    options_line [("'colors'", "'auto'"); ("'build_profile'", "'debug'"); ("'jobs'", "8")]] = Ok "debug".
Proof.
  exact (get_build_profile_spec ["argv = ['./waf']" +:+ String newline ""] ("'colors'", "'auto'") [] "debug" [("'jobs'", "8")] []
    ltac:(by repeat constructor)
    ltac:(decided)
    ltac:(constructor) ltac:(decided)).
Defined.
(** A comma or a colon in the value of an earlier option: the command fails. *)
Example comma_in_option :
  get_build_profile [options_line [("'colors'", "'auto'"); ("'files'", "'a,b'"); ("'build_profile'", "'debug'"); ("'jobs'", "8")]]
  = Raise UnpackError.
Proof. vm_compute. reflexivity. Qed.

(** ** What is printed, and shells *)

(** Rows of three padded names. *)
Definition cell (name : string) : string := ljust 25 name +:+ " ".
Fixpoint rows (names : list string) : string :=
  match names with
  | a :: b :: c :: names => cell a +:+ cell b +:+ cell c +:+ String newline (rows names)
  | [] => ""
  | names => str_join "" (map cell names) +:+ String newline ""
  end.
Lemma print_module_names_rows names : print_module_names names = rows (merge_sort String.le names).
Proof.
  unfold print_module_names. generalize (merge_sort String.le names). clear names. intros names.
  cut (forall n names, length names <= n -> print_columns 1 names = rows names); [by intros H; eapply H|].
  clear names. induction n as [|n IH]; intros names Hn; [by destruct names; [|cbn in Hn; lia]|].
  destruct names as [|a [|b [|c names]]]; [done|..].
  - cbn [print_columns Nat.eqb Nat.add rows map str_join]. unfold cell. by rewrite !str_append_assoc.
  - cbn [print_columns Nat.eqb Nat.add rows map str_join]. unfold cell. rewrite !str_append_assoc. done.
  - cbn [print_columns Nat.eqb Nat.add rows]. rewrite IH by (cbn in Hn; lia). unfold cell. by rewrite !str_append_assoc.
Qed.

Lemma prepend_paths_ne pathsep var paths env v : var <> v -> prepend_paths pathsep var paths env !! v = env !! v.
Proof. intros Hv. unfold prepend_paths. destruct (env !! var); by rewrite lookup_insert_ne. Qed.
Lemma check_shell_spec pathsep module_path executable_path environ :
  check_shell pathsep module_path executable_path environ = Raise WrongShell <->
  exists found_modpath found_execpath, environ !! "NS3_MODULE_PATH" = Some found_modpath /\
    environ !! "NS3_EXECUTABLE_PATH" = Some found_execpath /\
    (found_modpath <> str_join pathsep module_path \/ found_execpath <> str_join pathsep executable_path).
Proof.
  unfold check_shell. destruct (environ !! "NS3_MODULE_PATH") as [a|]; [|by split; [|intros (?&?&?&_)]].
  destruct (environ !! "NS3_EXECUTABLE_PATH") as [c|]; [|by split; [|intros (?&?&_&?&_)]].
  case_decide as H; split; try done.
  - intros _. exists a, c. split_and!; [done|done|]. naive_solver.
  - intros (? & ? & [= <-] & [= <-] & H'). destruct H. naive_solver.
Qed.
(** A command that is run in the shell of [./waf shell] accepts it as long as the paths of the configuration are the same,
    whatever the environment was outside. *)
Lemma shell_accepted b platform pathsep environ module_path executable_path :
  check_shell pathsep module_path executable_path
    (get_proc_env b platform pathsep environ (shell_env pathsep module_path executable_path)) = Ok tt.
Proof.
  assert (Hl : forall v, v <> "PATH" -> v <> "PYTHONPATH" -> pathvar platform <> v ->
    get_proc_env b platform pathsep environ (shell_env pathsep module_path executable_path) !! v
    = (shell_env pathsep module_path executable_path ∪ environ) !! v)
    by (intros v ? ? ?; unfold get_proc_env; by rewrite !prepend_paths_ne).
  assert (Hp : forall v, v <> "PATH" -> v <> "LD_LIBRARY_PATH" -> v <> "DYLD_LIBRARY_PATH" -> pathvar platform <> v)
    by (intros v ? ? ?; unfold pathvar; repeat case_decide; try done; by destruct (starts_with _ _)).
  unfold check_shell. rewrite !Hl by (done || by apply Hp). unfold shell_env.
  rewrite (lookup_union_Some_l _ _ "NS3_MODULE_PATH" (str_join pathsep module_path)) by by rewrite lookup_insert_eq.
  rewrite (lookup_union_Some_l _ _ "NS3_EXECUTABLE_PATH" (str_join pathsep executable_path))
    by by rewrite lookup_insert_ne, lookup_singleton_eq.
  rewrite decide_False; [done|]. tauto.
Qed.
