(* ===== verification/WafHeaders.v ===== *)
(** * Modules, headers and their tasks: [src/src/wscript]

    [create_ns3_module] and its relatives, which make the task generators that [WafBuild] works on;
    the tasks [ns3header] and [ns3privateheader], which put the headers of a module into the build directory or take them
    out; [gen_ns3_module_header], which writes the header that includes them; and [ns3pcfile].  The
    file system is a map from paths to texts with permissions, and may refuse to remove a file; nodes are their paths. *)

From S2P Require Import Prelude PyLib Files WafRun WafBuild.
From Stdlib Require Import Ascii String.
From stdpp Require Import strings gmap sorting.
Open Scope string_scope.
Open Scope nat_scope.
Open Scope list_scope.

(** ** Creating modules *)

Section Create.
Context (APPNAME VERSION BUILD_SUFFIX : string) (static : bool).
(** [bld.path.path_from(bld.srcnode)], and the way back; the flags of the compiler for shared libraries, whether it knows
    [--soname], and [cshlib_PATTERN % name]; the way from the build directory. *)
Context (here back : string).
Context (shlib_CXXFLAGS : list string) (soname : bool) (cshlib : string -> string) (from_build : string).

(** The changes of a library's environment; there is a text for each value that is appended. *)
Definition library_env (file : string) : list (string * string) :=
  (if static then []
   else map (pair "CXXFLAGS") shlib_CXXFLAGS ++ map (pair "CCFLAGS") shlib_CXXFLAGS
        ++ (if soname then [("LINKFLAGS", "-Wl,--soname=" +:+ cshlib file)] else []))
  ++ [("CXXDEFINES", "NS3_MODULE_COMPILATION"); ("CCDEFINES", "NS3_MODULE_COMPILATION"); ("INCLUDES", "#")].

Definition module_tgen (name_ : string) (dependencies : list string) (id : nat) : tgen :=
  {| oid := id; name := "ns3-" +:+ name_; target := back +:+ "/lib/ns" +:+ VERSION +:+ "-" +:+ name_ +:+ BUILD_SUFFIX;
     features := if static then "cxx cxxstlib ns3module" else "cxx cxxshlib ns3module"; path := here;
     source := []; includes := ""; use := map (fun dep => "ns3-" +:+ dep) dependencies; installed := true;
     env_set := library_env ("ns" +:+ VERSION +:+ "-" +:+ name_ +:+ BUILD_SUFFIX);
     module := ""; ns3_module_dependencies := None; is_ns3_module := true; is_ns3_module_test_library := false; module_name := "" |}.
Definition pcfile_tgen (module_ : string) (id : nat) : tgen :=
  {| oid := id; name := ""; target := ""; features := "ns3pcfile"; path := here; source := []; includes := ""; use := [];
     installed := true; env_set := []; module := module_; ns3_module_dependencies := None;
     is_ns3_module := false; is_ns3_module_test_library := false; module_name := "" |}.
(** The library's object and the one of its file for pkg-config. *)
Definition create_ns3_module (name_ : string) (dependencies : list string) (b : bld) : bld :=
  add_tgen (pcfile_tgen ("ns3-" +:+ name_)) (add_tgen (module_tgen name_ dependencies) b).
(** The object of a test library is changed after [create_ns3_module] made it. *)
Definition test_library_tgen (tested : string) (id : nat) : tgen :=
  let library := module_tgen (tested +:+ "-test") [tested] id in
  {| oid := id; name := name library; target := target library; features := features library +:+ " ns3testlib"; path := here;
     source := []; includes := ""; use := use library; installed := true;
     env_set := env_set library ++ [("CXXFLAGS", "-I" +:+ from_build); ("CCFLAGS", "-I" +:+ from_build)]; module := "";
     ns3_module_dependencies := None; is_ns3_module := false; is_ns3_module_test_library := true;
     module_name := "ns3-" +:+ tested |}.
Definition create_ns3_module_test_library (tested : string) (b : bld) : bld :=
  let b := add_tgen (pcfile_tgen ("ns3-" +:+ tested +:+ "-test")) (add_tgen (test_library_tgen tested) b) in
  {| groups := groups b; current_group := current_group b; next_oid := next_oid b; modes := modes b;
     NS3_MODULES_WITH_TEST_LIBRARIES := NS3_MODULES_WITH_TEST_LIBRARIES b ++ [("ns3-" +:+ tested, "ns3-" +:+ tested +:+ "-test")];
     NS3_ENABLED_MODULE_TEST_LIBRARIES := NS3_ENABLED_MODULE_TEST_LIBRARIES b;
     NS3_SCRIPT_DEPENDENCIES := NS3_SCRIPT_DEPENDENCIES b;
     NS3_RUNNABLE_PROGRAMS := NS3_RUNNABLE_PROGRAMS b; NS3_RUNNABLE_SCRIPTS := NS3_RUNNABLE_SCRIPTS b |}.
End Create.

(** ** Files *)

Record hfile := HFile { text : string; perm : nat }.
Abbreviation store := (gmap string hfile).
Definition ENOENT : Z := 2.
Definition EACCES : Z := 13.
Inductive task_exn := OSError (errno : Z) | AssertionError | WafError (message : string) | KeyError (name : string).
Definition may_read (f : hfile) : bool := Nat.testbit (perm f) 8.
Definition may_write (f : hfile) : bool := Nat.testbit (perm f) 7.
(** [os.chmod] of a file of the user; [EPERM], for a file of another user, is not modelled. *)
Definition chmod (p : string) (mode : nat) (fs : store) : res task_exn store :=
  match fs !! p with
  | Some f => Ok (<[p := HFile (text f) mode]> fs)
  | None => Raise (OSError ENOENT)
  end.
(** [shutil.copy2]: the text and the permissions. *)
Definition copy2 (src dst : string) (fs : store) : res task_exn store :=
  match fs !! src with
  | None => Raise (OSError ENOENT)
  | Some f =>
      if negb (may_read f) then Raise (OSError EACCES)
      else match fs !! dst with
           | Some g => if may_write g then Ok (<[dst := f]> fs) else Raise (OSError EACCES)
           | None => Ok (<[dst := f]> fs)
           end
  end.

Section Tasks.
(** The errors with which the system refuses to remove a file. *)
Context (refused : string -> option Z).
Definition unlink (p : string) (fs : store) : res task_exn store :=
  match refused p with
  | Some errno => Raise (OSError errno)
  | None => match fs !! p with Some _ => Ok (delete p fs) | None => Raise (OSError ENOENT) end
  end.

(** A task on headers: files to copy, or a header to remove. *)
Inductive header_task := Install (inputs outputs : list string) | Remove (header_to_remove : string).
(** 0600 and 0400 *)
Definition rw_owner : nat := 384.
Definition r_owner : nat := 256.
Definition install_one (fs : store) '(src, dst) : res task_exn store :=
  let fs := match chmod dst rw_owner fs with Ok fs' => fs' | _ => fs end in
  let* fs := copy2 src dst fs in
  chmod dst r_owner fs.
Definition remove_header (p : string) (fs : store) : res task_exn store :=
  match unlink p fs with
  | Raise (OSError errno) => if decide (errno <> ENOENT) then Raise (OSError errno) else Ok fs
  | r => r
  end.
(** [run] of [ns3header] and of [ns3privateheader]. *)
Definition run_header (t : header_task) (fs : store) : res task_exn store :=
  match t with
  | Install inputs outputs =>
      if decide (length inputs = length outputs) then for_each install_one (zip inputs outputs) fs
      else Raise AssertionError
  | Remove p => remove_header p fs
  end.
Inductive status := RUN_ME | SKIP_ME.
(** [runnable_status] of a task that removes a header. *)
Definition removal_status (p : string) (fs : store) : status :=
  match fs !! p with Some _ => RUN_ME | None => SKIP_ME end.

(** ** The header of a module *)

Definition eol : string := String newline "".
Definition header_guard (module_ : string) : string :=
  "NS3_MODULE_" +:+ str_map (fun c => if decide (c = "-"%char) then "_"%char else c) (upper module_).
Definition include_line (header : string) : string :=
  "#include " +:+ String quote (header +:+ String quote "") +:+ eol.
(** The lines that are printed. *)
Definition module_header (module_ : string) (inputs : list string) : list string :=
  [eol; "#ifdef NS3_MODULE_COMPILATION" +:+ eol;
   "# error " +:+ String quote ("Do not include ns3 module aggregator headers from other modules; these are meant only for end user scripts."
     +:+ String quote "") +:+ eol;
   "#endif" +:+ eol; eol; "#ifndef " +:+ header_guard module_ +:+ eol; "    " +:+ eol; eol; "// Module headers:" +:+ eol]
  ++ map include_line (merge_sort String.le (map basename inputs)) ++ ["#endif" +:+ eol].
(** Opening for writing keeps the permissions of the file; a new one gets 0644. *)
Definition write_text (p t : string) (fs : store) : res task_exn store :=
  match fs !! p with
  | Some f => if may_write f then Ok (<[p := HFile t (perm f)]> fs) else Raise (OSError EACCES)
  | None => Ok (<[p := HFile t 420]> fs)
  end.
Definition run_module_header (module_ : string) (t : header_task) (fs : store) : res task_exn store :=
  match t with
  | Remove p => remove_header p fs
  | Install inputs outputs =>
      match outputs with
      | [out] => write_text out (str_join "" (module_header module_ inputs)) fs
      | _ => Raise AssertionError
      end
  end.
End Tasks.

(** ** From task generators to tasks *)

Section Apply.
(** Waf's nodes: the directory of the headers, the search for a source; the order of a set. *)
Context (ns3_dir : string) (find_resource : string -> option string) (order : gset string -> list string).
(** The task generator of headers: [module] may be missing; [headers] is set here. *)
Record headers_tgen := { h_module : option string; h_source : list string; h_mode : option string }.
Definition header_names (o : headers_tgen) : gset string := list_to_set (h_source o).
Definition header_task_for (o : headers_tgen) (filename : string) : res task_exn header_task :=
  match find_resource filename with
  | None => Raise (WafError ("source ns3 header file " +:+ filename +:+ " not found"))
  | Some src =>
      let dst := path_join ns3_dir (basename src) in
      if decide (default "install" (h_mode o) = "install") then Ok (Install [src] [dst]) else Ok (Remove dst)
  end.
(** [apply_ns3header]; [apply_ns3privateheader] is the same with another directory. *)
Definition apply_ns3header (o : headers_tgen) : res task_exn (list header_task) :=
  match h_module o with
  | None => Raise (WafError "'module' missing on ns3headers object")
  | Some _ => map_res (header_task_for o) (order (header_names o))
  end.
(** [apply_ns3moduleheader]: the headers of all generators of the module; [enabled_module] tells
    whether waf finds the module's object.  No task if there is none, or no header. *)
Definition apply_ns3moduleheader (module_ : string) (mode : option string) (all : list headers_tgen) (enabled_module : bool)
    : res task_exn (option header_task) :=
  match List.filter (fun o => bool_decide (h_module o = Some module_)) all with
  | [] => Raise (WafError ("error finding headers for module " +:+ module_))
  | gens =>
      let inputs := concat (map (fun o => map (fun source => path_join ns3_dir (basename source))
                                            (merge_sort String.le (order (header_names o)))) gens) in
      let out := path_join ns3_dir (module_ +:+ "-module.h") in
      if bool_decide (inputs = []) || negb enabled_module then Ok None
      else if decide (default "install" mode = "install") then Ok (Some (Install inputs [out])) else Ok (Some (Remove out))
  end.
End Apply.

(** ** Files for pkg-config *)

Section PcFile.
Context (APPNAME VERSION BUILD_SUFFIX : string).
(** [env[key]]: a list, or a text. *)
Context (env_list : string -> list string) (env_text : string -> string).
Context (static : bool).
Definition pct (key arg : string) : res run_exn string := format_one (env_text key) (Some arg).
Definition _self_libs (name_ libdir : string) : res run_exn (list string) :=
  let '(path_st, lib_st, lib_marker) :=
    if static then ("STLIBPATH_ST", "STLIB_ST", "STLIB_MARKER") else ("LIBPATH_ST", "LIB_ST", "SHLIB_MARKER") in
  let* p := pct path_st libdir in
  let* l := pct lib_st name_ in
  Ok ([p] ++ (if decide (env_text lib_marker = "") then [] else [env_text lib_marker]) ++ [l]).
Definition _lib (dep : string) : res run_exn (list string) :=
  let* paths := map_res (fun path => let* x := pct "LIBPATH_ST" path in Ok (x :: env_list ("LINKFLAGS_" +:+ dep)))
                  (env_list ("LIBPATH_" +:+ dep)) in
  let* libs := map_res (pct "LIB_ST") (env_list ("LIB_" +:+ dep)) in
  Ok (concat paths ++ libs).
(** [libs += text]: the characters of the text are added. *)
Definition characters (s : string) : list string := map (fun c => String c "") (list_ascii_of_string s).
Definition pc_libs (name_ : string) (use LIBS : list string) : res run_exn (list string) :=
  let* self := _self_libs (APPNAME +:+ VERSION +:+ "-" +:+ str_drop 4 name_ +:+ BUILD_SUFFIX) "${libdir}" in
  let* deps := map_res _lib use in
  let* libs := map_res (pct "LIB_ST") LIBS in
  Ok (self ++ concat deps ++ concat (map characters libs)).
Definition pc_cflags (use exported : list string) : res run_exn (list string) :=
  let* own := pct "CPPPATH_ST" "${includedir}" in
  let* incs := map_res (pct "CPPPATH_ST") exported in
  let* deps := map_res (fun dep =>
    let* defines := map_res (pct "DEFINES_ST") (env_list ("DEFINES_" +:+ dep)) in
    let* includes := map_res (pct "CPPPATH_ST") (env_list ("INCLUDES_" +:+ dep)) in
    Ok (env_list ("CFLAGS_" +:+ dep) ++ env_list ("CXXFLAGS_" +:+ dep) ++ defines ++ includes)) use in
  Ok (own :: incs ++ concat deps).
Definition pc_requires (use : list string) : list string :=
  map (fun dep => "libns" +:+ VERSION +:+ "-" +:+ str_drop 4 dep +:+ BUILD_SUFFIX) (List.filter (starts_with "ns3-") use).
(** [_generate_pcfile]: the text of the file; [exported] are the directories of [export_includes]. *)
Definition _generate_pcfile (prefix libdir includedir name_ : string) (use LIBS exported : list string) : res run_exn (list string) :=
  let* libs := pc_libs name_ use LIBS in
  let* cflags := pc_cflags use exported in
  Ok ["prefix=" +:+ prefix +:+ eol; "libdir=" +:+ libdir +:+ eol; "includedir=" +:+ includedir +:+ eol; eol;
      "Name: lib" +:+ name_ +:+ eol; "Description: ns-3 module " +:+ name_ +:+ eol; "Version: " +:+ VERSION +:+ eol;
      "Libs: " +:+ str_join " " libs +:+ eol; "Cflags: " +:+ str_join " " cflags +:+ eol;
      "Requires: " +:+ str_join " " (pc_requires use) +:+ eol].
(** [apply]: the file is named after the object of its module, which must be there. *)
Definition pcfile_name (target : string) : string := "lib" +:+ basename target +:+ ".pc".
Fixpoint _find_ns3_module (name_ : string) (l : list tgen) : res task_exn tgen :=
  match l with
  | [] => Raise (KeyError name_)
  | obj :: l => if is_ns3_module obj && bool_decide (name obj = name_) then Ok obj else _find_ns3_module name_ l
  end.
Definition apply_pcfile (b : bld) (obj : tgen) : res task_exn string :=
  let* m := _find_ns3_module (module obj) (all_task_gen b) in Ok (pcfile_name (target m)).
End PcFile.

(** ** Modules that are created this way satisfy what [WafBuild] assumes *)

Lemma module_tgen_plain V S st h bk fl so cs n deps i : plain_program (module_tgen V S st h bk fl so cs n deps i).
Proof. intros [? H]. done. Qed.
Lemma pcfile_tgen_plain h m i : plain_program (pcfile_tgen h m i).
Proof. intros [? H]. done. Qed.
Lemma test_library_plain V S st h bk fl so cs fb n i : plain_program (test_library_tgen V S st h bk fl so cs fb n i).
Proof. intros [? H]. done. Qed.
Lemma create_ns3_module_ok V S st h bk fl so cs n deps b : well_formed b ->
  well_formed (create_ns3_module V S st h bk fl so cs n deps b) /\ grows b (create_ns3_module V S st h bk fl so cs n deps b).
Proof.
  intros Hb. unfold create_ns3_module.
  destruct (add_tgen_ok (module_tgen V S st h bk fl so cs n deps) b) as [H1 G1]; [done|apply module_tgen_plain|done|].
  destruct (add_tgen_ok (pcfile_tgen h ("ns3-" +:+ n)) _ ltac:(done) (pcfile_tgen_plain _ _) H1) as [H2 G2].
  split; [done|by eapply bld_grows_trans].
Qed.
Lemma create_test_library_ok V S st h bk fl so cs fb n b : well_formed b ->
  well_formed (create_ns3_module_test_library V S st h bk fl so cs fb n b) /\ grows b (create_ns3_module_test_library V S st h bk fl so cs fb n b).
Proof.
  intros Hb. destruct (add_tgen_ok (test_library_tgen V S st h bk fl so cs fb n) b) as [H1 G1]; [done|apply test_library_plain|done|].
  destruct (add_tgen_ok (pcfile_tgen h ("ns3-" +:+ n +:+ "-test")) _ ltac:(done) (pcfile_tgen_plain _ _) H1) as [H2 G2].
  split; [done|]. by eapply (bld_grows_trans b (add_tgen (test_library_tgen V S st h bk fl so cs fb n) b)).
Qed.
(** The object is a module's one, in the sense of [WafBuild.module_object]. *)
Lemma module_tgen_object V S (st : bool) h bk fl so cs n deps i : module_object (module_tgen V S st h bk fl so cs n deps i).
Proof. unfold module_object. cbn. split_and!; [done|done|done|]. by destruct st. Qed.

(** After a build every file for pkg-config that is left finds the object of its module. *)
Lemma find_module_some name_ l o : o ∈ l -> is_ns3_module o = true -> name o = name_ ->
  exists o', _find_ns3_module name_ l = Ok o' /\ o' ∈ l /\ name o' = name_.
Proof.
  intros Hin Hm Hn. induction l as [|x l IH]; [by apply elem_of_nil in Hin|]. cbn [_find_ns3_module].
  destruct (is_ns3_module x && bool_decide (name x = name_)) eqn:E.
  - apply andb_true_iff in E as [_ E%bool_decide_eq_true]. exists x. split_and!; [done|by left|done].
  - apply elem_of_cons in Hin as [->|Hin].
    + rewrite Hm, Hn, bool_decide_eq_true_2 in E; done.
    + destruct (IH Hin) as (o' & ? & ? & ?). exists o'. split_and!; [done|by right|done].
Qed.
Section PcFiles.
Context (APPNAME VERSION cwd launch_dir : string) (NS3_MODULES NS3_CONTRIBUTED_MODULES : list string).
Context (ENABLE_TESTS ENABLE_EXAMPLES ENABLE_STATIC_NS3 : bool) (BUILD_SUFFIX : string).
Context (platform DEST_BINFMT CXX_NAME CC_NAME : string) (listdir : string -> option (list (string * bool))).
Context (recurse : string -> bld -> res build_exn bld) (get_tgen_by_name : bld -> string -> build_exn + option tgen).
Context (get_bld_abspath : string -> string) (ant_glob : string -> list string).
Lemma pcfile_found b b0 b1 m m' b' obj : waf_laws NS3_MODULES NS3_CONTRIBUTED_MODULES recurse get_tgen_by_name -> well_formed b ->
  (forall x, enabled m x = true -> known NS3_MODULES NS3_CONTRIBUTED_MODULES x) -> any_enabled m = true ->
  recurse "src" (reset_lists b) = Ok b0 -> recurse "contrib" b0 = Ok b1 ->
  build APPNAME VERSION cwd launch_dir NS3_MODULES NS3_CONTRIBUTED_MODULES ENABLE_TESTS ENABLE_EXAMPLES ENABLE_STATIC_NS3
    BUILD_SUFFIX platform DEST_BINFMT CXX_NAME CC_NAME listdir recurse get_tgen_by_name get_bld_abspath ant_glob m b = Ok (m', b') ->
  obj ∈ all_task_gen b' -> contains "ns3pcfile" (features obj) = true ->
  exists mobj, mobj ∈ all_task_gen b' /\ name mobj = module obj /\ apply_pcfile b' obj = Ok (pcfile_name (target mobj)).
Proof.
  intros W Hb Hk Hany Hs Hc H Hobj Hpc.
  destruct (build_left _ _ _ _ _ _ _ _ _ _ _ _ _ _ _ _ _ _ _ b b0 b1 m m' b' W Hb Hk Hany Hs Hc H) as (H1 & H2 & _ & _ & _ & H6).
  specialize (H6 obj Hobj). unfold kept in H6. rewrite Hpc in H6. cbn [negb orb] in H6. apply andb_true_iff in H6 as [_ Hen].
  destruct (H2 (module obj) (proj1 (H1 _) Hen)) as (o & Ho & Hn & Hm & _).
  destruct (find_module_some (module obj) (all_task_gen b') o Ho Hm Hn) as (mobj & Hf & Hin & Hname).
  exists mobj. split_and!; [done|done|]. unfold apply_pcfile. by rewrite Hf.
Qed.
End PcFiles.
(** A test library has such a file too, and is not a module: without any enabled module, when [build] takes nothing out, it stops waf. *)
Example test_library_pcfile :
  let b := create_ns3_module_test_library "3" "-debug" false "src/core" "../.." [] true (fun s => s) "../src/core" "core" sample_bld in
  map (apply_pcfile b) (List.filter (fun o => contains "ns3pcfile" (features o)) (all_task_gen b)) = [Raise (KeyError "ns3-core-test")].
Proof. vm_compute. reflexivity. Qed.

(** ** Installing headers *)

Lemma chmod_other p q mode fs fs' : chmod p mode fs = Ok fs' -> p <> q -> fs' !! q = fs !! q.
Proof. unfold chmod. destruct (fs !! p); [|done]. intros [= <-] Hne. by rewrite lookup_insert_ne. Qed.
(** One header: it ends up as a copy that nobody may write, whatever was there. *)
Lemma install_one_spec fs src dst f : fs !! src = Some f -> may_read f = true -> src <> dst ->
  install_one fs (src, dst) = Ok (<[dst := HFile (text f) r_owner]> fs).
Proof.
  intros Hsrc Hr Hne. unfold install_one, chmod at 1.
  destruct (fs !! dst) as [g|] eqn:Hd; cbn [res_bind]; unfold copy2.
  - rewrite lookup_insert_ne, Hsrc by done. rewrite Hr. cbn [negb]. rewrite ?lookup_insert_eq.
    change (may_write _) with true. cbn [res_bind]. unfold chmod. rewrite lookup_insert_eq. cbn [text]. by rewrite !insert_insert_eq.
  - rewrite Hsrc, Hr. cbn [negb]. rewrite Hd. cbn [res_bind]. unfold chmod. rewrite lookup_insert_eq. by rewrite insert_insert_eq.
Qed.

(** C34: A task that installs headers, when its sources can be read, its targets are different from each other and from the sources
    and the user owns the files (a [chmod] that is not permitted is outside the model):
    afterwards every target is a copy of its source that nobody may write, whatever it was before (also a
    copy that nobody may write), and no other file has changed. *)
Theorem install_headers_spec refused fs inputs outputs :
  length inputs = length outputs -> NoDup outputs -> (forall p, p ∈ inputs -> p ∉ outputs) ->
  (forall p, p ∈ inputs -> exists f, fs !! p = Some f /\ may_read f = true) ->
  exists fs', run_header refused (Install inputs outputs) fs = Ok fs' /\
    (forall i src dst f, inputs !! i = Some src -> outputs !! i = Some dst -> fs !! src = Some f ->
       fs' !! dst = Some (HFile (text f) r_owner)) /\
    (forall p, p ∉ outputs -> fs' !! p = fs !! p).
Proof.
  intros Hlen Hnd Hdisj Hsrc. unfold run_header. rewrite decide_True by done.
  revert outputs fs Hlen Hnd Hdisj Hsrc. induction inputs as [|src inputs IH]; intros [|dst outputs] fs Hlen Hnd Hdisj Hsrc; try done.
  { exists fs. by split_and!. }
  apply NoDup_cons in Hnd as [Hdst Hnd]. destruct (Hsrc src ltac:(by left)) as (f & Hf & Hr).
  assert (Hne : src <> dst). { intros ->. apply (Hdisj dst); by left. }
  cbn [zip zip_with for_each]. rewrite (install_one_spec fs src dst f) by done. cbn [res_bind].
  assert (Hins : forall p, p ∈ inputs -> p <> dst) by (intros p Hp ->; apply (Hdisj dst); [by right|by left]).
  destruct (IH outputs (<[dst := HFile (text f) r_owner]> fs)) as (fs' & Hrun & Hout & Hoth).
  - by injection Hlen.
  - done.
  - intros p Hp Hp'. apply (Hdisj p); by right.
  - intros p Hp. rewrite lookup_insert_ne by (intros E; by apply (Hins p)). apply Hsrc. by right.
  - exists fs'. split_and!; [done|..].
    + intros [|i] s d g; cbn.
      * intros [= <-] [= <-] Hg. rewrite Hoth, lookup_insert_eq by done. congruence.
      * intros Hs Hd Hg. eapply Hout; [done..|]. rewrite lookup_insert_ne; [done|]. intros E.
        apply (Hins s); [by eapply list_elem_of_lookup_2|done].
    + intros p [Hp1 Hp2]%not_elem_of_cons. by rewrite Hoth, lookup_insert_ne.
Qed.
Lemma install_headers_spec_witness :
  exists fs', run_header (fun _ => None) (Install ["src/core/model/ptr.h"] ["build/ns3/ptr.h"])
    {["src/core/model/ptr.h" := HFile "class Ptr;" 420; "build/ns3/ptr.h" := HFile "old" r_owner]} = Ok fs' /\
    fs' !! "build/ns3/ptr.h" = Some (HFile "class Ptr;" r_owner).
Proof.
  destruct (install_headers_spec (fun _ => None)
    {["src/core/model/ptr.h" := HFile "class Ptr;" 420; "build/ns3/ptr.h" := HFile "old" r_owner]}
    ["src/core/model/ptr.h"] ["build/ns3/ptr.h"]) as (fs' & Hrun & Hout & _).
  - reflexivity.
  - decided.
  - intros p ->%list_elem_of_singleton. decided.
  - intros p ->%list_elem_of_singleton. exists (HFile "class Ptr;" 420). by split.
  - exists fs'. split; [exact Hrun|]. exact (Hout 0 "src/core/model/ptr.h" "build/ns3/ptr.h" (HFile "class Ptr;" 420) eq_refl eq_refl eq_refl).
Defined.

(** Removing a header: it is gone, also if it was not there; only another error of the system is passed on. *)
Lemma remove_header_spec refused p fs :
  remove_header refused p fs =
  match refused p with
  | Some errno => if decide (errno = ENOENT) then Ok fs else Raise (OSError errno)
  | None => Ok (delete p fs)
  end.
Proof.
  unfold remove_header, unlink. destruct (refused p) as [errno|]; [by do 2 case_decide|].
  destruct (fs !! p) eqn:E; [done|]. rewrite decide_False by (intros []; done). by rewrite delete_id.
Qed.

(** ** The header of a module *)

Lemma basename_slash_free a b : no_char "/" b -> basename (a +:+ "/" +:+ b) = b.
Proof.
  intros Hb. unfold basename. change ("/" +:+ b) with (String "/" b). rewrite split_on_app, (split_on_free _ b) by done.
  by rewrite last_snoc.
Qed.
Lemma basename_no_slash p : no_char "/" (basename p).
Proof.
  unfold no_char, basename. induction p as [|c p IH]; [apply not_elem_of_nil|]. cbn [split_on].
  pose proof (split_on_nonempty "/" p) as Hne. destruct (split_on "/" p) as [|x l]; [done|]. clear Hne.
  case_decide as Hc.
  - change (last ("" :: x :: l)) with (last (x :: l)). done.
  - destruct l as [|y l]; [|done]. cbn in *. rewrite not_elem_of_cons. split; [congruence|done].
Qed.
Lemma basename_path_join d p : basename (path_join d (basename p)) = basename p.
Proof.
  pose proof (basename_no_slash p) as Hn. generalize dependent (basename p). intros n Hn.
  assert (Hself : basename n = n) by (unfold basename; by rewrite split_on_free).
  unfold path_join. assert (Hc : (exists r, n = String "/" r) \/
    match n with String "/"%char _ => n | _ => if decide (d = "") then n
      else if ends_with_slash d then d +:+ n else d +:+ "/" +:+ n end =
    (if decide (d = "") then n else if ends_with_slash d then d +:+ n else d +:+ "/" +:+ n)).
  { destruct n as [|[[] [] [] [] [] [] [] []] r]; try (by right). left. by exists r. }
  destruct Hc as [[r ->]| ->]; [by destruct Hn; left|]. case_decide; [done|].
  destruct (ends_with_slash d) eqn:E; [|by apply basename_slash_free].
  unfold ends_with_slash in E. apply bool_decide_eq_true in E.
  assert (exists a, d = a +:+ "/") as [a ->].
  { apply last_Some in E as [l Hl]. exists (string_of_list_ascii l).
    rewrite <- (string_of_list_ascii_of_string d), Hl. by rewrite string_of_list_ascii_app. }
  rewrite str_append_assoc. by apply basename_slash_free.
Qed.

Lemma str_append_inj_r a b c : a +:+ c = b +:+ c -> a = b.
Proof.
  intros H. apply (f_equal list_ascii_of_string) in H. rewrite !list_ascii_app in H. simplify_list_eq.
  rewrite <- (string_of_list_ascii_of_string a), <- (string_of_list_ascii_of_string b). by f_equal.
Qed.
Lemma include_line_inj x y : include_line x = include_line y -> x = y.
Proof.
  unfold include_line. intros H. apply (f_equal (str_drop 10)) in H.
  change ((x +:+ String quote "") +:+ eol = (y +:+ String quote "") +:+ eol) in H.
  by apply str_append_inj_r, str_append_inj_r in H.
Qed.

Section ModuleHeader.
Context (ns3_dir : string) (find_resource : string -> option string) (order : gset string -> list string).
(** A set is listed in some order, and the node of a source has the name of the source. *)
Hypothesis order_elements : forall s, order s ≡ₚ elements s.
Hypothesis resource_name : forall f src, find_resource f = Some src -> basename src = basename f.

Lemma map_res_in {E A B} (f : A -> res E B) l ys : map_res f l = Ok ys ->
  (forall x, x ∈ l -> exists y, f x = Ok y /\ y ∈ ys) /\ (forall y, y ∈ ys -> exists x, x ∈ l /\ f x = Ok y).
Proof.
  revert ys. induction l as [|x l IH]; intros ys; cbn [map_res].
  - intros [= <-]. split; intros z Hz; by apply elem_of_nil in Hz.
  - intros (y & Hy & (zs & Hzs & [= <-])%res_bind_ok)%res_bind_ok. destruct (IH zs Hzs) as [H1 H2]. split.
    + intros z [->|Hz]%elem_of_cons; [exists y; split; [done|by left]|]. destruct (H1 z Hz) as (w & ? & ?).
      exists w. split; [done|by right].
    + intros w [->|Hw]%elem_of_cons; [exists x; split; [by left|done]|]. destruct (H2 w Hw) as (z & ? & ?).
      exists z. split; [by right|done].
Qed.
(** The inputs of the module's header are the headers of all generators of the module. *)
Lemma module_inputs module_ mode all en inputs outputs :
  apply_ns3moduleheader ns3_dir order module_ mode all en = Ok (Some (Install inputs outputs)) ->
  forall p, p ∈ inputs <-> exists o f, o ∈ all /\ h_module o = Some module_ /\ f ∈ h_source o /\ p = path_join ns3_dir (basename f).
Proof.
  unfold apply_ns3moduleheader.
  assert (Hin : forall p, p ∈ concat (map (fun o => map (fun source => path_join ns3_dir (basename source))
      (merge_sort String.le (order (header_names o)))) (List.filter (fun o => bool_decide (h_module o = Some module_)) all)) <->
    exists o f, o ∈ all /\ h_module o = Some module_ /\ f ∈ h_source o /\ p = path_join ns3_dir (basename f)).
  { intros p. rewrite list_elem_of_In, in_concat. split.
    - intros (l & (o & <- & [Ho Hm]%filter_In)%in_map_iff & (f & <- & Hf)%in_map_iff).
      exists o, f. split_and!; [by apply list_elem_of_In|by apply bool_decide_eq_true in Hm| |done].
      apply list_elem_of_In in Hf. rewrite merge_sort_Permutation, order_elements, elem_of_elements in Hf.
      by apply elem_of_list_to_set in Hf.
    - intros (o & f & Ho & Hm & Hf & ->). eexists. split.
      + apply in_map_iff. exists o. split; [done|]. apply filter_In. split; [by apply list_elem_of_In|by apply bool_decide_eq_true].
      + apply in_map_iff. exists f. split; [done|]. apply list_elem_of_In.
        rewrite merge_sort_Permutation, order_elements, elem_of_elements. by apply elem_of_list_to_set. }
  destruct (List.filter _ all) as [|g gens] eqn:E; [done|]. rewrite <- E in *.
  cbv zeta. destruct (_ || _); [done|]. case_decide; [|done]. intros [= <- <-]. done.
Qed.
Lemma included_in module_ inputs x : include_line x ∈ module_header module_ inputs <-> exists p, p ∈ inputs /\ basename p = x.
Proof.
  unfold module_header. rewrite !elem_of_app. split.
  - intros [H|[(y & Hy%include_line_inj & Hin)%list_elem_of_In%in_map_iff|H]].
    + exfalso. repeat (apply elem_of_cons in H as [H|H];
        [apply (f_equal (starts_with "#include ")) in H; change (true = false) in H; discriminate|]). by apply elem_of_nil in H.
    + subst y. apply list_elem_of_In in Hin. rewrite merge_sort_Permutation, list_elem_of_In, in_map_iff in Hin.
      destruct Hin as (p & <- & Hp). exists p. by rewrite list_elem_of_In.
    + exfalso. apply list_elem_of_singleton in H. apply (f_equal (starts_with "#include ")) in H. by change (true = false) in H.
  - intros (p & Hp & <-). right. left. apply list_elem_of_In, in_map, list_elem_of_In.
    rewrite merge_sort_Permutation, list_elem_of_In. by apply in_map, list_elem_of_In.
Qed.

Lemma header_task_install o f : default "install" (h_mode o) = "install" ->
  header_task_for ns3_dir find_resource o f =
  match find_resource f with
  | None => Raise (WafError ("source ns3 header file " +:+ f +:+ " not found"))
  | Some src => Ok (Install [src] [path_join ns3_dir (basename src)])
  end.
Proof. intros Hm. unfold header_task_for. destruct (find_resource f); [|done]. by rewrite decide_True. Qed.

(** C35: The header of a module includes exactly the headers of the module, by the names under which they are installed: when the
    generators of the module's headers have their tasks, a name is included if and only if one of these tasks installs its source
    under that name in the directory of the headers. *)
Theorem module_header_spec module_ mode all en inputs outputs (tasks : headers_tgen -> list header_task) :
  apply_ns3moduleheader ns3_dir order module_ mode all en = Ok (Some (Install inputs outputs)) ->
  (forall o, o ∈ all -> h_module o = Some module_ ->
     default "install" (h_mode o) = "install" /\ apply_ns3header ns3_dir find_resource order o = Ok (tasks o)) ->
  forall x, include_line x ∈ module_header module_ inputs <->
    exists o src, o ∈ all /\ h_module o = Some module_ /\ Install [src] [path_join ns3_dir x] ∈ tasks o /\ basename src = x.
Proof.
  intros Happ Htasks x. rewrite included_in.
  assert (Hgen : forall o t, o ∈ all -> h_module o = Some module_ ->
    (t ∈ tasks o <-> exists f src, f ∈ h_source o /\ find_resource f = Some src /\ t = Install [src] [path_join ns3_dir (basename src)])).
  { intros o t Ho Hm. destruct (Htasks o Ho Hm) as [Hmode Hts]. unfold apply_ns3header in Hts. rewrite Hm in Hts.
    apply map_res_in in Hts as [H1 H2].
    assert (Hord : forall f, f ∈ order (header_names o) <-> f ∈ h_source o).
    { intros f. rewrite order_elements, elem_of_elements. apply elem_of_list_to_set. }
    split.
    - intros Ht. destruct (H2 t Ht) as (f & Hf & E). rewrite header_task_install in E by done. destruct (find_resource f) as [src|] eqn:Er; [|done].
      injection E as <-. exists f, src. by rewrite <- Hord.
    - intros (f & src & Hf & Er & ->). destruct (H1 f) as (t & E & Ht); [by apply Hord|].
      rewrite header_task_install, Er in E by done. by injection E as <-. }
  split.
  - intros (p & Hp & <-). apply (module_inputs _ _ _ _ _ _ Happ) in Hp as (o & f & Ho & Hm & Hf & ->).
    rewrite basename_path_join. destruct (Htasks o Ho Hm) as [Hmode Hts].
    assert (exists src, find_resource f = Some src) as [src Er].
    { unfold apply_ns3header in Hts. rewrite Hm in Hts. apply map_res_in in Hts as [H1 _].
      destruct (H1 f) as (t & E & _); [rewrite order_elements, elem_of_elements; by apply elem_of_list_to_set|].
      unfold header_task_for in E. destruct (find_resource f) as [src|]; [by exists src|done]. }
    exists o, src. split_and!; [done|done| |by apply resource_name]. apply Hgen; [done..|].
    exists f, src. split_and!; [done|done|]. by rewrite (resource_name f src).
  - intros (o & src & Ho & Hm & Ht & <-). apply Hgen in Ht as (f & src' & Hf & Er & [= <- _]); [|done..].
    exists (path_join ns3_dir (basename f)). split; [|by rewrite basename_path_join, (resource_name f src)].
    apply (module_inputs _ _ _ _ _ _ Happ). by exists o, f.
Qed.
End ModuleHeader.

Definition sample_gens : list headers_tgen :=
  [{| h_module := Some "core"; h_source := ["model/ptr.h"; "model/object.h"; "model/ptr.h"]; h_mode := None |};
   {| h_module := Some "wifi"; h_source := ["model/ssid.h"]; h_mode := None |}].
Definition sample_find (f : string) : option string := Some ("src/core/" +:+ "model/" +:+ basename f).
Definition sample_tasks (o : headers_tgen) : list header_task :=
  match apply_ns3header "build/ns3" sample_find elements o with Ok ts => ts | _ => [] end.
Lemma module_header_spec_witness :
  include_line "ptr.h" ∈ module_header "core" ["build/ns3/object.h"; "build/ns3/ptr.h"] <->
  exists o src, o ∈ sample_gens /\ h_module o = Some "core" /\ Install [src] ["build/ns3/ptr.h"] ∈ sample_tasks o /\ basename src = "ptr.h".
Proof.
  assert (Hfind : forall f src, sample_find f = Some src -> basename src = basename f).
  { intros f src [= <-]. apply (basename_slash_free "src/core/model"), basename_no_slash. }
  apply (module_header_spec "build/ns3" sample_find elements (fun s => reflexivity _) Hfind "core" None sample_gens true
    ["build/ns3/object.h"; "build/ns3/ptr.h"] ["build/ns3/core-module.h"] sample_tasks).
  - vm_compute. reflexivity.
  - intros o Ho _. apply elem_of_cons in Ho as [->|[->|?%elem_of_nil]%elem_of_cons]; [..|done]; (split; [reflexivity|vm_compute; reflexivity]).
Defined.

(** The header tests its guard and never defines it, so it includes its headers each time. *)
Example module_header_unguarded :
  contains (header_guard "core") (str_join "" (module_header "core" ["build/ns3/ptr.h"])) = true /\
  contains "#define" (str_join "" (module_header "core" ["build/ns3/ptr.h"])) = false.
Proof. split; vm_compute; reflexivity. Qed.

(** ** Files for pkg-config *)

(** What a module requires is the file of the module that it uses, as [create_ns3_module] names it. *)
Lemma requires_resolves V S st h bk fl so cs n deps i : no_char "/" V -> no_char "/" S -> no_char "/" n ->
  pc_requires V S ["ns3-" +:+ n] = ["lib" +:+ basename (target (module_tgen V S st h bk fl so cs n deps i))] /\
  pcfile_name (target (module_tgen V S st h bk fl so cs n deps i)) = "libns" +:+ V +:+ "-" +:+ n +:+ S +:+ ".pc".
Proof.
  intros HV HS Hn. unfold pcfile_name.
  assert (E : basename (target (module_tgen V S st h bk fl so cs n deps i)) = "ns" +:+ V +:+ "-" +:+ n +:+ S).
  { cbn [module_tgen target]. change (?a +:+ "/lib/ns" +:+ ?x) with (a +:+ ("/lib" +:+ ("/" +:+ ("ns" +:+ x)))).
    rewrite <- (str_append_assoc bk "/lib"). apply basename_slash_free. rewrite !no_char_app. split_and!; try done; decided. }
  rewrite E. split; [done|]. by rewrite !str_append_assoc.
Qed.
(** The libraries of the environment are taken apart into characters. *)
Example pc_libs_characters :
  pc_libs "ns" "3" "-debug" (fun _ => []) (fun key => if decide (key = "LIB_ST") then "-l%s" else if decide (key = "LIBPATH_ST") then "-L%s" else "")
    false "ns3-core" [] ["rt"] = Ok ["-L${libdir}"; "-lns3-core-debug"; "-"; "l"; "r"; "t"].
Proof. vm_compute. reflexivity. Qed.
