(* ===== verification/WafStatus.v ===== *)
(** * What waf leaves for [test.py]: the end of [shutdown] in [src/wscript]

    [shutdown] writes the lists of the programs and scripts that can be run to a file
    of Python assignments, and [test.py] evaluates them.  The texts that Python has for lists of
    strings are modelled in both directions, for all bytes (those above 127 stay as they are), so the two
    programs can be put together: what [WafBuild.build] leaves is what [TestRun.runnable] finds. *)

From S2P Require Import Prelude PyLib WafRun WafBuild TestRun State.
From Stdlib Require Import Ascii String.
From stdpp Require Import strings gmap.
Local Open Scope string_scope.
Local Open Scope nat_scope.
Local Open Scope list_scope.
Local Open Scope py_scope.

(** ** [repr] of a list of strings, and [eval] of what it gives *)

Definition single : ascii := ascii_of_nat 39.
Definition hex_char (n : nat) : ascii := ascii_of_nat (if n <? 10 then 48 + n else 87 + n).
Definition repr_char (q c : ascii) : list ascii :=
  if decide (c = q \/ c = "\"%char) then ["\"%char; c]
  else if decide (c = newline) then ["\"%char; "n"%char]
  else if decide (c = ascii_of_nat 13) then ["\"%char; "r"%char]
  else if decide (c = ascii_of_nat 9) then ["\"%char; "t"%char]
  else if (code c <? 32) || (code c =? 127) then ["\"%char; "x"%char; hex_char (code c / 16); hex_char (code c mod 16)]
  else [c].
(** Python prefers single quotes, unless the text has one and no double quote. *)
Definition repr_quote (s : list ascii) : ascii :=
  if decide (single ∈ s /\ quote ∉ s) then quote else single.
Definition repr (s : string) : list ascii :=
  let l := list_ascii_of_string s in
  let q := repr_quote l in
  q :: concat (map (repr_char q) l) ++ [q].
Fixpoint repr_items (l : list string) : list ascii :=
  match l with
  | [] => []
  | [s] => repr s
  | s :: l => repr s ++ [","%char; " "%char] ++ repr_items l
  end.
(** [str(l)] *)
Definition str_list (l : list string) : string := string_of_list_ascii ("["%char :: repr_items l ++ ["]"%char]).

Definition hex_value (c : ascii) : option nat :=
  if in_range 48 57 c then Some (code c - 48)
  else if in_range 97 102 c then Some (code c - 87)
  else if in_range 65 70 c then Some (code c - 55) else None.
(** The rest of a literal that [q] closes: its text, and what follows.  Of the escapes, the ones that [repr]
    writes, and the backslash that stays when the next character means nothing. *)
Fixpoint literal_body (q : ascii) (s : list ascii) : option (list ascii * list ascii) :=
  match s with
  | [] => None
  | c :: s1 =>
      if decide (c = q) then Some ([], s1)
      else if decide (c = "\"%char) then
        match s1 with
        | [] => None
        | d :: s2 =>
            let more (x : list ascii) (r : list ascii) :=
              match literal_body q r with Some (t, r) => Some (x ++ t, r) | None => None end in
            if decide (d = "\"%char \/ d = single \/ d = quote) then more [d] s2
            else if decide (d = "n"%char) then more [newline] s2
            else if decide (d = "r"%char) then more [ascii_of_nat 13] s2
            else if decide (d = "t"%char) then more [ascii_of_nat 9] s2
            else if decide (d = "x"%char) then
              match s2 with
              | h1 :: h2 :: s3 =>
                  match hex_value h1, hex_value h2 with
                  | Some a, Some b =>
                      match literal_body q s3 with
                      | Some (t, r) => Some (ascii_of_nat (16 * a + b) :: t, r)
                      | None => None
                      end
                  | _, _ => None
                  end
              | _ => None
              end
            else more [c; d] s2
        end
      else if decide (c = newline) then None
      else match literal_body q s1 with Some (t, r) => Some (c :: t, r) | None => None end
  end.
Fixpoint skip_spaces (s : list ascii) : list ascii :=
  match s with
  | c :: r => if is_space c then skip_spaces r else s
  | [] => []
  end.
Definition string_literal (s : list ascii) : option (string * list ascii) :=
  match s with
  | c :: s =>
      if decide (c = single \/ c = quote) then
        match literal_body c s with Some (t, r) => Some (string_of_list_ascii t, skip_spaces r) | None => None end
      else None
  | [] => None
  end.
(** The elements after the bracket, with commas between them and perhaps after the last. *)
Fixpoint list_body (fuel : nat) (s : list ascii) : option (list string * list ascii) :=
  match fuel, skip_spaces s with
  | _, "]"%char :: r => Some ([], r)
  | S fuel, s =>
      match string_literal s with
      | Some (x, "]"%char :: r) => Some ([x], r)
      | Some (x, ","%char :: r) =>
          match list_body fuel r with Some (l, r) => Some (x :: l, r) | None => None end
      | _ => None
      end
  | _, _ => None
  end.
(** [eval] on the texts that these files hold: a list of literals, [True] or [False]. *)
Definition eval_list (s : string) : res conf_exn pyvalue :=
  if decide (s = "True") then Ok (VBool true)
  else if decide (s = "False") then Ok (VBool false)
  else match list_ascii_of_string s with
       | "["%char :: r =>
           match list_body (length r) r with
           | Some (l, r) => if decide (skip_spaces r = []) then Ok (VList l) else Raise WafRun.EvalError
           | None => Raise WafRun.EvalError
           end
       | _ => Raise WafRun.EvalError
       end.

Example str_list_ex : str_list ["a'b"; String quote "c\'"; "d"] = "[" +:+ String quote "a'b" +:+ String quote (", '" +:+ String quote "c\\\'', 'd']").
Proof. vm_compute. reflexivity. Qed.
Example eval_list_ex : eval_list (str_list ["a'b"; String quote "c\'"; "d"]) = Ok (VList ["a'b"; String quote "c\'"; "d"]).
Proof. vm_compute. reflexivity. Qed.

(** ** The file *)

Definition eol : string := String newline "".
(** The lines that [shutdown] writes to build-status.py. *)
Definition build_status (programs scripts : list string) : list string :=
  ["#! /usr/bin/env python3" +:+ eol; eol; "# Programs that are runnable." +:+ eol;
   "ns3_runnable_programs = " +:+ str_list programs +:+ eol; eol; "# Scripts that are runnable." +:+ eol;
   "ns3_runnable_scripts = " +:+ str_list scripts +:+ eol; eol].

(** ** Round trips *)

Lemma hex_value_char n : n < 16 -> hex_value (hex_char n) = Some n.
Proof. intros Hn. do 16 (destruct n as [|n]; [reflexivity|]). lia. Qed.
Lemma literal_char q c r : (q = single \/ q = quote) ->
  literal_body q (repr_char q c ++ r) =
  match literal_body q r with Some (t, r) => Some (c :: t, r) | None => None end.
Proof.
  intros [-> | ->]; destruct c as [[] [] [] [] [] [] [] []]; reflexivity.
Qed.
Lemma literal_chars q l r : (q = single \/ q = quote) ->
  literal_body q (concat (map (repr_char q) l) ++ q :: r) = Some (l, r).
Proof.
  intros Hq. induction l as [|c l IH]; cbn [map concat app].
  - cbn. by rewrite decide_True.
  - by rewrite <- app_assoc, literal_char, IH.
Qed.
Lemma repr_quote_cases l : repr_quote l = single \/ repr_quote l = quote.
Proof. unfold repr_quote. case_decide; auto. Qed.
Lemma string_literal_repr s r : string_literal (repr s ++ r) = Some (s, skip_spaces r).
Proof.
  unfold repr. pose proof (repr_quote_cases (list_ascii_of_string s)) as Hq. set (q := repr_quote _) in *.
  cbn [app string_literal]. rewrite decide_True by done. rewrite <- app_assoc. cbn [app].
  rewrite literal_chars by done. by rewrite string_of_list_ascii_of_string.
Qed.
Lemma repr_head s r : skip_spaces (repr s ++ r) = repr s ++ r /\ exists q l, repr s = q :: l /\ q <> "]"%char.
Proof.
  unfold repr. destruct (repr_quote_cases (list_ascii_of_string s)) as [-> | ->]; (split; [reflexivity|]); by eexists _, _.
Qed.
Lemma list_body_items l r : forall fuel, length l <= fuel ->
  list_body fuel (repr_items l ++ "]"%char :: r) = Some (l, r).
Proof.
  induction l as [|s l IH]; intros fuel Hf; [by destruct fuel|]. destruct fuel as [|fuel]; [cbn in Hf; lia|].
  assert (Hstep : forall tl, list_body (S fuel) (repr s ++ tl) =
    match string_literal (repr s ++ tl) with
    | Some (x, "]"%char :: r) => Some ([x], r)
    | Some (x, ","%char :: r) => match list_body fuel r with Some (l, r) => Some (x :: l, r) | None => None end
    | _ => None
    end).
  { intros tl. destruct (repr_head s tl) as [Hsk (q & t & Ht & Hq)]. cbn [list_body]. rewrite Hsk, Ht. cbn [app].
    destruct q as [[] [] [] [] [] [] [] []]; done. }
  destruct l as [|s' l].
  - cbn [repr_items]. rewrite Hstep, string_literal_repr. done.
  - change (repr_items (s :: s' :: l)) with (repr s ++ [","%char; " "%char] ++ repr_items (s' :: l)).
    rewrite <- !app_assoc, Hstep, string_literal_repr. cbn [app].
    change (skip_spaces (","%char :: ?x)) with (","%char :: x). cbv beta iota.
    assert (Hsp : forall x, list_body fuel (" "%char :: x) = list_body fuel x) by (by destruct fuel).
    rewrite Hsp, IH; [done|]. cbn in *. lia.
Qed.
Lemma repr_items_length l : length l <= length (repr_items l).
Proof.
  induction l as [|s [|s' l] IH]; [done|cbn; lia|].
  change (repr_items (s :: s' :: l)) with (repr s ++ [","%char; " "%char] ++ repr_items (s' :: l)).
  rewrite !length_app. cbn [length] in *. lia.
Qed.
(** [eval] inverts [str] on lists of strings. *)
Lemma eval_str_list l : eval_list (str_list l) = Ok (VList l).
Proof.
  unfold eval_list, str_list. rewrite !decide_False by done. rewrite list_ascii_of_string_of_list_ascii.
  rewrite list_body_items; [done|]. rewrite length_app. pose proof (repr_items_length l). cbn. lia.
Qed.

Lemma strip_comment_id s : no_char "#" s -> strip_comment s = s.
Proof.
  unfold no_char, strip_comment. induction s as [|c s IH]; [done|]. cbn. rewrite not_elem_of_cons. intros [Hc Hs].
  rewrite decide_False by done. specialize (IH Hs). destruct (split_once "#" s) as [x r]. cbn in *. by rewrite IH.
Qed.
(** Quoting adds no comment character, so a list of names without one has none. *)
Lemma repr_char_no_hash q c : (q = single \/ q = quote) -> c <> "#"%char -> "#"%char ∉ repr_char q c.
Proof.
  intros [-> | ->] Hc; destruct c as [[] [] [] [] [] [] [] []];
    first [by destruct Hc|decided].
Qed.
Lemma str_list_no_hash l : Forall (no_char "#") l -> no_char "#" (str_list l).
Proof.
  intros Hl. unfold no_char, str_list. rewrite list_ascii_of_string_of_list_ascii, not_elem_of_cons, not_elem_of_app, list_elem_of_singleton.
  split_and!; [done| |done]. induction l as [|s l IH]; [apply not_elem_of_nil|]. apply Forall_cons in Hl as [Hs Hl].
  assert (Hr : "#"%char ∉ repr s).
  { unfold repr. pose proof (repr_quote_cases (list_ascii_of_string s)) as Hq. set (q := repr_quote _) in *.
    assert (Hne : "#"%char <> q) by (by destruct Hq as [-> | ->]).
    rewrite not_elem_of_cons, not_elem_of_app, list_elem_of_singleton. split_and!; [done| |done].
    intros (cs & Hin & Hcs)%list_elem_of_In%in_concat. apply in_map_iff in Hin as (c & <- & Hc).
    apply list_elem_of_In in Hcs. apply (repr_char_no_hash q c Hq); [|done]. intros ->. apply Hs. by apply list_elem_of_In. }
  destruct l as [|s' l]; [done|].
  change (repr_items (s :: s' :: l)) with (repr s ++ [","%char; " "%char] ++ repr_items (s' :: l)).
  rewrite !not_elem_of_app. split_and!; [done|decided|by apply IH].
Qed.

(** ** Reading the file back *)

Lemma contains_char c s : contains (String c "") s = true <-> c ∈ list_ascii_of_string s.
Proof.
  induction s as [|d s IH]; cbn; [by rewrite elem_of_nil|].
  rewrite orb_true_iff, IH, elem_of_cons, andb_true_r, bool_decide_eq_true. done.
Qed.
Lemma starts_with_newline p s : no_char newline p -> p <> "" -> starts_with p (s +:+ eol) = starts_with p s.
Proof.
  revert p. induction s as [|c s IH]; intros [|d p] Hp Hne; try done.
  - change (bool_decide (d = newline) && starts_with p "" = false). rewrite bool_decide_eq_false_2; [done|].
    intros ->. apply Hp. by left.
  - change (bool_decide (d = c) && starts_with p (s +:+ eol) = bool_decide (d = c) && starts_with p s).
    destruct (decide (p = "")) as [->|Hp']; [by destruct s|]. rewrite IH; [done| |done]. intros Hin. apply Hp. by right.
Qed.
Lemma contains_newline p s : no_char newline p -> p <> "" -> contains p (s +:+ eol) = contains p s.
Proof.
  intros Hp Hne. induction s as [|c s IH].
  - change (starts_with p ("" +:+ eol) || contains p "" = contains p ""). rewrite starts_with_newline by done. by destruct p.
  - change (starts_with p (String c s +:+ eol) || contains p (s +:+ eol) = starts_with p (String c s) || contains p s).
    by rewrite starts_with_newline, IH.
Qed.
Lemma rstrip_snoc s c : is_space c = false -> rstrip (s +:+ String c "") = s +:+ String c "".
Proof.
  intros Hc. induction s as [|d s IH].
  - change (rstrip (String c "") = String c ""). cbn. by rewrite Hc.
  - change (match rstrip (s +:+ String c "") with "" => if is_space d then "" else String d "" | t => String d t end
      = String d (s +:+ String c "")). rewrite IH. by destruct s.
Qed.
Lemma rstrip_spaces s t : rstrip t = "" -> rstrip (s +:+ t) = rstrip s.
Proof.
  intros Ht. induction s as [|d s IH]; [done|].
  change (match rstrip (s +:+ t) with "" => if is_space d then "" else String d "" | t => String d t end = rstrip (String d s)).
  by rewrite IH.
Qed.
Lemma str_list_ends l : exists t, str_list l = String "[" t +:+ "]".
Proof.
  exists (string_of_list_ascii (repr_items l)). unfold str_list. cbn. by rewrite string_of_list_ascii_app.
Qed.
Lemma strip_assigned l : strip (" " +:+ str_list l +:+ eol) = str_list l.
Proof.
  destruct (str_list_ends l) as [t ->]. unfold strip. change (lstrip _) with ((String "[" t +:+ "]") +:+ eol).
  rewrite rstrip_spaces by reflexivity. by apply rstrip_snoc.
Qed.

Lemma split_once_assigned name t : no_char "=" name ->
  split_once "=" (name +:+ " =" +:+ t) = (name +:+ " ", Some t).
Proof.
  induction name as [|c name IH]; [done|]. unfold no_char. cbn [list_ascii_of_string]. rewrite not_elem_of_cons. intros [Hc Hn].
  change (String c name +:+ ?x) with (String c (name +:+ x)). cbn [split_once].
  rewrite decide_False by done. rewrite IH; [|done]. done.
Qed.

(** The line of an assignment, as [find_list] treats it. *)
Lemma find_list_line name l rest : no_char "#" name -> no_char "=" name -> Forall (no_char "#") l ->
  find_list eval_list name "" false ((name +:+ " = " +:+ str_list l +:+ eol) :: rest) = Ok (VList l).
Proof.
  intros Hn He Hl. cbn [find_list].
  rewrite strip_comment_id by (rewrite !no_char_app; split_and!; [done| |by apply str_list_no_hash|]; decided).
  assert (Hc : contains name (name +:+ " = " +:+ str_list l +:+ eol) = true).
  { apply contains_app_l. destruct name; [done|]. cbn [contains]. apply orb_true_iff. left.
    rewrite <- (str_append_nil_r (String _ _)) at 2. apply starts_with_append. }
  rewrite Hc. cbn [orb append]. rewrite (proj2 (contains_char "]" _)).
  - cbn [negb]. unfold eval_assigned.
    change ("" +:+ ?x) with x. change (" = " +:+ ?x) with (" =" +:+ (" " +:+ x)).
    rewrite (split_once_assigned name (" " +:+ str_list l +:+ eol) He). rewrite strip_assigned. apply eval_str_list.
  - destruct (str_list_ends l) as [t ->]. rewrite !list_ascii_app, !elem_of_app.
    assert ("]"%char ∈ list_ascii_of_string "]") by (by left). tauto.
Qed.

Section ReadBack.
Context (programs scripts : list string).
Hypothesis programs_plain : Forall (no_char "#") programs.
Hypothesis scripts_plain : Forall (no_char "#") scripts.
Hypothesis no_confusion : contains "ns3_runnable_scripts" (str_list programs) = false.
Lemma programs_read : get_list_from_file eval_list (Some (build_status programs scripts)) "ns3_runnable_programs" = Ok (VList programs).
Proof.
  cbn [get_list_from_file]. unfold build_status.
  etrans; [refine (find_list_skip eval_list "ns3_runnable_programs" [_; _; _] _ _); by repeat constructor|].
  apply (find_list_line "ns3_runnable_programs"); [decided..|done].
Qed.
Lemma scripts_read : get_list_from_file eval_list (Some (build_status programs scripts)) "ns3_runnable_scripts" = Ok (VList scripts).
Proof.
  cbn [get_list_from_file]. unfold build_status.
  etrans; [refine (find_list_skip eval_list "ns3_runnable_scripts" [_; _; _; _; _; _] _ _)|].
  - rewrite !Forall_cons, Forall_nil. split_and!; try reflexivity; try exact I.
    rewrite strip_comment_id by (rewrite !no_char_app; split_and!; [decided|by apply str_list_no_hash|decided]).
    change (contains "ns3_runnable_scripts" (str_list programs +:+ eol) = false).
    by rewrite contains_newline by first [done|decided].
  - apply (find_list_line "ns3_runnable_scripts"); [decided..|done].
Qed.
End ReadBack.

(** C16: What the build lists is what the test driver reads: when [shutdown] has written the lists of a build and no name in
    them has the sign of a comment and the text of the list of programs does not contain [ns3_runnable_scripts] (the reader looks for
    that name in every line), [run_tests] gets, without an exception, exactly the programs and scripts of the build. *)
Theorem runnable_read_back files status_file b w :
  files status_file = Some (build_status (NS3_RUNNABLE_PROGRAMS b) (NS3_RUNNABLE_SCRIPTS b)) ->
  Forall (no_char "#") (NS3_RUNNABLE_PROGRAMS b) -> Forall (no_char "#") (NS3_RUNNABLE_SCRIPTS b) ->
  contains "ns3_runnable_scripts" (str_list (NS3_RUNNABLE_PROGRAMS b)) = false ->
  TestRun.runnable files eval_list status_file "ns3_runnable_programs" w = (Ok (NS3_RUNNABLE_PROGRAMS b), w) /\
  TestRun.runnable files eval_list status_file "ns3_runnable_scripts" w = (Ok (NS3_RUNNABLE_SCRIPTS b), w).
Proof.
  intros Hf Hp Hs Hc. unfold TestRun.runnable, bind, lift. rewrite Hf. by rewrite programs_read, scripts_read.
Qed.
(** The lists of [WafBuild.sample_build]. *)
Lemma runnable_read_back_witness :
  let b := Bld [[]] 0 0 ∅ [] [] [] ["build/examples/tutorial/ns3-first-debug"; "build/scratch/ns3-scratch-simulator-debug"]
             ["examples/tutorial/first.py"] in
  let files (path : string) := if decide (path = "build/build-status.py")
    then Some (build_status (NS3_RUNNABLE_PROGRAMS b) (NS3_RUNNABLE_SCRIPTS b)) else None in
  TestRun.runnable files eval_list "build/build-status.py" "ns3_runnable_scripts" [] = (Ok ["examples/tutorial/first.py"], []).
Proof.
  intros b files. apply (proj2 (runnable_read_back files "build/build-status.py" b [] eq_refl
    ltac:(repeat constructor; decided) ltac:(repeat constructor; decided) eq_refl)).
Defined.
(** The sign of a comment in the name of a directory: the list is cut there, and the text is not Python. *)
Lemma hash_in_name : get_list_from_file eval_list (Some (build_status ["b#1/ns3-first"] [])) "ns3_runnable_programs"
  = Raise WafRun.EvalError.
Proof. vm_compute. reflexivity. Qed.
