(* ===== verification/VizNdn.v ===== *)
(** * The windows of NDN tables: [src/src/visualizer/visualizer/plugins/ndnsim_*.py]

    Four kinds of windows, on the content store, the faces, the FIB and the PIT of a node, and the list of information windows
    in [src/src/visualizer/visualizer/core.py] that keeps them up to date.  A window is an object with an
    identity; its table is the list of its rows.  The tables of the simulator are arguments of each
    update; a table that the C++ library does not give is [None]. *)

From S2P Require Import Prelude PyLib.
From Stdlib Require Import Ascii String.
From stdpp Require Import strings.
Open Scope string_scope.
Open Scope nat_scope.
Open Scope list_scope.

(** ** The tables of a node *)

(** The texts of names and faces are the ones that the bindings give. *)
Record face := mkFace { face_str : string; face_id : nat }.
Record next_hop := mkHop { hop_face : face; cost : nat }.
Record fib_entry := mkFib { prefix : string; next_hops : list next_hop }.
Record forwarder := mkForwarder {
  getFib : option (list fib_entry); getPit : option (list string); getCs : option (list string); getFaceTable : list face }.

(** ** Windows *)

Inductive kind := Cs | Faces | Fib | Pit.
Definition kind_name (k : kind) : string := match k with Cs => "CS" | Faces => "FIB" | Fib => "FIB" | Pit => "PIT" end.
(** The title that the constructor sets. *)
Definition title (k : kind) (node_index : nat) (node_name : string) : string :=
  "Ndn " +:+ kind_name k +:+ " for node " +:+ show_nat node_index
  +:+ (if decide (node_name = "") then "" else " (" +:+ node_name +:+ ")").
(** The headings of the columns, and the entry of the node's menu. *)
Definition headings (k : kind) : list string :=
  match k with
  | Cs => ["CS Entry prefix"]
  | Faces => ["id"; "faceType[nodeId]"]
  | Fib => ["Destination"; "faceType[nodeId](routingCost,status,metric)"]
  | Pit => ["Prefix"]
  end.
Definition menu_label (k : kind) : string :=
  match k with Cs => "Show NDN CS" | Faces => "Show NDN Faces" | Fib => "Show NDN FIB" | Pit => "Show NDN PIT" end.

Definition hop_text (nh : next_hop) : string :=
  face_str (hop_face nh) +:+ show_nat (face_id (hop_face nh)) +:+ " (" +:+ show_nat (cost nh) +:+ ")".
(** What [update] puts into the table, if it changes it. *)
Definition table_rows (k : kind) (f : forwarder) : option (list (list string)) :=
  match k with
  | Cs => map (fun name => [name]) <$> getCs f
  | Faces => Some (map (fun item => [show_nat (face_id item); face_str item]) (getFaceTable f))
  | Fib => map (fun item => [prefix item; str_join ", " (map hop_text (next_hops item))]) <$> getFib f
  | Pit => map (fun name => [name]) <$> getPit f
  end.

Record window := mkWindow { win_id : nat; win_kind : kind; node_index : nat; win_title : string; rows : list (list string) }.
Definition update (tables : nat -> forwarder) (w : window) : window :=
  match table_rows (win_kind w) (tables (node_index w)) with
  | None => w
  | Some r => mkWindow (win_id w) (win_kind w) (node_index w) (win_title w) r
  end.

(** ** The visualizer's list *)

Record viz := mkViz { information_windows : list window; next_id : nat }.
Definition initial : viz := mkViz [] 0.
Inductive viz_exn := ValueError.
(** The constructor: the window joins the list and is updated at once. *)
Definition show (k : kind) (node : nat) (node_name : string) (tables : nat -> forwarder) (v : viz) : viz :=
  let w := mkWindow (next_id v) k node (title k node node_name) [] in
  mkViz (information_windows v ++ [update tables w]) (S (next_id v)).
Fixpoint remove_window (i : nat) (l : list window) : option (list window) :=
  match l with
  | [] => None
  | w :: l => if win_id w =? i then Some l else (cons w) <$> remove_window i l
  end.
(** [_response_cb] *)
Definition close (i : nat) (v : viz) : res viz_exn viz :=
  match remove_window i (information_windows v) with
  | Some l => Ok (mkViz l (next_id v))
  | None => Raise ValueError
  end.
(** [update_view] *)
Definition update_view (tables : nat -> forwarder) (v : viz) : viz :=
  mkViz (map (update tables) (information_windows v)) (next_id v).

(** What may happen to the list; [shown] is the state of the simulator that an update sees. *)
Inductive event := Show (k : kind) (node : nat) (node_name : string) | Close (i : nat) | UpdateView.
Definition handle (tables : nat -> forwarder) (e : event) (v : viz) : res viz_exn viz :=
  match e with
  | Show k node node_name => Ok (show k node node_name tables v)
  | Close i => close i v
  | UpdateView => Ok (update_view tables v)
  end.
Definition is_open (v : viz) (i : nat) : Prop := i ∈ map win_id (information_windows v).

(** ** Properties *)

Definition viz_ok (v : viz) : Prop :=
  NoDup (map win_id (information_windows v)) /\ forall w, w ∈ information_windows v -> win_id w < next_id v.
Lemma window_id_kept tables w : win_id (update tables w) = win_id w.
Proof. unfold update. by destruct (table_rows _ _). Qed.
Lemma update_ids tables l : map win_id (map (update tables) l) = map win_id l.
Proof. rewrite map_map. apply map_ext. apply window_id_kept. Qed.
Lemma remove_window_spec i l : NoDup (map win_id l) ->
  match remove_window i l with
  | Some l' => i ∈ map win_id l /\ l' = filter (fun w => win_id w <> i) l
  | None => i ∉ map win_id l
  end.
Proof.
  induction l as [|w l IH]; cbn [map remove_window]; [intros _; apply not_elem_of_nil|].
  intros [Hw Hl]%NoDup_cons. destruct (Nat.eqb_spec (win_id w) i) as [<-|Hne].
  - split; [by left|]. rewrite filter_cons_False by (by intros []). clear IH Hl.
    induction l as [|x l IH]; [done|]. cbn in Hw. apply not_elem_of_cons in Hw as [Hx Hl].
    rewrite filter_cons_True by done. by rewrite <- IH.
  - specialize (IH Hl). destruct (remove_window i l) as [l'|]; cbn [fmap option_fmap option_map].
    + destruct IH as [Hin ->]. split; [by right|]. by rewrite filter_cons_True.
    + rewrite not_elem_of_cons. by split.
Qed.

(** Every event keeps the identities of the windows apart; only the closing of a window that is not open fails. *)
Lemma ndn_handle_ok tables e v : viz_ok v ->
  match handle tables e v with
  | Ok v' => viz_ok v'
  | Raise ValueError => exists i, e = Close i /\ ~ is_open v i
  | OutOfFuel => False
  end.
Proof.
  intros [Hnd Hlt]. destruct e as [k node node_name|i|]; cbn [handle].
  - split; cbn [show information_windows next_id].
    + rewrite map_app. cbn [map]. rewrite window_id_kept. cbn [win_id]. apply NoDup_app. split_and!; [done| |apply NoDup_singleton].
      intros x (w & Hx & Hw)%list_elem_of_fmap Hs%list_elem_of_singleton. specialize (Hlt w Hw). lia.
    + intros w [Hw| ->%list_elem_of_singleton]%elem_of_app; [specialize (Hlt w Hw); lia|]. rewrite window_id_kept. cbn. lia.
  - unfold close. pose proof (remove_window_spec i (information_windows v) Hnd) as H.
    destruct (remove_window i (information_windows v)) as [l'|]; [|by exists i].
    destruct H as [_ ->]. split; cbn.
    + eapply sublist_NoDup; [exact Hnd|]. apply (fmap_sublist win_id), sublist_filter.
    + intros w [_ Hw]%list_elem_of_filter. by apply Hlt.
  - split; cbn; [by rewrite update_ids|]. intros w (w' & -> & Hw')%list_elem_of_fmap. rewrite window_id_kept. by apply Hlt.
Qed.

(** After an update of the view every open window shows the present table of its node, and no other window is open than
    before; a table that is not there leaves the old rows. *)
Lemma ndn_update_view_spec tables v w : w ∈ information_windows v ->
  update tables w ∈ information_windows (update_view tables v) /\
  (forall r, table_rows (win_kind w) (tables (node_index w)) = Some r -> rows (update tables w) = r) /\
  (table_rows (win_kind w) (tables (node_index w)) = None -> update tables w = w) /\
  forall i, is_open (update_view tables v) i <-> is_open v i.
Proof.
  intros Hw. unfold update, is_open, update_view. cbn [information_windows]. split_and!.
  - apply list_elem_of_fmap. by exists w.
  - by intros r ->.
  - by intros ->.
  - intros i. fold (update tables). rewrite update_ids. done.
Qed.
(** The table of the FIB has one row for each entry, with all its next hops. *)
Lemma fib_row f item entries : getFib f = Some entries -> item ∈ entries ->
  exists r, table_rows Fib f = Some r /\ length r = length entries /\
    [prefix item; str_join ", " (map hop_text (next_hops item))] ∈ r.
Proof.
  intros Hf Hin. eexists. cbn. rewrite Hf. split; [done|]. rewrite length_map. split; [done|].
  apply list_elem_of_fmap. by exists item.
Qed.
(** The window of the faces is called one of the FIB. *)
Example faces_title : title Faces 3 "router" = "Ndn FIB for node 3 (router)".
Proof. reflexivity. Qed.
