(* ===== verification/TestScripts.v ===== *)
(** * The test suites of the tools: [src/utils/tests/test-waf.py] and [test-test.py]

    The commands that the two scripts make, from their lists of options, and their [main], which hands the
    commands to [SmallTools.runtests]; [set_workdir] of [TestBase.py].  The path of the interpreter is
    an argument, as the shell is there. *)

From S2P Require Import Prelude PyLib SmallTools.
From Stdlib Require Import Ascii String QArith.
From stdpp Require Import strings.
Local Open Scope string_scope.
Local Open Scope nat_scope.
Local Open Scope list_scope.
Local Open Scope py_scope.

(** ** The options that are tried *)

Definition config_test_cases : list string :=
  ["--enable-gcov"; "--enable-sudo"; "--enable-sudo"; "--enable-tests"; "--disable-tests"; "--enable-examples";
   "--disable-examples"; "--doxygen-no-build"; "--enable-static"; "--enable-mpi"; "--enable-rpath";
   "--enable-modules=build/utils/test-runner.cc.1.o"; "--boost-static"; "--boost-mt";
   "--boost-linkage_autodetect"; "--boost-python=33"; "--disable-gtk"; "--int64x64=cairo"; "--disable-pthread";
   "--force-planetlab"; "--nopyc"; "--nopyo"; "--disable-python"; "--apiscan=all";
   "--with-python=/usr/bin/python2.7"; "-o test_out && rm -rf test_out"; "--out=test_out && rm -rf test_out";
   "-t test_top && rm -rf test_top"; "--top=test_top && rm -rf test_top"; "--download";
   "--check-c-compiler=gc"; "--check-cxx-compiler=g++"].
Definition basic_test_cases : list string :=
  ["--version"; "-h"; "--help"].
Definition build_test_cases : list string :=
  ["-j10"; "--jobs=10"; "-d optimized"; "-d debug"; "-d release"; "--build-profile optimized";
   "--build-profile debug"; "--build-profile release"; "-p"; "--progress"].
Definition step_test_cases : list string :=
  [("--files=" +:+ String quote ("*/main.c,*/test/main.o" +:+ String quote ("")))].
Definition install_test_cases : list string :=
  ["-f"; "--force"; "--prefix=./test-prefix && rm -rf ./test-prefix"; "--exec-prefix=.";
   "--bindir=./test-prefix/bin --sbindir=./test-prefix/sbin --libexecdir=./test-prefix/libexec --sysconfdir=./test-prefix/etc --sharedstatedir=./test-prefix/com --localstatedir=./test-prefix/var --libdir=./test-prefix/lib --includedir=./test-prefix/include --oldincludedir=./test-prefix/usr/include --datarootdir=./test-prefix/share --datadir=./test-prefix/share_root --infodir=./test-prefix/info --localedir=./test-prefix/locale --mandir=./test-prefix/man --docdir=./test-prefix/doc/package --htmldir=./test-prefix/doc --dvidir=./test-prefix/doc --pdfdir=./test-prefix/doc --psdir=./test-prefix/doc && rm -rf ./test-prefix"].
Definition common_test_cases : list string :=
  [""; "-k"; "--keep"; "-v"; "--verbose"; "--nocache"; "--zones=task_gen"; "--zones=deps"; "--zones=tasks";
   "--no-task-lines"].
(** The cases of test-test.py. *)
Definition test_cases : list string :=
  [""; "-h"; "--help"; "-b build/"; "--buildpath=build/"; "-c performance"; "--constrain=performance"; "-d";
   "--duration"; "-e socket-options-ipv6"; "--example=socket-options-ipv6"; "-u"; "--update-data";
   "-f EXTENSIVE --fullness=EXTENSIVE-g"; "--grind"; "-l"; "--list"; "-m"; "--multiple"; "-n"; "--nowaf";
   "-p first"; "--pyexample=first"; "-r"; "--retain"; "-s ns3-tcp-interoperability";
   "--suite=ns3-tcp-interoperability"; "-t t_opt.txt"; "--text=t_opt.txt && rm -rf t_opt.txt"; "-v";
   "--verbose"; "-w t_opt.html && rm -rf t_opt.html"; "--web=t_opt.html && rm -rf t_opt.html";
   "--html=t_opt.html && rm -rf t_opt.html"; "-x t_opt.xml && rm -rf t_opt.xml";
   "--xml=t_opt.xml && rm -rf t_opt.xml"].

(** ** The commands of test-waf.py *)

(** [replace(pre, post, main_cmd_list)]; [None] and the empty text are the same. *)
Definition replace (pre post : string) (main_cmd_list : list string) : list string :=
  let pre := if decide (pre = "") then "" else pre +:+ " && " in
  let post := if decide (post = "") then "" else " && " +:+ post in
  map (fun main_cmd => pre +:+ main_cmd +:+ post) main_cmd_list.
Definition test_case_mappings (cmd : string) : option (list string) :=
  if decide (cmd = "basic") then Some basic_test_cases
  else if decide (cmd = "configure") then Some config_test_cases
  else if decide (cmd = "build") then Some build_test_cases
  else if decide (cmd = "step") then Some step_test_cases
  else if decide (cmd = "install") then Some install_test_cases else None.

Section Waf.
Context (executable : string).
Definition waf_string : string := executable +:+ " waf".
Definition waf_cmd (cmd option : string) : string := waf_string +:+ " " +:+ cmd +:+ " " +:+ option.
(** The commands with the options, before they are put into their surroundings. *)
Definition plain_cmds (cmd : string) : list string :=
  (if decide (cmd = "basic") then [] else map (waf_cmd cmd) common_test_cases)
  ++ match test_case_mappings cmd with Some l => map (waf_cmd cmd) l | None => [] end
  ++ (if decide (cmd = "basic") then
        [waf_string +:+ " configure && " +:+ waf_string +:+ " build && " +:+ waf_string +:+ " --run scratch/myfirst";
         waf_string +:+ " configure && " +:+ waf_string +:+ " build && " +:+ waf_string +:+ " --pyrun scratch/myfirst.py"]
      else []).
Definition cmd_list (cmd : string) : list string :=
  let l := plain_cmds cmd in
  if decide (cmd = "build") then
    replace (waf_string +:+ " configure") (waf_string +:+ " clean") l
    ++ [waf_string +:+ " configure --enable-gcov && " +:+ waf_string +:+ " build --lcov-report && " +:+ waf_string +:+ " clean"]
  else if decide (cmd = "configure") then replace "" (waf_string +:+ " distclean") l
  else if decide (cmd = "distcheck") then replace (waf_string +:+ " dist") "rm -rf ns-3*.tar.bz2" l
  else if decide (cmd = "docs") then replace (waf_string +:+ " configure") (waf_string +:+ " distclean") l
  else if decide (cmd = "install") then replace (waf_string +:+ " configure") (waf_string +:+ " uninstall") l
  else if decide (cmd = "list") then replace (waf_string +:+ " configure") (waf_string +:+ " distclean") l
  else if decide (cmd = "shell") then replace (waf_string +:+ " configure") (waf_string +:+ " distclean") l
  else if decide (cmd = "step") then replace (waf_string +:+ " configure") (waf_string +:+ " distclean") l
  else if decide (cmd = "uninstall") then replace (waf_string +:+ " install") "" l
  else l.
(** [override_cmds]: the commands that the user asks for, with commas between them. *)
Definition tested_cmds (custcmd : option string) : list string :=
  match custcmd with
  | Some (String _ _ as s) => split_on "," s
  | _ => ["basic"; "build"; "configure"; "step"; "clean"; "dist"; "list"]
  end.
Definition cmd_execute_list (custcmd : option string) : list string := concat (map cmd_list (tested_cmds custcmd)).

(** ** test-test.py *)

Definition test_py_cmd (option : string) : string :=
  executable +:+ " waf configure --enable-tests --enable-examples && " +:+ executable +:+ " test.py " +:+ option
  +:+ " && " +:+ executable +:+ " waf clean".
Definition test_py_list : list string := map test_py_cmd test_cases.

(** ** The mains *)

Context (call : string -> Z) (show_2f : Q -> string).
(** [sys.exit(main(...))]: [None] is the status 0. *)
Definition waf_main (cmds_only : bool) (custcmd : option string) : Z :=
  default 0%Z (runtests call show_2f executable cmds_only (cmd_execute_list custcmd)).1.
Definition test_main (cmds_only : bool) : Z :=
  default 0%Z (runtests call show_2f executable cmds_only test_py_list).1.
End Waf.

(** [set_workdir]: where the tests run, or the end of the program. *)
Inductive workdir := Here | TwoUp | Invalid.
Definition set_workdir (dir_files : list string) (cwd : string) : workdir :=
  if decide (~ ("VERSION.info" ∈ dir_files) /\ ~ ("waf" ∈ dir_files)) then
    if decide (basename cwd = "tests" /\ basename (abspath cwd "..") = "utils") then TwoUp else Invalid
  else Here.

(** ** Properties *)

Section Facts.
Context (executable : string).
Definition runs_waf (c : string) : Prop := exists rest, c = waf_string executable +:+ rest.
Lemma replace_runs pre post l : (pre = "" \/ runs_waf pre) -> Forall runs_waf l -> Forall runs_waf (replace pre post l).
Proof.
  intros Hpre Hl. unfold replace. apply Forall_map. eapply Forall_impl; [exact Hl|]. intros c [rest ->]. cbn.
  destruct Hpre as [->|[r ->]].
  - rewrite decide_True by done. change ("" +:+ ?x) with x. rewrite str_append_assoc. by eexists.
  - case_decide; rewrite !str_append_assoc; by eexists.
Qed.
Lemma plain_runs cmd : Forall runs_waf (plain_cmds executable cmd).
Proof.
  unfold plain_cmds. rewrite !Forall_app. split_and!.
  - case_decide; [constructor|]. apply Forall_map, Forall_true. intros o. unfold waf_cmd. by eexists.
  - destruct (test_case_mappings cmd); [|constructor]. apply Forall_map, Forall_true. intros o. unfold waf_cmd. by eexists.
  - case_decide; [|constructor]. repeat constructor; by eexists.
Qed.
(** Whatever commands are tested, every line that is given to the shell begins by running waf. *)
Lemma cmd_list_runs cmd : Forall runs_waf (cmd_list executable cmd).
Proof.
  assert (H : forall pre post, (pre = "" \/ runs_waf pre) -> Forall runs_waf (replace pre post (plain_cmds executable cmd)))
    by (intros; apply replace_runs; [done|apply plain_runs]).
  unfold cmd_list. repeat (case_decide; [try (by apply H; (by left) || (right; by eexists))|]); [|apply plain_runs].
  apply Forall_app. split; [apply H; right; by eexists|]. repeat constructor. by eexists.
Qed.
Lemma cmd_execute_runs custcmd : Forall runs_waf (cmd_execute_list executable custcmd).
Proof.
  unfold cmd_execute_list. rewrite Forall_forall. intros c Hc. apply list_elem_of_In, in_concat in Hc as (l & Hl & Hin).
  apply in_map_iff in Hl as (cmd & <- & _). apply list_elem_of_In in Hin. pose proof (cmd_list_runs cmd) as H.
  rewrite Forall_forall in H. by apply H.
Qed.
(** Each configuration is undone when it succeeds. *)
Lemma configure_cleans : cmd_list executable "configure" =
  map (fun option => waf_cmd executable "configure" option +:+ " && " +:+ waf_string executable +:+ " distclean")
    (common_test_cases ++ config_test_cases).
Proof.
  change (cmd_list executable "configure") with (replace "" (waf_string executable +:+ " distclean")
    (map (waf_cmd executable "configure") common_test_cases ++ map (waf_cmd executable "configure") config_test_cases ++ [])).
  unfold replace. rewrite (decide_False (P := waf_string executable +:+ " distclean" = "")) by (by destruct executable).
  by rewrite app_nil_r, <- map_app, map_map.
Qed.
Example default_commands : length (cmd_execute_list executable None) = 109.
Proof. reflexivity. Qed.

Context (call : string -> Z) (show_2f : Q -> string).
Lemma runtests_status cmds : (runtests call show_2f executable false cmds).1 = Some (if forallb (succeeds call) cmds then 0%Z else 1%Z).
Proof.
  unfold runtests. cbn [fst]. f_equal.
  destruct (run_cases call show_2f executable (length cmds) cmds (mkProgress 0 0 0%Z [] [] [])) as (_ & _ & _ & ->). done.
Qed.
(** The status of a suite is 0 exactly when all its commands succeed, or when they are only listed. *)
Lemma waf_main_spec custcmd : waf_main executable call show_2f true custcmd = 0%Z /\
  (waf_main executable call show_2f false custcmd = 0%Z <-> forall c, c ∈ cmd_execute_list executable custcmd -> call c = 0%Z).
Proof.
  split; [done|]. unfold waf_main. pose proof (runtests_status (cmd_execute_list executable custcmd)) as H.
  rewrite H. cbn [default]. clear H. induction (cmd_execute_list executable custcmd) as [|c l IH].
  - split; [|done]. intros _ c Hc. by apply elem_of_nil in Hc.
  - cbn [forallb]. unfold succeeds at 1. destruct (decide (call c = 0%Z)) as [E|E].
    + rewrite bool_decide_eq_true_2 by done. cbn [andb]. rewrite IH. setoid_rewrite elem_of_cons. naive_solver.
    + rewrite bool_decide_eq_false_2 by done. cbn [andb]. split; [done|]. intros H. destruct E. apply H. by left.
Qed.
End Facts.
(** A comma is missing in test-test.py: [-g] is never tried alone. *)
Example grind_not_tried : ~ ("-g" ∈ test_cases) /\ "-f EXTENSIVE --fullness=EXTENSIVE-g" ∈ test_cases.
Proof. split; decided. Qed.
